(* ===== verification/_CoqProject ===== *)
-Q . S2P
Prelude.v
Machine.v
Effects.v
Triples.v
Banco.v
Sapi.v
Serie.v
SapiResto.v
Vista.v
Display.v
Plazos.v
Cerrojo.v
Teclado.v
Usuarios.v
Json.v
Servidor.v
Dobles.v
EspAT.v
As608.v
Rc522.v
Sincronizacion.v
Mef.v
Cerradura.v
Refinamiento.v
Seguridad.v
Duracion.v
Matriz.v
Terminacion.v
Sueno.v
Tarjeta.v
Registro.v
Huella.v
Autorizacion.v
Circular.v
Convertir.v
Planificador.v
PlcIL.v
Boton.v
I2cSoft.v
Lcd.v
Eeprom.v
Servo.v
Pwm.v
