(* ===== verification/Prelude.v ===== *)
(** * The electronic door lock of src/proyecto/CerraduraElectronica

    A development about the firmware of a door lock on the EDU-CIAA board (an
    LPC4337): a keypad, an RFID reader, a fingerprint sensor, a text display, a
    buzzer, a stepper motor that drives the bolt, a door sensor, and an ESP modem
    to the server that keeps the users. The C program is one main loop that calls
    [mefUpdate] for ever, over static variables; this library gives each C function
    a definition with its name, and proves what the whole promises. The server
    (src/Server) and some modules of the firmware distribution that stand alone (ring
    buffer, conversions, button, parser, scheduler, PLC instructions) have their models too.

    ** The program and the files that model it

    Names are under src/proyecto/CerraduraElectronica/src unless said otherwise;
    sapi is src/libs/sapi/sapi_v0.6.2.

    - [Prelude]: integers of the C widths (module [Int]), C strings and the str.h
      functions on them, decimal printing, and the outcomes [res] of functions that need
      no machine.
    - [Machine]: the outside world as the class [Env] (what a register read returns,
      how a write changes the devices), the static variables of all files as the
      record [world], and the monad [M] of the C functions: [Ret], [Undef] (an access
      outside an object) and [Diverge] (a loop out of its fuel, or a sleep that no
      interrupt ends). Each register access goes through [inp] and [emit]; [emit] also
      keeps the trace of writes.
    - [Effects], [Triples], [Plazos]: the three ways of reasoning. [Eff F K m] bounds
      the static variables and the kinds of writes of [m]; [tri p c m Q] is a
      partial-correctness triple on a projection [p] of the world; [Dur s b m] says
      that on a live board ([Vivo]) [m] returns and lasts at most [b] ms. All are closed
      under the combinators, so that a function's fact follows from its callees'.
    - [Banco]: two concrete boards, for evaluating the firmware in the witnesses.
    - [Sapi]: sapi_tick.c, sapi_delay.c, sapi_gpio.c, sapi_uart.c, sapi_i2c.c,
      sapi_spi.c, sapi_keypad.c, sapi_board.c, as far as the lock calls them; [SapiResto]:
      the other functions of those files, and PLC_Hardware.c. [Serie]: what is sent and
      what is taken on a serial line. [Matriz]: the keypad as a matrix of keys. [Vista]:
      what a device on the pins sees of the writes.
    - [Display]: display.c and inc/font6x8.inc. [Cerrojo]: stepperMotor.c, alertas.c,
      mef_config.c. [Teclado]: teclado.c. [Usuarios]: the table of validacion.c and its
      lookups and updates. [Json]: the parser of espAT.c. [Dobles]: the double
      arithmetic the server's version number needs. [EspAT]: the rest of espAT.c.
      [As608]: as608.c. [Rc522]: rc522_drv.c. [Sincronizacion]:
      sincronizarConServidor of validacion.c. [Servidor]: src/Server/server.py, the table,
      the routes and the JSON list of users. [Mef]: MEF.c (one definition per state
      and per option of the menu) and the main function of CerraduraElectronica.c.
    - [Cerradura]: the abstract lock, a relation [paso] between states that hold the
      main variables, the user table, the fingerprint scan and the motor's driver.
    - [Refinamiento]: [mefUpdate] implements [paso], state by state. [Seguridad]: what
      follows for the whole firmware. [Duracion], [Terminacion]: how long the drivers
      and the states take. [Sueno]: the sleep and the presence interrupt. [Tarjeta]: the
      reader chip with a card in its field. [Registro]: the registration of a card, with
      somebody at the keypad. [Huella]: the fingerprint sensor with a finger, and the
      registration of a fingerprint. [Autorizacion]: the history of the keypad, and who
      may change the table.
    - Apart from the lock: [Circular] (sapi_circularBuffer.c), [Convertir]
      (sapi_convert.c), [Boton] (sapi_button.c, sapi_parser.c), [I2cSoft]
      (sapi_software_i2c.c), [Lcd] (display_lcd_hd44780_gpios.c), [Eeprom]
      (sapi_eeprom24xx1025.c), [Servo] (sapi_timer.c and sapi_servo.c, over a timer of the
      chip tick by tick), [Pwm] (sapi_pwm.c and sapi_sct.c), [Planificador] (the scheduler
      of src/libs/seos_pont and the hook of sapi_tick.c) and [PlcIL] (PLC_IL_Instructions.c,
      PLC_Registers.c and PLC_Lib.c of src/libs/plc).

    A buffer of C that is filled and then used as a string is the list of its
    characters; [pinIngresado[6]], [tag[20]] and the other arrays are bounded by
    invariants ([tec_ok], [usuario_ok]) or by the [Undef] of the copy into them. An
    interrupt is modelled where the program can see it: the SysTick interrupts served
    since the last look at the counter ([tickRead]), and the presence interrupt at the
    points of entrarModoSleep where it is enabled ([irq_point], [WFI]).

    ** What the theorems show

    - The lock as a whole ([Refinamiento], [Seguridad]): every call of [mefUpdate] is a
      step of the abstract lock; the bolt opens exactly on a valid credential (for a card:
      an active user with a tag and that card); between
      calls the motor is off, and the bolt is out exactly in [SENSOR_CIERRE]; the arrows
      of the state machine; the count of failures. [Autorizacion]: which PIN was typed,
      reading by reading of the keypad, before the menu opens or the user table changes.
    - Deadlines ([Terminacion]): decisions always return, the idle loop does not hang,
      a valid PIN opens and the shut door closes, every exchange with
      the sensor and the modem is bounded. Each bound is a sum of time limits of the code and
      of so many times [v_salto], the part that depends on the board. [Sueno]: who comes after the WFI wakes the
      lock, within the 150 s of its waits and some hundreds of stretches between two
      looks at the clock, and who comes just before it does not. [Tarjeta]: a card is read
      and opens if it is registered. [Registro]: a card held to the reader by somebody who
      types a PIN in time is registered. [Huella]: so is a finger laid on the sensor.
      [Terminacion] also has the defects that
      the analysis met: the greeting that overruns its buffer, the time stamps that
      fail after 24.8 and after 49.7 days.
    - Components: PIN entry from key samples ([Teclado], and call by call on the matrix in
      [Autorizacion]); the motor's pulses
      ([Cerrojo]); lookups, registration, deletion and synchronisation of users
      ([Usuarios]); bounds of the JSON parser ([Json]); packets, commands and the scan
      protocol of the fingerprint sensor ([As608]); the UID string ([Rc522]); the bytes of
      an AT command and of its answer ([EspAT]); the picture of a line of text
      ([Display]); a held key found in the matrix ([Matriz]); the exact time of [delay]
      ([Plazos]).
    - The server ([Servidor]): the list it prints is the table the lock stores, and what
      its requests keep true.
    - The modules apart: the ring buffer is a bounded queue ([Circular]); numbers print and
      read back ([Convertir]); presses and releases of a button alternate ([Boton]); a
      device decodes from the pins the bytes written to the software I2C ([I2cSoft]); a text
      written to the character display stands on its panel ([Lcd]); the serial memory gives
      back what was written, save for its upper pages ([Eeprom]); the pulse of a servo has
      the width of its angle, whatever is done with the others ([Servo]); the PWM
      outputs are a map from outputs to values ([Pwm]); no
      activation of a task is lost, wherever the ticks fall ([Planificador]); programs of
      the PLC that type-check stay typed, and the day of the week ([PlcIL]).

    ** Bounds and fuel

    A C loop that is not over a list known beforehand runs with [env_fuel]
    iterations. The safety theorems hold for every fuel (they speak of the
    calls that return); the theorems of [Terminacion] need the fuel of [v_fuel]: a
    loop that watches the clock for at most 100 s (the longest limit of the program
    is 60 s) makes at most 100000 * (v_max + 1) + v_max + 3 iterations when at most
    [v_max] looks pass between two ticks. The bounds on time are in ticks of 1 ms;
    [v_salto] is the most ticks that pass between two looks at the clock, the time
    of computation, of I2C transfers and of the motor's pulses included. [Registro] and
    [Huella] ask that it be small against the 15 s of a key and the 30 s of a capture, and
    [Huella] that the sensor answer a command well within the 200 ms it is given. The waits
    that no bound covers are those for a person (the menu and the PINs asked in it, the
    registration states when nobody answers, a cancelled entry that asks for the master's PIN), for the
    presence interrupt in [REPOSO], and for the modem at power-up ([mefInit]).
    The functions in [res] have no fuel of their own except [int64ToString], whose 64
    divisions are enough for 64 bits in base 2, and the search for a free task, whose
    eleven looks are one more than the table has entries.

    ** Not modelled

    Diagnostics printed with printf and the debug dumps; the registers behind LPCOpen
    calls (they are the events of [Env], but for those of the timers and the SCT); the
    duration of an instruction; preemption other than that of the interrupt points; the web panel of the server and its set-up of
    Flask and SQLite; of sapi_convert.c and of the text display the printing of floats; the
    test programs of the serial memory; the other modules of sapi
    and of the firmware distribution, which the lock does not call, and the third-party
    libraries in it (FreeRTOS, lwIP, FatFs, the USB stack, CMSIS-DSP). *)

From Stdlib Require Import ZArith Lia Bool Ascii String.
From stdpp Require Import base list strings numbers sets.
From stdpp Require Import options.

#[global] Set Default Proof Using "Type".
#[global] Set Default Goal Selector "1".

Open Scope Z_scope.

(** ** Machine integers

    A C integer is a [Z]; the conversion to a width is written out where the
    code performs it.  [uN] reduces modulo [2^N]; [sN] is the two's-complement
    reading of the same bits.  On the Cortex-M4 target [int] and [long int]
    have 32 bits, [short int] 16, plain [char] is unsigned. *)
Module Int.
Definition u8 (z : Z) : Z := z mod 2 ^ 8.
Definition u16 (z : Z) : Z := z mod 2 ^ 16.
Definition u32 (z : Z) : Z := z mod 2 ^ 32.
Definition u64 (z : Z) : Z := z mod 2 ^ 64.
Definition s16 (z : Z) : Z := (z + 2 ^ 15) mod 2 ^ 16 - 2 ^ 15.
Definition s32 (z : Z) : Z := (z + 2 ^ 31) mod 2 ^ 32 - 2 ^ 31.

Lemma u8_bound z : 0 <= u8 z < 256.
Proof. apply (Z.mod_pos_bound z 256). lia. Qed.
Lemma u16_bound z : 0 <= u16 z < 65536.
Proof. apply (Z.mod_pos_bound z 65536). lia. Qed.
Lemma u32_bound z : 0 <= u32 z < 2 ^ 32.
Proof. apply Z.mod_pos_bound. lia. Qed.
Lemma u64_bound z : 0 <= u64 z < 2 ^ 64.
Proof. apply Z.mod_pos_bound. lia. Qed.
Lemma u8_small z : 0 <= z < 256 -> u8 z = z.
Proof. apply (Z.mod_small z 256). Qed.
Lemma u16_small z : 0 <= z < 65536 -> u16 z = z.
Proof. apply (Z.mod_small z 65536). Qed.
Lemma u32_small z : 0 <= z < 2 ^ 32 -> u32 z = z.
Proof. apply Z.mod_small. Qed.
Lemma u64_small z : 0 <= z < 2 ^ 64 -> u64 z = z.
Proof. apply Z.mod_small. Qed.
(** the test of one bit through a mask *)
Lemma bit_mascara b i : 0 <= i -> negb (Z.land b (2 ^ i) =? 0) = Z.testbit b i.
Proof.
  intros Hi. apply eq_true_iff_eq. rewrite negb_true_iff, Z.eqb_neq. split.
  - intros H. destruct (Z.testbit b i) eqn:B; [done|]. destruct H. apply Z.bits_inj'. intros j Hj.
    rewrite Z.land_spec, Z.bits_0, Z.pow2_bits_eqb by lia.
    destruct (Z.eqb_spec i j); [by subst j; rewrite B|by rewrite andb_false_r].
  - intros B H. assert (T : Z.testbit (Z.land b (2 ^ i)) i = true).
    { by rewrite Z.land_spec, B, Z.pow2_bits_true by lia. }
    by rewrite H, Z.bits_0 in T.
Qed.

Lemma s32_small z : - 2 ^ 31 <= z < 2 ^ 31 -> s32 z = z.
Proof. intros H. unfold s32. rewrite Z.mod_small; lia. Qed.
Lemma s32_wrap z : 2 ^ 31 <= z < 2 ^ 32 -> s32 z = z - 2 ^ 32.
Proof.
  intros H. unfold s32.
  replace (z + 2 ^ 31) with (z - 2 ^ 31 + 1 * 2 ^ 32) by lia.
  rewrite Z.mod_add, Z.mod_small; lia.
Qed.
Lemma s16_small z : - 2 ^ 15 <= z < 2 ^ 15 -> s16 z = z.
Proof. intros H. unfold s16. rewrite Z.mod_small; lia. Qed.
End Int.
Export Int.

(** ** C strings

    The content of a [char] array before its first NUL, as a list of
    characters.  [lit] embeds a string literal. *)
Definition cstring : Type := list ascii.
Definition lit (s : string) : list ascii := list_ascii_of_string s.
Definition chr (z : Z) : ascii := ascii_of_N (Z.to_N z).
Definition ord (c : ascii) : Z := Z.of_N (N_of_ascii c).
#[global] Arguments chr : simpl never.
#[global] Arguments ord : simpl never.

Declare Scope c_scope.
Delimit Scope c_scope with c.
Notation "$ s" := (lit s%string) (at level 1, s at level 0, format "$ s") : c_scope.
Open Scope c_scope.

Definition DQ : list ascii := [chr 34].          (* the double quote *)
Definition CRLF : list ascii := [chr 13; chr 10].

#[global] Instance ascii_eq_decision : EqDecision ascii := ascii_dec.

(** [str.h] on C strings.  [cstr] is what a raw buffer holds as a C string;
    [strchr] and [strstr] give the offset of the first occurrence. *)
Fixpoint cstr (raw : list ascii) : list ascii :=
  match raw with
  | [] => []
  | c :: r => if decide (c = chr 0) then [] else c :: cstr r
  end.

Definition strlen (s : list ascii) : Z := Z.of_nat (length s).
Definition strcmp_eq (a b : list ascii) : bool := bool_decide (a = b).

Fixpoint prefixb (p s : list ascii) : bool :=
  match p, s with
  | [], _ => true
  | _ :: _, [] => false
  | a :: p', b :: s' => bool_decide (a = b) && prefixb p' s'
  end.

Fixpoint strchr (c : ascii) (s : list ascii) : option nat :=
  match s with
  | [] => None
  | d :: s' => if decide (d = c) then Some 0%nat else S <$> strchr c s'
  end.

Fixpoint strstr (p s : list ascii) : option nat :=
  if prefixb p s then Some 0%nat else
  match s with
  | [] => None
  | _ :: s' => S <$> strstr p s'
  end.

Definition has (p s : list ascii) : bool := bool_decide (is_Some (strstr p s)).
Definition strncpy (n : nat) (s : list ascii) : list ascii := take n s.

(** Decimal conversions of [printf] and [atoi]. *)
Definition digit (d : Z) : ascii := chr (48 + d).

Fixpoint dec_go (fuel : nat) (n : Z) : list ascii :=
  match fuel with
  | O => []
  | S f => if n <? 10 then [digit n] else dec_go f (n / 10) ++ [digit (n mod 10)]
  end.
(** [%u]; 20 digits hold every 64-bit value. *)
Definition fmt_u (n : Z) : list ascii := dec_go 20 n.
(** [%d] *)
Definition fmt_d (n : Z) : list ascii :=
  if n <? 0 then chr 45 :: fmt_u (- n) else fmt_u n.
(** [%0wd] / [%0wu] of a non-negative value. *)
Definition fmt_0 (w : nat) (n : Z) : list ascii :=
  let d := fmt_u n in replicate (w - length d) (chr 48) ++ d.

Definition is_digit (c : ascii) : bool := (48 <=? ord c) && (ord c <=? 57).
Definition is_space (c : ascii) : bool :=
  (ord c =? 32) || ((9 <=? ord c) && (ord c <=? 13)).

Fixpoint skip_spaces (s : list ascii) : list ascii :=
  match s with
  | c :: s' => if is_space c then skip_spaces s' else s
  | [] => []
  end.
Fixpoint read_digits (acc : Z) (s : list ascii) : Z :=
  match s with
  | c :: s' => if is_digit c then read_digits (acc * 10 + (ord c - 48)) s' else acc
  | [] => acc
  end.
Definition atoi (s : list ascii) : Z :=
  match skip_spaces s with
  | c :: s' => if ord c =? 45 then - read_digits 0 s'
               else if ord c =? 43 then read_digits 0 s'
               else read_digits 0 (c :: s')
  | [] => 0
  end.

(** ** Facts on characters and strings *)
Lemma ord_bound c : 0 <= ord c < 256.
Proof. unfold ord. pose proof (N_ascii_bounded c). lia. Qed.

Lemma chr_ord c : chr (ord c) = c.
Proof. unfold chr, ord. rewrite N2Z.id. apply ascii_N_embedding. Qed.

Lemma ord_chr z : 0 <= z < 256 -> ord (chr z) = z.
Proof.
  intros H. unfold chr, ord. rewrite N_ascii_embedding; lia.
Qed.

Lemma cstr_app_nul s r : Forall (fun c => c <> chr 0) s -> cstr (s ++ chr 0 :: r) = s.
Proof.
  induction 1 as [|c s Hc _ IH]; simpl.
  - done.
  - by rewrite decide_False, IH.
Qed.

Lemma cstr_id s : Forall (fun c => c <> chr 0) s -> cstr s = s.
Proof.
  induction 1 as [|c s Hc _ IH]; simpl; [done|]. by rewrite decide_False, IH.
Qed.

Lemma cstr_nonul s : Forall (fun c => c <> chr 0) (cstr s).
Proof.
  induction s as [|c s IH]; simpl; [constructor|]. case_decide; constructor; auto.
Qed.

Lemma prefixb_spec p s : prefixb p s = true <-> exists r, s = p ++ r.
Proof.
  revert s. induction p as [|a p IH]; intros s; simpl.
  - split; eauto.
  - destruct s as [|b s]; [split; [done|intros [r Hr]; discriminate]|].
    rewrite andb_true_iff, bool_decide_eq_true, IH. split.
    + intros [-> [r ->]]. eauto.
    + intros [r Hr]. injection Hr as -> ->. eauto.
Qed.

Lemma prefixb_app p r : prefixb p (p ++ r) = true.
Proof. apply prefixb_spec. eauto. Qed.

(** [strchr] finds the first occurrence. *)
Lemma strchr_app c s r :
  Forall (fun d => d <> c) s -> strchr c (s ++ c :: r) = Some (length s).
Proof.
  induction 1 as [|d s Hd _ IH]; simpl.
  - by rewrite decide_True.
  - by rewrite decide_False, IH.
Qed.

Lemma strchr_None c s : strchr c s = None <-> Forall (fun d => d <> c) s.
Proof.
  induction s as [|d s IH]; simpl; [split; [constructor|done]|].
  case_decide as Hd.
  - split; [done|]. inversion 1. done.
  - rewrite fmap_None, IH. split; [by constructor|by inversion 1].
Qed.

(** A match of [strstr] is an occurrence, and no earlier one exists. *)
Lemma strstr_Some p s n :
  strstr p s = Some n ->
  exists r, s = take n s ++ p ++ r /\ (n <= length s)%nat.
Proof.
  revert n. induction s as [|c s IH]; intros n.
  - simpl. destruct (prefixb p []) eqn:Hp; [|done]. intros [= <-].
    apply prefixb_spec in Hp as [r Hr]. exists r. simpl. auto.
  - simpl. destruct (prefixb p (c :: s)) eqn:Hp.
    + intros [= <-]. apply prefixb_spec in Hp as [r Hr]. exists r. simpl. split; [done|lia].
    + intros (m & Hm & ->)%fmap_Some. destruct (IH m Hm) as (r & Hr & Hle).
      exists r. simpl. split; [by f_equal|lia].
Qed.

Lemma has_spec p s : has p s = true <-> exists l r, s = l ++ p ++ r.
Proof.
  unfold has. rewrite bool_decide_eq_true. split.
  - intros [n Hn]. destruct (strstr_Some _ _ _ Hn) as (r & Hr & _). eauto.
  - intros (l & r & ->). induction l as [|c l [m IH]]; simpl.
    + destruct (p ++ r) eqn:E; simpl; rewrite <- E, prefixb_app; eauto.
    + destruct (prefixb p (c :: l ++ p ++ r)); [eauto|]. rewrite IH. simpl. eauto.
Qed.

(** ** Outcomes of C functions without a machine

    [Bien a]: the function returns [a]; [Indef]: it does what C leaves undefined (an access
    outside an array, a call through an unset pointer, a division by zero); [Nunca]: it
    does not return. *)
Inductive res (A : Type) : Type :=
  | Bien (a : A)
  | Indef
  | Nunca.
Arguments Bien {A} a.
Arguments Indef {A}.
Arguments Nunca {A}.

#[export] Instance res_ret : MRet res := fun A a => Bien a.
#[export] Instance res_bind : MBind res := fun A B f m =>
  match m with Bien a => f a | Indef => Indef | Nunca => Nunca end.

Definition acceso {A} (o : option A) : res A := match o with Some a => Bien a | None => Indef end.

Lemma res_bind_Bien {A B} (m : res A) (f : A -> res B) b :
  (m ≫= f) = Bien b <-> exists a, m = Bien a /\ f a = Bien b.
Proof. destruct m; simpl; split; [eauto|by intros (? & [= <-] & ?)|done|by intros (? & ? & _)|done|by intros (? & ? & _)]. Qed.
