(* ===== verification/Machine.v ===== *)
(** * The machine under the firmware

    The outside world as a class [Env] (what the chip's registers return and
    how the peripherals react to writes), the static variables of every C file
    as one [world] record, and the monad the firmware functions live in:
    state passing, [Undef] for what C leaves undefined (an access outside an
    object), [Diverge] for a wait that does not end within the fuel. *)

From Stdlib Require Import ZArith Lia Bool Ascii String.
From Stdlib Require Import SpecFloat.
From stdpp Require Import base list strings numbers sets.
From stdpp Require Import options.
From S2P Require Import Prelude.

(** ** Hardware interface *)

(** What the firmware reads from the chip: the number of SysTick interrupts
    served since the last look at the counter, a UART line-status or
    receive-buffer register, a GPIO level, an SSP frame, the outcome of an I2C
    transfer, and whether an interrupt ends a WFI. *)
Inductive input : Type :=
  | InTick
  | InLsr (uart : Z)
  | InRbr (uart : Z)
  | InPin (port pin : Z)
  | InSsp
  | InI2c
  | InWake.

(** What the firmware writes to the chip. [EvConfig] is a peripheral set-up
    call of LPCOpen, by its name and integer arguments. *)
Inductive event : Type :=
  | EvPinState (port pin : Z) (level : bool)
  | EvUartTx (uart byte : Z)
  | EvI2c (addr : Z) (data : list Z)
  | EvSpiTx (data : list Z)
  | EvConfig (call : string) (args : list Z)
  | EvNvic (enabled : bool)
  | EvSysTick (on : bool)
  | EvWfi.

Class Env : Type := {
  dev : Type;                                (* state of the outside world *)
  dev_in : input -> dev -> Z * dev;          (* a register read *)
  dev_out : event -> dev -> dev;             (* a register write *)
  env_fuel : nat                             (* iterations granted to a loop *)
}.

(** ** Static variables, file by file *)

(** [display.c]: the 1024-byte frame buffer and the text cursor. *)
Record display_st : Type := mkDisplay {
  buffer : list Z;
  cursorX : Z;
  cursorY : Z
}.

(** [sapi_keypad.h]: a keypad, its row and column pins. *)
Record keypad_t : Type := mkKeypad {
  keypadRowPins : list Z;
  keypadRowSize : Z;
  keypadColPins : list Z;
  keypadColSize : Z
}.

(** [teclado.c]: the digits typed so far ([pinIngresado], as the C string it
    holds), their number, and the edge detector. *)
Record teclado_st : Type := mkTeclado {
  t_pin : list ascii;
  t_pos : Z;
  t_keyHeld : bool;
  t_lastIndex : Z
}.

(** [espAT.h]: a user record. *)
Record PinUsuario_t : Type := mkUsuario {
  codigo : list ascii;
  activo : bool;
  u_rfid : list ascii;
  huella : list ascii;
  tag : list ascii
}.

(** [as608.c]: the scan state machine. *)
Inductive as608ScanState_t : Type :=
  | ST_IDLE
  | ST_SEND_GETIMAGE
  | ST_WAIT_GETIMAGE
  | ST_PREDLY_IMAGE2TZ
  | ST_SEND_IMAGE2TZ
  | ST_WAIT_IMAGE2TZ
  | ST_SEND_SEARCH
  | ST_WAIT_SEARCH
  | ST_DONE_NOFINGER
  | ST_DONE_MATCH
  | ST_DONE_NOMATCH
  | ST_DONE_ERROR.

Record scan_st : Type := mkScan {
  st : as608ScanState_t;
  tCmdStart : Z;
  tLastByte : Z;
  resp : list Z;
  respLen : Z;
  lastId : Z;
  lastScore : Z
}.

(** [MEF.h]: the states of the main state machine. *)
Inductive EstadoMEF_t : Type :=
  | REPOSO
  | ESPERANDO_ACCION
  | LEER_Y_VALIDAR_HUELLA
  | VALIDAR_RFID
  | VALIDAR
  | SENSOR_CIERRE
  | BLOQUEADO
  | MENU_ADMIN
  | REGISTRAR_RFID
  | REGISTRAR_HUELLA.

#[global] Instance scan_state_eq_dec : EqDecision as608ScanState_t.
Proof. solve_decision. Defined.
#[global] Instance estado_eq_dec : EqDecision EstadoMEF_t.
Proof. solve_decision. Defined.
#[global] Instance usuario_eq_dec : EqDecision PinUsuario_t.
Proof. solve_decision. Defined.

(** [MEF.c]. *)
Record mef_st : Type := mkMef {
  estadoActual : EstadoMEF_t;
  pinIngresado : list ascii;
  intentosFallidos : Z;
  ultimaPresencia : Z;
  ultimaVersionConocida : spec_float;
  rfid : list ascii;
  agendaHuella : Z;
  escaneoActivo : bool;
  eventoPresencia : bool
}.

(** The chip as the firmware sees it: the device, the tick counter
    ([tickCounter] of [sapi_tick.c]), whether SysTick interrupts are on, and
    the writes issued so far, the latest first. *)
Record hw_st {E : Env} : Type := mkHw {
  device : dev;
  tickCounter : Z;
  systick : bool;
  trace : list event
}.

Record world {E : Env} : Type := mkWorld {
  hw : hw_st;
  disp : display_st;
  tec : teclado_st;
  listaPins : list PinUsuario_t;
  conectado : bool;
  g_scan : scan_st;
  mef : mef_st
}.

#[global] Arguments mkHw {E} _ _ _ _.
#[global] Arguments mkWorld {E} _ _ _ _ _ _ _.

(** ** The monad *)

Inductive outcome {E : Env} (A : Type) : Type :=
  | Ret (a : A) (w : world)
  | Undef
  | Diverge.
Arguments Ret {E A} a w.
Arguments Undef {E A}.
Arguments Diverge {E A}.

Definition M {E : Env} (A : Type) : Type := world -> outcome A.

#[global] Instance M_ret {E : Env} : MRet M := fun A a w => Ret a w.
#[global] Instance M_bind {E : Env} : MBind M := fun A B f m w =>
  match m w with
  | Ret a w' => f a w'
  | Undef => Undef
  | Diverge => Diverge
  end.

Section Primitives.
Context {E : Env}.

Definition undef {A} : M A := fun _ => Undef.
Definition diverge {A} : M A := fun _ => Diverge.
Definition gets {A} (f : world -> A) : M A := fun w => Ret (f w) w.
Definition modify (f : world -> world) : M unit := fun w => Ret tt (f w).
Definition when (b : bool) (m : M unit) : M unit := if b then m else mret tt.
(** an array access: outside the array is undefined *)
Definition access {A} (o : option A) : M A :=
  match o with Some a => mret a | None => undef end.

Definition set_hw (h : hw_st) (w : world) : world :=
  mkWorld h (disp w) (tec w) (listaPins w) (conectado w) (g_scan w) (mef w).
Definition set_disp (d : display_st) (w : world) : world :=
  mkWorld (hw w) d (tec w) (listaPins w) (conectado w) (g_scan w) (mef w).
Definition set_tec (t : teclado_st) (w : world) : world :=
  mkWorld (hw w) (disp w) t (listaPins w) (conectado w) (g_scan w) (mef w).
Definition set_db (l : list PinUsuario_t) (w : world) : world :=
  mkWorld (hw w) (disp w) (tec w) l (conectado w) (g_scan w) (mef w).
Definition set_conectado (b : bool) (w : world) : world :=
  mkWorld (hw w) (disp w) (tec w) (listaPins w) b (g_scan w) (mef w).
Definition set_scan (s : scan_st) (w : world) : world :=
  mkWorld (hw w) (disp w) (tec w) (listaPins w) (conectado w) s (mef w).
Definition set_mef (m : mef_st) (w : world) : world :=
  mkWorld (hw w) (disp w) (tec w) (listaPins w) (conectado w) (g_scan w) m.

(** a register write *)
Definition emit (e : event) : M unit := modify (fun w =>
  set_hw (mkHw (dev_out e (device (hw w))) (tickCounter (hw w)) (systick (hw w))
               (e :: trace (hw w))) w).
(** a register read *)
Definition inp (i : input) : M Z := fun w =>
  let '(v, d) := dev_in i (device (hw w)) in
  Ret v (set_hw (mkHw d (tickCounter (hw w)) (systick (hw w)) (trace (hw w))) w).
Definition set_tick (t : Z) : M unit := modify (fun w =>
  set_hw (mkHw (device (hw w)) t (systick (hw w)) (trace (hw w))) w).
Definition set_systick (b : bool) : M unit := modify (fun w =>
  set_hw (mkHw (device (hw w)) (tickCounter (hw w)) b (trace (hw w))) w).

(** A C loop: [body s] is one iteration, [inl] continues with the new
    values of the locals, [inr] leaves the loop. *)
Fixpoint loop_n {S R} (n : nat) (body : S -> M (S + R)) (s : S) : M R :=
  match n with
  | O => diverge
  | Datatypes.S n =>
      r ← body s;
      match r with
      | inl s' => loop_n n body s'
      | inr x => mret x
      end
  end.
Definition loop {S R} (body : S -> M (S + R)) (s : S) : M R :=
  loop_n env_fuel body s.

(** [for] over a list of values known beforehand. *)
Fixpoint for_each {A} (l : list A) (f : A -> M unit) : M unit :=
  match l with
  | [] => mret tt
  | a :: l' => f a ;; for_each l' f
  end.
(** [for] over such a list that returns from inside the body. *)
Fixpoint first_some {A B} (l : list A) (f : A -> M (option B)) : M (option B) :=
  match l with
  | [] => mret None
  | a :: l' =>
      r ← f a;
      match r with Some b => mret (Some b) | None => first_some l' f end
  end.
End Primitives.

#[global] Arguments loop : simpl never.

(** the run returns, with a result and a final state satisfying [P] *)
Definition returns {E : Env} {A} (o : outcome A) (P : A -> world -> Prop) : Prop :=
  match o with Ret a w => P a w | _ => False end.

Definition es_ret {E : Env} {A} (o : outcome A) : bool :=
  match o with Ret _ _ => true | _ => false end.
Lemma returns_intro {E : Env} {A} (o : outcome A) (P : A -> world -> Prop) :
  es_ret o = true -> (forall a w, o = Ret a w -> P a w) -> returns o P.
Proof. destruct o as [a w| |]; [|done..]. intros _ H. by apply H. Qed.

(** for a run that evaluates to [Ret]: names its equation, result and final state *)
Ltac run_as a w H := apply returns_intro; [vm_compute; reflexivity|intros a w H].

(* opaque to instance search *)
#[export] Hint Opaque undef diverge gets modify when access emit inp set_tick set_systick loop_n
  loop for_each first_some : typeclass_instances.
