(* ===== verification/Effects.v ===== *)
(** * Footprints of firmware functions

    [Eff F K m]: a terminating run of [m] writes only the static variables of
    the files listed in [F] and issues only hardware writes of the kinds in
    [K], and the outside world is moved by such writes and by reads alone. It is
    a class, closed under the monad's combinators by instances, so that the
    instances of a component follow from its callees'. The file also has the
    equations and the invariant rule of the monad and its loops. *)

From Stdlib Require Import ZArith Lia Bool Ascii String.
From stdpp Require Import base list strings numbers sets relations.
From stdpp Require Import options.
From S2P Require Import Prelude Machine.

(** ** Running a bind *)
Section Run.
Context {E : Env}.

Lemma bind_Ret {A B} (m : M A) (f : A -> M B) w b w'' :
  (m ≫= f) w = Ret b w'' <-> exists a w', m w = Ret a w' /\ f a w' = Ret b w''.
Proof.
  unfold mbind, M_bind. destruct (m w) as [a w'| |]; split.
  - eauto.
  - intros (a' & w1 & [= <- <-] & H). done.
  - done.
  - intros (? & ? & ? & ?). done.
  - done.
  - intros (? & ? & ? & ?). done.
Qed.

Lemma bind_step {A B} (m : M A) (f : A -> M B) w a w' :
  m w = Ret a w' -> (m ≫= f) w = f a w'.
Proof. intros H. unfold mbind, M_bind. by rewrite H. Qed.

Lemma loop_n_S {S R} n (body : S -> M (S + R)) s w :
  loop_n (Datatypes.S n) body s w =
  match body s w with
  | Ret (inl s') w' => loop_n n body s' w'
  | Ret (inr x) w' => Ret x w'
  | Undef => Undef
  | Diverge => Diverge
  end.
Proof. simpl. unfold mbind, M_bind. by destruct (body s w) as [[s'|x] w'| |]. Qed.

(** Invariant rule for loops that return. *)
Lemma loop_n_inv {S R} (I : S -> world -> Prop) (Q : R -> world -> Prop)
    (body : S -> M (S + R)) :
  (forall s w s' w', I s w -> body s w = Ret (inl s') w' -> I s' w') ->
  (forall s w x w', I s w -> body s w = Ret (inr x) w' -> Q x w') ->
  forall n s w x w', I s w -> loop_n n body s w = Ret x w' -> Q x w'.
Proof.
  intros Hl Hr n. induction n as [|n IH]; intros s w x w' HI H; [done|].
  rewrite loop_n_S in H. destruct (body s w) as [[s'|y] w1| |] eqn:Hb; try done.
  - eapply IH; [|exact H]. eauto.
  - injection H as <- <-. eauto.
Qed.
End Run.

Ltac minv H :=
  repeat match type of H with
  | (mbind _ _) _ = Ret _ _ =>
      let a := fresh "a" in let w := fresh "w" in let Ha := fresh "Hr" in
      apply bind_Ret in H; destruct H as (a & w & Ha & H); minv Ha
  | mret _ _ = Ret _ _ => injection H as H; subst
  end.

(** ** Footprints *)

(** The files whose static variables a function may write; [CSys] is the
    SysTick switch. *)
Inductive comp : Type := CDisp | CTec | CDb | CWifi | CScan | CMef | CSys.
#[global] Instance comp_eq_dec : EqDecision comp.
Proof. solve_decision. Defined.

(** The kinds of hardware writes. *)
Inductive kind : Type :=
  | KPin (port pin : Z) | KUart (uart : Z) | KI2c | KSpi | KConf | KSleep.
#[global] Instance kind_eq_dec : EqDecision kind.
Proof. solve_decision. Defined.

Definition kind_of (e : event) : kind :=
  match e with
  | EvPinState p q _ => KPin p q
  | EvUartTx u _ => KUart u
  | EvI2c _ _ => KI2c
  | EvSpiTx _ => KSpi
  | EvConfig _ _ => KConf
  | EvNvic _ | EvSysTick _ | EvWfi => KSleep
  end.

Class Sub {A} `{EqDecision A} (l k : list A) : Prop :=
  sub : forallb (fun x => existsb (fun y => bool_decide (x = y)) k) l = true.

Lemma sub_elem {A} `{EqDecision A} (l k : list A) : Sub l k -> l ⊆ k.
Proof.
  unfold Sub. intros H x Hx. rewrite forallb_forall in H.
  apply list_elem_of_In in Hx. specialize (H x Hx). apply existsb_exists in H.
  destruct H as (y & Hy & Heq). apply bool_decide_eq_true in Heq as ->.
  by apply list_elem_of_In.
Qed.

Lemma sub_of_elem {A} `{EqDecision A} (l k : list A) : l ⊆ k -> Sub l k.
Proof.
  intros H. unfold Sub. apply forallb_forall. intros x Hx%list_elem_of_In.
  apply existsb_exists. exists x. split; [apply list_elem_of_In; auto|].
  by apply bool_decide_eq_true.
Qed.

Lemma sub_single {A} `{EqDecision A} (x : A) (l k : list A) : Sub l k -> x ∈ l -> Sub [x] k.
Proof.
  intros H%sub_elem Hx. apply sub_of_elem. intros y ->%list_elem_of_singleton. auto.
Qed.

#[export] Hint Extern 0 (Sub _ _) => assumption : typeclass_instances.
#[export] Hint Extern 1 (Sub _ _) => (vm_compute; reflexivity) : typeclass_instances.

Section Footprint.
Context {E : Env}.

Definition agree (c : comp) (w w' : world) : Prop :=
  match c with
  | CDisp => disp w' = disp w
  | CTec => tec w' = tec w
  | CDb => listaPins w' = listaPins w
  | CWifi => conectado w' = conectado w
  | CScan => g_scan w' = g_scan w
  | CMef => mef w' = mef w
  | CSys => systick (hw w') = systick (hw w)
  end.

(** what the outside world sees: a register read, or a write of a kind in [K] *)
Inductive contacto (K : list kind) : relation dev :=
  | contacto_in i d : contacto K d (snd (dev_in i d))
  | contacto_out e d : kind_of e ∈ K -> contacto K d (dev_out e d).

Record eff_rel (F : list comp) (K : list kind) (w w' : world) : Prop := {
  eff_frame c : c ∉ F -> agree c w w';
  eff_trace : exists t, trace (hw w') = t ++ trace (hw w) /\
                        Forall (fun e => kind_of e ∈ K) t;
  eff_dev : rtc (contacto K) (device (hw w)) (device (hw w'))
}.

Class Eff (F : list comp) (K : list kind) {A} (m : M A) : Prop :=
  eff w a w' : m w = Ret a w' -> eff_rel F K w w'.

#[global] Instance eff_rel_refl F K : Reflexive (eff_rel F K).
Proof.
  intros w. split; [by intros []| |done]. exists []. split; [done|constructor].
Qed.
#[global] Instance eff_rel_trans F K : Transitive (eff_rel F K).
Proof.
  intros w1 w2 w3 [Hf1 (t1 & Ht1 & Hk1) Hd1] [Hf2 (t2 & Ht2 & Hk2) Hd2]. split; [| |by etrans].
  - intros c Hc. specialize (Hf1 c Hc). specialize (Hf2 c Hc).
    destruct c; simpl in *; congruence.
  - exists (t2 ++ t1). split; [rewrite Ht2, Ht1; apply app_assoc|].
    by apply Forall_app.
Qed.

Lemma eff_rel_weaken F K F' K' w w' :
  Sub F F' -> Sub K K' -> eff_rel F K w w' -> eff_rel F' K' w w'.
Proof.
  intros HF%sub_elem HK%sub_elem [Hf (t & Ht & Hk) Hd]. split;
    [| |eapply rtc_subrel; [|exact Hd]; intros d d' []; constructor; auto].
  - intros c Hc. apply Hf. intros Hin. apply Hc, HF, Hin.
  - exists t. split; [done|]. eapply Forall_impl; [exact Hk|]. simpl. auto.
Qed.

Lemma eff_weaken F K F' K' {A} (m : M A) :
  Eff F K m -> Sub F F' -> Sub K K' -> Eff F' K' m.
Proof. intros Hm HF HK w a w' H. eapply eff_rel_weaken; eauto. Qed.

#[global] Instance eff_ret F K {A} (a : A) : Eff F K (mret a).
Proof. intros w b w' [= _ <-]. reflexivity. Qed.
#[global] Instance eff_bind F K {A B} (m : M A) (f : A -> M B) :
  Eff F K m -> (forall a, Eff F K (f a)) -> Eff F K (m ≫= f).
Proof.
  intros Hm Hf w b w'' (a & w' & H1 & H2)%bind_Ret.
  transitivity w'; [exact (Hm _ _ _ H1)|exact (Hf a _ _ _ H2)].
Qed.
#[global] Instance eff_undef F K {A} : Eff F K (undef (A:=A)).
Proof. by intros w a w'. Qed.
#[global] Instance eff_diverge F K {A} : Eff F K (diverge (A:=A)).
Proof. by intros w a w'. Qed.
#[global] Instance eff_gets F K {A} (f : world -> A) : Eff F K (gets f).
Proof. intros w a w' [= _ <-]. reflexivity. Qed.
#[global] Instance eff_access F K {A} (o : option A) : Eff F K (access o).
Proof. destruct o; simpl; apply _. Qed.
Lemma eff_access_bind F K {A B} (o : option A) (f : A -> M B) :
  (forall a, o = Some a -> Eff F K (f a)) -> Eff F K (access o ≫= f).
Proof.
  intros Hf w b w' (a & w1 & Ha & Hb)%bind_Ret. destruct o as [a'|]; [|done].
  injection Ha as <- <-. exact (Hf a' eq_refl _ _ _ Hb).
Qed.
#[global] Instance eff_when F K b m : Eff F K m -> Eff F K (when b m).
Proof. destruct b; simpl; [done|apply _]. Qed.
#[global] Instance eff_loop_n F K {S R} n (body : S -> M (S + R)) s :
  (forall s, Eff F K (body s)) -> Eff F K (loop_n n body s).
Proof.
  intros Hb. revert s. induction n as [|n IH]; intros s; simpl; [apply _|].
  apply eff_bind; [apply Hb|]. intros [s'|x]; [apply IH|apply _].
Qed.
#[global] Instance eff_loop F K {S R} (body : S -> M (S + R)) s :
  (forall s, Eff F K (body s)) -> Eff F K (loop body s).
Proof. intros. unfold loop. apply _. Qed.
#[global] Instance eff_for_each F K {A} (l : list A) (f : A -> M unit) :
  (forall a, Eff F K (f a)) -> Eff F K (for_each l f).
Proof. intros Hf. induction l; simpl; apply _. Qed.
#[global] Instance eff_first_some F K {A B} (l : list A) (f : A -> M (option B)) :
  (forall a, Eff F K (f a)) -> Eff F K (first_some l f).
Proof.
  intros Hf. induction l; simpl; [apply _|].
  apply eff_bind; [apply Hf|]. intros [b|]; apply _.
Qed.
#[global] Instance eff_inp F K i : Eff F K (inp i).
Proof.
  intros w a w'. unfold inp. destruct (dev_in i _) as [v d] eqn:Hd. intros [= _ <-].
  split; [by intros []| |].
  - exists []. split; [done|constructor].
  - apply rtc_once. cbn. replace d with (snd (dev_in i (device (hw w)))) by (by rewrite Hd). constructor.
Qed.
#[global] Instance eff_set_tick F K t : Eff F K (set_tick t).
Proof.
  intros w a w' [= _ <-]. split; [by intros []| |done].
  exists []. split; [done|constructor].
Qed.
#[global] Instance eff_emit F K e : Sub [kind_of e] K -> Eff F K (emit e).
Proof.
  intros HK%sub_elem w a w' [= _ <-]. assert (He : kind_of e ∈ K) by (apply HK; set_solver).
  split; [by intros []| |by apply rtc_once, contacto_out].
  exists [e]. split; [done|]. by constructor; [|constructor].
Qed.
Lemma eff_modify c F K (f : world -> world) :
  (forall w c', c' <> c -> agree c' w (f w)) ->
  (forall w, trace (hw (f w)) = trace (hw w) /\ device (hw (f w)) = device (hw w)) ->
  Sub [c] F -> Eff F K (modify f).
Proof.
  intros Hf Ht HF%sub_elem w a w' [= _ <-]. split.
  - intros c' Hc'. apply Hf. intros ->. apply Hc', HF. set_solver.
  - exists []. rewrite (proj1 (Ht w)). split; [done|constructor].
  - by rewrite (proj2 (Ht w)).
Qed.
#[global] Instance eff_set_systick F K b : Sub [CSys] F -> Eff F K (set_systick b).
Proof. apply eff_modify; [by intros w []|done]. Qed.
#[global] Instance eff_set_disp F K (f : world -> display_st) :
  Sub [CDisp] F -> Eff F K (modify (fun w => set_disp (f w) w)).
Proof. apply eff_modify; [by intros w []|done]. Qed.
#[global] Instance eff_set_tec F K (f : world -> teclado_st) :
  Sub [CTec] F -> Eff F K (modify (fun w => set_tec (f w) w)).
Proof. apply eff_modify; [by intros w []|done]. Qed.
#[global] Instance eff_set_db F K (f : world -> list PinUsuario_t) :
  Sub [CDb] F -> Eff F K (modify (fun w => set_db (f w) w)).
Proof. apply eff_modify; [by intros w []|done]. Qed.
#[global] Instance eff_set_conectado F K (f : world -> bool) :
  Sub [CWifi] F -> Eff F K (modify (fun w => set_conectado (f w) w)).
Proof. apply eff_modify; [by intros w []|done]. Qed.
#[global] Instance eff_set_scan F K (f : world -> scan_st) :
  Sub [CScan] F -> Eff F K (modify (fun w => set_scan (f w) w)).
Proof. apply eff_modify; [by intros w []|done]. Qed.
#[global] Instance eff_set_mef F K (f : world -> mef_st) :
  Sub [CMef] F -> Eff F K (modify (fun w => set_mef (f w) w)).
Proof. apply eff_modify; [by intros w []|done]. Qed.
End Footprint.

(** [eff_solve] derives the footprint of a function from its callees';
    [eff_op F K] proves the instance of a function whose own footprint is
    [F], [K] for every larger footprint. *)
Ltac eff_step :=
  match goal with
  | |- forall _, _ => intro
  | |- Eff _ _ (mbind _ _) => apply eff_bind
  | |- Eff _ _ (loop _ _) => apply eff_loop
  | |- Eff _ _ (for_each _ _) => apply eff_for_each
  | |- Eff _ _ (first_some _ _) => apply eff_first_some
  | |- Eff _ _ (when _ _) => apply eff_when
  | |- Eff _ _ (match ?x with _ => _ end) => destruct x
  | |- Eff _ _ _ => solve [apply _]
  end.
Ltac eff_solve := intros; repeat eff_step.
Tactic Notation "eff_op" uconstr(F) uconstr(K) :=
  intros; eapply (eff_weaken F K); [|solve [apply _]|solve [apply _]].
