(* ===== verification/Triples.v ===== *)
(** * Partial-correctness triples on a projection of the state

    [tri p c m Q]: a run of [m] that returns, started where the projection [p]
    of the world is [c], ends with a result and a projection that satisfy [Q].
    A function that writes outside what [p] sees [Keeps p]: its footprint
    ([Eff]) shows it, and the triple passes over it. *)

From Stdlib Require Import ZArith Lia Bool Ascii String.
From stdpp Require Import base list strings numbers sets.
From stdpp Require Import options.
From S2P Require Import Prelude Machine Effects.

Section Triples.
Context {E : Env} {X : Type} (p : world -> X).

Class Keeps {A} (m : M A) : Prop :=
  keeps w a w' : m w = Ret a w' -> p w' = p w.

Definition tri {A} (c : X) (m : M A) (Q : A -> X -> Prop) : Prop :=
  forall w a w', p w = c -> m w = Ret a w' -> Q a (p w').

Lemma tri_bind {A B} c (m : M A) (f : A -> M B) Q :
  tri c m (fun a c' => tri c' (f a) Q) -> tri c (m ≫= f) Q.
Proof. intros H w b w'' Hc (a & w' & H1 & H2)%bind_Ret. exact (H w a w' Hc H1 w' b w'' eq_refl H2). Qed.

Lemma tri_ret {A} c (a : A) (Q : A -> X -> Prop) : Q a c -> tri c (mret a) Q.
Proof. intros H w b w' <- [= <- <-]. exact H. Qed.

Lemma tri_keep {A} c (m : M A) (Q : A -> X -> Prop) :
  Keeps m -> (forall a, Q a c) -> tri c m Q.
Proof. intros Hk HQ w a w' Hc H. rewrite (Hk _ _ _ H), Hc. apply HQ. Qed.

Lemma tri_conseq {A} c (m : M A) (Q Q' : A -> X -> Prop) :
  tri c m Q' -> (forall a c', Q' a c' -> Q a c') -> tri c m Q.
Proof. intros H HQ w a w' Hc Hr. apply HQ. eapply H; eauto. Qed.

Lemma tri_undef {A} c (Q : A -> X -> Prop) : tri c (@undef E A) Q.
Proof. by intros w a w'. Qed.

(** what a condition on the result alone gives *)
Lemma tri_and {A} c (m : M A) (Q Q' : A -> X -> Prop) :
  tri c m Q -> tri c m Q' -> tri c m (fun a c' => Q a c' /\ Q' a c').
Proof. intros H H' w a w' Hc Hr. split; [eapply H|eapply H']; eauto. Qed.

Lemma tri_gets {A} c (f : world -> A) (Q : A -> X -> Prop) :
  (forall w, p w = c -> Q (f w) c) -> tri c (gets f) Q.
Proof. intros H w a w' Hc [= <- <-]. rewrite Hc. auto. Qed.

Lemma tri_modify c (f : world -> world) (Q : unit -> X -> Prop) :
  (forall w, p w = c -> Q tt (p (f w))) -> tri c (modify f) Q.
Proof. intros H w a w' Hc [= <- <-]. auto. Qed.

Lemma tri_access {A} c (o : option A) (Q : A -> X -> Prop) :
  (forall a, o = Some a -> Q a c) -> tri c (access o) Q.
Proof. intros H. destruct o; [apply tri_ret; auto|apply tri_undef]. Qed.

Lemma tri_when c b m Q :
  (b = true -> tri c m Q) -> (b = false -> Q tt c) -> tri c (when b m) Q.
Proof. destruct b; intros H1 H2; [auto|apply tri_ret; auto]. Qed.

Lemma tri_loop {S R} (I : S -> X -> Prop) c (body : S -> M (S + R)) s (Q : R -> X -> Prop) :
  I s c ->
  (forall s c, I s c -> tri c (body s) (fun r c' =>
     match r with inl s' => I s' c' | inr x => Q x c' end)) ->
  tri c (loop body s) Q.
Proof.
  intros HI Hb w x w' Hc H. unfold loop in H.
  eapply (loop_n_inv (fun s w => I s (p w)) (fun x w => Q x (p w))).
  - intros s1 w1 s2 w2 H1 H2. exact (Hb s1 _ H1 w1 _ w2 eq_refl H2).
  - intros s1 w1 y w2 H1 H2. exact (Hb s1 _ H1 w1 _ w2 eq_refl H2).
  - rewrite Hc. exact HI.
  - exact H.
Qed.

(** beside a projection that the function keeps *)
Lemma tri_par {Y A} (q : world -> Y) c e (m : M A) (Q : A -> X -> Prop) :
  tri c m Q -> (forall w a w', m w = Ret a w' -> q w' = q w) ->
  forall w a w', (p w, q w) = (c, e) -> m w = Ret a w' -> Q a (p w') /\ q w' = e.
Proof. intros H Hk w a w' [= Hc <-] Hr. split; [by apply (H w)|by eapply Hk]. Qed.

(** *** What keeps the projection, by its parts *)
Lemma keeps_ret {A} (a : A) : Keeps (mret a).
Proof. by intros w b w' [= _ <-]. Qed.
Lemma keeps_bind {A B} (m : M A) (f : A -> M B) : Keeps m -> (forall a, Keeps (f a)) -> Keeps (m ≫= f).
Proof. intros Hm Hf w b w'' (a & w' & H1 & H2)%bind_Ret. by rewrite (Hf _ _ _ _ H2), (Hm _ _ _ H1). Qed.
Lemma keeps_gets {A} (f : world -> A) : Keeps (gets f).
Proof. by intros w b w' [= _ <-]. Qed.
Lemma keeps_undef {A} : Keeps (@undef E A).
Proof. done. Qed.
Lemma keeps_diverge {A} : Keeps (@diverge E A).
Proof. done. Qed.
Lemma keeps_access {A} (o : option A) : Keeps (access o).
Proof. destruct o; [apply keeps_ret|apply keeps_undef]. Qed.
Lemma keeps_when b m : Keeps m -> Keeps (when b m).
Proof. destruct b; intros H; [exact H|apply keeps_ret]. Qed.
Lemma keeps_loop {S R} (body : S -> M (S + R)) s : (forall s, Keeps (body s)) -> Keeps (loop body s).
Proof.
  intros Hb w x w' H. unfold loop in H.
  eapply (loop_n_inv (fun _ w1 => p w1 = p w) (fun _ w1 => p w1 = p w)); [| |reflexivity|exact H].
  - intros s1 w1 s2 w2 H1 H2. by rewrite (Hb _ _ _ _ H2).
  - intros s1 w1 y w2 H1 H2. by rewrite (Hb _ _ _ _ H2).
Qed.
Lemma keeps_for_each {A} (l : list A) (f : A -> M unit) :
  (forall a, a ∈ l -> Keeps (f a)) -> Keeps (for_each l f).
Proof.
  induction l as [|a l IH]; intros Hf; simpl; [apply keeps_ret|].
  apply keeps_bind; [apply Hf; by left|]. intros _. apply IH. intros b Hb. apply Hf. by right.
Qed.
Lemma keeps_first_some {A B} (l : list A) (f : A -> M (option B)) :
  (forall a, a ∈ l -> Keeps (f a)) -> Keeps (first_some l f).
Proof.
  induction l as [|a l IH]; intros Hf; simpl; [apply keeps_ret|].
  apply keeps_bind; [apply Hf; by left|]. intros [b|]; [apply keeps_ret|].
  apply IH. intros b Hb. apply Hf. by right.
Qed.
End Triples.

#[global] Arguments Keeps {E X} p {A} m.
#[global] Arguments tri {E X} p {A} c m Q.

(** Conditions on the result alone: the projection that sees nothing. *)
Section Results.
Context {E : Env}.

Definition nada (_ : world) : unit := tt.
Definition result {A} (m : M A) (P : A -> Prop) : Prop := tri nada tt m (fun a _ => P a).

#[export] Instance keeps_nada {A} (m : M A) : Keeps nada m.
Proof. by intros w a w'. Qed.

Lemma result_run {A} (m : M A) P w a w' : result m P -> m w = Ret a w' -> P a.
Proof. intros H Hr. exact (H w a w' eq_refl Hr). Qed.
Lemma result_tri {A X} (p : world -> X) c (m : M A) P (Q : A -> X -> Prop) :
  result m P -> tri p c m (fun a c' => P a -> Q a c') -> tri p c m Q.
Proof. intros H HQ w a w' Hc Hr. exact (HQ w a w' Hc Hr (result_run _ _ _ _ _ H Hr)). Qed.
End Results.

(** One step of symbolic execution: a bind, a function the projection does
    not see, a branch. *)
Ltac tri_step :=
  match goal with
  | |- tri _ _ (mbind _ _) _ => apply tri_bind
  | |- tri _ _ (mret _) _ => apply tri_ret
  | |- tri _ _ (let '(_, _) := ?x in _) _ => destruct x
  | |- tri _ _ (match ?x with _ => _ end) _ => let H := fresh "Hb" in destruct x eqn:H
  | |- tri _ _ (when _ _) _ => apply tri_keep; [solve [apply _]|intros]
  | |- tri _ _ (when _ _) _ => apply tri_when; intros ?Hb
  | |- tri _ _ (access _) _ => apply tri_access; intros
  | |- tri _ _ undef _ => apply tri_undef
  | |- tri _ _ _ _ => apply tri_keep; [solve [apply _]|intros]
  end.

(** [keeps_run] derives [Keeps] for a function from its callees'. *)
Ltac keeps_step :=
  match goal with
  | |- forall _, _ => intro
  | |- Keeps _ (mret _) => apply keeps_ret
  | |- Keeps _ (mbind _ _) => apply keeps_bind
  | |- Keeps _ (gets _) => apply keeps_gets
  | |- Keeps _ undef => apply keeps_undef
  | |- Keeps _ diverge => apply keeps_diverge
  | |- Keeps _ (access _) => apply keeps_access
  | |- Keeps _ (when _ _) => apply keeps_when
  | |- Keeps _ (loop _ _) => apply keeps_loop
  | |- Keeps _ (for_each _ _) => apply keeps_for_each
  | |- Keeps _ (first_some _ _) => apply keeps_first_some
  | |- Keeps _ (match ?x with _ => _ end) => destruct x
  | |- Keeps _ _ => solve [apply _]
  end.
Ltac keeps_run := intros; repeat keeps_step.
