(* ===== verification/Banco.v ===== *)
(** * A bench: one concrete board

    An executable instance of [Env] for evaluating the firmware on concrete
    scenarios: every look at the clock lets a number of milliseconds pass, keys
    are pressed according to a plan, the peripherals answer from scripts. *)

From Stdlib Require Import ZArith Lia Bool Ascii String.
From stdpp Require Import base list strings numbers sets.
From stdpp Require Import options.
From S2P Require Import Prelude Machine.

Record banco : Type := mkBanco {
  b_reloj : Z;                       (* ms since power-up *)
  b_filas : list bool;               (* levels written to the keypad rows *)
  b_plan : list (Z * Z * Z);         (* key [k] down from [a] ms to [b] ms *)
  b_uart0 : list Z;                  (* bytes the fingerprint sensor sends *)
  b_uart5 : list Z;                  (* bytes the modem sends *)
  b_modem : list Z;                  (* what it answers to every line *)
  b_ssp : list Z;                    (* bytes the RFID reader answers *)
  b_puerta : bool;                   (* level of the door sensor *)
  b_irq : list Z                     (* answers at the interrupt points *)
}.

Definition con_reloj (t : Z) (d : banco) : banco :=
  mkBanco t (b_filas d) (b_plan d) (b_uart0 d) (b_uart5 d) (b_modem d) (b_ssp d) (b_puerta d) (b_irq d).
Definition con_filas (f : list bool) (d : banco) : banco :=
  mkBanco (b_reloj d) f (b_plan d) (b_uart0 d) (b_uart5 d) (b_modem d) (b_ssp d) (b_puerta d) (b_irq d).
Definition con_plan (p : list (Z * Z * Z)) (d : banco) : banco :=
  mkBanco (b_reloj d) (b_filas d) p (b_uart0 d) (b_uart5 d) (b_modem d) (b_ssp d) (b_puerta d) (b_irq d).
Definition con_uart0 (q : list Z) (d : banco) : banco :=
  mkBanco (b_reloj d) (b_filas d) (b_plan d) q (b_uart5 d) (b_modem d) (b_ssp d) (b_puerta d) (b_irq d).
Definition con_uart5 (q : list Z) (d : banco) : banco :=
  mkBanco (b_reloj d) (b_filas d) (b_plan d) (b_uart0 d) q (b_modem d) (b_ssp d) (b_puerta d) (b_irq d).
Definition con_modem (q : list Z) (d : banco) : banco :=
  mkBanco (b_reloj d) (b_filas d) (b_plan d) (b_uart0 d) (b_uart5 d) q (b_ssp d) (b_puerta d) (b_irq d).
Definition con_ssp (q : list Z) (d : banco) : banco :=
  mkBanco (b_reloj d) (b_filas d) (b_plan d) (b_uart0 d) (b_uart5 d) (b_modem d) q (b_puerta d) (b_irq d).
Definition con_puerta (b : bool) (d : banco) : banco :=
  mkBanco (b_reloj d) (b_filas d) (b_plan d) (b_uart0 d) (b_uart5 d) (b_modem d) (b_ssp d) b (b_irq d).
Definition con_irq (q : list Z) (d : banco) : banco :=
  mkBanco (b_reloj d) (b_filas d) (b_plan d) (b_uart0 d) (b_uart5 d) (b_modem d) (b_ssp d) (b_puerta d) q.

(** the key down at a time *)
Definition tecla_en (t : Z) (plan : list (Z * Z * Z)) : option Z :=
  snd <$> (snd <$> list_find (fun '(a, b, _) => a <= t /\ t < b) plan).

(** the level of column [c]: low when the key down is in it, in a low row *)
Definition nivel_columna (d : banco) (c : Z) : Z :=
  match tecla_en (b_reloj d) (b_plan d) with
  | Some k => if (k mod 3 =? c) && negb (nth (Z.to_nat (k / 3)) (b_filas d) true) then 0 else 1
  | None => 1
  end.

(** the line status of a UART: ready to send, and whether a byte waits *)
Definition estado_linea (q : list Z) : Z := match q with [] => 32 | _ => 33 end.

Definition banco_in (paso : Z) (i : input) (d : banco) : Z * banco :=
  match i with
  | InTick => (paso, con_reloj (b_reloj d + paso) d)
  | InLsr u => (estado_linea (if u =? 0 then b_uart0 d else b_uart5 d), d)
  | InRbr u =>
      if u =? 0 then (hd 0 (b_uart0 d), con_uart0 (tl (b_uart0 d)) d)
      else if u =? 5 then (hd 0 (b_uart5 d), con_uart5 (tl (b_uart5 d)) d)
      else (0, d)
  | InPin p q =>
      (if (p =? 1) && (q =? 8) then nivel_columna d 0
       else if (p =? 3) && (q =? 12) then nivel_columna d 1
       else if (p =? 3) && (q =? 13) then nivel_columna d 2
       else if b_puerta d then 1 else 0, d)
  | InSsp => (hd 0 (b_ssp d), con_ssp (tl (b_ssp d)) d)
  | InI2c => (1, d)
  | InWake => (hd 0 (b_irq d), con_irq (tl (b_irq d)) d)
  end.

Definition banco_out (e : event) (d : banco) : banco :=
  match e with
  | EvPinState p q b =>
      if (p =? 2) && (q <? 4) then con_filas (<[Z.to_nat q := b]> (b_filas d)) d else d
  | EvUartTx u v => if (u =? 5) && (v =? 10) then con_uart5 (b_uart5 d ++ b_modem d) d else d
  | _ => d
  end.

(** the bench with a clock that advances [paso] ms per look *)
Definition env_banco (paso : Z) (fuel : nat) : Env :=
  {| dev := banco; dev_in := banco_in paso; dev_out := banco_out; env_fuel := fuel |}.

(** nothing pressed, nothing received, the door shut, the clock at [t] *)
Definition banco_quieto (t : Z) : banco :=
  mkBanco t [true; true; true; true] [] [] [] [] [] false [].

(** a world over the bench, its tick counter at the bench's clock *)
Definition mundo (paso : Z) (fuel : nat) (d : banco) (db : list PinUsuario_t) (g : scan_st)
    (m : mef_st) : @world (env_banco paso fuel) :=
  @mkWorld (env_banco paso fuel) (@mkHw (env_banco paso fuel) d (b_reloj d) true [])
    (mkDisplay (replicate 1024 0) 0 0) (mkTeclado [] 0 false 65535) db false g m.

(** ** A board where nothing changes *)

(** The clock ticks once per look, the transmitters are ready, every pin reads
    [nivel], the reader zeros, the presence interrupt has come. *)
Definition fijo_in (nivel : Z) (i : input) (d : unit) : Z * unit :=
  (match i with
   | InTick | InI2c | InWake => 1
   | InLsr _ => 32
   | InPin _ _ => nivel
   | InRbr _ | InSsp => 0
   end, d).
Definition env_fijo (nivel : Z) : Env :=
  {| dev := unit; dev_in := fijo_in nivel; dev_out := fun _ d => d; env_fuel := Z.to_nat 100003 |}.

(** a world over it, at tick [t] *)
Definition mundo_fijo (nivel t : Z) (db : list PinUsuario_t) (g : scan_st) (m : mef_st) :
    @world (env_fijo nivel) :=
  @mkWorld (env_fijo nivel) (@mkHw (env_fijo nivel) tt t true [])
    (mkDisplay (replicate 1024 0) 0 0) (mkTeclado [] 0 false 65535) db false g m.
