(* ===== verification/Sapi.v ===== *)
(** * The sAPI drivers the firmware calls

    [libs/sapi/sapi_v0.6.2]: tick counter, delays, GPIO, UART, I2C, SPI and
    the matrix keypad, down to the LPCOpen register accesses, which are the
    [event]s and [input]s of [Machine].  The board is [edu_ciaa_nxp], without
    FreeRTOS and with [SAPI_USE_INTERRUPTS] callbacks unused. *)

From Stdlib Require Import ZArith Lia Bool Ascii String.
From stdpp Require Import base list strings numbers sets.
From stdpp Require Import options.
From S2P Require Import Prelude Machine Effects.

(** ** Constants *)
Definition tickRateMS : Z := 1.            (* boardConfig() calls tickInit( 1 ) *)
Definition INACCURATE_TO_MS : Z := 20400.
Definition INACCURATE_TO_US_x10 : Z := 204.

(** [gpioMap_t] of the board: the pins used by the firmware. *)
Definition VCC : Z := -2.
Definition GND : Z := -1.
Definition T_FIL1 : Z := 0.
Definition T_COL2 : Z := 1.
Definition T_COL0 : Z := 2.
Definition T_FIL2 : Z := 3.
Definition T_FIL3 : Z := 4.
Definition T_FIL0 : Z := 5.
Definition T_COL1 : Z := 6.
Definition GPIO7 : Z := 12.
Definition GPIO6 : Z := 29.
Definition TEC1 : Z := 36.
Definition TEC2 : Z := 37.
Definition TEC3 : Z := 38.
Definition TEC4 : Z := 39.
Definition LEDR : Z := 40.
Definition LEDG : Z := 41.
Definition LEDB : Z := 42.
Definition LED1 : Z := 43.
Definition LED2 : Z := 44.
Definition LED3 : Z := 45.

(** A row of [gpioPinsInit]: SCU port and pin, function, GPIO port and pin. *)
Record pinInit : Type := mkPin {
  scuPort : Z; scuPin : Z; pinFunc : Z; gpioPort : Z; gpioPin : Z
}.

Definition gpioPinsInit : list pinInit := [
  mkPin 4 1 0 2 1;    (*  0 T_FIL1 *)
  mkPin 7 5 0 3 13;   (*  1 T_COL2 *)
  mkPin 1 5 0 1 8;    (*  2 T_COL0 *)
  mkPin 4 2 0 2 2;    (*  3 T_FIL2 *)
  mkPin 4 3 0 2 3;    (*  4 T_FIL3 *)
  mkPin 4 0 0 2 0;    (*  5 T_FIL0 *)
  mkPin 7 4 0 3 12;   (*  6 T_COL1 *)
  mkPin 3 2 4 5 9;    (*  7 CAN_TD *)
  mkPin 3 1 4 5 8;    (*  8 CAN_RD *)
  mkPin 2 3 4 5 3;    (*  9 RS232_TXD *)
  mkPin 2 4 4 5 4;    (* 10 RS232_RXD *)
  mkPin 6 12 0 2 8;   (* 11 GPIO8 *)
  mkPin 6 11 0 3 7;   (* 12 GPIO7 *)
  mkPin 6 9 0 3 5;    (* 13 GPIO5 *)
  mkPin 6 7 4 5 15;   (* 14 GPIO3 *)
  mkPin 6 4 0 3 3;    (* 15 GPIO1 *)
  mkPin 4 4 0 2 4;    (* 16 LCD1 *)
  mkPin 4 5 0 2 5;    (* 17 LCD2 *)
  mkPin 4 6 0 2 6;    (* 18 LCD3 *)
  mkPin 4 8 4 5 12;   (* 19 LCDRS *)
  mkPin 4 10 4 5 14;  (* 20 LCD4 *)
  mkPin 1 3 0 0 10;   (* 21 SPI_MISO *)
  mkPin 1 20 0 0 15;  (* 22 ENET_TXD1 *)
  mkPin 1 18 0 0 13;  (* 23 ENET_TXD0 *)
  mkPin 1 17 0 0 12;  (* 24 ENET_MDIO *)
  mkPin 1 16 0 0 3;   (* 25 ENET_CRS_DV *)
  mkPin 7 7 0 3 15;   (* 26 ENET_MDC *)
  mkPin 0 1 0 0 1;    (* 27 ENET_TXEN *)
  mkPin 0 0 0 0 0;    (* 28 ENET_RXD1 *)
  mkPin 6 10 0 3 6;   (* 29 GPIO6 *)
  mkPin 6 8 4 5 16;   (* 30 GPIO4 *)
  mkPin 6 5 0 3 4;    (* 31 GPIO2 *)
  mkPin 6 1 0 3 0;    (* 32 GPIO0 *)
  mkPin 4 9 4 5 13;   (* 33 LCDEN *)
  mkPin 1 4 0 0 11;   (* 34 SPI_MOSI *)
  mkPin 1 15 0 0 2;   (* 35 ENET_RXD0 *)
  mkPin 1 0 0 0 4;    (* 36 TEC1 *)
  mkPin 1 1 0 0 8;    (* 37 TEC2 *)
  mkPin 1 2 0 0 9;    (* 38 TEC3 *)
  mkPin 1 6 0 1 9;    (* 39 TEC4 *)
  mkPin 2 0 4 5 0;    (* 40 LEDR *)
  mkPin 2 1 4 5 1;    (* 41 LEDG *)
  mkPin 2 2 4 5 2;    (* 42 LEDB *)
  mkPin 2 10 0 0 14;  (* 43 LED1 *)
  mkPin 2 11 0 1 11;  (* 44 LED2 *)
  mkPin 2 12 0 1 12   (* 45 LED3 *)
].

Inductive gpioInit_t : Type :=
  | GPIO_INPUT | GPIO_OUTPUT | GPIO_INPUT_PULLUP | GPIO_INPUT_PULLDOWN
  | GPIO_INPUT_PULLUP_PULLDOWN | GPIO_ENABLE.

(** [scu_18xx_43xx.h] *)
Definition SCU_MODE_PULLUP : Z := 0.
Definition SCU_MODE_REPEATER : Z := Z.shiftl 1 3.
Definition SCU_MODE_INACT : Z := Z.shiftl 2 3.
Definition SCU_MODE_PULLDOWN : Z := Z.shiftl 3 3.
Definition SCU_MODE_INBUFF_EN : Z := Z.shiftl 1 6.
Definition SCU_MODE_ZIF_DIS : Z := Z.shiftl 1 7.
Definition MD_PLN : Z := Z.shiftl 2 3.
Definition MD_PDN : Z := Z.shiftl 3 3.
Definition MD_EZI : Z := Z.shiftl 1 6.
Definition MD_ZI : Z := Z.shiftl 1 7.
Definition scu_modes (modes : list Z) : Z := fold_right Z.lor 0 modes.

(** [uart_18xx_43xx.h] *)
Definition UART_LSR_RDR : Z := 1.
Definition UART_LSR_THRE : Z := 32.

(** A row of [lpcUarts]: the tx and rx pins (SCU port, pin, function). *)
Definition lpcUarts : list (Z * Z * Z * (Z * Z * Z)) := [
  (6, 4, 2, (6, 5, 2));      (* 0 UART_GPIO *)
  (9, 5, 7, (9, 6, 7));      (* 1 UART_485 *)
  (0, 0, 0, (0, 0, 0));      (* 2 not routed *)
  (7, 1, 6, (7, 2, 6));      (* 3 UART_USB *)
  (1, 15, 1, (1, 16, 1));    (* 4 UART_ENET *)
  (2, 3, 2, (2, 4, 2))       (* 5 UART_232 *)
].
Definition UART_485 : Z := 1.
Definition lpcUart485DirPin : Z * Z * Z := (6, 2, 2).

(** [i2c0] at index 0 *)
Definition I2C0 : Z := 0.

Section Sapi.
Context {E : Env}.

(** ** sapi_tick.c, sapi_delay.c *)

(** the SysTick interrupt handler, on the counter *)
Definition tickerCallback (t : Z) : Z := u64 (t + 1).

(** [tickRead]: the interrupts served since the last look, then the counter. *)
Definition tickRead : M Z :=
  n ← inp InTick;
  on ← gets (fun w => systick (hw w));
  t ← gets (fun w => tickCounter (hw w));
  when on (set_tick (Nat.iter (Z.to_nat n) tickerCallback t)) ;;
  gets (fun w => tickCounter (hw w)).

Definition delay (duration_ms : Z) : M unit :=
  startTime ← tickRead;
  loop (fun _ : unit =>
    t ← tickRead;
    mret (if u64 (t - startTime) <? u64 duration_ms / tickRateMS
          then inl tt else inr tt)) tt.

(** the counting-down waits touch no register *)
Fixpoint countdown (i : nat) : M unit :=
  match i with O => mret tt | S i => countdown i end.
Definition delayInaccurateUs (delay_us : Z) : M unit :=
  countdown (Z.to_nat (u64 (INACCURATE_TO_US_x10 * delay_us) / 10)).

(** ** sapi_gpio.c *)
Definition Chip_SCU_PinMux (port pin modes func : Z) : M unit :=
  emit (EvConfig "Chip_SCU_PinMux" [port; pin; modes; func]).
Definition Chip_GPIO_SetDir (port bits out : Z) : M unit :=
  emit (EvConfig "Chip_GPIO_SetDir" [port; bits; out]).
Definition Chip_GPIO_SetPinDIROutput (port pin : Z) : M unit :=
  emit (EvConfig "Chip_GPIO_SetPinDIROutput" [port; pin]).
Definition Chip_GPIO_SetPinDIRInput (port pin : Z) : M unit :=
  emit (EvConfig "Chip_GPIO_SetPinDIRInput" [port; pin]).
Definition Chip_GPIO_SetPinState (port pin : Z) (setting : bool) : M unit :=
  emit (EvPinState port pin setting).
Definition Chip_GPIO_GetPinState (port pin : Z) : M bool :=
  v ← inp (InPin port pin); mret (negb (v =? 0)).

Definition gpioObtainPinInit (pin : Z) : M pinInit :=
  if pin <? 0 then undef else access (gpioPinsInit !! Z.to_nat pin).

Definition gpioInit (pin : Z) (config : gpioInit_t) : M bool :=
  if pin =? VCC then mret false
  else if pin =? GND then mret false
  else
    p ← gpioObtainPinInit pin;
    let input (pull : Z) :=
      Chip_SCU_PinMux (scuPort p) (scuPin p)
        (scu_modes [pull; SCU_MODE_INBUFF_EN; SCU_MODE_ZIF_DIS]) (pinFunc p) ;;
      Chip_GPIO_SetDir (gpioPort p) (Z.shiftl 1 (gpioPin p)) 0 ;;
      mret true in
    match config with
    | GPIO_ENABLE => emit (EvConfig "Chip_GPIO_Init" []) ;; mret true
    | GPIO_INPUT => input SCU_MODE_INACT
    | GPIO_INPUT_PULLUP => input SCU_MODE_PULLUP
    | GPIO_INPUT_PULLDOWN => input SCU_MODE_PULLDOWN
    | GPIO_INPUT_PULLUP_PULLDOWN => input SCU_MODE_REPEATER
    | GPIO_OUTPUT =>
        Chip_SCU_PinMux (scuPort p) (scuPin p)
          (scu_modes [SCU_MODE_INACT; SCU_MODE_ZIF_DIS; SCU_MODE_INBUFF_EN]) (pinFunc p) ;;
        Chip_GPIO_SetDir (gpioPort p) (Z.shiftl 1 (gpioPin p)) 1 ;;
        Chip_GPIO_SetPinState (gpioPort p) (gpioPin p) false ;;
        mret true
    end.

Definition gpioWrite (pin : Z) (value : bool) : M bool :=
  if pin =? VCC then mret false
  else if pin =? GND then mret false
  else
    p ← gpioObtainPinInit pin;
    Chip_GPIO_SetPinState (gpioPort p) (gpioPin p) value ;;
    mret true.

Definition gpioRead (pin : Z) : M bool :=
  if pin =? VCC then mret true
  else if pin =? GND then mret false
  else
    p ← gpioObtainPinInit pin;
    Chip_GPIO_GetPinState (gpioPort p) (gpioPin p).

(** ** sapi_uart.c *)
Definition uartRxReady (uart : Z) : M bool :=
  v ← inp (InLsr uart); mret (negb (Z.land v UART_LSR_RDR =? 0)).
Definition uartTxReady (uart : Z) : M bool :=
  v ← inp (InLsr uart); mret (negb (Z.land v UART_LSR_THRE =? 0)).
Definition uartRxRead (uart : Z) : M Z :=
  v ← inp (InRbr uart); mret (u8 v).
Definition uartTxWrite (uart value : Z) : M unit := emit (EvUartTx uart value).

(** [None]: no byte in the RX FIFO, [*receivedByte] untouched *)
Definition uartReadByte (uart : Z) : M (option Z) :=
  ready ← uartRxReady uart;
  if ready : bool then b ← uartRxRead uart; mret (Some b) else mret None.

Definition uartWriteByte (uart value : Z) : M unit :=
  loop (fun _ : unit =>
    ready ← uartTxReady uart;
    mret (if ready : bool then inr tt else inl tt)) tt ;;
  uartTxWrite uart value.

Definition uartWriteString (uart : Z) (str : list ascii) : M unit :=
  for_each str (fun c => uartWriteByte uart (ord c)).

Definition uartInit (uart baudRate : Z) : M unit :=
  emit (EvConfig "Chip_UART_Init" [uart]) ;;
  emit (EvConfig "Chip_UART_SetBaud" [uart; baudRate]) ;;
  emit (EvConfig "Chip_UART_SetupFIFOS" [uart; 7]) ;;
  _ ← inp (InRbr uart);
  emit (EvConfig "Chip_UART_TXEnable" [uart]) ;;
  p ← (if uart <? 0 then undef else access (lpcUarts !! Z.to_nat uart));
  let '(txPort, txPin, txFunc, (rxPort, rxPin, rxFunc)) := p in
  Chip_SCU_PinMux txPort txPin MD_PDN txFunc ;;
  Chip_SCU_PinMux rxPort rxPin (scu_modes [MD_PLN; MD_EZI; MD_ZI]) rxFunc ;;
  when (uart =? UART_485) (
    emit (EvConfig "Chip_UART_SetRS485Flags" [uart]) ;;
    let '(dPort, dPin, dFunc) := lpcUart485DirPin in
    Chip_SCU_PinMux dPort dPin MD_PDN dFunc).

(** ** sapi_i2c.c, sapi_spi.c *)
Definition i2cInit (i2cNumber clockRateHz : Z) : M bool :=
  if negb (i2cNumber =? I2C0) then mret false
  else
    emit (EvConfig "Chip_SCU_I2C0PinConfig" []) ;;
    emit (EvConfig "Chip_I2C_Init" [i2cNumber]) ;;
    emit (EvConfig "Chip_I2C_SetClockRate" [i2cNumber; clockRateHz]) ;;
    emit (EvConfig "Chip_I2C_SetMasterEventHandler" [i2cNumber]) ;;
    mret true.

(** the whole buffer goes out in one transfer ([Chip_I2CM_XferBlocking]) *)
Definition i2cWrite (i2cNumber i2cSlaveAddress : Z) (transmitDataBuffer : list Z) : M bool :=
  if negb (i2cNumber =? I2C0) then mret false
  else
    emit (EvI2c i2cSlaveAddress transmitDataBuffer) ;;
    v ← inp InI2c;
    mret (negb (v =? 0)).

Definition spiInit : M bool :=
  emit (EvConfig "Chip_SCU_PinMuxSet" [15; 4; SCU_MODE_PULLUP]) ;;
  emit (EvConfig "Chip_SCU_PinMuxSet"
    [1; 3; scu_modes [SCU_MODE_PULLUP; SCU_MODE_INBUFF_EN; SCU_MODE_ZIF_DIS; 5]]) ;;
  emit (EvConfig "Chip_SCU_PinMuxSet" [1; 4; scu_modes [SCU_MODE_PULLUP; 5]]) ;;
  emit (EvConfig "Chip_SSP_Init" []) ;;
  emit (EvConfig "Chip_SSP_Enable" []) ;;
  emit (EvConfig "Chip_SCU_PinMuxSet" [6; 1; SCU_MODE_PULLUP]) ;;
  Chip_GPIO_SetPinDIROutput 3 0 ;;
  mret true.

Definition spiWrite (buf : list Z) : M bool := emit (EvSpiTx buf) ;; mret true.
Definition spiRead1 : M Z := v ← inp InSsp; mret (u8 v).

(** ** sapi_keypad.c *)
Definition row_pin (k : keypad_t) (r : Z) : M Z := access (keypadRowPins k !! Z.to_nat r).
Definition col_pin (k : keypad_t) (c : Z) : M Z := access (keypadColPins k !! Z.to_nat c).

Definition keypadInit (rowPins : list Z) (rowSize : Z) (colPins : list Z) (colSize : Z) :
    M (keypad_t * bool) :=
  let retVal := negb ((rowSize <=? 0) || (colSize <=? 0)) in
  let k := mkKeypad rowPins rowSize colPins colSize in
  for_each (seqZ 0 rowSize) (fun i =>
    p ← row_pin k i; _ ← gpioInit p GPIO_OUTPUT; mret tt) ;;
  for_each (seqZ 0 colSize) (fun i =>
    p ← col_pin k i; _ ← gpioInit p GPIO_INPUT_PULLUP; mret tt) ;;
  mret (k, retVal).

Definition write_row (k : keypad_t) (r : Z) (level : bool) : M unit :=
  p ← row_pin k r; _ ← gpioWrite p level; mret tt.

(** one row of the search for the pressed key in column [c] *)
Definition keypad_row (k : keypad_t) (c r : Z) : M (option Z) :=
  when (0 <? r) (write_row k (r - 1) true) ;;
  write_row k r false ;;
  p ← col_pin k c;
  level ← gpioRead p;
  mret (if negb level then Some (u16 (r * keypadColSize k + c)) else None).

(** the key pressed, [None] when there is none *)
Definition keypadRead (k : keypad_t) : M (option Z) :=
  for_each (seqZ 0 (keypadRowSize k)) (fun r => write_row k r false) ;;
  first_some (seqZ 0 (keypadColSize k)) (fun c =>
    p ← col_pin k c;
    level ← gpioRead p;
    if negb level then
      delay 50 ;;
      for_each (seqZ 1 (keypadRowSize k - 1)) (fun r => write_row k r true) ;;
      first_some (seqZ 0 (keypadRowSize k)) (fun r => keypad_row k c r)
    else mret None).

(** ** sapi_board.c *)
Definition tickPowerSet (power : bool) : M unit :=
  emit (EvSysTick power) ;; set_systick power.

(** [SystemCoreClock] is a matter of [SysTick_Config] alone *)
Definition tickInit (tickRateMSvalue : Z) : M bool :=
  if tickRateMSvalue =? 0 then tickPowerSet false ;; mret false
  else if (1 <=? tickRateMSvalue) && (tickRateMSvalue <=? 50) then
    emit (EvConfig "SysTick_Config" [tickRateMSvalue]) ;;
    tickPowerSet true ;;
    mret true
  else mret false.

Definition boardInit : M unit :=
  emit (EvConfig "SystemCoreClockUpdate" []) ;;
  emit (EvConfig "cyclesCounterInit" []) ;;
  _ ← tickInit 1;
  _ ← gpioInit 0 GPIO_ENABLE;
  for_each [TEC1; TEC2; TEC3; TEC4] (fun p => _ ← gpioInit p GPIO_INPUT; mret tt) ;;
  for_each [LEDR; LEDG; LEDB; LED1; LED2; LED3] (fun p => _ ← gpioInit p GPIO_OUTPUT; mret tt).
End Sapi.

(* opaque to instance search *)
#[export] Hint Opaque tickRead delay countdown delayInaccurateUs Chip_SCU_PinMux
  Chip_GPIO_SetDir Chip_GPIO_SetPinDIROutput Chip_GPIO_SetPinDIRInput Chip_GPIO_SetPinState
  Chip_GPIO_GetPinState gpioObtainPinInit gpioInit gpioWrite gpioRead uartRxReady uartTxReady
  uartRxRead uartTxWrite uartReadByte uartWriteByte uartWriteString uartInit i2cInit i2cWrite
  spiInit spiWrite spiRead1 row_pin col_pin keypadInit write_row keypad_row keypadRead
  tickPowerSet tickInit boardInit : typeclass_instances.

(** ** Footprints *)
Definition pin_kind (pin : Z) : kind :=
  match gpioPinsInit !! Z.to_nat pin with
  | Some p => KPin (gpioPort p) (gpioPin p)
  | None => KConf
  end.

Definition board_kinds : list kind :=
  pin_kind <$> [0; TEC1; TEC2; TEC3; TEC4; LEDR; LEDG; LEDB; LED1; LED2; LED3].

Section SapiEff.
Context {E : Env}.

#[export] Instance tickRead_eff F K : Eff F K tickRead.
Proof. unfold tickRead. eff_solve. Qed.
#[export] Instance delay_eff F K d : Eff F K (delay d).
Proof. unfold delay. eff_solve. Qed.
Lemma countdown_Ret i w : countdown i w = Ret tt w.
Proof. induction i; simpl; [done|exact IHi]. Qed.
#[export] Instance countdown_eff F K i : Eff F K (countdown i).
Proof. intros w a w' H. rewrite countdown_Ret in H. injection H as _ <-. reflexivity. Qed.
#[export] Instance delayInaccurateUs_eff F K us : Eff F K (delayInaccurateUs us).
Proof. unfold delayInaccurateUs. apply _. Qed.
#[export] Instance scu_pinmux_eff F K a b c d : Sub [KConf] K -> Eff F K (Chip_SCU_PinMux a b c d).
Proof. intros. unfold Chip_SCU_PinMux. apply _. Qed.
#[export] Instance gpio_setdir_eff F K a b c : Sub [KConf] K -> Eff F K (Chip_GPIO_SetDir a b c).
Proof. intros. unfold Chip_GPIO_SetDir. apply _. Qed.
#[export] Instance gpio_dirout_eff F K a b : Sub [KConf] K -> Eff F K (Chip_GPIO_SetPinDIROutput a b).
Proof. intros. unfold Chip_GPIO_SetPinDIROutput. apply _. Qed.
#[export] Instance gpio_dirin_eff F K a b : Sub [KConf] K -> Eff F K (Chip_GPIO_SetPinDIRInput a b).
Proof. intros. unfold Chip_GPIO_SetPinDIRInput. apply _. Qed.
#[export] Instance pinstate_eff F K p q b : Sub [KPin p q] K -> Eff F K (Chip_GPIO_SetPinState p q b).
Proof. intros. unfold Chip_GPIO_SetPinState. apply _. Qed.
#[export] Instance getpinstate_eff F K p q : Eff F K (Chip_GPIO_GetPinState p q).
Proof. unfold Chip_GPIO_GetPinState. eff_solve. Qed.
#[export] Instance gpioObtain_eff F K p : Eff F K (gpioObtainPinInit p).
Proof. unfold gpioObtainPinInit. eff_solve. Qed.
#[export] Instance gpioRead_eff F K p : Eff F K (gpioRead p).
Proof. unfold gpioRead. eff_solve. Qed.
#[export] Instance uartRxReady_eff F K u : Eff F K (uartRxReady u).
Proof. unfold uartRxReady. eff_solve. Qed.
#[export] Instance uartTxReady_eff F K u : Eff F K (uartTxReady u).
Proof. unfold uartTxReady. eff_solve. Qed.
#[export] Instance uartRxRead_eff F K u : Eff F K (uartRxRead u).
Proof. unfold uartRxRead. eff_solve. Qed.
#[export] Instance uartReadByte_eff F K u : Eff F K (uartReadByte u).
Proof. unfold uartReadByte. eff_solve. Qed.
#[export] Instance uartTxWrite_eff F K u v : Sub [KUart u] K -> Eff F K (uartTxWrite u v).
Proof. intros. unfold uartTxWrite. apply _. Qed.
#[export] Instance uartWriteByte_eff F K u v : Sub [KUart u] K -> Eff F K (uartWriteByte u v).
Proof. unfold uartWriteByte. eff_solve. Qed.
#[export] Instance uartWriteString_eff F K u s : Sub [KUart u] K -> Eff F K (uartWriteString u s).
Proof. unfold uartWriteString. eff_solve. Qed.
#[export] Instance uartInit_eff F K u b : Sub [KConf] K -> Eff F K (uartInit u b).
Proof. unfold uartInit. eff_solve. Qed.
#[export] Instance i2cInit_eff F K n c : Sub [KConf] K -> Eff F K (i2cInit n c).
Proof. unfold i2cInit. eff_solve. Qed.
#[export] Instance i2cWrite_eff F K n a d : Sub [KI2c] K -> Eff F K (i2cWrite n a d).
Proof. unfold i2cWrite. eff_solve. Qed.
#[export] Instance spiInit_eff F K : Sub [KConf] K -> Eff F K spiInit.
Proof. unfold spiInit. eff_solve. Qed.
#[export] Instance spiWrite_eff F K b : Sub [KSpi] K -> Eff F K (spiWrite b).
Proof. unfold spiWrite. eff_solve. Qed.
#[export] Instance spiRead1_eff F K : Eff F K spiRead1.
Proof. unfold spiRead1. eff_solve. Qed.
#[export] Instance row_pin_eff F K k r : Eff F K (row_pin k r).
Proof. unfold row_pin. apply _. Qed.
#[export] Instance col_pin_eff F K k r : Eff F K (col_pin k r).
Proof. unfold col_pin. apply _. Qed.
#[export] Instance gpioWrite_eff F K p v : Sub [pin_kind p] K -> Eff F K (gpioWrite p v).
Proof.
  intros HK. unfold gpioWrite, gpioObtainPinInit.
  destruct (p =? VCC); [apply _|]. destruct (p =? GND); [apply _|].
  destruct (p <? 0); [done|]. apply eff_access_bind. intros r Hr.
  unfold pin_kind in HK. rewrite Hr in HK. eff_solve.
Qed.
#[export] Instance gpioInit_eff F K p c :
  Sub [KConf] K -> Sub [pin_kind p] K -> Eff F K (gpioInit p c).
Proof.
  intros HC HK. unfold gpioInit, gpioObtainPinInit.
  destruct (p =? VCC); [apply _|]. destruct (p =? GND); [apply _|].
  destruct (p <? 0); [done|]. apply eff_access_bind. intros r Hr.
  unfold pin_kind in HK. rewrite Hr in HK. destruct c; eff_solve.
Qed.
#[export] Instance write_row_eff F K k r b :
  Sub (pin_kind <$> keypadRowPins k) K -> Eff F K (write_row k r b).
Proof.
  intros HK. unfold write_row, row_pin. apply eff_access_bind. intros p Hp.
  assert (Sub [pin_kind p] K).
  { eapply sub_single; [exact HK|]. apply list_elem_of_fmap_2.
    by eapply list_elem_of_lookup_2. }
  eff_solve.
Qed.
#[export] Instance keypad_row_eff F K k c r :
  Sub (pin_kind <$> keypadRowPins k) K -> Eff F K (keypad_row k c r).
Proof. intros. unfold keypad_row. eff_solve. Qed.
#[export] Instance keypadRead_eff F K k :
  Sub (pin_kind <$> keypadRowPins k) K -> Eff F K (keypadRead k).
Proof. intros. unfold keypadRead. eff_solve. Qed.
#[export] Instance tickPowerSet_eff F K b :
  Sub [CSys] F -> Sub [KSleep] K -> Eff F K (tickPowerSet b).
Proof. unfold tickPowerSet. eff_solve. Qed.
#[export] Instance boardInit_eff F K :
  Sub [CSys] F -> Sub (KSleep :: KConf :: board_kinds) K -> Eff F K boardInit.
Proof.
  eff_op [CSys] (KSleep :: KConf :: board_kinds).
  unfold boardInit, tickInit. cbn [for_each]. eff_solve.
Qed.
End SapiEff.
