(* ===== verification/Serie.v ===== *)
(** * The serial lines: what is sent and what is received

    [tx u w]: the bytes written to UART [u], the latest first, with the triples of
    the functions that send.  [Cola u]: the promise of a UART's receiver, a queue of
    bytes that reads empty in order; [Recibe m l]: what a run of [m] takes from it. *)

From Stdlib Require Import ZArith Lia Bool Ascii String.
From stdpp Require Import base list strings numbers sets.
From stdpp Require Import options.
From S2P Require Import Prelude Machine Effects Triples Banco Sapi.

(** ** Sending *)

(** the bytes written to a UART, the latest first *)
Definition enviados (u : Z) (t : list event) : list Z :=
  omap (fun e => match e with EvUartTx v b => if u =? v then Some b else None | _ => None end) t.

Section Envio.
Context {E : Env}.

Definition tx (u : Z) (w : world) : list Z := enviados u (trace (hw w)).

Lemma tx_app u w w' t : trace (hw w') = t ++ trace (hw w) -> tx u w' = enviados u t ++ tx u w.
Proof. intros H. unfold tx, enviados. by rewrite H, omap_app. Qed.

Lemma keeps_tx {A} (m : M A) u : Eff [] [] m -> Keeps (tx u) m.
Proof.
  intros Hm w a w' H. destruct (eff_trace _ _ _ _ (Hm _ _ _ H)) as (t & Ht & Hk).
  rewrite (tx_app _ _ _ _ Ht). destruct Hk as [|e t He _]; [done|]. by apply not_elem_of_nil in He.
Qed.

Lemma tri_uartWriteByte u l b :
  tri (tx u) l (uartWriteByte u b) (fun _ l' => l' = b :: l).
Proof.
  unfold uartWriteByte. apply tri_bind, tri_keep; [apply keeps_tx; eff_solve|intros _].
  intros w a w' Hw [= _ <-]. match goal with |- tx u ?w' = _ =>
    rewrite (tx_app u w w' [EvUartTx u b] eq_refl), Hw end.
  unfold enviados. simpl. by rewrite Z.eqb_refl.
Qed.

Lemma tri_send_all u l data :
  tri (tx u) l (for_each data (uartWriteByte u)) (fun _ l' => l' = rev data ++ l).
Proof.
  revert l. induction data as [|b data IH]; intros l; simpl; [by apply tri_ret|].
  apply tri_bind. eapply tri_conseq; [apply tri_uartWriteByte|]. intros _ l' ->.
  eapply tri_conseq; [apply IH|]. intros _ l' ->. by rewrite <- app_assoc.
Qed.

Lemma tri_send_str u l s :
  tri (tx u) l (uartWriteString u s) (fun _ l' => l' = rev (ord <$> s) ++ l).
Proof.
  unfold uartWriteString. revert l. induction s as [|c s IH]; intros l; simpl; [by apply tri_ret|].
  apply tri_bind. eapply tri_conseq; [apply tri_uartWriteByte|]. intros _ l' ->.
  eapply tri_conseq; [apply IH|]. intros _ l' ->. by rewrite <- app_assoc.
Qed.
End Envio.

#[export] Hint Extern 1 (Keeps (tx _) _) => (apply keeps_tx; apply _) : typeclass_instances.

(** ** Receiving *)

(** The receiver of UART [u] is a queue of bytes: the status says ready only when a byte
    waits, a read of the buffer takes the oldest one, and everything else only lets
    bytes arrive. *)
Class Cola {E : Env} (u : Z) : Type := {
  cola : dev -> list Z;
  cola_lista d : Z.land (fst (dev_in (InLsr u) d)) UART_LSR_RDR <> 0 ->
    cola (snd (dev_in (InLsr u) d)) <> [];
  cola_lee d b q : cola d = b :: q ->
    u8 (fst (dev_in (InRbr u) d)) = b /\ exists n, cola (snd (dev_in (InRbr u) d)) = q ++ n;
  cola_in i d : i <> InRbr u -> exists n, cola (snd (dev_in i d)) = cola d ++ n;
  cola_out e d : exists n, cola (dev_out e d) = cola d ++ n
}.

Section Recepcion.
Context {E : Env} (u : Z) {C : Cola u}.

Definition rx (w : world) : list Z := cola (device (hw w)).

(** a run of [m] takes from the line exactly the bytes [l a] of its result *)
Class Recibe {A} (m : M A) (l : A -> list Z) : Prop :=
  recibe w a w' : m w = Ret a w' -> exists n, rx w ++ n = l a ++ rx w'.

(** it takes none *)
Class NoRecibe {A} (m : M A) : Prop :=
  no_recibe w a w' : m w = Ret a w' -> exists n, rx w' = rx w ++ n.

#[export] Instance norec_ret {A} (a : A) : NoRecibe (mret a).
Proof. intros w x w' [= _ <-]. exists []. by rewrite app_nil_r. Qed.
#[export] Instance norec_bind {A B} (m : M A) (f : A -> M B) :
  NoRecibe m -> (forall a, NoRecibe (f a)) -> NoRecibe (m ≫= f).
Proof.
  intros Hm Hf w b w'' (a & w' & H1 & H2)%bind_Ret.
  destruct (Hm _ _ _ H1) as [n1 E1], (Hf a _ _ _ H2) as [n2 E2].
  exists (n1 ++ n2). by rewrite E2, E1, app_assoc.
Qed.
#[export] Instance norec_gets {A} (f : world -> A) : NoRecibe (gets f).
Proof. intros w x w' [= _ <-]. exists []. by rewrite app_nil_r. Qed.
#[export] Instance norec_when b m : NoRecibe m -> NoRecibe (when b m).
Proof. destruct b; simpl; [done|apply _]. Qed.
#[export] Instance norec_set_tick t : NoRecibe (set_tick t).
Proof. intros w x w' [= _ <-]. exists []. by rewrite app_nil_r. Qed.
#[export] Instance norec_emit e : NoRecibe (emit e).
Proof. intros w x w' [= _ <-]. exact (cola_out e (device (hw w))). Qed.
Lemma norec_inp i : i <> InRbr u -> NoRecibe (inp i).
Proof.
  intros Hi w x w' H. unfold inp in H. pose proof (cola_in i (device (hw w)) Hi) as Hc.
  destruct (dev_in i (device (hw w))) as [v d]. injection H as _ <-. exact Hc.
Qed.
#[export] Instance norec_loop {S R} (body : S -> M (S + R)) s :
  (forall s, NoRecibe (body s)) -> NoRecibe (loop body s).
Proof.
  intros Hb w x w' H. unfold loop in H.
  eapply (loop_n_inv (fun _ w' => exists n, rx w' = rx w ++ n) (fun _ w' => exists n, rx w' = rx w ++ n));
    [| | |exact H].
  - intros s1 w1 s2 w2 [n1 E1] H2. destruct (Hb _ _ _ _ H2) as [n2 E2].
    exists (n1 ++ n2). by rewrite E2, E1, app_assoc.
  - intros s1 w1 y w2 [n1 E1] H2. destruct (Hb _ _ _ _ H2) as [n2 E2].
    exists (n1 ++ n2). by rewrite E2, E1, app_assoc.
  - exists []. by rewrite app_nil_r.
Qed.
#[export] Instance norec_for_each {A} (l : list A) (f : A -> M unit) :
  (forall a, NoRecibe (f a)) -> NoRecibe (for_each l f).
Proof. intros Hf. induction l as [|a l IH]; simpl; apply _. Qed.

#[export] Instance norec_tickRead : NoRecibe tickRead.
Proof. unfold tickRead. apply norec_bind; [by apply norec_inp|]. intros n. apply _. Qed.
#[export] Instance norec_delay ms : NoRecibe (delay ms).
Proof. unfold delay. apply _. Qed.
#[export] Instance norec_uartWriteByte v b : NoRecibe (uartWriteByte v b).
Proof.
  unfold uartWriteByte, uartTxWrite. apply norec_bind; [|intros; apply _]. apply norec_loop. intros s.
  unfold uartTxReady. apply norec_bind; [|intros; apply _].
  apply norec_bind; [by apply norec_inp|]. intros; apply _.
Qed.
#[export] Instance norec_uartWriteString v s : NoRecibe (uartWriteString v s).
Proof. unfold uartWriteString. apply _. Qed.

Lemma norec_recibe {A} (m : M A) : NoRecibe m -> Recibe m (fun _ => []).
Proof. intros H w a w' Hr. destruct (H _ _ _ Hr) as [n E1]. exists n. by rewrite E1. Qed.

(** a byte, or none when the line is empty *)
#[export] Instance recibe_uartReadByte : Recibe (uartReadByte u) (fun o => option_list o).
Proof.
  intros w o w' H. unfold uartReadByte in H. apply bind_Ret in H as (r & w1 & H1 & H2).
  unfold uartRxReady, inp in H1. apply bind_Ret in H1 as (v & w0 & H0 & H1).
  pose proof (cola_lista (device (hw w))) as Hl. pose proof (cola_in (InLsr u) (device (hw w)) ltac:(done)) as [n1 E1].
  destruct (dev_in (InLsr u) (device (hw w))) as [v' d] eqn:Hd. injection H0 as -> <-.
  injection H1 as <- <-. cbn [fst snd] in *.
  destruct (Z.eqb_spec (Z.land v UART_LSR_RDR) 0) as [|Hr]; cbn [negb] in H2.
  - injection H2 as <- <-. exists n1. exact (eq_sym E1).
  - specialize (Hl Hr). apply bind_Ret in H2 as (b & w2 & H2 & H3). injection H3 as <- <-.
    unfold uartRxRead, inp in H2. apply bind_Ret in H2 as (v2 & w3 & H2 & H3).
    cbn [device hw set_hw] in H2. injection H3 as <- <-.
    destruct (cola d) as [|b q] eqn:Hq; [done|].
    destruct (cola_lee d b q Hq) as [Hb [n2 E2]].
    destruct (dev_in (InRbr u) d) as [v3 d3]. injection H2 as -> <-. cbn [fst snd] in *. rewrite Hb.
    exists (n1 ++ n2). unfold rx. cbn [device hw set_hw option_list app].
    rewrite E2, (app_assoc _ n1 n2), <- E1. done.
Qed.

(** the bytes taken are in the order of the runs *)
Lemma recibe_bind {A B} (m : M A) (f : A -> M B) l1 l2 l :
  Recibe m l1 -> (forall a, Recibe (f a) (l2 a)) ->
  (forall w a w' b w'', m w = Ret a w' -> f a w' = Ret b w'' -> l b = l1 a ++ l2 a b) -> Recibe (m ≫= f) l.
Proof.
  intros Hm Hf Hl w b w'' (a & w' & H1 & H2)%bind_Ret.
  destruct (Hm _ _ _ H1) as [n1 E1], (Hf a _ _ _ H2) as [n2 E2].
  exists (n1 ++ n2). rewrite (Hl _ _ _ _ _ H1 H2), app_assoc, E1, <- !app_assoc. by rewrite E2.
Qed.

Lemma recibe_skip {A B} (m : M A) (f : A -> M B) l :
  NoRecibe m -> (forall a, Recibe (f a) l) -> Recibe (m ≫= f) l.
Proof.
  intros Hm Hf. apply (recibe_bind _ _ (fun _ => []) (fun _ => l)); [by apply norec_recibe|done|done].
Qed.

(** a loop whose state carries the bytes taken so far *)
Lemma recibe_loop {S R} (body : S -> M (S + R)) s (I : S -> Prop) (lS : S -> list Z)
    (lR : R -> list Z) :
  I s -> lS s = [] ->
  (forall s w r w', I s -> body s w = Ret r w' -> exists n l, rx w ++ n = l ++ rx w' /\
     match r with inl s' => I s' /\ lS s' = lS s ++ l | inr x => lR x = lS s ++ l end) ->
  Recibe (loop body s) lR.
Proof.
  intros HI Hs Hb w x w' H. unfold loop in H.
  eapply (loop_n_inv (fun s1 w1 => I s1 /\ exists n, rx w ++ n = lS s1 ++ rx w1)
            (fun x w1 => exists n, rx w ++ n = lR x ++ rx w1)); [| | |exact H].
  - intros s1 w1 s2 w2 [HI1 [n1 E1]] H2. destruct (Hb _ _ _ _ HI1 H2) as (n2 & l & E2 & HI2 & E3).
    split; [done|]. exists (n1 ++ n2). rewrite E3, app_assoc, E1, <- !app_assoc. by rewrite E2.
  - intros s1 w1 y w2 [HI1 [n1 E1]] H2. destruct (Hb _ _ _ _ HI1 H2) as (n2 & l & E2 & E3).
    exists (n1 ++ n2). rewrite E3, app_assoc, E1, <- !app_assoc. by rewrite E2.
  - split; [done|]. exists []. rewrite Hs. by rewrite app_nil_r.
Qed.
End Recepcion.

#[global] Arguments Recibe {E} u {C} {A} m l.
#[global] Arguments NoRecibe {E} u {C} {A} m.
#[global] Arguments rx {E} u {C} w.
