(* ===== verification/SapiResto.v ===== *)
(** * The rest of the sAPI files the lock uses

    The functions of sapi_delay.c, sapi_gpio.c, sapi_uart.c, sapi_i2c.c and sapi_spi.c that
    the lock itself does not call, and PLC_Hardware.c, which calls some of them: non-blocking
    delays, UART interrupts and their callbacks, bus reads.  Callbacks are numbers; what the
    interrupt handler calls is its result. *)

From Stdlib Require Import ZArith Lia Bool Ascii String.
From stdpp Require Import base list numbers strings.
From stdpp Require Import options.
From S2P Require Import Prelude Machine Effects Triples Banco Sapi Serie.

(** ** sapi_delay.c *)

Record delay_t : Type := mkDelay { startTime : Z; duration : Z; running : bool }.

(** [tick_t] has 64 bits; [tickRateMS] is 1 *)
Definition delayInit (d : delay_t) (duration : Z) : delay_t :=
  mkDelay (startTime d) (u64 duration / tickRateMS) false.
Definition delayWrite (d : delay_t) (duration : Z) : delay_t :=
  mkDelay (startTime d) (u64 duration / tickRateMS) (running d).

Section Resto.
Context {E : Env}.

Definition delayInaccurateMs (delay_ms : Z) : M unit := countdown (Z.to_nat (u64 (INACCURATE_TO_MS * delay_ms))).

Definition delayRead (d : delay_t) : M (bool * delay_t) :=
  if negb (running d) then
    t ← tickRead; mret (false, mkDelay t (duration d) true)
  else
    t ← tickRead;
    mret (if duration d <=? u64 (t - startTime d)
          then (true, mkDelay (startTime d) (duration d) false) else (false, d)).

(** ** sapi_gpio.c *)

Definition gpioToggle (pin : Z) : M bool := v ← gpioRead pin; gpioWrite pin (negb v).

(** ** sapi_uart.c *)

Definition uartRxFlush (uart : Z) : M unit :=
  loop (fun _ : unit =>
    ready ← uartRxReady uart;
    if ready : bool then _ ← uartRxRead uart; mret (inl tt) else mret (inr tt)) tt.

(** [byteArray[i]] for [i] from 0 *)
Definition uartWriteByteArray (uart : Z) (byteArray : list Z) (byteArrayLen : nat) : M unit :=
  for_each (seq 0 byteArrayLen) (fun i => b ← access (byteArray !! i); uartWriteByte uart b).

Definition UART_PARITY_NONE : Z := 0.
Definition UART_PARITY_ODD : Z := 0.
Definition UART_PARITY_EVEN : Z := 1.
Definition UART_LCR_PARITY_EN : Z := Z.shiftl 1 3.
Definition UART_LCR_PARITY_DIS : Z := 0.
Definition UART_LCR_PARITY_ODD : Z := 0.
Definition UART_LCR_PARITY_EVEN : Z := Z.shiftl 1 4.

Definition lcr_config (dataBits parity stopBits : Z) : Z :=
  let config := Z.lor (u32 (dataBits - 5)) (u32 (Z.shiftl (stopBits - 1) 2)) in
  if negb (parity =? UART_PARITY_NONE) then
    let config := Z.lor config UART_LCR_PARITY_EN in
    let config := if parity =? UART_PARITY_EVEN then Z.lor config UART_LCR_PARITY_EVEN else config in
    if parity =? UART_PARITY_ODD then Z.lor config UART_LCR_PARITY_ODD else config
  else Z.lor config UART_LCR_PARITY_DIS.

Definition uartInit2 (uart baudRate dataBits parity stopBits : Z) : M unit :=
  emit (EvConfig "Chip_UART_Init" [uart]) ;;
  emit (EvConfig "Chip_UART_ConfigData" [uart; lcr_config dataBits parity stopBits]) ;;
  emit (EvConfig "Chip_UART_SetBaud" [uart; baudRate]) ;;
  emit (EvConfig "Chip_UART_SetupFIFOS" [uart; 7]) ;;
  _ ← inp (InRbr uart);
  emit (EvConfig "Chip_UART_TXEnable" [uart]) ;;
  p ← (if uart <? 0 then undef else access (lpcUarts !! Z.to_nat uart));
  let '(txPort, txPin, txFunc, (rxPort, rxPin, rxFunc)) := p in
  Chip_SCU_PinMux txPort txPin MD_PDN txFunc ;;
  Chip_SCU_PinMux rxPort rxPin (scu_modes [MD_PLN; MD_EZI; MD_ZI]) rxFunc ;;
  when (uart =? UART_485) (
    emit (EvConfig "Chip_UART_SetRS485Flags" [uart]) ;;
    let '(dPort, dPin, dFunc) := lpcUart485DirPin in
    Chip_SCU_PinMux dPort dPin MD_PDN dFunc).

(** *** Interrupts *)

Definition UART_GPIO : Z := 0.
Definition UART_USB : Z := 3.
Definition UART_ENET : Z := 4.
Definition UART_232 : Z := 5.
Definition UART_IER_RBRINT : Z := 1.
Definition UART_IER_THREINT : Z := 2.
Definition UART_IER_RLSINT : Z := 4.

Inductive uartEvents_t : Type := UART_RECEIVE | UART_TRANSMITER_FREE.

(** the USART behind a UART, whose interrupt enable register the callbacks set *)
Definition usart (uart : Z) : Z :=
  if uart <=? 1 then 0 else if uart =? 2 then 1 else if uart <=? 4 then 2 else 3.

(** a callback and its parameter; [None] is the null pointer *)
Record uart_irq : Type := mkIrq {
  rxIsrCallbackUART0 : option (Z * Z); rxIsrCallbackUART2 : option (Z * Z); rxIsrCallbackUART3 : option (Z * Z);
  txIsrCallbackUART0 : option (Z * Z); txIsrCallbackUART2 : option (Z * Z); txIsrCallbackUART3 : option (Z * Z);
  ier : Z -> Z
}.

Definition con_ier (c : uart_irq) (f : Z -> Z) : uart_irq :=
  mkIrq (rxIsrCallbackUART0 c) (rxIsrCallbackUART2 c) (rxIsrCallbackUART3 c)
        (txIsrCallbackUART0 c) (txIsrCallbackUART2 c) (txIsrCallbackUART3 c) f.
Definition Chip_UART_IntEnable (uart mask : Z) (c : uart_irq) : uart_irq :=
  con_ier c (fun u => if u =? usart uart then Z.lor (ier c u) mask else ier c u).
Definition Chip_UART_IntDisable (uart mask : Z) (c : uart_irq) : uart_irq :=
  con_ier c (fun u => if u =? usart uart then Z.ldiff (ier c u) mask else ier c u).

Definition evento_mask (event : uartEvents_t) : Z :=
  match event with
  | UART_RECEIVE => Z.lor UART_IER_RBRINT UART_IER_RLSINT
  | UART_TRANSMITER_FREE => UART_IER_THREINT
  end.

Definition uartCallbackSet (uart : Z) (event : uartEvents_t) (callbackFunc : option Z) (callbackParam : Z)
    (c : uart_irq) : uart_irq :=
  match callbackFunc with
  | None => c
  | Some f =>
      let nuevo (b : bool) (viejo : option (Z * Z)) := if b then Some (f, callbackParam) else viejo in
      let en0 := (uart =? UART_GPIO) || (uart =? UART_485) in
      let en2 := (uart =? UART_USB) || (uart =? UART_ENET) in
      let en3 := uart =? UART_232 in
      Chip_UART_IntEnable uart (evento_mask event)
        match event with
        | UART_RECEIVE =>
            mkIrq (nuevo en0 (rxIsrCallbackUART0 c)) (nuevo en2 (rxIsrCallbackUART2 c)) (nuevo en3 (rxIsrCallbackUART3 c))
              (txIsrCallbackUART0 c) (txIsrCallbackUART2 c) (txIsrCallbackUART3 c) (ier c)
        | UART_TRANSMITER_FREE =>
            mkIrq (rxIsrCallbackUART0 c) (rxIsrCallbackUART2 c) (rxIsrCallbackUART3 c)
              (nuevo en0 (txIsrCallbackUART0 c)) (nuevo en2 (txIsrCallbackUART2 c)) (nuevo en3 (txIsrCallbackUART3 c)) (ier c)
        end
  end.

Definition uartCallbackClr (uart : Z) (event : uartEvents_t) (c : uart_irq) : uart_irq :=
  Chip_UART_IntDisable uart (evento_mask event) c.

(** the callbacks an interrupt of [uart] calls, with the line status read *)
Definition uartProcessIRQ (uart : Z) (c : uart_irq) : M (list (Z * Z)) :=
  status ← inp (InLsr uart);
  let llama (b : bool) (f : option (Z * Z)) := if b then option_list f else [] in
  let rx := negb (Z.land status UART_LSR_RDR =? 0) in
  let tx := negb (Z.land status UART_LSR_THRE =? 0) && negb (Z.land (ier c (usart uart)) UART_IER_THREINT =? 0) in
  mret (llama (rx && (uart =? UART_GPIO)) (rxIsrCallbackUART0 c) ++
        llama (rx && (uart =? UART_USB)) (rxIsrCallbackUART2 c) ++
        llama (rx && (uart =? UART_232)) (rxIsrCallbackUART3 c) ++
        llama (tx && (uart =? UART_GPIO)) (txIsrCallbackUART0 c) ++
        llama (tx && (uart =? UART_USB)) (txIsrCallbackUART2 c) ++
        llama (tx && (uart =? UART_232)) (txIsrCallbackUART3 c)).

Definition UART0_IRQHandler : uart_irq -> M (list (Z * Z)) := uartProcessIRQ UART_GPIO.
Definition UART2_IRQHandler : uart_irq -> M (list (Z * Z)) := uartProcessIRQ UART_USB.
Definition UART3_IRQHandler : uart_irq -> M (list (Z * Z)) := uartProcessIRQ UART_232.

Definition uartInterrupt (uart : Z) (enable : bool) : M unit :=
  if enable then
    emit (EvConfig "NVIC_SetPriority" [usart uart; 5]) ;; emit (EvConfig "NVIC_EnableIRQ" [usart uart])
  else emit (EvConfig "NVIC_DisableIRQ" [usart uart]).
Definition uartSetPendingInterrupt (uart : Z) : M unit := emit (EvConfig "NVIC_SetPendingIRQ" [usart uart]).
Definition uartClearPendingInterrupt (uart : Z) : M unit := emit (EvConfig "NVIC_ClearPendingIRQ" [usart uart]).

(** ** sapi_i2c.c, sapi_spi.c: the bytes read come from the bus *)

Fixpoint lee_bytes (m : M Z) (n : nat) : M (list Z) :=
  match n with O => mret [] | S n => b ← m; l ← lee_bytes m n; mret (b :: l) end.

(** one transfer: the bytes sent, then those received, and whether it was done *)
Definition i2cWriteRead (i2cNumber i2cSlaveAddress : Z) (dataToReadBuffer : list Z) (receiveDataBufferSize : nat) :
    M (bool * list Z) :=
  if negb (i2cNumber =? I2C0) then mret (false, [])
  else
    emit (EvI2c i2cSlaveAddress dataToReadBuffer) ;;
    l ← lee_bytes (v ← inp InI2c; mret (u8 v)) receiveDataBufferSize;
    v ← inp InI2c;
    mret (negb (v =? 0), l).

Definition i2cRead (i2cNumber i2cSlaveAddress : Z) (receiveDataBufferSize : nat) : M (bool * list Z) :=
  i2cWriteRead i2cNumber i2cSlaveAddress [] receiveDataBufferSize.

Definition spiRead (spi : Z) (bufferSize : nat) : M (bool * list Z) :=
  if spi =? 0 then l ← lee_bytes spiRead1 bufferSize; mret (true, l) else mret (false, []).

(** ** PLC_Hardware.c, for the EDU-CIAA *)

Definition GPIO (n : nat) : Z := nth n [32; 15; 31; 14; 30; 13] 0.
Definition PLC_DI : list Z := [TEC1; TEC2; TEC3; TEC4; GPIO 0; GPIO 1; GPIO 2; GPIO 3].
Definition PLC_DO : list Z := [LEDR; LEDG; LEDB; LED1; LED2; LED3; GPIO 4; GPIO 5].

Definition PLC_DIs_Init : M unit := for_each PLC_DI (fun p => _ ← gpioInit p GPIO_INPUT; mret tt).
Definition PLC_DOs_Init : M unit := for_each PLC_DO (fun p => _ ← gpioInit p GPIO_OUTPUT; mret tt).
Definition PLC_DIOs_Init : M unit := PLC_DOs_Init ;; PLC_DIs_Init.

(** the pins [l], the first at bit [i] *)
Fixpoint lee_puerto (l : list Z) (i : Z) (status : Z) : M Z :=
  match l with
  | [] => mret status
  | p :: l => v ← gpioRead p; lee_puerto l (i + 1) (if v : bool then Z.lor status (Z.shiftl 1 i) else status)
  end.
Definition PLC_Read_DIs : M Z := lee_puerto PLC_DI 0 0.

Definition PLC_Write_DOs (salidas : Z) : M unit :=
  for_each (seq 0 8) (fun i =>
    p ← access (PLC_DO !! i);
    _ ← gpioWrite p (negb (Z.land salidas (Z.shiftl 1 (Z.of_nat i)) =? 0)); mret tt).
End Resto.

(** ** The non-blocking delay *)

(** one read at time [t] *)
Definition delay_paso (d : delay_t) (t : Z) : bool * delay_t :=
  if negb (running d) then (false, mkDelay t (duration d) true)
  else if duration d <=? u64 (t - startTime d)
       then (true, mkDelay (startTime d) (duration d) false) else (false, d).

Lemma delayRead_paso {E : Env} d : delayRead d = (t ← tickRead; mret (delay_paso d t)).
Proof. unfold delayRead, delay_paso. by destruct (running d). Qed.

Fixpoint delay_pasos (d : delay_t) (ts : list Z) : list bool :=
  match ts with [] => [] | t :: ts => let '(b, d) := delay_paso d t in b :: delay_pasos d ts end.

(** The first read starts the delay; the reads answer no until the time asked for has gone
    by, then yes once, and the next read starts it again. *)
Lemma delay_vence d t0 ts t t1 :
  running d = false -> Forall (fun x => u64 (x - t0) < duration d) ts -> duration d <= u64 (t - t0) ->
  delay_pasos d (t0 :: ts ++ [t; t1]) = false :: replicate (length ts) false ++ [true; false].
Proof.
  intros Hr Hts Ht. cbn [delay_pasos]. unfold delay_paso at 1. rewrite Hr. cbn [negb]. f_equal.
  set (d' := mkDelay t0 (duration d) true).
  induction Hts as [|x ts Hx _ IH]; cbn [app delay_pasos length replicate].
  - unfold delay_paso at 1. cbn [d' running negb duration startTime]. by rewrite (proj2 (Z.leb_le _ _)).
  - unfold delay_paso at 1. cbn [d' running negb duration startTime].
    rewrite (proj2 (Z.leb_gt _ _)) by done. fold d'. by rewrite IH.
Qed.

(** ** The UARTs *)

(** exactly the first [n] bytes go out, in order *)
Lemma tri_uartWriteByteArray {E : Env} u l data n :
  (n <= length data)%nat ->
  tri (tx u) l (uartWriteByteArray u data n) (fun _ l' => l' = rev (take n data) ++ l).
Proof.
  intros Hn. unfold uartWriteByteArray.
  enough (H : forall k l, (k + n <= length data)%nat ->
    tri (tx u) l (for_each (seq k n) (fun i => b ← access (data !! i); uartWriteByte u b))
      (fun _ l' => l' = rev (take n (drop k data)) ++ l)) by apply (H O l Hn).
  clear l Hn. induction n as [|n IH]; intros k l Hk; [by apply tri_ret|]. cbn [seq for_each].
  destruct (lookup_lt_is_Some_2 data k) as [b Hb]; [lia|]. rewrite (drop_S _ b k Hb), Hb. cbn [access take rev].
  apply tri_bind. eapply tri_conseq; [apply (tri_uartWriteByte u l b)|]. intros _ l' ->.
  eapply tri_conseq; [apply IH; lia|]. intros _ l' ->. by rewrite <- app_assoc.
Qed.

(** the enumeration gives odd parity the number of no parity: it cannot be asked for *)
Lemma paridad_impar dataBits stopBits :
  lcr_config dataBits UART_PARITY_ODD stopBits = lcr_config dataBits UART_PARITY_NONE stopBits.
Proof. done. Qed.

(** a reception callback set on the RS-232 line is called, with its parameter, by every
    interrupt of that line that finds a byte, and by no other line *)
Lemma callback_recibe {E : Env} f a c w v w' :
  inp (InLsr UART_232) w = Ret v w' -> Z.land v UART_LSR_RDR <> 0 -> Z.land v UART_LSR_THRE = 0 ->
  UART3_IRQHandler (uartCallbackSet UART_232 UART_RECEIVE (Some f) a c) w = Ret [(f, a)] w'.
Proof.
  intros Hi Hr Ht. unfold UART3_IRQHandler, uartProcessIRQ. unfold mbind, M_bind. rewrite Hi.
  rewrite (proj2 (Z.eqb_neq _ _) Hr), Ht. reflexivity.
Qed.

(** the transmission callback waits for its enable bit, which [uartCallbackClr] takes away *)
Lemma callback_sin_permiso {E : Env} c w v w' :
  inp (InLsr UART_232) w = Ret v w' -> Z.land v UART_LSR_RDR = 0 ->
  UART3_IRQHandler (uartCallbackClr UART_232 UART_TRANSMITER_FREE c) w = Ret [] w'.
Proof.
  intros Hi Hr. unfold UART3_IRQHandler, uartProcessIRQ. unfold mbind, M_bind. rewrite Hi, Hr.
  assert (E0 : Z.land (ier (uartCallbackClr UART_232 UART_TRANSMITER_FREE c) (usart UART_232)) UART_IER_THREINT = 0).
  { change (ier (uartCallbackClr _ _ c) (usart UART_232)) with (Z.ldiff (ier c (usart UART_232)) UART_IER_THREINT).
    rewrite Z.land_comm. apply Z.bits_inj. intros i. rewrite Z.land_spec, Z.ldiff_spec, Z.bits_0.
    by destruct (Z.testbit UART_IER_THREINT i), (Z.testbit (ier c (usart UART_232)) i). }
  rewrite E0. by destruct (Z.land v UART_LSR_THRE =? 0).
Qed.

(** ** The inputs of a PLC *)

(** the port read is a byte *)
Lemma PLC_Read_DIs_byte {E : Env} w z w' : PLC_Read_DIs w = Ret z w' -> 0 <= z < 256.
Proof.
  unfold PLC_Read_DIs.
  assert (H : forall l i s w, 0 <= i -> i + Z.of_nat (length l) <= 8 -> 0 <= s < 256 ->
    lee_puerto l i s w = Ret z w' -> 0 <= z < 256).
  { induction l as [|p l IH]; intros i s w0 Hi Hl Hs; cbn [lee_puerto]; [by intros [= <- _]|].
    intros (v & w1 & _ & H1)%bind_Ret. cbn [length] in Hl.
    apply (IH (i + 1) (if v : bool then Z.lor s (Z.shiftl 1 i) else s) w1); [lia|lia| |done].
    destruct v; [|done]. rewrite Z.shiftl_1_l.
    assert (E1 : Z.lor s (2 ^ i) mod 2 ^ 8 = Z.lor s (2 ^ i)).
    { rewrite <- Z.land_ones by lia. rewrite Z.land_lor_distr_l, !Z.land_ones by lia.
      rewrite !Z.mod_small; [done| |lia]. split; [apply Z.pow_nonneg; lia|]. apply Z.pow_lt_mono_r; lia. }
    rewrite <- E1. by apply Z.mod_pos_bound. }
  intros Hz. by apply (H PLC_DI 0 0 w).
Qed.
