(* ===== verification/Vista.v ===== *)
(** * What a device sees

    A device on the pins is a function of the writes it has received: [vista mira x0 w]
    folds [mira] over the trace of the chip.  [hace mira x0 m P f]: a call of [m] returns,
    with a result in [P], and does [f] to what the device has seen. *)

From Stdlib Require Import ZArith Lia Bool Ascii String.
From stdpp Require Import base list numbers strings.
From stdpp Require Import options.
From S2P Require Import Prelude Machine Effects Sapi.

(** [for] over a list with a state that each iteration hands to the next *)
Fixpoint fold_m {E : Env} {A S} (l : list A) (s : S) (f : S -> A -> M S) : M S :=
  match l with
  | [] => mret s
  | a :: l => s ← f s a; fold_m l s f
  end.

Section Vista.
Context {E : Env} {X : Type} (mira : event -> X -> X) (x0 : X).

Definition vista (w : world) : X := foldr mira x0 (trace (hw w)).

Definition hace {A} (m : M A) (P : A -> Prop) (f : X -> X) : Prop :=
  forall w, exists a w', m w = Ret a w' /\ P a /\ vista w' = f (vista w).

Lemma hace_ret {A} (a : A) (P : A -> Prop) : P a -> hace (mret a) P id.
Proof. intros H w. by exists a, w. Qed.

Lemma hace_bind {A B} (m : M A) (k : A -> M B) P Q f g :
  hace m P f -> (forall a, P a -> hace (k a) Q g) -> hace (m ≫= k) Q (fun l => g (f l)).
Proof.
  intros Hm Hk w. destruct (Hm w) as (a & w1 & E1 & Ha & F1). destruct (Hk a Ha w1) as (b & w2 & E2 & Hb & F2).
  exists b, w2. split; [|split; [done|by rewrite F2, F1]]. unfold mbind, M_bind. by rewrite E1.
Qed.

(** the same for [m ;; k] with nothing to know of the first result *)
Lemma hace_luego {A B} (m : M A) (k : M B) Q f g :
  hace m (fun _ => True) f -> hace k Q g -> hace (m ;; k) Q (fun l => g (f l)).
Proof. intros Hm Hk. by eapply hace_bind. Qed.

Lemma hace_igual {A} (m : M A) P f g : hace m P f -> (forall l, f l = g l) -> hace m P g.
Proof. intros Hm Hf w. destruct (Hm w) as (a & w' & ? & ? & F). exists a, w'. by rewrite <- Hf. Qed.

Lemma hace_countdown n : hace (countdown n) (fun _ => True) id.
Proof. intros w. exists tt, w. split; [apply countdown_Ret|by split]. Qed.

Lemma hace_emit e : hace (emit e) (fun _ => True) (mira e).
Proof. intros w. eexists tt, _. split; [reflexivity|by split]. Qed.

(** an input gives what the device says, and is not seen *)
Lemma hace_inp p : hace (v ← inp p; mret (negb (v =? 0)))
  (fun v => exists d, v = negb (fst (dev_in p d) =? 0)) id.
Proof.
  intros w. unfold mbind, M_bind, inp. cbn.
  destruct (dev_in p (device (hw w))) as [v d] eqn:Ep.
  eexists _, _. split; [reflexivity|]. split; [|done]. exists (device (hw w)). by rewrite Ep.
Qed.

(** a loop over a list known beforehand *)
Lemma hace_for_each {A} (l : list A) (m : A -> M unit) (f : X -> A -> X) :
  (forall a, hace (m a) (fun _ => True) (fun x => f x a)) ->
  hace (for_each l m) (fun _ => True) (fun x => foldl f x l).
Proof.
  intros Hm. induction l as [|a l IH]; [by apply hace_ret|].
  eapply hace_igual; [cbn [for_each]; eapply hace_luego; [apply Hm|apply IH]|done].
Qed.
End Vista.

(** ** A board with nothing on its pins but pull-ups, after the writes [t] *)
Definition env_libre : Env := {| dev := unit; dev_in := fun _ d => (1, d); dev_out := fun _ d => d; env_fuel := 1 |}.

Definition mundo_con (t : list event) : @world env_libre :=
  @mkWorld env_libre (@mkHw env_libre tt 0 true t)
    (mkDisplay (replicate 1024 0) 0 0) (mkTeclado [] 0 false 65535) [] false
    (mkScan ST_IDLE 0 0 [] 0 0 0) (mkMef REPOSO [] 0 0 (SpecFloat.S754_zero false) [] 0 false false).
