(* ===== verification/Display.v ===== *)
(** * display.c: the SSD1306 text display

    A 1024-byte frame buffer (eight pages of 128 columns), a 6x8 font, text
    placed by column and line, and the I2C transfers that copy the buffer to
    the controller. *)

From Stdlib Require Import ZArith Lia Bool Ascii String.
From stdpp Require Import base list strings numbers sets.
From stdpp Require Import options.
From S2P Require Import Prelude Machine Effects Banco Sapi.

Definition SSD1306_I2C_ADDR : Z := 60.     (* 0x3C *)

(** [font6x8.inc]: the glyphs of the characters 32 to 126, six columns each. *)
Definition font6x8 : list (list Z) := [
  [0; 0; 0; 0; 0; 0]; [0; 0; 95; 0; 0; 0]; [0; 7; 0; 7; 0; 0]; [20; 127; 20; 127; 20; 0]; [36;
  42; 127; 42; 18; 0]; [35; 19; 8; 100; 98; 0]; [54; 73; 85; 34; 80; 0]; [0; 5; 3; 0; 0; 0]; [0;
  28; 34; 65; 0; 0]; [0; 65; 34; 28; 0; 0]; [20; 8; 62; 8; 20; 0]; [8; 8; 62; 8; 8; 0]; [0; 80;
  48; 0; 0; 0]; [8; 8; 8; 8; 8; 0]; [0; 96; 96; 0; 0; 0]; [32; 16; 8; 4; 2; 0]; [62; 81; 73; 69;
  62; 0]; [0; 66; 127; 64; 0; 0]; [66; 97; 81; 73; 70; 0]; [33; 65; 69; 75; 49; 0]; [24; 20; 18;
  127; 16; 0]; [39; 69; 69; 69; 57; 0]; [60; 74; 73; 73; 48; 0]; [1; 113; 9; 5; 3; 0]; [54; 73;
  73; 73; 54; 0]; [6; 73; 73; 41; 30; 0]; [0; 54; 54; 0; 0; 0]; [0; 86; 54; 0; 0; 0]; [8; 20;
  34; 65; 0; 0]; [20; 20; 20; 20; 20; 0]; [0; 65; 34; 20; 8; 0]; [2; 1; 81; 9; 6; 0]; [50; 73;
  121; 65; 62; 0]; [126; 17; 17; 17; 126; 0]; [127; 73; 73; 73; 54; 0]; [62; 65; 65; 65; 34; 0];
  [127; 65; 65; 34; 28; 0]; [127; 73; 73; 73; 65; 0]; [127; 9; 9; 9; 1; 0]; [62; 65; 73; 73;
  122; 0]; [127; 8; 8; 8; 127; 0]; [0; 65; 127; 65; 0; 0]; [32; 64; 65; 63; 1; 0]; [127; 8; 20;
  34; 65; 0]; [127; 64; 64; 64; 64; 0]; [127; 2; 12; 2; 127; 0]; [127; 4; 8; 16; 127; 0]; [62;
  65; 65; 65; 62; 0]; [127; 9; 9; 9; 6; 0]; [62; 65; 81; 33; 94; 0]; [127; 9; 25; 41; 70; 0];
  [70; 73; 73; 73; 49; 0]; [1; 1; 127; 1; 1; 0]; [63; 64; 64; 64; 63; 0]; [31; 32; 64; 32; 31;
  0]; [63; 64; 56; 64; 63; 0]; [99; 20; 8; 20; 99; 0]; [7; 8; 112; 8; 7; 0]; [97; 81; 73; 69;
  67; 0]; [0; 127; 65; 65; 0; 0]; [2; 4; 8; 16; 32; 0]; [0; 65; 65; 127; 0; 0]; [4; 2; 1; 2; 4;
  0]; [64; 64; 64; 64; 64; 0]; [0; 3; 5; 0; 0; 0]; [32; 84; 84; 84; 120; 0]; [127; 72; 68; 68;
  56; 0]; [56; 68; 68; 68; 32; 0]; [56; 68; 68; 72; 127; 0]; [56; 84; 84; 84; 24; 0]; [8; 126;
  9; 1; 2; 0]; [8; 84; 84; 84; 60; 0]; [127; 8; 4; 4; 120; 0]; [0; 68; 125; 64; 0; 0]; [32; 64;
  68; 61; 0; 0]; [127; 16; 40; 68; 0; 0]; [0; 65; 127; 64; 0; 0]; [124; 4; 24; 4; 120; 0]; [124;
  8; 4; 4; 120; 0]; [56; 68; 68; 68; 56; 0]; [124; 20; 20; 20; 8; 0]; [8; 20; 20; 24; 124; 0];
  [124; 8; 4; 4; 8; 0]; [72; 84; 84; 84; 32; 0]; [4; 63; 68; 64; 32; 0]; [60; 64; 64; 32; 124;
  0]; [28; 32; 64; 32; 28; 0]; [60; 64; 48; 64; 60; 0]; [68; 40; 16; 40; 68; 0]; [12; 80; 80;
  80; 60; 0]; [68; 100; 84; 76; 68; 0]; [0; 8; 54; 65; 0; 0]; [0; 0; 127; 0; 0; 0]; [0; 65; 54;
  8; 0; 0]; [16; 8; 8; 16; 8; 0]
].

Section Display.
Context {E : Env}.

Definition ssd1306_cmd (cmd : Z) : M unit :=
  _ ← i2cWrite I2C0 SSD1306_I2C_ADDR [0; u8 cmd]; mret tt.
Definition ssd1306_data (data : list Z) : M unit :=
  _ ← i2cWrite I2C0 SSD1306_I2C_ADDR (64 :: data); mret tt.

Definition get_buffer : M (list Z) := gets (fun w => buffer (disp w)).
Definition set_buffer (b : list Z) : M unit :=
  modify (fun w => set_disp (mkDisplay b (cursorX (disp w)) (cursorY (disp w))) w).
(** [buffer[i] = v], undefined outside the 1024 bytes *)
Definition put (i v : Z) : M unit :=
  b ← get_buffer;
  if (0 <=? i) && (i <? Z.of_nat (length b)) then set_buffer (<[Z.to_nat i := v]> b) else undef.

Definition display_clear : M unit := for_each (seqZ 0 1024) (fun i => put i 0).

(** [&buffer[page * 128]], 128 bytes *)
Definition page_data (b : list Z) (page : Z) : list Z :=
  take 128 (drop (Z.to_nat (page * 128)) b).

Definition display_update : M unit :=
  for_each (seqZ 0 8) (fun page =>
    ssd1306_cmd (176 + page) ;;
    ssd1306_cmd 0 ;;
    ssd1306_cmd 16 ;;
    b ← get_buffer;
    ssd1306_data (page_data b page)).

Definition init_commands : list Z := [
  174; 32; 0; 176; 200; 0; 16; 64; 129; 127; 161; 166; 168; 63; 211; 0; 213; 128;
  217; 34; 218; 18; 219; 32; 141; 20; 175 ].

Definition display_init : M unit :=
  _ ← i2cInit I2C0 100000;
  delay 100 ;;
  for_each init_commands ssd1306_cmd ;;
  display_clear ;;
  display_update.

Definition display_setCursor (x y : Z) : M unit :=
  modify (fun w => set_disp (mkDisplay (buffer (disp w)) x y) w).

(** the glyph of a character, '?' for what the font lacks *)
Definition glyph (c : ascii) : M (list Z) :=
  let c' := if (ord c <? 32) || (126 <? ord c) then 63 else ord c in
  access (font6x8 !! Z.to_nat (c' - 32)).

Definition print_char (c : ascii) : M unit :=
  g ← glyph c;
  for_each (seqZ 0 6) (fun i =>
    d ← gets disp;
    v ← access (g !! Z.to_nat i);
    put (cursorX d + cursorY d / 8 * 128 + i) v) ;;
  d ← gets disp;
  display_setCursor (u8 (cursorX d + 6)) (cursorY d).

Definition display_print (str : list ascii) : M unit := for_each str print_char.

Definition display_printAt (str : list ascii) (x y : Z) : M unit :=
  display_setCursor x y ;; display_print str.

(** [while(str[len]) len++] with an [unsigned char] counter: it leaves the
    loop only when the string ends before the counter wraps. *)
Definition display_println (str : list ascii) (y : Z) : M unit :=
  if 255 <? strlen str then diverge
  else
    let len := strlen str in
    let x := s16 (Z.quot (128 - len * 6) 2) in
    let x := if x <? 0 then 0 else x in
    display_setCursor (u8 x) y ;;
    display_print str.
End Display.

(* opaque to instance search *)
#[export] Hint Opaque ssd1306_cmd ssd1306_data get_buffer set_buffer put display_clear
  display_update display_init display_setCursor glyph print_char display_print display_printAt
  display_println : typeclass_instances.

Section DisplayEff.
Context {E : Env}.

#[export] Instance ssd1306_cmd_eff F K c : Sub [KI2c] K -> Eff F K (ssd1306_cmd c).
Proof. unfold ssd1306_cmd. eff_solve. Qed.
#[export] Instance ssd1306_data_eff F K d : Sub [KI2c] K -> Eff F K (ssd1306_data d).
Proof. unfold ssd1306_data. eff_solve. Qed.
#[export] Instance get_buffer_eff F K : Eff F K get_buffer.
Proof. unfold get_buffer. apply _. Qed.
#[export] Instance set_buffer_eff F K b : Sub [CDisp] F -> Eff F K (set_buffer b).
Proof. unfold set_buffer. apply _. Qed.
#[export] Instance put_eff F K i v : Sub [CDisp] F -> Eff F K (put i v).
Proof. unfold put. eff_solve. Qed.
#[export] Instance display_clear_eff F K : Sub [CDisp] F -> Eff F K display_clear.
Proof. unfold display_clear. eff_solve. Qed.
#[export] Instance display_update_eff F K : Sub [KI2c] K -> Eff F K display_update.
Proof. unfold display_update. eff_solve. Qed.
#[export] Instance display_init_eff F K :
  Sub [CDisp] F -> Sub [KI2c] K -> Sub [KConf] K -> Eff F K display_init.
Proof. unfold display_init. eff_solve. Qed.
#[export] Instance display_setCursor_eff F K x y :
  Sub [CDisp] F -> Eff F K (display_setCursor x y).
Proof. unfold display_setCursor. apply _. Qed.
#[export] Instance print_char_eff F K c : Sub [CDisp] F -> Eff F K (print_char c).
Proof. unfold print_char, glyph. eff_solve. Qed.
#[export] Instance display_print_eff F K s : Sub [CDisp] F -> Eff F K (display_print s).
Proof. unfold display_print. eff_solve. Qed.
#[export] Instance display_printAt_eff F K s x y :
  Sub [CDisp] F -> Eff F K (display_printAt s x y).
Proof. unfold display_printAt. eff_solve. Qed.
#[export] Instance display_println_eff F K s y :
  Sub [CDisp] F -> Eff F K (display_println s y).
Proof. unfold display_println. eff_solve. Qed.
End DisplayEff.

(** ** What the screen shows *)

(** [l] written over [b] from [o] on *)
Definition copia (o : nat) (l b : list Z) : list Z := take o b ++ l ++ drop (o + length l) b.

Lemma length_copia o l b : (o + length l <= length b)%nat -> length (copia o l b) = length b.
Proof. intros H. unfold copia. rewrite !length_app, length_take, length_drop. lia. Qed.

Lemma copia_nil o b : copia o [] b = b.
Proof. unfold copia. simpl. rewrite Nat.add_0_r. apply take_drop. Qed.

Lemma copia_snoc o l v b :
  (o + length l < length b)%nat -> <[(o + length l)%nat := v]> (copia o l b) = copia o (l ++ [v]) b.
Proof.
  intros H. unfold copia. rewrite app_assoc.
  assert (Hl : (o + length l = length (take o b ++ l) + 0)%nat)
    by (rewrite length_app, length_take; lia).
  rewrite Hl at 1. rewrite insert_app_r.
  destruct (lookup_lt_is_Some_2 b (o + length l)) as [y Hy]; [lia|].
  rewrite (drop_S b y (o + length l)) by done. simpl.
  rewrite length_app. simpl. rewrite Nat.add_1_r, Nat.add_succ_r.
  by rewrite <- !app_assoc.
Qed.

Lemma copia_copia o l1 l2 b :
  (o + length l1 <= length b)%nat ->
  copia (o + length l1) l2 (copia o l1 b) = copia o (l1 ++ l2) b.
Proof.
  intros H. unfold copia. rewrite (app_assoc _ l1).
  set (n := (o + length l1)%nat).
  assert (Hl : n = length (take o b ++ l1)) by (unfold n; rewrite length_app, length_take; lia).
  rewrite take_app_length', <- drop_drop, drop_app_length' by done.
  rewrite drop_drop, length_app, Nat.add_assoc. fold n. by rewrite <- !app_assoc.
Qed.

(** the columns of a text *)
Definition columnas (c : ascii) : list Z :=
  default [] (font6x8 !! Z.to_nat ((if (ord c <? 32) || (126 <? ord c) then 63 else ord c) - 32)).
Definition texto (s : list ascii) : list Z := flat_map columnas s.

Lemma glyph_ok c :
  exists g, font6x8 !! Z.to_nat ((if (ord c <? 32) || (126 <? ord c) then 63 else ord c) - 32) = Some g /\
    length g = 6%nat.
Proof.
  assert (Hf : Forall (fun g => length g = 6%nat) font6x8) by (repeat constructor).
  destruct (lookup_lt_is_Some_2 font6x8
    (Z.to_nat ((if (ord c <? 32) || (126 <? ord c) then 63 else ord c) - 32))) as [g Hg].
  - replace (length font6x8) with 95%nat by reflexivity. destruct (_ || _) eqn:Hb; [simpl; lia|].
    apply orb_false_elim in Hb as [H1%Z.ltb_ge H2%Z.ltb_ge]. lia.
  - exists g. split; [done|]. exact (proj1 (Forall_lookup _ _) Hf _ _ Hg).
Qed.

Lemma length_texto s : length (texto s) = (6 * length s)%nat.
Proof.
  induction s as [|c s IH]; [done|]. cbn [texto flat_map]. fold (texto s).
  rewrite length_app, IH. unfold columnas. destruct (glyph_ok c) as (g & -> & Hg). simpl. lia.
Qed.

Section Pantalla.
Context {E : Env}.

Definition con_buf (b : list Z) (w : world) : world :=
  set_disp (mkDisplay b (cursorX (disp w)) (cursorY (disp w))) w.

Lemma con_buf_2 b b' w : con_buf b (con_buf b' w) = con_buf b w.
Proof. done. Qed.
Lemma con_buf_id w : con_buf (buffer (disp w)) w = w.
Proof. by destruct w as [h [b x y] t l c g m]. Qed.

Lemma put_run i v w :
  (i < length (buffer (disp w)))%nat -> put (Z.of_nat i) v w = Ret tt (con_buf (<[i := v]> (buffer (disp w))) w).
Proof.
  intros H. unfold put, get_buffer, mbind, M_bind, gets.
  rewrite (proj2 (Z.leb_le 0 (Z.of_nat i))), (proj2 (Z.ltb_lt (Z.of_nat i) _)) by lia.
  simpl. by rewrite Nat2Z.id.
Qed.

Lemma for_each_app {A} (l1 l2 : list A) f w :
  for_each (l1 ++ l2) f w = (for_each l1 f ;; for_each l2 f) w.
Proof.
  revert w. induction l1 as [|a l1 IH]; intros w; [done|]. simpl.
  unfold mbind, M_bind. destruct (f a w) as [[] w'| |]; [apply IH|done..].
Qed.

(** a loop that writes the values [l] one after the other from [o] on *)
Lemma pintar o l (f : Z -> M unit) w :
  (o + length l <= length (buffer (disp w)))%nat ->
  (forall i v b, l !! i = Some v -> length b = length (buffer (disp w)) ->
     f (Z.of_nat i) (con_buf b w) = Ret tt (con_buf (<[(o + i)%nat := v]> b) w)) ->
  for_each (seqZ 0 (Z.of_nat (length l))) f w = Ret tt (con_buf (copia o l (buffer (disp w))) w).
Proof.
  induction l as [|v l IH] using rev_ind; intros Hl Hf.
  - simpl. by rewrite copia_nil, con_buf_id.
  - rewrite length_app in Hl |- *. simpl in Hl |- *. rewrite Nat.add_1_r, seqZ_S, for_each_app.
    unfold mbind at 1, M_bind at 1. rewrite IH; [|lia|].
    + cbn [for_each]. rewrite Z.add_0_l. unfold mbind, M_bind, mret, M_ret. rewrite (Hf _ v).
      * rewrite copia_snoc by lia. done.
      * rewrite lookup_app_r, Nat.sub_diag by lia. done.
      * rewrite length_copia by lia. done.
    + intros i x b Hi. apply Hf. by apply lookup_app_l_Some.
Qed.

Lemma display_clear_run w :
  length (buffer (disp w)) = 1024%nat -> display_clear w = Ret tt (con_buf (replicate 1024 0) w).
Proof.
  intros Hb. unfold display_clear.
  change (seqZ 0 1024) with (seqZ 0 (Z.of_nat (length (replicate 1024 0)))).
  rewrite (pintar 0).
  - unfold copia. rewrite take_0, drop_ge by (rewrite length_replicate, Hb; simpl; lia).
    by rewrite app_nil_l, app_nil_r.
  - rewrite length_replicate, Hb. lia.
  - intros i v b [-> Hi]%lookup_replicate Hlen. rewrite put_run; [done|].
    simpl. rewrite Hlen, Hb. lia.
Qed.

(** the cell where the cursor stands *)
Definition celda (x y : Z) : nat := Z.to_nat (x + y / 8 * 128).

Lemma print_char_run c w x y :
  cursorX (disp w) = x -> cursorY (disp w) = y ->
  0 <= x -> 0 <= y -> (celda x y + 6 <= length (buffer (disp w)))%nat ->
  print_char c w = Ret tt (set_disp (mkDisplay (copia (celda x y) (columnas c) (buffer (disp w)))
                                        (u8 (x + 6)) y) w).
Proof.
  intros Ex Ey Hx Hy Hc. unfold print_char, glyph.
  destruct (glyph_ok c) as (g & Hg & Hlen). cbv zeta. rewrite Hg. cbn [access].
  unfold mbind at 1, M_bind at 1, mret at 1, M_ret at 1.
  unfold mbind at 1, M_bind at 1.
  assert (Hy8 : 0 <= y / 8) by (apply Z.div_pos; lia).
  replace 6 with (Z.of_nat (length g)) at 1 by lia.
  rewrite (pintar (celda x y) g).
  - unfold columnas. rewrite Hg. unfold mbind, M_bind, gets, display_setCursor, modify.
    cbn [disp con_buf set_disp cursorX cursorY buffer]. by rewrite Ex, Ey.
  - lia.
  - intros i v b Hi Hb. unfold mbind, M_bind, gets. cbn [disp con_buf set_disp cursorX cursorY].
    rewrite Nat2Z.id, Hi. cbn [access mret M_ret]. rewrite Ex, Ey.
    replace (x + y / 8 * 128 + Z.of_nat i) with (Z.of_nat (celda x y + i)) by (unfold celda; lia).
    unfold mret, M_ret. rewrite put_run; [done|]. cbn. apply lookup_lt_Some in Hi. lia.
Qed.

Lemma display_print_run s w x y :
  cursorX (disp w) = x -> cursorY (disp w) = y ->
  0 <= x -> 0 <= y -> x + 6 * strlen s < 256 ->
  (celda x y + 6 * length s <= length (buffer (disp w)))%nat ->
  display_print s w = Ret tt (set_disp (mkDisplay (copia (celda x y) (texto s) (buffer (disp w)))
                                          (x + 6 * strlen s) y) w).
Proof.
  unfold display_print, strlen. revert w x. induction s as [|c s IH]; intros w x Ex Ey Hx Hy Hs Hc.
  - cbn [for_each texto flat_map length]. rewrite copia_nil, <- Ex, <- Ey, Z.add_0_r.
    by destruct w as [h [b cx cy] t l n g m].
  - cbn [for_each length] in *. unfold mbind, M_bind. rewrite (print_char_run c w x y) by (done || lia).
    pose proof (length_texto [c]) as H6. cbn [texto flat_map] in H6.
    rewrite app_nil_r in H6. simpl in H6. rewrite u8_small by lia.
    assert (Hcel : celda (x + 6) y = (celda x y + 6)%nat).
    { unfold celda. pose proof (Z.div_pos y 8). lia. }
    rewrite (IH _ (x + 6)); cbn [disp set_disp cursorX cursorY buffer]; try (done || lia).
    + rewrite Hcel. rewrite <- H6 at 1. rewrite copia_copia by lia.
      change (texto (c :: s)) with (columnas c ++ texto s). unfold set_disp. cbn.
      do 3 f_equal. lia.
    + rewrite Hcel, length_copia by lia. lia.
Qed.

(** centred text of at most 21 characters: its columns on one page, nothing else *)
Lemma display_println_run s y w :
  strlen s <= 21 -> 0 <= y < 64 -> length (buffer (disp w)) = 1024%nat ->
  let x := (128 - 6 * strlen s) / 2 in
  display_println s y w = Ret tt (set_disp (mkDisplay
    (copia (celda x y) (texto s) (buffer (disp w))) (x + 6 * strlen s) y) w).
Proof.
  intros Hs Hy Hb x. unfold display_println. rewrite (proj2 (Z.ltb_ge 255 _)) by lia.
  assert (Hl : 0 <= strlen s) by (unfold strlen; lia).
  assert (Hx : 0 <= x /\ 2 * x <= 128 - 6 * strlen s).
  { unfold x. pose proof (Z.div_mod (128 - 6 * strlen s) 2). pose proof (Z.mod_pos_bound (128 - 6 * strlen s) 2). lia. }
  cbv zeta. rewrite (Z.quot_div_nonneg (128 - strlen s * 6) 2) by lia.
  replace (128 - strlen s * 6) with (128 - 6 * strlen s) by lia. fold x.
  rewrite s16_small by lia. rewrite (proj2 (Z.ltb_ge x 0)) by lia. rewrite u8_small by lia.
  unfold mbind, M_bind, display_setCursor, modify.
  assert (Hy8 : 0 <= y / 8 < 8) by (split; [apply Z.div_pos|apply Z.div_lt_upper_bound]; lia).
  rewrite (display_print_run s _ x y); cbn [disp set_disp cursorX cursorY buffer]; try (done || lia).
  rewrite Hb. unfold celda, strlen in *. lia.
Qed.

(** ** The transfers *)

Definition ev_cmd (c : Z) : event := EvI2c SSD1306_I2C_ADDR [0; u8 c].
Definition ev_data (l : list Z) : event := EvI2c SSD1306_I2C_ADDR (64 :: l).
(** what [display_update] puts on the bus, for a frame *)
Definition transferencias (b : list Z) : list event :=
  flat_map (fun page => [ev_cmd (176 + page); ev_cmd 0; ev_cmd 16; ev_data (page_data b page)])
    (seqZ 0 8).

(** [m] returns, leaves the static variables alone and issues the writes [l] *)
Definition emite (m : M unit) (l : list event) : Prop :=
  forall w, exists w', m w = Ret tt w' /\ trace (hw w') = rev l ++ trace (hw w) /\ disp w' = disp w.

Lemma emite_bind m1 m2 l1 l2 : emite m1 l1 -> emite m2 l2 -> emite (m1 ;; m2) (l1 ++ l2).
Proof.
  intros H1 H2 w. destruct (H1 w) as (w1 & E1 & T1 & D1), (H2 w1) as (w2 & E2 & T2 & D2).
  exists w2. split; [apply bind_Ret; eauto|]. split; [|congruence].
  by rewrite T2, T1, rev_app_distr, app_assoc.
Qed.
Lemma emite_i2c a l : emite (_ ← i2cWrite I2C0 a l; mret tt) [EvI2c a l].
Proof.
  intros w. unfold i2cWrite. simpl. unfold mbind, M_bind, emit, modify, inp, mret, M_ret. simpl.
  destruct (dev_in InI2c _) as [v d]. eexists. split; [reflexivity|]. done.
Qed.

Lemma display_update_emite w :
  exists w', display_update w = Ret tt w' /\
    trace (hw w') = rev (transferencias (buffer (disp w))) ++ trace (hw w) /\ disp w' = disp w.
Proof.
  unfold display_update, transferencias. generalize (seqZ 0 8) as l.
  intros l. revert w. induction l as [|p l IH]; intros w; [by exists w|]. cbn [for_each flat_map].
  destruct (emite_i2c SSD1306_I2C_ADDR [0; u8 (176 + p)] w) as (w1 & E1 & T1 & D1).
  destruct (emite_i2c SSD1306_I2C_ADDR [0; u8 0] w1) as (w2 & E2 & T2 & D2).
  destruct (emite_i2c SSD1306_I2C_ADDR [0; u8 16] w2) as (w3 & E3 & T3 & D3).
  destruct (emite_i2c SSD1306_I2C_ADDR (64 :: page_data (buffer (disp w3)) p) w3) as (w4 & E4 & T4 & D4).
  destruct (IH w4) as (w5 & E5 & T5 & D5).
  assert (HD : disp w4 = disp w) by congruence. rewrite HD in T5, D5.
  assert (HD3 : disp w3 = disp w) by congruence. rewrite HD3 in E4, T4.
  exists w5. split; [|split; [|done]].
  - apply bind_Ret. exists tt, w4. split; [|done].
    apply bind_Ret. exists tt, w1. split; [exact E1|].
    apply bind_Ret. exists tt, w2. split; [exact E2|].
    apply bind_Ret. exists tt, w3. split; [exact E3|].
    apply bind_Ret. exists (buffer (disp w)), w3. split; [|exact E4].
    unfold get_buffer, gets. by rewrite HD3.
  - rewrite T5, T4, T3, T2, T1, rev_app_distr. simpl. by rewrite <- !app_assoc.
Qed.

(** the frame with one centred line of text *)
Definition lienzo (s : list ascii) (y : Z) : list Z :=
  copia (celda ((128 - 6 * strlen s) / 2) y) (texto s) (replicate 1024 0).

(** C29: clearing the screen, printing a line of at most 21 characters and refreshing always
    returns; the eight pages sent to the controller are those of a frame that is blank but
    for the columns of the characters, centred on the page of the line, and each page is
    preceded by the commands that select it and its first column. *)
Theorem display_muestra s y w
    (Hs : strlen s <= 21) (Hy : 0 <= y < 64) (Hb : length (buffer (disp w)) = 1024%nat) :
  exists w', (display_clear ;; display_println s y ;; display_update) w = Ret tt w' /\
    trace (hw w') = rev (transferencias (lienzo s y)) ++ trace (hw w) /\
    length (lienzo s y) = 1024%nat /\ buffer (disp w') = lienzo s y.
Proof.
  set (w1 := con_buf (replicate 1024 0) w).
  pose proof (display_println_run s y w1 Hs Hy (length_replicate 1024 0)) as E2. cbv zeta in E2.
  match type of E2 with _ = Ret _ ?x => set (w2 := x) in E2 end.
  destruct (display_update_emite w2) as (w3 & E3 & T3 & D3).
  exists w3. split; [|split; [|split]].
  - apply bind_Ret. exists tt, w1. split; [by apply display_clear_run|].
    apply bind_Ret. exists tt, w2. split; [exact E2|exact E3].
  - exact T3.
  - unfold lienzo. rewrite length_copia; [apply length_replicate|].
    rewrite length_texto, length_replicate. unfold celda, strlen in *.
    pose proof (Z.div_mod (128 - 6 * Z.of_nat (length s)) 2).
    pose proof (Z.mod_pos_bound (128 - 6 * Z.of_nat (length s)) 2).
    assert (0 <= y / 8 < 8) by (split; [apply Z.div_pos|apply Z.div_lt_upper_bound]; lia). lia.
  - rewrite D3. done.
Qed.
End Pantalla.

Lemma display_muestra_witness :
  exists w', (display_clear ;; display_println $"PUERTA ABIERTA" 20 ;; display_update)
      (mundo 1 100 (banco_quieto 0) [] (mkScan ST_IDLE 0 0 [] 0 0 0)
         (mkMef REPOSO [] 0 0 (SpecFloat.S754_zero false) [] 0 false false)) = Ret tt w' /\
    trace (hw w') = rev (transferencias (lienzo $"PUERTA ABIERTA" 20)).
Proof.
  destruct (display_muestra $"PUERTA ABIERTA" 20
      (mundo 1 100 (banco_quieto 0) [] (mkScan ST_IDLE 0 0 [] 0 0 0)
         (mkMef REPOSO [] 0 0 (SpecFloat.S754_zero false) [] 0 false false))) as (w' & H1 & H2 & _);
    [vm_compute; discriminate|lia|reflexivity|].
  exists w'. split; [exact H1|]. rewrite H2. apply app_nil_r.
Defined.
