(* ===== verification/Plazos.v ===== *)
(** * Deadlines: termination on a live board

    [Vivo]: the clock of the environment keeps ticking and its UARTs drain.
    [Dur s b m]: with SysTick interrupts on ([s]) or off, [m] returns (no access
    outside an object, no endless wait) and the tick counter advances by at
    most [b] ms.  The rules bound the loops that watch the clock. *)

From Stdlib Require Import ZArith Lia Bool Ascii String.
From stdpp Require Import base list strings numbers sets.
From stdpp Require Import options.
From S2P Require Import Prelude Machine Effects Triples Sapi Display.

(** ** Projections that drawing, or the clock, does not touch *)
Class Dibujo {E : Env} {X : Type} (p : world -> X) : Prop := {
  dibujo_disp (f : world -> display_st) : Keeps p (modify (fun w => set_disp (f w) w));
  dibujo_i2c a d : Keeps p (emit (EvI2c a d));
  dibujo_ack : Keeps p (inp InI2c)
}.
Class Reloj {E : Env} {X : Type} (p : world -> X) : Prop := {
  reloj_inp : Keeps p (inp InTick);
  reloj_set t : Keeps p (set_tick t)
}.

Section Ajenos.
Context {E : Env} {X : Type} (p : world -> X).

#[global] Instance put_dibujo i v : Dibujo p -> Keeps p (put i v).
Proof. intros []. unfold put, get_buffer, set_buffer. keeps_run. Qed.
#[global] Instance display_clear_dibujo : Dibujo p -> Keeps p display_clear.
Proof. intros Hp. unfold display_clear. keeps_run. Qed.
#[global] Instance display_println_dibujo str y : Dibujo p -> Keeps p (display_println str y).
Proof.
  intros Hp. pose proof Hp as []. unfold display_println, display_print, print_char, display_setCursor, glyph.
  keeps_run.
Qed.
#[global] Instance display_printAt_dibujo str x y : Dibujo p -> Keeps p (display_printAt str x y).
Proof.
  intros Hp. pose proof Hp as []. unfold display_printAt, display_print, print_char, display_setCursor, glyph.
  keeps_run.
Qed.
#[global] Instance display_update_dibujo : Dibujo p -> Keeps p display_update.
Proof. intros []. unfold display_update, ssd1306_cmd, ssd1306_data, get_buffer, i2cWrite. keeps_run. Qed.
#[global] Instance tickRead_reloj : Reloj p -> Keeps p tickRead.
Proof. intros []. unfold tickRead. keeps_run. Qed.
#[global] Instance delay_reloj ms : Reloj p -> Keeps p (delay ms).
Proof. intros Hp. unfold delay. keeps_run. Qed.

(** two of them, side by side *)
Lemma keeps_par {Y} (q : world -> Y) {A} (m : M A) : Keeps p m -> Keeps q m -> Keeps (fun w => (p w, q w)) m.
Proof. intros Hp Hq w a w' H. by rewrite (Hp _ _ _ H), (Hq _ _ _ H). Qed.
Lemma dibujo_par {Y} (q : world -> Y) : Dibujo p -> Dibujo q -> Dibujo (fun w => (p w, q w)).
Proof. intros [] []. split; intros; apply keeps_par; apply _. Qed.
Lemma reloj_par {Y} (q : world -> Y) : Reloj p -> Reloj q -> Reloj (fun w => (p w, q w)).
Proof. intros [] []. split; intros; apply keeps_par; apply _. Qed.
End Ajenos.

(** ** What a live board promises *)

(** Between two looks at the clock at most [v_salto] ticks pass, and at most
    [v_max] looks pass without one, whatever else the firmware reads and writes
    meanwhile; a transmitter is ready again within [v_max] looks at its status. *)
Class Vivo {E : Env} : Type := {
  v_max : nat;
  v_salto : Z;
  v_pot : dev -> nat;                 (* looks still possible without a tick *)
  v_tx : Z -> dev -> nat;             (* looks until the transmitter is ready *)
  v_salto_rango : 1 <= v_salto <= 2 ^ 32;
  v_pot_max d : (v_pot d <= v_max)%nat;
  v_tx_max u d : (v_tx u d <= v_max)%nat;
  v_tick d : 0 <= fst (dev_in InTick d) <= v_salto /\
             (fst (dev_in InTick d) = 0 -> (v_pot (snd (dev_in InTick d)) < v_pot d)%nat);
  v_in i d : i <> InTick -> (v_pot (snd (dev_in i d)) <= v_pot d)%nat;
  v_out e d : (v_pot (dev_out e d) <= v_pot d)%nat;
  v_lsr u d : Z.land (fst (dev_in (InLsr u) d)) UART_LSR_THRE <> 0 \/
              (v_tx u (snd (dev_in (InLsr u) d)) < v_tx u d)%nat;
  v_fuel : 100000 * (Z.of_nat v_max + 1) + Z.of_nat v_max + 3 <= Z.of_nat env_fuel
}.

(** longer than any function of the firmware lasts *)
Definition LARGO : Z := 2 ^ 60.

Lemma iter_ticker n t : 0 <= t < 2 ^ 64 -> Nat.iter n tickerCallback t = u64 (t + Z.of_nat n).
Proof.
  intros Ht. induction n as [|n IH]; simpl Nat.iter.
  - rewrite Z.add_0_r. by rewrite u64_small.
  - rewrite IH. unfold tickerCallback, u64. rewrite Zplus_mod_idemp_l. f_equal. lia.
Qed.

(** a time limit the firmware uses *)
Class Plazo (ms : Z) : Prop := plazo : 0 <= ms <= 100000.
#[export] Hint Extern 0 (Plazo _) => (unfold Plazo; lia) : typeclass_instances.
#[export] Hint Extern 1 (Plazo _) => (split; vm_compute; discriminate) : typeclass_instances.

Section Plazos.
Context {E : Env} {V : Vivo}.

(** the state of the machine the bounds rest on *)
Definition listo (s : bool) (w : world) : Prop :=
  systick (hw w) = s /\ 0 <= tickCounter (hw w) < 2 ^ 64 /\ length (buffer (disp w)) = 1024%nat.

(** the clock advances by at most [b] *)
Definition avanza (b : Z) (w w' : world) : Prop :=
  exists n, 0 <= n <= b /\ tickCounter (hw w') = u64 (tickCounter (hw w) + n) /\
    (n = 0 -> (v_pot (device (hw w')) <= v_pot (device (hw w)))%nat).

Class Dur (s : bool) (b : Z) {A} (m : M A) : Prop :=
  dur : 0 <= b /\ forall w, listo s w -> exists a w', m w = Ret a w' /\ listo s w' /\ avanza b w w'.

Lemma avanza_refl w s b : listo s w -> 0 <= b -> avanza b w w.
Proof.
  intros (_ & Ht & _) Hb. exists 0. split; [lia|]. split; [|done].
  rewrite Z.add_0_r. by rewrite u64_small.
Qed.

Lemma avanza_trans b1 b2 w1 w2 w3 :
  avanza b1 w1 w2 -> avanza b2 w2 w3 -> avanza (b1 + b2) w1 w3.
Proof.
  intros (n1 & H1 & Ht1 & Hp1) (n2 & H2 & Ht2 & Hp2). exists (n1 + n2). split; [lia|].
  split; [rewrite Ht2, Ht1; unfold u64; rewrite Zplus_mod_idemp_l; f_equal; lia|].
  intros H0. specialize (Hp1 ltac:(lia)). specialize (Hp2 ltac:(lia)). lia.
Qed.

Lemma avanza_mono b b' w w' : avanza b w w' -> b <= b' -> avanza b' w w'.
Proof. intros (n & Hn & H) Hb. exists n. split; [lia|done]. Qed.

Lemma dur_mono s b b' {A} (m : M A) : Dur s b m -> b <= b' -> Dur s b' m.
Proof.
  intros [H0 H] Hb. split; [lia|]. intros w Hw. destruct (H w Hw) as (a & w' & H1 & H2 & H3).
  exists a, w'. eauto using avanza_mono.
Qed.

(** ** Combinators; the budget [b] is what is left *)
Lemma dur_ret s b {A} (a : A) : 0 <= b -> Dur s b (mret a).
Proof. intros Hb. split; [done|]. intros w Hw. exists a, w. eauto using avanza_refl. Qed.

Lemma dur_bind s b b1 {A B} (m : M A) (f : A -> M B) :
  Dur s b1 m -> (forall a, Dur s (b - b1) (f a)) -> 0 <= b -> Dur s b (m ≫= f).
Proof.
  intros [H0 Hm] Hf Hb. split; [done|]. intros w Hw.
  destruct (Hm w Hw) as (a & w1 & H1 & Hw1 & Ha1).
  destruct (Hf a) as [_ Hfa]. destruct (Hfa w1 Hw1) as (c & w2 & H2 & Hw2 & Ha2).
  exists c, w2. split; [apply bind_Ret; eauto|]. split; [done|].
  replace b with (b1 + (b - b1)) by lia. eauto using avanza_trans.
Qed.

(** with what a triple says of the result *)
Lemma dur_bind_result s b b1 {A B} (m : M A) (f : A -> M B) (Q : A -> Prop) :
  Dur s b1 m -> (forall w a w', m w = Ret a w' -> Q a) ->
  (forall a, Q a -> Dur s (b - b1) (f a)) -> 0 <= b -> Dur s b (m ≫= f).
Proof.
  intros [H0 Hm] HQ Hf Hb. split; [done|]. intros w Hw.
  destruct (Hm w Hw) as (a & w1 & H1 & Hw1 & Ha1).
  destruct (Hf a (HQ _ _ _ H1)) as [_ Hfa].
  destruct (Hfa w1 Hw1) as (c & w2 & H2 & Hw2 & Ha2).
  exists c, w2. split; [apply bind_Ret; eauto|]. split; [done|].
  replace b with (b1 + (b - b1)) by lia. eauto using avanza_trans.
Qed.

Lemma dur_gets s b {A} (f : world -> A) : 0 <= b -> Dur s b (gets f).
Proof. intros Hb. split; [done|]. intros w Hw. exists (f w), w. eauto using avanza_refl. Qed.

(** a write to the static variables of a file other than display.c *)
Lemma dur_modify s b (f : world -> world) :
  0 <= b -> (forall w, hw (f w) = hw w) -> (forall w, length (buffer (disp (f w))) = length (buffer (disp w))) ->
  Dur s b (modify f).
Proof.
  intros Hb Hh Hd. split; [done|]. intros w (H1 & H2 & H3). exists tt, (f w). split; [done|].
  split; [unfold listo; by rewrite Hh, Hd|]. exists 0. rewrite Hh. split; [lia|]. split; [|done].
  rewrite Z.add_0_r. by rewrite u64_small.
Qed.

Lemma dur_access s b {A} (o : option A) : 0 <= b -> is_Some o -> Dur s b (access o).
Proof. intros Hb [a ->]. by apply dur_ret. Qed.

Lemma dur_when s b c m : (c = true -> Dur s b m) -> 0 <= b -> Dur s b (when c m).
Proof. destruct c; intros H Hb; [by apply H|by apply dur_ret]. Qed.

Lemma dur_for_each s b b1 {A} (l : list A) (f : A -> M unit) :
  (forall a, a ∈ l -> Dur s b1 (f a)) -> 0 <= b1 -> b1 * Z.of_nat (length l) <= b ->
  Dur s b (for_each l f).
Proof.
  intros Hf H1. revert b. induction l as [|a l IH]; intros b Hb; simpl; [apply dur_ret; simpl in *; lia|].
  rewrite length_cons in Hb. eapply dur_bind; [apply Hf; set_solver| |nia].
  intros _. apply IH; [|nia]. intros c Hc. apply Hf. set_solver.
Qed.

Lemma dur_first_some s b b1 {A B} (l : list A) (f : A -> M (option B)) :
  (forall a, a ∈ l -> Dur s b1 (f a)) -> 0 <= b1 -> b1 * Z.of_nat (length l) <= b ->
  Dur s b (first_some l f).
Proof.
  intros Hf H1. revert b. induction l as [|a l IH]; intros b Hb; simpl; [apply dur_ret; simpl in *; lia|].
  rewrite length_cons in Hb. eapply dur_bind; [apply Hf; set_solver| |nia].
  intros [c|]; [apply dur_ret; nia|]. apply IH; [|nia]. intros c Hc. apply Hf. set_solver.
Qed.

Lemma dur_emit s b e : 0 <= b -> Dur s b (emit e).
Proof.
  intros Hb. split; [done|]. intros w (H1 & H2 & H3). eexists tt, _. split; [done|].
  split; [done|]. exists 0. simpl. split; [lia|]. split; [|intros _; apply v_out].
  rewrite Z.add_0_r. by rewrite u64_small.
Qed.

Lemma dur_inp s b i : 0 <= b -> i <> InTick -> Dur s b (inp i).
Proof.
  intros Hb Hi. split; [done|]. intros w (H1 & H2 & H3). unfold inp.
  pose proof (v_in i (device (hw w)) Hi) as Hp. destruct (dev_in i (device (hw w))) as [v d].
  eexists v, _. split; [done|]. split; [done|]. exists 0. simpl. split; [lia|]. split; [|done].
  rewrite Z.add_0_r. by rewrite u64_small.
Qed.

(** ** The clock *)

(** one look: strict progress *)
Lemma tickRead_mira w :
  listo true w -> exists n w', tickRead w = Ret (tickCounter (hw w')) w' /\ listo true w' /\
    0 <= n <= v_salto /\ tickCounter (hw w') = u64 (tickCounter (hw w) + n) /\
    (n = 0 -> (v_pot (device (hw w')) < v_pot (device (hw w)))%nat).
Proof.
  intros (H1 & H2 & H3). pose proof (v_tick (device (hw w))) as Hv.
  unfold tickRead, mbind, M_bind, inp. destruct (dev_in InTick (device (hw w))) as [n d].
  simpl in Hv. destruct Hv as [Hn Hp]. exists n. cbn. rewrite H1. cbn.
  rewrite iter_ticker, Z2Nat.id by lia.
  eexists. split; [reflexivity|]. split; [|done].
  split; [done|]. split; [apply u64_bound|done].
Qed.

#[global] Instance tickRead_dur : Dur true v_salto tickRead.
Proof.
  pose proof v_salto_rango. split; [lia|]. intros w Hw.
  destruct (tickRead_mira w Hw) as (n & w' & H1 & H2 & H3 & H4 & H5).
  eexists _, w'. split; [done|]. split; [done|]. exists n. split; [done|]. split; [done|].
  intros H0. specialize (H5 H0). lia.
Qed.

(** a loop body that looks at the clock first, and leaves from [limit] ms after
    [start] on *)
Definition vigila {S R} (start limit b : Z) (m : M (S + R)) : Prop :=
  exists g, m = (tickRead ≫= g) /\
    forall t, (u64 (t - start) < limit -> Dur true b (g t)) /\
              (limit <= u64 (t - start) -> exists x, g t = mret (inr x)).

Section Bucle.
Context {S R : Type} (body : S -> M (S + R)) (start limit b : Z).
Hypothesis (Hbody : forall s, vigila start limit b (body s)) (Hlim : 0 <= limit <= 100000)
  (Hb : 0 <= b <= LARGO).
#[local] Set Default Proof Using "Type*".

(** the time since [start], by the clock *)
Definition edad (w : world) : Z := u64 (tickCounter (hw w) - start).

Lemma edad_avanza w w' n :
  0 <= n -> tickCounter (hw w') = u64 (tickCounter (hw w) + n) -> edad w + n < 2 ^ 64 ->
  edad w' = edad w + n.
Proof.
  intros Hn Ht He. unfold edad in *. rewrite Ht. unfold u64 in *. rewrite Zminus_mod_idemp_l.
  replace (tickCounter (hw w) + n - start) with (tickCounter (hw w) - start + n) by lia.
  rewrite <- Zplus_mod_idemp_l. apply Z.mod_small.
  pose proof (Z.mod_pos_bound (tickCounter (hw w) - start) (2 ^ 64)). lia.
Qed.

Lemma edad_rango w : 0 <= edad w < 2 ^ 64.
Proof. apply u64_bound. Qed.

(** past the limit, the next look ends the loop *)
Lemma bucle_fuera n s w :
  listo true w -> limit <= edad w < 2 ^ 63 ->
  exists x w', loop_n (Datatypes.S n) body s w = Ret x w' /\ listo true w' /\ avanza v_salto w w'.
Proof.
  intros Hw He. pose proof v_salto_rango. destruct (Hbody s) as (g & Hg & Ht).
  destruct (tickRead_mira w Hw) as (v & w1 & H1 & H2 & H3 & H4 & H5).
  pose proof (edad_avanza w w1 v ltac:(lia) H4 ltac:(lia)) as He1.
  destruct (Ht (tickCounter (hw w1))) as [_ Hx].
  destruct Hx as [x Hx]; [fold (edad w1); lia|].
  exists x, w1. split; [|split; [done|exists v; split; [done|split; [done|intros H0; specialize (H5 H0); lia]]]].
  rewrite loop_n_S, Hg. unfold mbind, M_bind at 1. rewrite H1, Hx. done.
Qed.

(** the iterations the fuel must still allow *)
Definition restan (w : world) : Z :=
  (limit - edad w) * (Z.of_nat v_max + 1) + Z.of_nat (v_pot (device (hw w))) + 2.
Definition termina_con (n : nat) : Prop := forall s w,
  listo true w -> edad w < limit -> restan w <= Z.of_nat n ->
  exists x w', loop_n n body s w = Ret x w' /\ listo true w' /\
               avanza (limit - edad w + b + v_salto) w w'.

(** the rest of an iteration within the limit, and the iterations after it *)
Lemma bucle_sigue n w1 (m : M (S + R)) :
  termina_con n -> listo true w1 -> edad w1 < limit -> restan w1 <= Z.of_nat n -> Dur true b m ->
  exists x w', (r ← m; match r with inl s' => loop_n n body s' | inr x => mret x end) w1 = Ret x w' /\
    listo true w' /\ avanza (limit - edad w1 + b + v_salto) w1 w'.
Proof.
  intros IH Hw1 Hlt Hn [_ Hk]. pose proof v_salto_rango as Hvs. pose proof (edad_rango w1) as He0.
  unfold LARGO in Hb. unfold restan in Hn.
  destruct (Hk w1 Hw1) as (r & w2 & Hr & Hw2 & Ha2). unfold mbind, M_bind. rewrite Hr.
  destruct r as [s'|x].
  2: { exists x, w2. split; [done|]. split; [done|]. eapply avanza_mono; [exact Ha2|lia]. }
  pose proof Ha2 as (n2 & Hn2 & Ht2 & Hp2).
  pose proof (edad_avanza w1 w2 n2 ltac:(lia) Ht2 ltac:(lia)) as He2.
  assert (Hv2 : avanza n2 w1 w2) by (exists n2; split; [lia|done]).
  destruct (Z.lt_ge_cases (edad w2) limit) as [Hlt2|Hge2].
  - destruct (IH s' w2 Hw2 Hlt2) as (x & w3 & Hx & Hw3 & Ha3).
    { unfold restan. pose proof (v_pot_max (device (hw w2))).
      destruct (Z.eq_dec n2 0) as [H0|H0]; [specialize (Hp2 H0)|]; nia. }
    exists x, w3. split; [done|]. split; [done|].
    eapply avanza_mono; [exact (avanza_trans _ _ _ _ _ Hv2 Ha3)|lia].
  - destruct n as [|n]; [nia|].
    destruct (bucle_fuera n s' w2 Hw2 ltac:(lia)) as (x & w3 & Hx & Hw3 & Ha3).
    exists x, w3. split; [done|]. split; [done|].
    eapply avanza_mono; [exact (avanza_trans _ _ _ _ _ Hv2 Ha3)|lia].
Qed.

Lemma bucle_dentro n : termina_con n.
Proof.
  induction n as [|n IH]; intros s w Hw He Hn.
  { unfold restan in Hn. nia. }
  pose proof v_salto_rango as Hvs. pose proof (edad_rango w) as He0. unfold LARGO in Hb.
  destruct (Hbody s) as (g & Hg & Ht).
  destruct (tickRead_mira w Hw) as (v & w1 & H1 & H2 & H3 & H4 & H5).
  pose proof (edad_avanza w w1 v ltac:(lia) H4 ltac:(lia)) as He1.
  assert (Ha1 : avanza v w w1).
  { exists v. split; [lia|]. split; [done|]. intros H0. specialize (H5 H0). lia. }
  cbn [loop_n]. rewrite Hg. unfold mbind, M_bind at 2. unfold M_bind at 1. rewrite H1.
  destruct (Ht (tickCounter (hw w1))) as [Hin Hout]. fold (edad w1) in Hin, Hout.
  destruct (Z.lt_ge_cases (edad w1) limit) as [Hlt|Hge].
  - assert (Hr : restan w1 <= Z.of_nat n).
    { unfold restan in *. pose proof (v_pot_max (device (hw w1))).
      destruct (Z.eq_dec v 0) as [H0|H0]; [specialize (H5 H0)|]; nia. }
    destruct (bucle_sigue n w1 _ IH H2 Hlt Hr (Hin Hlt)) as (x & w3 & Hx & Hw3 & Ha3).
    exists x, w3. split; [exact Hx|]. split; [done|].
    eapply avanza_mono; [exact (avanza_trans _ _ _ _ _ Ha1 Ha3)|lia].
  - destruct (Hout Hge) as [x ->]. exists x, w1. split; [done|]. split; [done|].
    eapply avanza_mono; [exact Ha1|lia].
Qed.

(** the loop, wherever the clock stands when it begins *)
Lemma dur_bucle s : Dur true (limit + b + 2 * v_salto) (loop body s).
Proof.
  pose proof v_salto_rango as Hvs. unfold LARGO in Hb. split; [lia|]. intros w Hw. unfold loop.
  pose proof v_fuel as Hf. destruct (env_fuel) as [|n]; [lia|].
  destruct (Hbody s) as (g & Hg & Ht).
  destruct (tickRead_mira w Hw) as (v & w1 & H1 & H2 & H3 & H4 & H5).
  assert (Ha1 : avanza v w w1).
  { exists v. split; [lia|]. split; [done|]. intros H0. specialize (H5 H0). lia. }
  cbn [loop_n]. rewrite Hg. unfold mbind, M_bind at 2. unfold M_bind at 1. rewrite H1.
  destruct (Ht (tickCounter (hw w1))) as [Hin Hout]. fold (edad w1) in Hin, Hout.
  destruct (Z.lt_ge_cases (edad w1) limit) as [Hlt|Hge].
  - pose proof (edad_rango w1) as He0.
    assert (Hr : restan w1 <= Z.of_nat n).
    { unfold restan. pose proof (v_pot_max (device (hw w1))). nia. }
    destruct (bucle_sigue n w1 _ (bucle_dentro n) H2 Hlt Hr (Hin Hlt)) as (x & w3 & Hx & Hw3 & Ha3).
    exists x, w3. split; [exact Hx|]. split; [done|].
    eapply avanza_mono; [exact (avanza_trans _ _ _ _ _ Ha1 Ha3)|lia].
  - destruct (Hout Hge) as [x ->]. exists x, w1. split; [done|]. split; [done|].
    eapply avanza_mono; [exact Ha1|lia].
Qed.
End Bucle.

(** ** sapi_delay.c *)
Lemma delay_bucle ms start :
  0 <= ms <= 100000 ->
  Dur true (ms + 2 * v_salto) (loop (fun _ : unit =>
    t ← tickRead;
    mret (if u64 (t - start) <? u64 ms / tickRateMS then inl tt else inr tt)) tt).
Proof.
  intros Hms. pose proof v_salto_rango.
  eapply dur_mono; [eapply (dur_bucle _ start ms 0)|lia]; [|lia|unfold LARGO; lia].
  intros _. eexists. split; [reflexivity|]. intros t.
  assert (Hd : u64 ms / tickRateMS = ms) by (rewrite u64_small by lia; apply Z.div_1_r).
  rewrite Hd. split; intros Ht.
  - rewrite (proj2 (Z.ltb_lt _ _) Ht). apply dur_ret. lia.
  - rewrite (proj2 (Z.ltb_ge _ _) Ht). by exists tt.
Qed.

#[global] Instance delay_dur ms : Plazo ms -> Dur true (ms + 3 * v_salto) (delay ms).
Proof.
  intros Hms. pose proof v_salto_rango. unfold Plazo in Hms. unfold delay.
  eapply dur_bind; [apply _| |lia]. intros start. eapply dur_mono; [by apply delay_bucle|lia].
Qed.

(** the loop of [delay] leaves only from [ms] on *)
Lemma delay_minimo ms start w x w' :
  0 <= ms < 2 ^ 64 ->
  loop (fun _ : unit =>
    t ← tickRead; mret (if u64 (t - start) <? u64 ms / tickRateMS then inl tt else inr tt)) tt w = Ret x w' ->
  ms <= u64 (tickCounter (hw w') - start).
Proof.
  intros Hms H. unfold loop in H.
  eapply (loop_n_inv (fun _ _ => True) (fun _ w => ms <= u64 (tickCounter (hw w) - start)));
    [done| |exact I|exact H].
  intros [] w1 y w2 _ H2. apply bind_Ret in H2 as (t & w3 & Ht & [= Hb <-]).
  assert (Hc : t = tickCounter (hw w3)).
  { unfold tickRead in Ht. do 4 (apply bind_Ret in Ht as (? & ? & _ & Ht)). by injection Ht as <- <-. }
  rewrite <- Hc. destruct (Z.ltb_spec (u64 (t - start)) (u64 ms / tickRateMS)) as [|Hle]; [done|].
  rewrite u64_small in Hle by lia. unfold tickRateMS in Hle. by rewrite Z.div_1_r in Hle.
Qed.

(** on a live board a call of [delay] waits at least the time asked for, and at most
    three gaps between looks at the clock longer. *)
Lemma delay_exacto ms w (Hms : 0 <= ms <= 100000) (Hw : listo true w) :
  exists n w', delay ms w = Ret tt w' /\ tickCounter (hw w') = u64 (tickCounter (hw w) + n) /\
    ms <= n <= ms + 3 * v_salto.
Proof.
  pose proof v_salto_rango as Hv. unfold delay.
  destruct (tickRead_mira w Hw) as (v & w1 & H1 & Hw1 & Hn1 & Ht1 & _).
  set (t0 := tickCounter (hw w1)) in *.
  destruct (delay_bucle ms t0 Hms) as [_ Hd].
  destruct (Hd w1 Hw1) as ([] & w2 & H2 & Hw2 & (n & Hn & Ht2 & _)).
  pose proof (delay_minimo ms t0 w1 tt w2 ltac:(lia) H2) as Hmin.
  exists (v + n), w2. split; [apply bind_Ret; eauto|].
  assert (He : u64 (tickCounter (hw w2) - t0) = n).
  { rewrite Ht2. fold t0. unfold u64. rewrite Zminus_mod_idemp_l.
    replace (t0 + n - t0) with n by lia. apply Z.mod_small. lia. }
  split; [|lia]. rewrite Ht2. fold t0. rewrite Ht1. unfold u64. rewrite Zplus_mod_idemp_l. f_equal. lia.
Qed.

(** ** With a projection of the state *)

(** as [Dur], from a world whose projection is [c], with what holds at the end *)
Definition durp {X} (p : world -> X) (c : X) (s : bool) (b : Z) {A} (m : M A)
    (Q : A -> X -> Prop) : Prop :=
  0 <= b /\ forall w, listo s w -> p w = c ->
    exists a w', m w = Ret a w' /\ listo s w' /\ avanza b w w' /\ Q a (p w').

Lemma durp_bind {X} (p : world -> X) c s b b1 {A B} (m : M A) (f : A -> M B) Q1 Q :
  durp p c s b1 m Q1 -> (forall a c', Q1 a c' -> durp p c' s (b - b1) (f a) Q) -> 0 <= b ->
  durp p c s b (m ≫= f) Q.
Proof.
  intros [H0 Hm] Hf Hb. split; [done|]. intros w Hw Hc.
  destruct (Hm w Hw Hc) as (a & w1 & H1 & Hw1 & Ha1 & HQ1).
  destruct (Hf a _ HQ1) as [_ Hfa]. destruct (Hfa w1 Hw1 eq_refl) as (x & w2 & H2 & Hw2 & Ha2 & HQ).
  exists x, w2. split; [apply bind_Ret; eauto|]. split; [done|]. split; [|done].
  replace b with (b1 + (b - b1)) by lia. eauto using avanza_trans.
Qed.

Lemma durp_ret {X} (p : world -> X) c s b {A} (a : A) (Q : A -> X -> Prop) :
  0 <= b -> Q a c -> durp p c s b (mret a) Q.
Proof. intros Hb HQ. split; [done|]. intros w Hw <-. exists a, w. eauto using avanza_refl. Qed.

(** a function whose bound and whose effect on the projection are known *)
Lemma durp_tri {X} (p : world -> X) c s b {A} (m : M A) (Q : A -> X -> Prop) :
  Dur s b m -> tri p c m Q -> durp p c s b m Q.
Proof.
  intros [H0 Hm] Ht. split; [done|]. intros w Hw Hc.
  destruct (Hm w Hw) as (a & w1 & H1 & Hw1 & Ha1). exists a, w1. eauto 6.
Qed.

Lemma durp_conseq {X} (p : world -> X) c s b b' {A} (m : M A) (Q Q' : A -> X -> Prop) :
  durp p c s b' m Q' -> b' <= b -> (forall a c', Q' a c' -> Q a c') -> durp p c s b m Q.
Proof.
  intros [H0 Hm] Hb HQ. split; [lia|]. intros w Hw Hc.
  destruct (Hm w Hw Hc) as (a & w1 & H1 & Hw1 & Ha1 & Hq).
  exists a, w1. eauto 6 using avanza_mono.
Qed.

(** a step, then the rest *)
Lemma durp_step {X} (p : world -> X) c s b b1 {A B} (m : M A) (f : A -> M B) Q1 Q :
  Dur s b1 m -> tri p c m Q1 -> (forall a c', Q1 a c' -> durp p c' s (b - b1) (f a) Q) -> 0 <= b ->
  durp p c s b (m ≫= f) Q.
Proof. intros Hd Ht. apply durp_bind. by apply durp_tri. Qed.

Lemma durp_assoc {X} (p : world -> X) c s b {A B D} (m : M A) (f : A -> M B) (g : B -> M D) Q :
  durp p c s b (a ← m; x ← f a; g x) Q -> durp p c s b (x ← (a ← m; f a); g x) Q.
Proof.
  intros [H0 H]. split; [done|]. intros w Hw Hc. destruct (H w Hw Hc) as (x & w' & Hx & Hr).
  exists x, w'. split; [|done]. rewrite <- Hx. unfold mbind, M_bind. by destruct (m w).
Qed.
Lemma durp_ret_bind {X} (p : world -> X) c s b {A B} (a : A) (f : A -> M B) Q :
  durp p c s b (f a) Q -> durp p c s b (mret a ≫= f) Q.
Proof. done. Qed.
(** a function the projection does not see *)
Lemma durp_keep {X} (p : world -> X) c s b b1 {A B} (m : M A) (f : A -> M B) Q :
  Dur s b1 m -> Keeps p m -> (forall a, durp p c s (b - b1) (f a) Q) -> 0 <= b ->
  durp p c s b (m ≫= f) Q.
Proof.
  intros Hm Hk Hf Hb. eapply (durp_step _ _ _ _ _ _ _ (fun _ c' => c' = c)); [exact Hm| |by intros a c' ->|done].
  by apply tri_keep.
Qed.
(** what remains does not depend on the projection *)
Lemma durp_resto {X} (p : world -> X) c s b {A} (m : M A) :
  Dur s b m -> durp p c s b m (fun _ _ => True).
Proof.
  intros [H0 Hm]. split; [done|]. intros w Hw _.
  destruct (Hm w Hw) as (a & w1 & H1 & Hw1 & Ha1). exists a, w1. done.
Qed.
Lemma durp_gets {X} (p : world -> X) c s b {A B} (g : world -> A) (f : A -> M B) Q :
  (forall w, p w = c -> durp p c s b (f (g w)) Q) -> 0 <= b -> durp p c s b (gets g ≫= f) Q.
Proof.
  intros Hf Hb. split; [done|]. intros w Hw Hc. destruct (Hf w Hc) as [_ H].
  destruct (H w Hw Hc) as (a & w' & Hr). exists a, w'. exact Hr.
Qed.

(** seen through another projection *)
Lemma durp_otra {X Y} (p : world -> X) (q : world -> Y) c s b {A} (m : M A) Q Q' :
  0 <= b -> (forall w, p w = c -> durp q (q w) s b m Q') ->
  (forall w a w', p w = c -> m w = Ret a w' -> Q' a (q w') -> Q a (p w')) -> durp p c s b m Q.
Proof.
  intros Hb H HQ. split; [done|]. intros w Hw Hc. destruct (H w Hc) as [_ Hm].
  destruct (Hm w Hw eq_refl) as (a & w' & H1 & H2 & H3 & H4). exists a, w'. eauto 6.
Qed.

(** beside a projection that the function keeps *)
Lemma durp_par {X Y} (p : world -> X) (q : world -> Y) c e s b {A} (m : M A) Q :
  durp p c s b m Q -> Keeps q m -> durp (fun w => (p w, q w)) (c, e) s b m (fun a x => Q a x.1 /\ x.2 = e).
Proof.
  intros [H0 Hm] Hk. split; [done|]. intros w Hw [= Hc <-].
  destruct (Hm w Hw Hc) as (a & w' & H1 & H2 & H3 & H4). exists a, w'. eauto 6.
Qed.

(** beside the clock, which stands within the bound *)
Definition con_reloj {X} (p : world -> X) (w : world) : X * Z := (p w, tickCounter (hw w)).

Lemma avanza_reloj b w w' : avanza b w w' -> 0 <= tickCounter (hw w) -> tickCounter (hw w) + b < 2 ^ 64 ->
  tickCounter (hw w) <= tickCounter (hw w') <= tickCounter (hw w) + b.
Proof. intros (n & Hn & -> & _) H0 Hb. rewrite u64_small; lia. Qed.

Lemma durp_reloj {X} (p : world -> X) c t s b b1 {A B} (m : M A) (f : A -> M B) Q1 Q :
  durp p c s b1 m Q1 ->
  (forall a c' t', Q1 a c' -> t <= t' <= t + b1 -> durp (con_reloj p) (c', t') s (b - b1) (f a) Q) ->
  0 <= b -> t + b1 < 2 ^ 64 -> durp (con_reloj p) (c, t) s b (m ≫= f) Q.
Proof.
  intros [Hb1 Hm] Hf Hb Ht. eapply (durp_bind _ _ _ _ b1 _ _ (fun a x => Q1 a x.1 /\ t <= x.2 <= t + b1)).
  - split; [done|]. intros w Hw [= Hc Htk]. destruct (Hm w Hw Hc) as (a & w' & H1 & H2 & H3 & H4).
    exists a, w'. do 4 (split; [done|]). destruct Hw as (_ & Hr & _). rewrite <- Htk in *.
    apply avanza_reloj; [exact H3|lia|lia].
  - intros a [c' t'] [H1 H2]. by apply Hf.
  - done.
Qed.
(** a function the projection does not see *)
Lemma durp_pasa {X} (p : world -> X) c t s b b1 {A B} (m : M A) (f : A -> M B) Q :
  Dur s b1 m -> Keeps p m ->
  (forall a t', t <= t' <= t + b1 -> durp (con_reloj p) (c, t') s (b - b1) (f a) Q) ->
  0 <= b -> t + b1 < 2 ^ 64 -> durp (con_reloj p) (c, t) s b (m ≫= f) Q.
Proof.
  intros Hm Hk Hf Hb Ht. eapply (durp_reloj _ _ _ _ _ _ _ _ (fun _ c' => c' = c)); [|intros a c' t' ->; apply Hf|done|done].
  apply durp_tri; [exact Hm|]. by apply tri_keep.
Qed.
(** ... nor the clock *)
Lemma durp_sin_reloj {X} (p : world -> X) c t s b {A B} (m : M A) (f : A -> M B) Q :
  Dur s 0 m -> Keeps p m ->
  (forall a, durp (con_reloj p) (c, t) s b (f a) Q) -> 0 <= b -> durp (con_reloj p) (c, t) s b (m ≫= f) Q.
Proof.
  intros [_ Hm] Hk Hf Hb. split; [done|]. intros w Hw Hc. pose proof Hc as [= Hp Ht].
  destruct (Hm w Hw) as (a & w' & H1 & Hl & (n & Hn & Ht1 & Hpot)). destruct (Hf a) as [_ H].
  assert (Htk : tickCounter (hw w') = tickCounter (hw w)).
  { rewrite Ht1. pose proof Hw as (_ & ? & _). rewrite u64_small; lia. }
  destruct (H w' Hl) as (x & w2 & H2 & H3 & H4 & H5).
  { unfold con_reloj. by rewrite (Hk _ _ _ H1), Hp, Htk, Ht. }
  exists x, w2. split; [apply bind_Ret; eauto|]. split; [done|]. split; [|done].
  eapply avanza_mono; [eapply avanza_trans; [exists n; split; [exact Hn|done]|exact H4]|lia].
Qed.
(** a look at the clock *)
Lemma durp_tic {X} (p : world -> X) c t {B} b (f : Z -> M B) Q :
  Keeps p tickRead ->
  (forall v, t <= v <= t + v_salto -> durp (con_reloj p) (c, v) true (b - v_salto) (f v) Q) ->
  0 <= b -> t + v_salto < 2 ^ 64 -> durp (con_reloj p) (c, t) true b (tickRead ≫= f) Q.
Proof.
  intros Hk Hf Hb Ht. pose proof v_salto_rango. split; [done|]. intros w Hw [= Hp Htk].
  destruct (tickRead_mira w Hw) as (n & w' & H1 & H2 & H3 & H4 & Hn).
  pose proof Hw as (_ & Hr & _). rewrite Htk, u64_small in H4 by lia.
  destruct (Hf (t + n)) as [_ Hx]; [lia|]. destruct (Hx w' H2) as (x & w2 & H5 & H6 & H7 & H8).
  { unfold con_reloj. by rewrite (Hk _ _ _ H1), Hp, H4. }
  exists x, w2. split; [apply bind_Ret; rewrite H4 in H1; eauto|]. split; [done|]. split; [|exact H8].
  replace b with (v_salto + (b - v_salto)) by lia. eapply avanza_trans; [|exact H7].
  exists n. split; [done|]. split; [rewrite H4, u64_small by lia; congruence|intros H0; specialize (Hn H0); lia].
Qed.
(** a write outside the clock *)
Lemma durp_modify {X} (p : world -> X) (g : X -> X) c t s b {B} (h : world -> world) (f : unit -> M B) Q :
  Dur s 0 (modify h) -> (forall w, p (h w) = g (p w)) ->
  durp (con_reloj p) (g c, t) s b (f tt) Q -> 0 <= b -> durp (con_reloj p) (c, t) s b (modify h ≫= f) Q.
Proof.
  intros Hm Hg Hf Hb. replace b with (0 + (b - 0)) by lia.
  eapply (durp_bind _ _ _ _ 0 _ _ (fun _ x => x = (g c, t))); [|intros a x ->|lia].
  - destruct Hm as [_ Hm]. split; [done|]. intros w Hw [= Hc Ht]. destruct (Hm w Hw) as ([] & w' & H1 & H2 & H3).
    exists tt, w'. do 3 (split; [done|]). injection H1 as <-. unfold con_reloj. rewrite Hg, Hc. f_equal.
    destruct H3 as (n & Hn & -> & _). destruct Hw as (_ & Hr & _). rewrite u64_small; lia.
  - destruct a. eapply durp_conseq; [exact Hf|lia|done].
Qed.

(** one more turn of a loop *)
Lemma durp_loop_n {X} (p : world -> X) c s b {S R} (body : S -> M (S + R)) n st Q :
  durp p c s b (r ← body st; match r with inl st' => loop_n n body st' | inr x => mret x end) Q ->
  durp p c s b (loop_n (Datatypes.S n) body st) Q.
Proof. intros [H0 H]. split; [done|]. intros w Hw Hc. destruct (H w Hw Hc) as (a & w' & H1 & Hr).
  exists a, w'. split; [|exact Hr]. rewrite loop_n_S, <- H1. unfold mbind, M_bind.
  by destruct (body st w) as [[]| |].
Qed.
Lemma combustible : exists n, env_fuel = Datatypes.S (Datatypes.S n) /\ 99999 <= Z.of_nat n.
Proof using V. pose proof v_fuel. exists (env_fuel - 2)%nat. lia. Qed.

(** for a caller that does not look at the projection *)
Lemma durp_dur {X} (p : world -> X) s b {A} (m : M A) Q :
  0 <= b -> (forall c, durp p c s b m Q) -> Dur s b m.
Proof.
  intros Hb H. split; [done|]. intros w Hw. destruct (H (p w)) as [_ Hm].
  destruct (Hm w Hw eq_refl) as (a & w' & H1 & H2 & H3 & _). eauto 6.
Qed.

Lemma dur_assoc s b {A B D} (m : M A) (f : A -> M B) (g : B -> M D) :
  Dur s b (a ← m; x ← f a; g x) -> Dur s b (x ← (a ← m; f a); g x).
Proof.
  intros [H0 H]. split; [done|]. intros w Hw. destruct (H w Hw) as (x & w' & Hx & Hr).
  exists x, w'. split; [|done]. rewrite <- Hx. unfold mbind, M_bind. by destruct (m w).
Qed.
Lemma dur_ret_bind s b {A B} (a : A) (f : A -> M B) : Dur s b (f a) -> Dur s b (mret a ≫= f).
Proof. done. Qed.

#[global] Instance dur_gets_0 s {A} (f : world -> A) : Dur s 0 (gets f).
Proof. by apply dur_gets. Qed.
#[global] Instance dur_emit_0 s e : Dur s 0 (emit e).
Proof. by apply dur_emit. Qed.
Lemma dur_inp_0 s i : i <> InTick -> Dur s 0 (inp i).
Proof. intros. by apply dur_inp. Qed.
#[global] Instance dur_set_tec s (f : world -> teclado_st) : Dur s 0 (modify (fun w => set_tec (f w) w)).
Proof. by apply dur_modify. Qed.
#[global] Instance dur_set_db s (f : world -> list PinUsuario_t) :
  Dur s 0 (modify (fun w => set_db (f w) w)).
Proof. by apply dur_modify. Qed.
#[global] Instance dur_set_conectado s (f : world -> bool) :
  Dur s 0 (modify (fun w => set_conectado (f w) w)).
Proof. by apply dur_modify. Qed.
#[global] Instance dur_set_scan s (f : world -> scan_st) : Dur s 0 (modify (fun w => set_scan (f w) w)).
Proof. by apply dur_modify. Qed.
#[global] Instance dur_set_mef s (f : world -> mef_st) : Dur s 0 (modify (fun w => set_mef (f w) w)).
Proof. by apply dur_modify. Qed.
End Plazos.

#[export] Hint Extern 1 (Dur _ _ (inp _)) => (apply dur_inp_0; discriminate) : typeclass_instances.

(** One step of a bound's derivation: what runs first is brought to the front,
    branches are split, a function whose bound is known is passed over. *)
Ltac dur_step :=
  match goal with
  | |- Dur _ _ (mbind _ (mbind _ _)) => apply dur_assoc
  | |- Dur _ _ (mbind _ (mret _)) => apply dur_ret_bind
  | |- Dur _ _ (mbind _ (when ?c _)) => destruct c; cbn [when]
  | |- Dur _ _ (mbind _ (match ?x with _ => _ end)) => let H := fresh "Hb" in destruct x eqn:H
  | |- Dur _ _ (mbind _ _) => eapply dur_bind; [solve [apply _]|intros|lia]
  | |- Dur _ _ (mret _) => apply dur_ret; lia
  | |- Dur _ _ (when _ _) => apply dur_when; [intros|lia]
  | |- Dur _ _ (let '(_, _) := ?x in _) => destruct x
  | |- Dur _ _ (match ?x with _ => _ end) => let H := fresh "Hb" in destruct x eqn:H
  | |- Dur _ _ _ => eapply dur_mono; [solve [apply _]|lia]
  end.
Ltac dur_run := pose proof v_salto_rango; repeat dur_step.
