(* ===== verification/Cerrojo.v ===== *)
(** * stepperMotor.c, alertas.c, mef_config.c: the outputs

    The stepper driver (DRV8825) that moves the bolt, the buzzer, and the pin
    and interrupt configuration. *)

From Stdlib Require Import ZArith Lia Bool Ascii String.
From stdpp Require Import base list strings numbers sets.
From stdpp Require Import options.
From S2P Require Import Prelude Machine Effects Banco Sapi.

(** [stepperMotor.h] *)
Definition STEP_GPIO_PORT : Z := 5.
Definition STEP_GPIO_PIN : Z := 16.
Definition DIR_GPIO_PORT : Z := 2.
Definition DIR_GPIO_PIN : Z := 8.
Definition EN_GPIO_PORT : Z := 3.
Definition EN_GPIO_PIN : Z := 0.
Definition STEPS : Z := 100.
Definition STEP_PULSE_HIGH : Z := 5.
Definition STEP_PULSE_LOW : Z := 2500.

(** [alertas.c] *)
Definition BUZZER_GPIO_PORT : Z := 0.
Definition BUZZER_GPIO_PIN : Z := 0.

(** [mef_config.h] *)
Definition TIMEOUT_MS : Z := 40000.
Definition OMITIR_SENSOR_CIERRE : bool := false.
Definition OMITIR_MOTOR : bool := false.
Definition ALERTAS_ENABLE : bool := true.
Definition SENSOR_WIFI_ENABLE : bool := true.
Definition SENSOR_HUELLA_ENABLE : bool := true.
Definition SERVER_IP : list ascii := $"10.42.46.87".
Definition SERVER_PORT : list ascii := $"8000".
Definition SENSORHALL_GPIO_PORT : Z := 0.
Definition SENSORHALL_GPIO_PIN : Z := 1.

Definition PININTCH0 : Z := 1.             (* channel 0, as a bit mask *)

Section Cerrojo.
Context {E : Env}.

(** ** stepperMotor.c *)
Definition driverConfig : M unit :=
  Chip_GPIO_SetPinDIROutput STEP_GPIO_PORT STEP_GPIO_PIN ;;
  Chip_GPIO_SetPinDIROutput DIR_GPIO_PORT DIR_GPIO_PIN ;;
  Chip_GPIO_SetPinDIROutput EN_GPIO_PORT EN_GPIO_PIN ;;
  Chip_GPIO_SetPinState EN_GPIO_PORT EN_GPIO_PIN true.

Definition step_pulse : M unit :=
  Chip_GPIO_SetPinState STEP_GPIO_PORT STEP_GPIO_PIN true ;;
  delayInaccurateUs STEP_PULSE_HIGH ;;
  Chip_GPIO_SetPinState STEP_GPIO_PORT STEP_GPIO_PIN false.

Definition step_move (dir : bool) : M unit :=
  Chip_GPIO_SetPinState EN_GPIO_PORT EN_GPIO_PIN false ;;
  Chip_GPIO_SetPinState DIR_GPIO_PORT DIR_GPIO_PIN (if dir then false else true) ;;
  for_each (seqZ 0 STEPS) (fun _ =>
    step_pulse ;; delayInaccurateUs STEP_PULSE_LOW) ;;
  Chip_GPIO_SetPinState EN_GPIO_PORT EN_GPIO_PIN true.

Definition abrirCerradura : M unit := step_move true.
Definition cerrarCerradura : M unit := step_move false.

(** ** alertas.c *)
Definition buzzer (on : bool) : M unit :=
  Chip_GPIO_SetPinState BUZZER_GPIO_PORT BUZZER_GPIO_PIN on.

Definition alertasInit : M unit :=
  Chip_GPIO_SetPinDIROutput BUZZER_GPIO_PORT BUZZER_GPIO_PIN ;;
  buzzer false.

Definition alertaExito : M unit :=
  buzzer true ;; delay 100 ;; buzzer false ;;
  delay 120 ;;
  buzzer true ;; delay 100 ;; buzzer false.

Definition alertaError : M unit :=
  buzzer true ;; delay 1000 ;; buzzer false.

(** ** mef_config.c *)
Definition configurarPines : M unit :=
  Chip_SCU_PinMux 0 1 (scu_modes [SCU_MODE_INACT; SCU_MODE_INBUFF_EN; SCU_MODE_ZIF_DIS]) 0 ;;
  Chip_GPIO_SetPinDIRInput SENSORHALL_GPIO_PORT SENSORHALL_GPIO_PIN.

Definition Chip_PININT_ClearIntStatus (ch : Z) : M unit :=
  emit (EvConfig "Chip_PININT_ClearIntStatus" [ch]).

Definition configurarInterrupcionPRESENCIA : M unit :=
  emit (EvConfig "Chip_PININT_Init" []) ;;
  Chip_SCU_PinMux 1 17
    (scu_modes [SCU_MODE_PULLDOWN; SCU_MODE_INBUFF_EN; SCU_MODE_ZIF_DIS]) 0 ;;
  Chip_GPIO_SetPinDIRInput 0 12 ;;
  emit (EvConfig "Chip_SCU_GPIOIntPinSel" [0; 0; 12]) ;;
  Chip_PININT_ClearIntStatus PININTCH0 ;;
  emit (EvConfig "Chip_PININT_SetPinModeEdge" [PININTCH0]) ;;
  emit (EvConfig "Chip_PININT_EnableIntHigh" [PININTCH0]).
End Cerrojo.

(* opaque to instance search *)
#[export] Hint Opaque driverConfig step_pulse step_move abrirCerradura cerrarCerradura buzzer
  alertasInit alertaExito alertaError configurarPines Chip_PININT_ClearIntStatus
  configurarInterrupcionPRESENCIA : typeclass_instances.

(** the kinds of the motor's and of the buzzer's writes *)
Definition motor_kinds : list kind :=
  [KPin STEP_GPIO_PORT STEP_GPIO_PIN; KPin DIR_GPIO_PORT DIR_GPIO_PIN; KPin EN_GPIO_PORT EN_GPIO_PIN].
Definition buzzer_kind : kind := KPin BUZZER_GPIO_PORT BUZZER_GPIO_PIN.

Section CerrojoEff.
Context {E : Env}.

#[export] Instance step_move_eff F K d : Sub motor_kinds K -> Eff F K (step_move d).
Proof.
  eff_op (@nil comp) motor_kinds. unfold step_move, step_pulse. eff_solve.
Qed.
#[export] Instance abrirCerradura_eff F K : Sub motor_kinds K -> Eff F K abrirCerradura.
Proof. unfold abrirCerradura. eff_solve. Qed.
#[export] Instance cerrarCerradura_eff F K : Sub motor_kinds K -> Eff F K cerrarCerradura.
Proof. unfold cerrarCerradura. eff_solve. Qed.
#[export] Instance driverConfig_eff F K :
  Sub (KConf :: motor_kinds) K -> Eff F K driverConfig.
Proof. eff_op (@nil comp) (KConf :: motor_kinds). unfold driverConfig. eff_solve. Qed.
#[export] Instance buzzer_eff F K b : Sub [buzzer_kind] K -> Eff F K (buzzer b).
Proof. unfold buzzer. eff_solve. Qed.
#[export] Instance alertasInit_eff F K : Sub [KConf; buzzer_kind] K -> Eff F K alertasInit.
Proof. eff_op (@nil comp) [KConf; buzzer_kind]. unfold alertasInit. eff_solve. Qed.
#[export] Instance alertaExito_eff F K : Sub [buzzer_kind] K -> Eff F K alertaExito.
Proof. unfold alertaExito. eff_solve. Qed.
#[export] Instance alertaError_eff F K : Sub [buzzer_kind] K -> Eff F K alertaError.
Proof. unfold alertaError. eff_solve. Qed.
#[export] Instance configurarPines_eff F K : Sub [KConf] K -> Eff F K configurarPines.
Proof. unfold configurarPines. eff_solve. Qed.
#[export] Instance pinint_clear_eff F K c : Sub [KConf] K -> Eff F K (Chip_PININT_ClearIntStatus c).
Proof. unfold Chip_PININT_ClearIntStatus. eff_solve. Qed.
#[export] Instance configurarPRESENCIA_eff F K :
  Sub [KConf] K -> Eff F K configurarInterrupcionPRESENCIA.
Proof. unfold configurarInterrupcionPRESENCIA. eff_solve. Qed.
End CerrojoEff.

(** ** The driver the pins lead to

    A DRV8825: energised while EN is low; a rising edge of STEP moves the
    shaft one step, in the direction DIR selects (low opens).  [d_pos] counts
    the steps made, opening ones positive. *)
Record drv : Type := mkDrv { d_on : bool; d_abre : bool; d_step : bool; d_pos : Z }.

Definition es_pin (p q port pin : Z) : bool := (p =? port) && (q =? pin).

Definition drv_event (e : event) (d : drv) : drv :=
  match e with
  | EvPinState p q b =>
      if es_pin p q STEP_GPIO_PORT STEP_GPIO_PIN then
        mkDrv (d_on d) (d_abre d) b
          (if d_on d && b && negb (d_step d)
           then d_pos d + (if d_abre d then 1 else -1) else d_pos d)
      else if es_pin p q DIR_GPIO_PORT DIR_GPIO_PIN then
        mkDrv (d_on d) (negb b) (d_step d) (d_pos d)
      else if es_pin p q EN_GPIO_PORT EN_GPIO_PIN then
        mkDrv (negb b) (d_abre d) (d_step d) (d_pos d)
      else d
  | _ => d
  end.

(** the driver after a trace (the latest write first) *)
Definition driver (d0 : drv) (t : list event) : drv := fold_right drv_event d0 t.

(** at rest: not energised, STEP low *)
Definition en_reposo (d : drv) : Prop := d_on d = false /\ d_step d = false.

Lemma driver_app d0 t1 t2 : driver d0 (t1 ++ t2) = driver (driver d0 t2) t1.
Proof. unfold driver. by rewrite foldr_app. Qed.

(** a write of another kind leaves the driver alone *)
Lemma drv_event_quiet e d : kind_of e ∉ motor_kinds -> drv_event e d = d.
Proof.
  intros H. destruct e as [p q b| | | | | | |]; try done.
  cbn [drv_event]. cbn [kind_of] in H.
  assert (Hn : forall port pin, KPin port pin ∈ motor_kinds -> es_pin p q port pin = false).
  { intros port pin Hin. unfold es_pin. apply andb_false_iff.
    destruct (Z.eqb_spec p port); [|by left]. destruct (Z.eqb_spec q pin); [|by right].
    subst. done. }
  rewrite !Hn; [done| | |]; unfold motor_kinds; set_solver.
Qed.

Lemma driver_quiet d t :
  Forall (fun e => kind_of e ∉ motor_kinds) t -> driver d t = d.
Proof.
  induction 1 as [|e t He _ IH]; [done|]. simpl. rewrite IH. by apply drv_event_quiet.
Qed.

(** the writes of a move, the latest first *)
Definition ev_step (b : bool) : event := EvPinState STEP_GPIO_PORT STEP_GPIO_PIN b.
Definition pulsos (n : nat) : list event :=
  concat (replicate n [ev_step false; ev_step true]).
Definition motor_events (dir : bool) : list event :=
  EvPinState EN_GPIO_PORT EN_GPIO_PIN true ::
  pulsos (Z.to_nat STEPS) ++
  [EvPinState DIR_GPIO_PORT DIR_GPIO_PIN (negb dir);
   EvPinState EN_GPIO_PORT EN_GPIO_PIN false].

Lemma driver_pulsos n abre s p :
  driver (mkDrv true abre false p) (pulsos n) =
  mkDrv true abre false (p + (if abre then 1 else -1) * Z.of_nat n) /\
  driver (mkDrv true abre s p) (pulsos (S n)) =
  mkDrv true abre false (p + (if abre then 1 else -1) * (Z.of_nat n + if s then 0 else 1)).
Proof.
  assert (H : forall n p, driver (mkDrv true abre false p) (pulsos n) =
    mkDrv true abre false (p + (if abre then 1 else -1) * Z.of_nat n)).
  { clear. intros n. induction n as [|n IH]; intros p.
    - unfold pulsos; simpl. f_equal. lia.
    - change (pulsos (S n)) with ([ev_step false; ev_step true] ++ pulsos n).
      rewrite driver_app, IH. simpl. f_equal. destruct abre; lia. }
  split; [apply H|].
  replace (pulsos (S n)) with (pulsos n ++ [ev_step false; ev_step true]).
  - rewrite driver_app. simpl. rewrite H. f_equal. destruct abre, s; simpl; lia.
  - unfold pulsos. clear. induction n as [|n IH]; [done|].
    simpl. simpl in IH. by rewrite IH.
Qed.

Lemma driver_motor d dir :
  en_reposo d ->
  driver d (motor_events dir) =
  mkDrv false dir false (d_pos d + if dir then STEPS else - STEPS).
Proof.
  destruct d as [on abre s p]. intros [Hon Hs]. simpl in Hon, Hs. subst.
  unfold motor_events. rewrite app_comm_cons, driver_app.
  change (driver (mkDrv false abre false p) [EvPinState DIR_GPIO_PORT DIR_GPIO_PIN (negb dir);
    EvPinState EN_GPIO_PORT EN_GPIO_PIN false]) with (mkDrv true (negb (negb dir)) false p).
  rewrite negb_involutive. cbn [driver fold_right]. fold (driver (mkDrv true dir false p)
    (pulsos (Z.to_nat STEPS))).
  rewrite (proj1 (driver_pulsos _ dir false p)). cbn. f_equal. unfold STEPS. destruct dir; lia.
Qed.

Section Movimiento.
Context {E : Env}.

(** a world after a list of writes, the latest first *)
Definition tras (t : list event) (w : world) : world :=
  set_hw (mkHw (fold_right dev_out (device (hw w)) t) (tickCounter (hw w)) (systick (hw w))
               (t ++ trace (hw w))) w.

Lemma tras_nil w : tras [] w = w.
Proof. by destruct w as [[] ? ? ? ? ? ?]. Qed.
Lemma tras_app t1 t2 w : tras t1 (tras t2 w) = tras (t1 ++ t2) w.
Proof. unfold tras, set_hw. simpl. by rewrite foldr_app, app_assoc. Qed.
Lemma emit_tras e w : emit e w = Ret tt (tras [e] w).
Proof. done. Qed.

Lemma pulse_tras w :
  (step_pulse ;; delayInaccurateUs STEP_PULSE_LOW) w =
  Ret tt (tras [ev_step false; ev_step true] w).
Proof.
  unfold step_pulse, Chip_GPIO_SetPinState, delayInaccurateUs.
  unfold mbind, M_bind. rewrite emit_tras, countdown_Ret, emit_tras, countdown_Ret.
  by rewrite tras_app.
Qed.

Lemma pulses_tras {A} (l : list A) w :
  for_each l (fun _ => step_pulse ;; delayInaccurateUs STEP_PULSE_LOW) w =
  Ret tt (tras (pulsos (length l)) w).
Proof.
  revert w. induction l as [|a l IH]; intros w.
  - simpl. by rewrite tras_nil.
  - cbn [for_each length]. rewrite (bind_step _ _ _ _ _ (pulse_tras w)), IH, tras_app.
    do 2 f_equal. unfold pulsos. clear. induction (length l) as [|n IHn]; [done|].
    simpl. simpl in IHn. by rewrite IHn.
Qed.

Lemma step_move_tras dir w : step_move dir w = Ret tt (tras (motor_events dir) w).
Proof.
  unfold step_move, Chip_GPIO_SetPinState.
  rewrite (bind_step _ _ _ _ _ (emit_tras _ w)), (bind_step _ _ _ _ _ (emit_tras _ _)).
  rewrite (bind_step _ _ _ _ _ (pulses_tras _ _)), emit_tras, !tras_app.
  by rewrite length_seqZ.
Qed.

(** C16: opening and closing the bolt always end, and their writes are exactly:
    enable, direction, one hundred full STEP pulses, disable; nothing but the
    hardware changes. A driver at rest is then one hundred steps further in that
    direction and at rest again, so that opening and closing bring the bolt back. *)
Theorem cerradura_mueve w d :
  abrirCerradura w = Ret tt (tras (motor_events true) w) /\
  cerrarCerradura w = Ret tt (tras (motor_events false) w) /\
  (en_reposo d -> forall dir,
     en_reposo (driver d (motor_events dir)) /\
     d_pos (driver d (motor_events dir)) = d_pos d + (if dir then STEPS else - STEPS)) /\
  (en_reposo d -> d_pos (driver d (motor_events false ++ motor_events true)) = d_pos d).
Proof.
  split; [apply step_move_tras|]. split; [apply step_move_tras|]. split.
  - intros Hd dir. rewrite driver_motor by done. by split.
  - intros Hd. rewrite driver_app, (driver_motor _ true), driver_motor by done.
    cbn [d_pos]. unfold STEPS. lia.
Qed.
End Movimiento.

(** a board at rest *)
Definition mundo_cerrojo : @world (env_banco 1 10) :=
  mundo 1 10 (banco_quieto 0) [] (mkScan ST_IDLE 0 0 [] 0 0 0)
    (mkMef REPOSO [] 0 0 (SpecFloat.S754_zero false) [] 0 false false).

Lemma cerradura_mueve_witness :
  d_pos (driver (mkDrv false true false 30) (motor_events false ++ motor_events true)) = 30.
Proof.
  destruct (cerradura_mueve mundo_cerrojo (mkDrv false true false 30)) as (_ & _ & _ & H).
  apply H. split; reflexivity.
Defined.
