(* ===== verification/Teclado.v ===== *)
(** * teclado.c: the PIN keypad

    A 4x3 matrix keypad read by polling: an edge detector, the buffer of the
    digits typed so far, and the two reading functions. *)

From Stdlib Require Import ZArith Lia Bool Ascii String.
From stdpp Require Import base list strings numbers sets.
From stdpp Require Import options.
From S2P Require Import Prelude Machine Effects Triples Banco Sapi Display.

Definition KEYPAD_ROWS : Z := 4.
Definition KEYPAD_COLS : Z := 3.
Definition PIN_LENGTH : Z := 5.

Definition rowPins : list Z := [T_FIL0; T_FIL1; T_FIL2; T_FIL3].
Definition colPins : list Z := [T_COL0; T_COL1; T_COL2].

Definition keypadMap : list (list ascii) := [
  $"123";
  $"456";
  $"789";
  $"*0#"
].

(** [static keypad_t keypad], as [tecladoInit] configures it; no other
    function writes it. *)
Definition keypad : keypad_t := mkKeypad rowPins KEYPAD_ROWS colPins KEYPAD_COLS.

Section Teclado.
Context {E : Env}.

Definition set_edge (held : bool) (idx : Z) : M unit :=
  modify (fun w => set_tec (mkTeclado (t_pin (tec w)) (t_pos (tec w)) held idx) w).

Definition tecladoReset : M unit :=
  modify (fun w => set_tec (mkTeclado [] 0 (t_keyHeld (tec w)) (t_lastIndex (tec w))) w).

Definition tecladoInit : M unit :=
  _ ← keypadInit rowPins KEYPAD_ROWS colPins KEYPAD_COLS;
  tecladoReset.

(** [keypadMap[teclaIndex / KEYPAD_COLS][teclaIndex % KEYPAD_COLS]] *)
Definition keypadChar (teclaIndex : Z) : M ascii :=
  fila ← access (keypadMap !! Z.to_nat (teclaIndex / KEYPAD_COLS));
  access (fila !! Z.to_nat (teclaIndex mod KEYPAD_COLS)).

(** [pinIngresado[pos++] = teclaChar] *)
Definition pushDigit (c : ascii) : M unit :=
  modify (fun w => set_tec (mkTeclado (t_pin (tec w) ++ [c]) (u8 (t_pos (tec w) + 1))
                                      (t_keyHeld (tec w)) (t_lastIndex (tec w))) w).

(** The result, the buffer [pin] and the time stamp [*ultimaActividad]
    ([None] for a null pointer) after the call. *)
Definition tecladoLeerPin (pin : list ascii) (ultimaActividad : option Z) :
    M (Z * list ascii * option Z) :=
  k ← keypadRead keypad;
  match k with
  | Some teclaIndex =>
      t ← gets tec;
      if negb (t_keyHeld t) || negb (teclaIndex =? t_lastIndex t) then
        set_edge true teclaIndex ;;
        teclaChar ← keypadChar teclaIndex;
        ult ← (match ultimaActividad with
               | Some _ => now ← tickRead; mret (Some (u32 now))
               | None => mret None
               end);
        if ord teclaChar =? 42 then          (* '*' *)
          tecladoReset ;;
          mret (-1, pin, ult)
        else
          t ← gets tec;
          when ((t_pos t <? PIN_LENGTH) && is_digit teclaChar) (
            pushDigit teclaChar ;;
            p ← gets (fun w => t_pin (tec w));
            display_println p 35 ;;
            display_update) ;;
          t ← gets tec;
          if t_pos t =? PIN_LENGTH then
            display_clear ;;
            tecladoReset ;;
            mret (1, t_pin t, ult)
          else mret (0, pin, ult)
      else mret (0, pin, ultimaActividad)
  | None =>
      set_edge false 65535 ;;
      mret (0, pin, ultimaActividad)
  end.

(** [Some tecla] when a key was newly pressed *)
Definition tecladoLeerTecla : M (option ascii) :=
  k ← keypadRead keypad;
  match k with
  | Some teclaIndex =>
      t ← gets tec;
      if negb (t_keyHeld t) || negb (teclaIndex =? t_lastIndex t) then
        set_edge true teclaIndex ;;
        tecla ← keypadChar teclaIndex;
        delay 20 ;;
        mret (Some tecla)
      else mret None
  | None =>
      set_edge false 65535 ;;
      mret None
  end.
End Teclado.

(* opaque to instance search *)
#[export] Hint Opaque set_edge tecladoReset tecladoInit keypadChar pushDigit tecladoLeerPin
  tecladoLeerTecla : typeclass_instances.

(** ** Footprints *)
Definition row_kinds : list kind := pin_kind <$> rowPins.

Section TecladoEff.
Context {E : Env}.

#[export] Instance set_edge_eff F K h i : Sub [CTec] F -> Eff F K (set_edge h i).
Proof. unfold set_edge. apply _. Qed.
#[export] Instance tecladoReset_eff F K : Sub [CTec] F -> Eff F K tecladoReset.
Proof. unfold tecladoReset. apply _. Qed.
#[export] Instance pushDigit_eff F K c : Sub [CTec] F -> Eff F K (pushDigit c).
Proof. unfold pushDigit. apply _. Qed.
#[export] Instance keypadChar_eff F K i : Eff F K (keypadChar i).
Proof. unfold keypadChar. eff_solve. Qed.
#[export] Instance keypadRead_keypad_eff F K : Sub row_kinds K -> Eff F K (keypadRead keypad).
Proof. intros. apply keypadRead_eff. assumption. Qed.
#[export] Instance keypadInit_eff F K :
  Sub (KConf :: row_kinds ++ (pin_kind <$> colPins)) K ->
  Eff F K (keypadInit rowPins KEYPAD_ROWS colPins KEYPAD_COLS).
Proof.
  eff_op (@nil comp) (KConf :: row_kinds ++ (pin_kind <$> colPins)).
  unfold keypadInit, row_pin, col_pin.
  change (seqZ 0 KEYPAD_ROWS) with [0; 1; 2; 3]. change (seqZ 0 KEYPAD_COLS) with [0; 1; 2].
  cbn [for_each].
  repeat first
    [ apply eff_access_bind; let Ha := fresh in intros ? Ha; vm_compute in Ha; injection Ha as <-
    | eff_step ].
Qed.
#[export] Instance tecladoLeerPin_eff F K p u :
  Sub [CTec; CDisp] F -> Sub (KI2c :: row_kinds) K -> Eff F K (tecladoLeerPin p u).
Proof.
  eff_op [CTec; CDisp] (KI2c :: row_kinds). unfold tecladoLeerPin. eff_solve.
Qed.
#[export] Instance tecladoLeerTecla_eff F K :
  Sub [CTec] F -> Sub row_kinds K -> Eff F K tecladoLeerTecla.
Proof.
  eff_op [CTec] row_kinds. unfold tecladoLeerTecla. eff_solve.
Qed.
End TecladoEff.

(** ** PIN entry, abstractly

    A specification, not a part of teclado.c: what a stream of key samples
    means, whatever the matrix and the display do.  A key counts when it differs
    from the last sample, [*] cancels, a digit is appended, the fifth one completes
    the PIN.  [tecladoLeerPin_refines] says that the C function does this to every sample. *)
Inductive entrada : Type :=
  | EnCurso
  | Cancelado
  | Completo (pin : list ascii).

Definition tecla (i : Z) : ascii := nth (Z.to_nat i) (concat keypadMap) (chr 0).

Definition teclear (ds : list ascii) (c : ascii) : entrada * list ascii :=
  if ord c =? 42 then (Cancelado, [])
  else if is_digit c then
    if (length ds =? 4)%nat then (Completo (ds ++ [c]), []) else (EnCurso, ds ++ [c])
  else (EnCurso, ds).

Definition muestra (t : teclado_st) (k : option Z) : entrada * teclado_st :=
  match k with
  | None => (EnCurso, mkTeclado (t_pin t) (t_pos t) false 65535)
  | Some i =>
      if t_keyHeld t && (i =? t_lastIndex t) then (EnCurso, t)
      else
        let '(e, ds) := teclear (t_pin t) (tecla i) in
        (e, mkTeclado ds (Z.of_nat (length ds)) true i)
  end.

(** the result and the buffer the C function delivers for it *)
Definition resultado (e : entrada) (pin : list ascii) : Z * list ascii :=
  match e with
  | EnCurso => (0, pin)
  | Cancelado => (-1, pin)
  | Completo p => (1, p)
  end.

(** the invariant between calls: fewer than five digits, and their number *)
Definition tec_ok (t : teclado_st) : Prop :=
  t_pos t = Z.of_nat (length (t_pin t)) /\ (length (t_pin t) < 5)%nat /\
  Forall (fun c => is_digit c = true) (t_pin t).
Definition pin_ok (p : list ascii) : Prop :=
  length p = 5%nat /\ Forall (fun c => is_digit c = true) p.

Lemma tec_ok_reset h i : tec_ok (mkTeclado [] 0 h i).
Proof. split; [done|]. split; [simpl; lia|constructor]. Qed.

Lemma teclear_ok ds c e ds' :
  (length ds < 5)%nat -> Forall (fun c => is_digit c = true) ds -> teclear ds c = (e, ds') ->
  (length ds' < 5)%nat /\ Forall (fun c => is_digit c = true) ds' /\
  forall p, e = Completo p -> pin_ok p.
Proof.
  intros Hl Hd H. unfold teclear in H.
  destruct (ord c =? 42); [injection H as <- <-; split; [simpl; lia|split; [constructor|done]]|].
  destruct (is_digit c) eqn:Hc; [|injection H as <- <-; done].
  assert (Hf : Forall (fun c => is_digit c = true) (ds ++ [c])) by (apply Forall_app; auto).
  destruct (Nat.eqb_spec (length ds) 4) as [H4|H4]; injection H as <- <-.
  - split; [simpl; lia|]. split; [constructor|]. intros p [= <-].
    split; [rewrite length_app; simpl; lia|done].
  - rewrite length_app. simpl. split; [lia|]. done.
Qed.

Lemma muestra_ok t k e t' :
  tec_ok t -> muestra t k = (e, t') -> tec_ok t' /\ forall p, e = Completo p -> pin_ok p.
Proof.
  intros (Hp & Hl & Hd) H. unfold muestra in H. destruct k as [i|].
  - destruct (t_keyHeld t && (i =? t_lastIndex t)); [injection H as <- <-; done|].
    destruct (teclear (t_pin t) (tecla i)) as [e' ds] eqn:Ht. injection H as <- <-.
    destruct (teclear_ok _ _ _ _ Hl Hd Ht) as (H1 & H2 & H3). done.
  - injection H as <- <-. done.
Qed.

Section TecladoSpec.
Context {E : Env}.

#[local] Instance keeps_tec {A} (m : M A) :
  Eff [CDisp] (KI2c :: row_kinds) m -> Keeps tec m.
Proof.
  intros Hm w a w' H. apply (eff_frame _ _ _ _ (Hm _ _ _ H) CTec).
  by intros ?%list_elem_of_singleton.
Qed.

Lemma tri_first_some {X} (p : world -> X) {A B} (l : list A) (f : A -> M (option B)) c Q :
  Q None -> (forall a, a ∈ l -> tri p c (f a) (fun o c' => c' = c /\ Q o)) ->
  tri p c (first_some l f) (fun o c' => c' = c /\ Q o).
Proof.
  intros Hn. induction l as [|a l IH]; intros H; [by apply tri_ret|].
  simpl. apply tri_bind. eapply tri_conseq; [apply H; set_solver|].
  intros o c' [-> Ho]. destruct o; [by apply tri_ret|].
  apply IH. intros b Hb. apply H. set_solver.
Qed.

Definition indice_ok (k : option Z) : Prop := forall i, k = Some i -> 0 <= i < 12.

Lemma keypadRead_tec t :
  tri tec t (keypadRead keypad) (fun k t' => t' = t /\ indice_ok k).
Proof.
  unfold keypadRead. apply tri_bind. tri_step.
  apply (tri_first_some _ _ _ _ indice_ok); [done|]. intros c Hc%elem_of_seqZ.
  tri_step. tri_step. tri_step. tri_step. tri_step; [|by tri_step].
  tri_step. tri_step. tri_step. tri_step.
  apply (tri_first_some _ _ _ _ indice_ok); [done|]. intros r Hr%elem_of_seqZ.
  unfold keypad_row. repeat tri_step. split; [done|]. intros i.
  cbn in Hc, Hr. unfold KEYPAD_COLS, KEYPAD_ROWS in Hc, Hr.
  match goal with |- context [negb ?b] => destruct (negb b); [|done] end. intros [= <-]. cbn [keypadColSize keypad]. unfold KEYPAD_COLS.
  rewrite u16_small; lia.
Qed.

Lemma keypadChar_run i : 0 <= i < 12 -> keypadChar i = mret (tecla i).
Proof.
  intros Hi.
  assert (Hc : i = 0 \/ i = 1 \/ i = 2 \/ i = 3 \/ i = 4 \/ i = 5 \/ i = 6 \/ i = 7 \/
               i = 8 \/ i = 9 \/ i = 10 \/ i = 11) by lia.
  repeat (destruct Hc as [->|Hc]; [reflexivity|]). by subst.
Qed.
Lemma keypadChar_tecla i w a w' :
  0 <= i < 12 -> keypadChar i w = Ret a w' -> a = tecla i.
Proof. intros Hi. rewrite keypadChar_run by done. by intros [= <- _]. Qed.

Lemma tri_keypadChar i t (Q : ascii -> teclado_st -> Prop) :
  0 <= i < 12 -> Q (tecla i) t -> tri tec t (keypadChar i) Q.
Proof.
  intros Hi HQ w a w' Hw H. rewrite (keypadChar_tecla _ _ _ _ Hi H).
  rewrite (keeps tec (m:=keypadChar i) _ _ _ H), Hw. exact HQ.
Qed.

(** what the function returns and leaves in [tec] for a sample *)
Definition leido (t : teclado_st) (k : option Z) (pin : list ascii)
    (r : Z * list ascii * option Z) (t' : teclado_st) : Prop :=
  let '(e, t1) := muestra t k in t' = t1 /\ (r.1.1, r.1.2) = resultado e pin.

Lemma push_digit_spec t (Q : unit -> teclado_st -> Prop) c :
  Q tt (mkTeclado (t_pin t ++ [c]) (u8 (t_pos t + 1)) (t_keyHeld t) (t_lastIndex t)) ->
  tri tec t (pushDigit c) Q.
Proof. intros H. apply tri_modify. intros w <-. exact H. Qed.
Lemma set_edge_spec t (Q : unit -> teclado_st -> Prop) h i :
  Q tt (mkTeclado (t_pin t) (t_pos t) h i) -> tri tec t (set_edge h i) Q.
Proof. intros H. apply tri_modify. intros w <-. exact H. Qed.
Lemma reset_spec t (Q : unit -> teclado_st -> Prop) :
  Q tt (mkTeclado [] 0 (t_keyHeld t) (t_lastIndex t)) -> tri tec t tecladoReset Q.
Proof. intros H. apply tri_modify. intros w <-. exact H. Qed.
Lemma gets_tec_spec t (Q : teclado_st -> teclado_st -> Prop) : Q t t -> tri tec t (gets tec) Q.
Proof. intros H. apply tri_gets. intros w <-. exact H. Qed.

Lemma tecladoLeerPin_leido pin ult w r w' :
  tec_ok (tec w) -> tecladoLeerPin pin ult w = Ret r w' ->
  exists k w1, keypadRead keypad w = Ret k w1 /\ indice_ok k /\
               leido (tec w) k pin r (tec w').
Proof.
  remember (tec w) as t eqn:Hw. intros (Hpos & Hlen & Hd) H. unfold tecladoLeerPin in H.
  apply bind_Ret in H as (k & w1 & Hr & H).
  destruct (keypadRead_tec t w k w1 (eq_sym Hw) Hr) as [Hw1 Hk].
  exists k, w1. do 2 (split; [done|]).
  refine ((_ : tri tec t _ (leido t k pin)) w1 r w' Hw1 H). clear H Hr.
  destruct k as [i|].
  - specialize (Hk i eq_refl). tri_step. apply gets_tec_spec.
    assert (Hs : muestra t (Some i) =
      if negb (t_keyHeld t) || negb (i =? t_lastIndex t)
      then let '(e, ds) := teclear (t_pin t) (tecla i) in
           (e, mkTeclado ds (Z.of_nat (length ds)) true i)
      else (EnCurso, t)) by (unfold muestra; by destruct (t_keyHeld t), (i =? t_lastIndex t)).
    destruct (negb (t_keyHeld t) || negb (i =? t_lastIndex t)).
    + tri_step. apply set_edge_spec. tri_step. apply tri_keypadChar; [done|].
      tri_step. apply tri_keep; [destruct ult; apply _|intros u].
      unfold teclear in Hs. destruct (ord (tecla i) =? 42) eqn:Hstar.
      { tri_step. apply reset_spec. tri_step. unfold leido. by rewrite Hs. }
      tri_step. apply gets_tec_spec. simpl t_pos. tri_step.
      rewrite (proj2 (Z.ltb_lt (t_pos t) PIN_LENGTH)) by (unfold PIN_LENGTH; lia).
      destruct (is_digit (tecla i)) eqn:Hdig; cbn [andb when].
      * tri_step. apply push_digit_spec. simpl t_pos. simpl t_pin.
        tri_step. tri_step. tri_step. tri_step. tri_step.
        tri_step. apply gets_tec_spec. simpl t_pos. rewrite u8_small by lia.
        destruct (Nat.eqb_spec (length (t_pin t)) 4) as [H4|H4].
        -- rewrite (proj2 (Z.eqb_eq (t_pos t + 1) PIN_LENGTH)) by (unfold PIN_LENGTH; lia).
           tri_step. tri_step. tri_step. apply reset_spec. tri_step.
           unfold leido. by rewrite Hs.
        -- rewrite (proj2 (Z.eqb_neq (t_pos t + 1) PIN_LENGTH)) by (unfold PIN_LENGTH; lia).
           tri_step. unfold leido. rewrite Hs.
           rewrite length_app. simpl. split; [|done].
           f_equal. lia.
      * tri_step. tri_step. apply gets_tec_spec. simpl t_pos.
        rewrite (proj2 (Z.eqb_neq (t_pos t) PIN_LENGTH)) by (unfold PIN_LENGTH; lia).
        tri_step. unfold leido. rewrite Hs. split; [by rewrite Hpos|done].
    + tri_step. unfold leido. by rewrite Hs.
  - tri_step. apply set_edge_spec. tri_step. by split.
Qed.

Lemma tecladoLeerTecla_ok w a w' :
  tec_ok (tec w) -> tecladoLeerTecla w = Ret a w' -> tec_ok (tec w').
Proof.
  intros Hok. unfold tecladoLeerTecla.
  refine ((_ : tri tec (tec w) _ (fun _ t' => tec_ok t')) w a w' eq_refl).
  tri_step. tri_step. destruct a0 as [i|].
  - tri_step. apply gets_tec_spec. destruct (_ || _); [|by tri_step].
    tri_step. apply set_edge_spec. tri_step. tri_step. tri_step. tri_step. by tri_step.
  - tri_step. apply set_edge_spec. by tri_step.
Qed.

Lemma tecladoLeerPin_muestra pin ult w r p u w'
    (Hok : tec_ok (tec w)) (H : tecladoLeerPin pin ult w = Ret (r, p, u) w') :
  exists k w1 e,
    keypadRead keypad w = Ret k w1 /\ indice_ok k /\
    muestra (tec w) k = (e, tec w') /\ (r, p) = resultado e pin /\
    tec_ok (tec w') /\ (forall q, e = Completo q -> pin_ok q).
Proof.
  destruct (tecladoLeerPin_leido _ _ _ _ _ Hok H) as (k & w1 & Hr & Hk & Hl).
  unfold leido in Hl. destruct (muestra (tec w) k) as [e t1] eqn:Hm. destruct Hl as [-> Hl].
  exists k, w1, e. destruct (muestra_ok _ _ _ _ Hok Hm). done.
Qed.

(** C13: [tecladoLeerPin] implements the abstract PIN entry on the sample the
    keypad gives: it returns 1 with the completed PIN (five digits), -1 for a
    cancellation, 0 otherwise with [pin] untouched, and keeps the invariant
    of its static variables. *)
Theorem tecladoLeerPin_refines pin ult w r p u w'
    (Hok : tec_ok (tec w)) (H : tecladoLeerPin pin ult w = Ret (r, p, u) w') :
  exists k w1 e,
    keypadRead keypad w = Ret k w1 /\ indice_ok k /\
    muestra (tec w) k = (e, tec w') /\ (r, p) = resultado e pin /\
    tec_ok (tec w') /\ (forall q, e = Completo q -> pin_ok q).
Proof. by apply tecladoLeerPin_muestra with (ult := ult) (u := u). Qed.
End TecladoSpec.

(** ** Streams of samples, in the specification; [Autorizacion] has the calls of
    [tecladoLeerPin] that read them *)
Fixpoint flujo (t : teclado_st) (ks : list (option Z)) : list entrada * teclado_st :=
  match ks with
  | [] => ([], t)
  | k :: ks =>
      let '(e, t) := muestra t k in
      let '(es, t) := flujo t ks in (e :: es, t)
  end.

(** a key held during [S n] samples and then released for [S m] *)
Definition pulsacion (k : Z * nat * nat) : list (option Z) :=
  let '(i, n, m) := k in replicate (S n) (Some i) ++ replicate (S m) None.
Definition indice (k : Z * nat * nat) : Z := k.1.1.

Definition decisiva (e : entrada) : Prop := e <> EnCurso.
#[global] Instance decisiva_dec e : Decision (decisiva e).
Proof. destruct e; [right; by intros []|by left|by left]. Defined.

Lemma flujo_app t ks1 ks2 :
  flujo t (ks1 ++ ks2) =
  let '(es1, t1) := flujo t ks1 in let '(es2, t2) := flujo t1 ks2 in (es1 ++ es2, t2).
Proof.
  revert t. induction ks1 as [|k ks1 IH]; intros t; simpl.
  - by destruct (flujo t ks2).
  - destruct (muestra t k) as [e t1]. rewrite IH.
    destruct (flujo t1 ks1) as [es1 t2]. by destruct (flujo t2 ks2).
Qed.

Lemma flujo_held n p l i :
  flujo (mkTeclado p l true i) (replicate n (Some i)) =
  (replicate n EnCurso, mkTeclado p l true i).
Proof. induction n as [|n IH]; [done|]. simpl. by rewrite Z.eqb_refl, IH. Qed.
Lemma flujo_idle n p l h i :
  flujo (mkTeclado p l h i) (replicate (S n) None) =
  (replicate (S n) EnCurso, mkTeclado p l false 65535).
Proof.
  revert h i. induction n as [|n IH]; intros h i; [done|].
  change (replicate (S (S n)) None) with (@None Z :: replicate (S n) None).
  cbn [flujo muestra t_pin t_pos]. by rewrite IH.
Qed.
Lemma decisivas_en_curso n : filter decisiva (replicate n EnCurso) = [].
Proof. induction n as [|n IH]; [done|]. simpl. rewrite filter_cons_False; auto. Qed.

(** one keystroke, however long it is held *)
Lemma flujo_pulsacion ds l j k :
  let '(e, ds') := teclear ds (tecla (indice k)) in
  exists es, flujo (mkTeclado ds l false j) (pulsacion k) =
             (es, mkTeclado ds' (Z.of_nat (length ds')) false 65535) /\
             filter decisiva es = filter decisiva [e].
Proof.
  destruct k as [[i n] m]. unfold indice, pulsacion. cbn [fst].
  destruct (teclear ds (tecla i)) as [e ds'] eqn:Ht.
  eexists. split.
  - change (replicate (S n) (Some i)) with (Some i :: replicate n (Some i)).
    rewrite flujo_app. cbn [flujo muestra t_pin t_keyHeld andb]. rewrite Ht, flujo_held.
    rewrite flujo_idle. reflexivity.
  - rewrite <- app_comm_cons, filter_cons, filter_app, !decisivas_en_curso. done.
Qed.

Lemma flujo_digitos ks ds l j :
  Forall (fun k => is_digit (tecla (indice k)) = true) ks ->
  (length ds + length ks < 5)%nat ->
  exists es, flujo (mkTeclado ds l false j) (concat (pulsacion <$> ks)) =
             (es, mkTeclado (ds ++ (tecla ∘ indice <$> ks))
                    (if decide (ks = []) then l else Z.of_nat (length ds + length ks)) false
                    (if decide (ks = []) then j else 65535)) /\
             filter decisiva es = [].
Proof.
  intros Hd. revert ds l j. induction Hd as [|k ks Hk Hd IH]; intros ds l j Hlen.
  - exists []. simpl. by rewrite app_nil_r.
  - pose proof (flujo_pulsacion ds l j k) as Hp. unfold teclear in Hp. rewrite Hk in Hp.
    assert (Hstar : (ord (tecla (indice k)) =? 42) = false).
    { unfold is_digit in Hk. apply andb_prop in Hk. lia. }
    simpl in Hlen. rewrite Hstar in Hp.
    destruct (Nat.eqb_spec (length ds) 4); [lia|]. destruct Hp as (es1 & Hf & He).
    destruct (IH (ds ++ [tecla (indice k)]) (Z.of_nat (length (ds ++ [tecla (indice k)]))) 65535)
      as (es2 & Hf2 & He2); [rewrite length_app; simpl; lia|].
    exists (es1 ++ es2). rewrite fmap_cons. cbn [concat]. rewrite flujo_app, Hf, Hf2.
    rewrite filter_app, He, He2. split; [|done].
    f_equal. rewrite <- app_assoc, length_app. simpl. f_equal.
    + destruct (decide (ks = [])) as [->|]; simpl; lia.
    + by destruct (decide (ks = [])).
Qed.

(** five digit keys, pressed one after another, each held and released for any number of
    samples, are one decision: the PIN of those five characters in that order *)
Lemma flujo_pin ks l j
    (Hlen : length ks = 5%nat)
    (Hdig : Forall (fun k => is_digit (tecla (indice k)) = true) ks) :
  exists es, flujo (mkTeclado [] l false j) (concat (pulsacion <$> ks)) =
             (es, mkTeclado [] 0 false 65535) /\
             filter decisiva es = [Completo (tecla ∘ indice <$> ks)].
Proof.
  destruct ks as [|k1 [|k2 [|k3 [|k4 [|k5 []]]]]]; try discriminate Hlen.
  change [k1; k2; k3; k4; k5] with ([k1; k2; k3; k4] ++ [k5]) in *.
  apply Forall_app in Hdig as [Hd [Hk _]%Forall_cons].
  destruct (flujo_digitos [k1; k2; k3; k4] [] l j Hd) as (es1 & Hf1 & He1); [simpl; lia|].
  match type of Hf1 with _ = (_, mkTeclado ?ds ?l' _ ?j') =>
    pose proof (flujo_pulsacion ds l' j' k5) as Hp end.
  assert (Hstar : (ord (tecla (indice k5)) =? 42) = false).
  { unfold is_digit in Hk. apply andb_prop in Hk. lia. }
  unfold teclear in Hp at 1. rewrite Hk, Hstar in Hp.
  destruct Hp as (es2 & Hf2 & He2). exists (es1 ++ es2).
  rewrite fmap_app, concat_app, flujo_app, Hf1.
  change (concat (pulsacion <$> [k5])) with (pulsacion k5 ++ []). rewrite app_nil_r, Hf2.
  rewrite filter_app, He1, He2. done.
Qed.

(** key 5 (index 4) held down on the bench *)
Definition mundo_tecla5 : @world (env_banco 1 200) :=
  mundo 1 200 (con_plan [(0, 1000, 4)] (banco_quieto 0)) [] (mkScan ST_IDLE 0 0 [] 0 0 0)
    (mkMef ESPERANDO_ACCION [] 0 0 (SpecFloat.S754_zero false) [] 0 false false).

Lemma tecladoLeerPin_refines_witness :
  returns (tecladoLeerPin [] (Some 0) mundo_tecla5) (fun a w' =>
    exists k w1 e,
      keypadRead keypad mundo_tecla5 = Ret k w1 /\ indice_ok k /\
      muestra (tec mundo_tecla5) k = (e, tec w') /\ (a.1.1, a.1.2) = resultado e [] /\
      tec_ok (tec w') /\ (forall q, e = Completo q -> pin_ok q)).
Proof.
  run_as a w H. destruct a as [[r p] u].
  exact (tecladoLeerPin_refines [] (Some 0) mundo_tecla5 r p u w (tec_ok_reset false 65535) H).
Defined.
