(* ===== verification/Usuarios.v ===== *)
(** * validacion.c: the local user table

    [listaPins], 99 user slots, and the operations on it.  The functions are
    given on the table ([list PinUsuario_t]); the state machine applies them
    to the global.  A C [NULL] result or argument is [None]. *)

From Stdlib Require Import ZArith Lia Bool Ascii String.
From stdpp Require Import base list strings numbers sets.
From stdpp Require Import options.
From S2P Require Import Prelude Machine.

Definition MAX_PINS : nat := 99.

(** a zeroed slot *)
Definition usuario_vacio : PinUsuario_t := mkUsuario [] false [] [] [].

Definition usuarios_iniciales : list PinUsuario_t := [
  mkUsuario $"11111" true [] [] $"master";
  mkUsuario $"22222" true $"9876543210FF" $"0001" $"andy";
  mkUsuario $"33333" true $"1234567890AB" $"0002" $"pepe";
  mkUsuario $"44444" true $"1211899891AA" $"0003" $"juan";
  mkUsuario $"55555" true [] $"0004" $"invitado";
  mkUsuario $"66666" true [] [] $"usuario6"
].

Definition listaPins_inicial : list PinUsuario_t :=
  usuarios_iniciales ++ replicate (MAX_PINS - length usuarios_iniciales) usuario_vacio.

Definition set_codigo (c : list ascii) (u : PinUsuario_t) : PinUsuario_t :=
  mkUsuario c (activo u) (u_rfid u) (huella u) (tag u).
Definition set_activo (b : bool) (u : PinUsuario_t) : PinUsuario_t :=
  mkUsuario (codigo u) b (u_rfid u) (huella u) (tag u).
Definition set_rfid (r : list ascii) (u : PinUsuario_t) : PinUsuario_t :=
  mkUsuario (codigo u) (activo u) r (huella u) (tag u).
Definition set_huella (h : list ascii) (u : PinUsuario_t) : PinUsuario_t :=
  mkUsuario (codigo u) (activo u) (u_rfid u) h (tag u).

(** The conditions the loops test in each slot. *)
Definition tiene_pin (pin : list ascii) (u : PinUsuario_t) : Prop :=
  activo u = true /\ codigo u = pin.
Definition tiene_rfid (r : list ascii) (u : PinUsuario_t) : Prop :=
  activo u = true /\ 0 < strlen (u_rfid u) /\ u_rfid u = r.
Definition tiene_huella (h : list ascii) (u : PinUsuario_t) : Prop :=
  activo u = true /\ 0 < strlen (huella u) /\ huella u = h.

#[global] Instance tiene_pin_dec pin u : Decision (tiene_pin pin u).
Proof. unfold tiene_pin. apply _. Defined.
#[global] Instance tiene_rfid_dec r u : Decision (tiene_rfid r u).
Proof. unfold tiene_rfid. apply _. Defined.
#[global] Instance tiene_huella_dec h u : Decision (tiene_huella h u).
Proof. unfold tiene_huella. apply _. Defined.

(** [strcpy] into an array of [n] bytes: undefined when it does not fit. *)
Definition strcpy (n : nat) (s : list ascii) : option (list ascii) :=
  if (length s <? n)%nat then Some s else None.

Definition actualizarBaseDeDatos (nuevosUsuarios : list PinUsuario_t) (cantidad : Z) :
    list PinUsuario_t :=
  let cantidad := if Z.of_nat MAX_PINS <? cantidad then Z.of_nat MAX_PINS else cantidad in
  let n := Z.to_nat cantidad in
  take n nuevosUsuarios ++ replicate (MAX_PINS - n) usuario_vacio.

Definition validarPin (l : list PinUsuario_t) (pin : list ascii) : bool :=
  match list_find (tiene_pin pin) l with Some _ => true | None => false end.

Definition obtenerTagPorPin (l : list PinUsuario_t) (pin : list ascii) : option (list ascii) :=
  match list_find (tiene_pin pin) l with
  | Some (_, u) => if 0 <? strlen (tag u) then Some (tag u) else Some $"usuario"
  | None => None
  end.

(** [None]: the copy overruns [codigo] *)
Definition agregarPin (l : list PinUsuario_t) (nuevoPin : list ascii) :
    option (bool * list PinUsuario_t) :=
  match list_find (fun u => activo u = false) l with
  | Some (i, u) =>
      c ← strcpy 6 nuevoPin;
      Some (true, <[i := set_activo true (set_codigo c u)]> l)
  | None => Some (false, l)
  end.

(** [None]: the copy overruns [rfid] *)
Definition asociarRFIDaPin (l : list PinUsuario_t) (pin r : list ascii) :
    option (bool * list PinUsuario_t) :=
  match list_find (tiene_pin pin) l with
  | Some (i, u) =>
      r ← strcpy 20 r;
      Some (true, <[i := set_rfid r u]> l)
  | None => Some (false, l)
  end.

Definition asociarHuellaaPin (l : list PinUsuario_t) (pin idHuella : list ascii) :
    bool * list PinUsuario_t :=
  match list_find (tiene_pin pin) l with
  | Some (i, u) => (true, <[i := set_huella (strncpy 4 idHuella) u]> l)
  | None => (false, l)
  end.

Definition validarRFID (l : list PinUsuario_t) (r : list ascii) : bool :=
  match list_find (tiene_rfid r) l with Some _ => true | None => false end.

Definition obtenerTagPorRFID (l : list PinUsuario_t) (r : list ascii) : option (list ascii) :=
  match list_find (tiene_rfid r) l with
  | Some (_, u) => if 0 <? strlen (tag u) then Some (tag u) else None
  | None => None
  end.

Definition obtenerTagPorHuella (l : list PinUsuario_t) (huellaId : option (list ascii)) :
    option (list ascii) :=
  match huellaId with
  | None => None
  | Some h =>
      match list_find (tiene_huella h) l with
      | Some (_, u) => if 0 <? strlen (tag u) then Some (tag u) else Some $"usuario"
      | None => None
      end
  end.

Definition validarHuella (l : list PinUsuario_t) (huellaId : option (list ascii)) : bool :=
  match huellaId with
  | None => false
  | Some h => match list_find (tiene_huella h) l with Some _ => true | None => false end
  end.

(** [for j ...: listaPins[j].activo && strcmp(listaPins[j].huella, tempId) == 0] *)
Definition huella_en_uso (l : list PinUsuario_t) (tempId : list ascii) : bool :=
  existsb (fun u => activo u && strcmp_eq (huella u) tempId) l.

(** [while (!idEncontrado)]: the lowest free ID from [idLibre] on; [None] when
    the fuel runs out. *)
Fixpoint buscarIdLibre (fuel : nat) (l : list PinUsuario_t) (idLibre : Z) : option Z :=
  match fuel with
  | O => None
  | S f => if huella_en_uso l (fmt_0 4 idLibre) then buscarIdLibre f l (idLibre + 1)
           else Some idLibre
  end.

(** [Some (true, id)]: found, with the ID written to [idBuffer]; [Some (false, _)]: the
    PIN does not exist.  [None] is a search that does not end or an ID
    that overruns the five bytes of [idBuffer]. *)
Definition obtenerHuellaAsignadaPorPin (l : list PinUsuario_t) (pin : list ascii) :
    option (bool * list ascii) :=
  match list_find (tiene_pin pin) l with
  | Some (_, u) =>
      if 0 <? strlen (huella u) then
        h ← strcpy 5 (huella u); Some (true, h)
      else
        idLibre ← buscarIdLibre (S (length l)) l 1;
        h ← strcpy 5 (fmt_0 4 idLibre); Some (true, h)
  | None => Some (false, [])
  end.

(** [listaPins[0]] *)
Definition esPinMaster (l : list PinUsuario_t) (pin : list ascii) : bool :=
  match l with
  | u :: _ => activo u && strcmp_eq (codigo u) pin
  | [] => false
  end.

Definition eliminarHuellaLocal (l : list PinUsuario_t) (pin : list ascii) :
    bool * list PinUsuario_t :=
  match list_find (tiene_pin pin) l with
  | Some (i, u) => (true, <[i := set_huella [] u]> l)
  | None => (false, l)
  end.

Definition eliminarTodasHuellasLocal (l : list PinUsuario_t) : list PinUsuario_t :=
  set_huella [] <$> l.

(** ** Well-formed tables *)

(** every field fits its array, terminator included *)
Definition usuario_ok (u : PinUsuario_t) : Prop :=
  (length (codigo u) < 6)%nat /\ (length (u_rfid u) < 20)%nat /\
  (length (huella u) < 5)%nat /\ (length (tag u) < 20)%nat.
Definition tabla_ok (l : list PinUsuario_t) : Prop :=
  length l = MAX_PINS /\ Forall usuario_ok l.

Lemma usuario_ok_vacio : usuario_ok usuario_vacio.
Proof. unfold usuario_ok. simpl. lia. Qed.

Lemma tabla_insert l i u : tabla_ok l -> usuario_ok u -> tabla_ok (<[i := u]> l).
Proof. intros [Hl Hf] Hu. split; [by rewrite length_insert|]. by apply Forall_insert. Qed.

Lemma tabla_find l P `{!forall u, Decision (P u)} i u :
  tabla_ok l -> list_find P l = Some (i, u) -> usuario_ok u.
Proof.
  intros [_ Hf] (Hi & _)%list_find_Some. by eapply Forall_lookup_1.
Qed.

Lemma tabla_actualizar us n :
  Forall usuario_ok us -> 0 <= n <= Z.of_nat (length us) ->
  tabla_ok (actualizarBaseDeDatos us n).
Proof.
  intros Hf Hn. unfold actualizarBaseDeDatos, tabla_ok.
  destruct (Z.ltb_spec (Z.of_nat MAX_PINS) n); rewrite length_app, length_take, length_replicate.
  - split; [lia|]. apply Forall_app. split; [by apply Forall_take|].
    apply Forall_replicate, usuario_ok_vacio.
  - split; [lia|]. apply Forall_app. split; [by apply Forall_take|].
    apply Forall_replicate, usuario_ok_vacio.
Qed.

Lemma tabla_asociarRFID l pin r b l' :
  tabla_ok l -> asociarRFIDaPin l pin r = Some (b, l') -> tabla_ok l'.
Proof.
  intros Hl. unfold asociarRFIDaPin.
  destruct (list_find _ l) as [[i u]|] eqn:Hf; [|by intros [= _ <-]].
  unfold strcpy. destruct (Nat.ltb_spec (length r) 20); [|done]. simpl. intros [= _ <-].
  destruct (tabla_find _ _ _ _ Hl Hf) as (? & ? & ? & ?). by apply tabla_insert.
Qed.

Lemma tabla_asociarHuella l pin h : tabla_ok l -> tabla_ok (snd (asociarHuellaaPin l pin h)).
Proof.
  intros Hl. unfold asociarHuellaaPin. destruct (list_find _ l) as [[i u]|] eqn:Hf; [|done].
  destruct (tabla_find _ _ _ _ Hl Hf) as (? & ? & ? & ?). apply tabla_insert; [done|].
  unfold usuario_ok, strncpy. simpl. rewrite length_take. lia.
Qed.

Lemma tabla_eliminarHuella l pin : tabla_ok l -> tabla_ok (snd (eliminarHuellaLocal l pin)).
Proof.
  intros Hl. unfold eliminarHuellaLocal. destruct (list_find _ l) as [[i u]|] eqn:Hf; [|done].
  destruct (tabla_find _ _ _ _ Hl Hf) as (? & ? & ? & ?). apply tabla_insert; [done|].
  unfold usuario_ok. simpl. lia.
Qed.

Lemma tabla_eliminarTodas l : tabla_ok l -> tabla_ok (eliminarTodasHuellasLocal l).
Proof.
  intros [Hl Hf]. split; [by rewrite <- Hl; apply length_fmap|].
  apply Forall_fmap. eapply Forall_impl; [exact Hf|]. intros u (? & ? & ? & ?).
  unfold usuario_ok. simpl. lia.
Qed.

Lemma tabla_agregar l p b l' :
  tabla_ok l -> agregarPin l p = Some (b, l') -> tabla_ok l'.
Proof.
  intros Hl. unfold agregarPin.
  destruct (list_find _ l) as [[i u]|] eqn:Hf; [|by intros [= _ <-]].
  unfold strcpy. destruct (Nat.ltb_spec (length p) 6); [|done]. simpl. intros [= _ <-].
  destruct (tabla_find _ _ _ _ Hl Hf) as (? & ? & ? & ?). by apply tabla_insert.
Qed.

Lemma tabla_inicial : tabla_ok listaPins_inicial.
Proof.
  split; [done|]. unfold listaPins_inicial, usuarios_iniciales, usuario_ok.
  repeat (constructor; [simpl; lia|]). constructor.
Qed.

Lemma obtener_ok l pin b id :
  obtenerHuellaAsignadaPorPin l pin = Some (b, id) -> (length id < 5)%nat.
Proof.
  unfold obtenerHuellaAsignadaPorPin, strcpy. intros H.
  destruct (list_find _ l) as [[i u]|]; [|injection H as <- <-; simpl; lia].
  destruct (0 <? strlen (huella u)).
  - destruct (Nat.ltb_spec (length (huella u)) 5); [|done]. simpl in H. by injection H as _ <-.
  - destruct (buscarIdLibre _ _ _) as [n|]; [|done]. simpl in H.
    destruct (Nat.ltb_spec (length (fmt_0 4 n)) 5); [|done]. simpl in H. by injection H as _ <-.
Qed.

(** ** Lookups *)
Lemma validarPin_find l pin :
  validarPin l pin = true -> exists i u, list_find (tiene_pin pin) l = Some (i, u).
Proof. unfold validarPin. destruct (list_find _ l) as [[i u]|]; [eauto|done]. Qed.

Lemma asociarRFID_true l pin r b l' :
  validarPin l pin = true -> asociarRFIDaPin l pin r = Some (b, l') -> b = true.
Proof.
  intros (i & u & Hf)%validarPin_find. unfold asociarRFIDaPin. rewrite Hf.
  destruct (strcpy 20 r); [|done]. simpl. by intros [= <- _].
Qed.

Lemma obtener_true l pin b id :
  validarPin l pin = true -> obtenerHuellaAsignadaPorPin l pin = Some (b, id) -> b = true.
Proof.
  intros (i & u & Hf)%validarPin_find. unfold obtenerHuellaAsignadaPorPin. rewrite Hf.
  destruct (0 <? strlen (huella u)).
  - destruct (strcpy 5 (huella u)); [|done]. simpl. by intros [= <- _].
  - destruct (buscarIdLibre _ _ _) as [n|]; [|done]. simpl.
    destruct (strcpy 5 (fmt_0 4 n)); [|done]. simpl. by intros [= <- _].
Qed.

(** Whether some slot satisfies a condition, and what a write to one slot does
    to it. *)
Section Existe.
Context (P : PinUsuario_t -> Prop) `{!forall u, Decision (P u)}.

Definition existe (l : list PinUsuario_t) : bool :=
  match list_find P l with Some _ => true | None => false end.

Lemma existe_spec l : existe l = true <-> exists i u, l !! i = Some u /\ P u.
Proof.
  unfold existe. destruct (list_find P l) as [[i u]|] eqn:Hf; split; try done.
  - intros _. apply list_find_Some in Hf as (Hi & Hp & _). eauto.
  - intros (i & u & Hi & Hp). apply list_find_None in Hf.
    rewrite Forall_lookup in Hf. by apply Hf in Hi.
Qed.

Lemma existe_insert l i u x :
  l !! i = Some u -> (P x <-> P u) -> existe (<[i := x]> l) = existe l.
Proof.
  intros Hi Hx. apply eq_true_iff_eq. rewrite !existe_spec.
  assert (Hlt : (i < length l)%nat) by (by eapply lookup_lt_Some).
  split; intros (j & v & Hj & Hv).
  - apply list_lookup_insert_Some in Hj as [(<- & <- & _)|(Hne & Hj)]; [|eauto].
    exists i, u. by rewrite <- Hx.
  - destruct (decide (i = j)) as [<-|Hne].
    + exists i, x. rewrite list_lookup_insert_eq by done. split; [done|].
      assert (v = u) as -> by congruence. by apply Hx.
    + exists j, v. by rewrite list_lookup_insert_ne.
Qed.

Lemma list_find_unico l i u :
  l !! i = Some u -> P u -> (forall j v, l !! j = Some v -> P v -> j = i) ->
  list_find P l = Some (i, u).
Proof.
  intros Hi Hu Hun. apply list_find_Some. do 2 (split; [done|]).
  intros j v Hj Hlt Hv. specialize (Hun j v Hj Hv). lia.
Qed.
End Existe.

Lemma validarPin_existe l pin : validarPin l pin = existe (tiene_pin pin) l.
Proof. done. Qed.
Lemma validarRFID_existe l r : validarRFID l r = existe (tiene_rfid r) l.
Proof. done. Qed.

(** ** Credentials *)

(** C21: the lookups agree: a PIN validates exactly when it has a greeting tag, so
    does a fingerprint; a card that has a tag validates; and the master's PIN is a
    valid one. *)
Theorem credenciales_coherentes l pin r h :
  (validarPin l pin = true <-> obtenerTagPorPin l pin <> None) /\
  (validarHuella l (Some h) = true <-> obtenerTagPorHuella l (Some h) <> None) /\
  (obtenerTagPorRFID l r <> None -> validarRFID l r = true) /\
  (esPinMaster l pin = true -> validarPin l pin = true).
Proof.
  split; [|split; [|split]].
  - unfold validarPin, obtenerTagPorPin. destruct (list_find _ l) as [[i u]|]; [|done].
    by destruct (0 <? strlen (tag u)).
  - unfold validarHuella, obtenerTagPorHuella. destruct (list_find _ l) as [[i u]|]; [|done].
    by destruct (0 <? strlen (tag u)).
  - unfold validarRFID, obtenerTagPorRFID. by destruct (list_find _ l) as [[i u]|].
  - rewrite validarPin_existe, existe_spec. destruct l as [|u l]; [done|]. simpl.
    intros [Ha Hc]%andb_prop. apply bool_decide_eq_true in Hc.
    exists O, u. done.
Qed.

Lemma credenciales_coherentes_witness :
  validarRFID listaPins_inicial $"9876543210FF" = true /\ validarPin listaPins_inicial $"11111" = true.
Proof.
  destruct (credenciales_coherentes listaPins_inicial $"11111" $"9876543210FF" $"0001")
    as (_ & _ & H1 & H2).
  split; [apply H1; intros H; vm_compute in H; discriminate H|apply H2; vm_compute; reflexivity].
Defined.

(** the slot that a card is written to *)
Lemma asociarRFID_guarda l pin r i u
    (Hu : list_find (tiene_pin pin) l = Some (i, u)) (Hr : 0 < strlen r < 20) :
  exists l', asociarRFIDaPin l pin r = Some (true, l') /\
    validarRFID l' r = true /\
    (validarRFID l r = false -> 0 < strlen (tag u) -> obtenerTagPorRFID l' r = Some (tag u)) /\
    (forall q, validarPin l' q = validarPin l q) /\
    (forall h, validarHuella l' h = validarHuella l h).
Proof.
  unfold asociarRFIDaPin. rewrite Hu. unfold strcpy, strlen in *.
  rewrite (proj2 (Nat.ltb_lt _ _)) by lia. simpl. eexists. split; [done|].
  pose proof Hu as (Hi & [Hact Hpin] & _)%list_find_Some.
  assert (Hlt : (i < length l)%nat) by (by eapply lookup_lt_Some).
  split; [|split; [|split]].
  - rewrite validarRFID_existe, existe_spec. exists i, (set_rfid r u).
    rewrite list_lookup_insert_eq by done. split; [done|]. split; [done|]. split; [|done].
    unfold strlen. simpl. lia.
  - intros Hno Htag. unfold obtenerTagPorRFID.
    rewrite (list_find_unico _ _ i (set_rfid r u)); [simpl; unfold strlen in *; by
      rewrite (proj2 (Z.ltb_lt _ _)) by lia|by rewrite list_lookup_insert_eq| |].
    + split; [done|]. unfold strlen. simpl. split; [lia|done].
    + intros j v Hj Hv. apply list_lookup_insert_Some in Hj as [(<- & _)|(Hne & Hj)]; [done|].
      assert (Hy : validarRFID l r = true) by (rewrite validarRFID_existe, existe_spec; eauto).
      congruence.
  - intros q. rewrite !validarPin_existe. by apply (existe_insert _ _ _ u).
  - intros [h|]; [|done]. exact (existe_insert (tiene_huella h) _ _ u (set_rfid r u) Hi (iff_refl _)).
Qed.

(** ... and no other *)
Lemma asociarRFID_fila l pin r i u :
  list_find (tiene_pin pin) l = Some (i, u) -> 0 < strlen r < 20 ->
  asociarRFIDaPin l pin r = Some (true, <[i := set_rfid r u]> l).
Proof.
  intros Hu Hr. unfold asociarRFIDaPin. rewrite Hu. unfold strcpy, strlen in *.
  by rewrite (proj2 (Nat.ltb_lt _ _)) by lia.
Qed.

(** the cards that open afterwards: the new one and those of the other rows *)
Lemma asociarRFID_tarjetas l r i u q :
  l !! i = Some u -> activo u = true -> 0 < strlen r ->
  validarRFID (<[i := set_rfid r u]> l) q = true <->
  q = r \/ exists j v, j <> i /\ l !! j = Some v /\ tiene_rfid q v.
Proof.
  intros Hi Ha Hr. assert (Hlt : (i < length l)%nat) by (by eapply lookup_lt_Some).
  rewrite validarRFID_existe, existe_spec. split.
  - intros (j & v & Hj & Hv). apply list_lookup_insert_Some in Hj as [(<- & <- & _)|(Hne & Hj)].
    + left. by destruct Hv as (_ & _ & <-).
    + right. exists j, v. by split; [intros ->|].
  - intros [->|(j & v & Hne & Hj & Hv)].
    + exists i, (set_rfid r u). rewrite list_lookup_insert_eq by done. done.
    + exists j, v. by rewrite list_lookup_insert_ne by done.
Qed.

(** C18: registering a card: for a valid PIN and a UID that fits, the call
    succeeds and writes the card in the row of the user that the PIN finds, and
    nothing else: every other row is as it was, and so are the other fields of that
    one.  The cards that validate afterwards are the new one and those of the other
    rows (the card the user had before no longer opens, unless somebody else has
    it too); the new card gives the tag of its user if no one had it before; no PIN and
    no fingerprint gains or loses validity. *)
Theorem asociarRFIDaPin_spec l pin r i u
    (Hu : list_find (tiene_pin pin) l = Some (i, u)) (Hr : 0 < strlen r < 20) :
  exists l', asociarRFIDaPin l pin r = Some (true, l') /\
    l' !! i = Some (set_rfid r u) /\ (forall j, j <> i -> l' !! j = l !! j) /\
    (forall q, validarRFID l' q = true <->
       q = r \/ exists j v, j <> i /\ l !! j = Some v /\ tiene_rfid q v) /\
    (validarRFID l r = false -> 0 < strlen (tag u) -> obtenerTagPorRFID l' r = Some (tag u)) /\
    (forall q, validarPin l' q = validarPin l q) /\
    (forall h, validarHuella l' h = validarHuella l h).
Proof.
  pose proof Hu as (Hi & [Hact _] & _)%list_find_Some.
  destruct (asociarRFID_guarda l pin r i u Hu Hr) as (l' & H1 & _ & H2 & H3).
  rewrite (asociarRFID_fila l pin r i u Hu Hr) in H1. injection H1 as <-. eexists.
  split; [by apply asociarRFID_fila|]. split; [apply list_lookup_insert_eq; by eapply lookup_lt_Some|].
  split; [intros j Hj; by apply list_lookup_insert_ne|]. split; [|done].
  intros q. apply asociarRFID_tarjetas; [done|done|lia].
Qed.

Lemma asociarRFIDaPin_spec_witness :
  exists l', asociarRFIDaPin listaPins_inicial $"55555" $"04AB00FF" = Some (true, l') /\
             obtenerTagPorRFID l' $"04AB00FF" = Some $"invitado".
Proof.
  destruct (asociarRFIDaPin_spec listaPins_inicial $"55555" $"04AB00FF" 4
              (mkUsuario $"55555" true [] $"0004" $"invitado") eq_refl)
    as (l' & H1 & _ & _ & _ & H2 & _); [split; reflexivity|].
  exists l'. split; [exact H1|]. apply H2; reflexivity.
Defined.

(** ** Fingerprint IDs *)
Definition ids_posibles : list (list ascii) := fmt_0 4 <$> seqZ 1 (Z.of_nat (S MAX_PINS)).

Lemma ids_distintos : NoDup ids_posibles.
Proof. apply (bool_decide_unpack _). vm_compute. exact I. Qed.

Lemma id_corto n : 1 <= n <= 100 -> length (fmt_0 4 n) = 4%nat.
Proof.
  intros Hn. assert (H : forallb (fun n => (length (fmt_0 4 n) =? 4)%nat) (seqZ 1 100) = true)
    by (vm_compute; reflexivity).
  rewrite forallb_forall in H. apply Nat.eqb_eq, H, list_elem_of_In, elem_of_seqZ. lia.
Qed.

Lemma atoi_id n : 1 <= n <= 100 -> atoi (fmt_0 4 n) = n.
Proof.
  intros Hn. assert (H : forallb (fun n => atoi (fmt_0 4 n) =? n) (seqZ 1 100) = true)
    by (vm_compute; reflexivity).
  rewrite forallb_forall in H. apply Z.eqb_eq, H, list_elem_of_In, elem_of_seqZ. lia.
Qed.

Lemma huella_en_uso_spec l id :
  huella_en_uso l id = true <-> exists i u, l !! i = Some u /\ activo u = true /\ huella u = id.
Proof.
  unfold huella_en_uso. rewrite existsb_exists. split.
  - intros (u & Hin & [Ha Hh]%andb_prop). apply list_elem_of_In, list_elem_of_lookup in Hin as [i Hi].
    apply bool_decide_eq_true in Hh. eauto.
  - intros (i & u & Hi & Ha & Hh). exists u. split.
    + apply list_elem_of_In. by eapply list_elem_of_lookup_2.
    + rewrite Ha. simpl. by apply bool_decide_eq_true.
Qed.

(** the search: its result is free and everything below it is in use *)
Lemma buscar_Some f l k n :
  buscarIdLibre f l k = Some n ->
  k <= n < k + Z.of_nat f /\ huella_en_uso l (fmt_0 4 n) = false /\
  forall j, k <= j < n -> huella_en_uso l (fmt_0 4 j) = true.
Proof.
  revert k. induction f as [|f IH]; intros k H; [done|]. simpl in H.
  destruct (huella_en_uso l (fmt_0 4 k)) eqn:Hk.
  - apply IH in H as (H1 & H2 & H3). split; [lia|]. split; [done|]. intros j Hj.
    destruct (decide (j = k)) as [->|]; [done|]. apply H3. lia.
  - injection H as ->. split; [lia|]. split; [done|]. intros j Hj. lia.
Qed.

Lemma buscar_None f l k :
  buscarIdLibre f l k = None ->
  forall j, k <= j < k + Z.of_nat f -> huella_en_uso l (fmt_0 4 j) = true.
Proof.
  revert k. induction f as [|f IH]; intros k H j Hj; [lia|]. simpl in H.
  destruct (huella_en_uso l (fmt_0 4 k)) eqn:Hk; [|done].
  destruct (decide (j = k)) as [->|]; [done|]. apply (IH (k + 1)); [done|lia].
Qed.

(** ninety-nine slots cannot use a hundred IDs: the search ends *)
Lemma buscar_termina l :
  length l = MAX_PINS -> exists n, buscarIdLibre (S (length l)) l 1 = Some n.
Proof.
  intros Hl. destruct (buscarIdLibre _ _ _) as [n|] eqn:Hb; [by exists n|]. exfalso.
  pose proof (buscar_None _ _ _ Hb) as Hall. rewrite Hl in Hall.
  assert (Hincl : incl ids_posibles (huella <$> l)).
  { intros x Hx. apply list_elem_of_In in Hx. unfold ids_posibles in Hx.
    apply list_elem_of_fmap in Hx as (j & -> & Hj%elem_of_seqZ).
    destruct (proj1 (huella_en_uso_spec l (fmt_0 4 j))) as (i & u & Hi & _ & Hu); [apply Hall; lia|].
    apply list_elem_of_In, list_elem_of_fmap. exists u. split; [done|].
    by eapply list_elem_of_lookup_2. }
  apply NoDup_incl_length in Hincl; [|apply NoDup_ListNoDup, ids_distintos].
  rewrite length_fmap, Hl in Hincl. vm_compute in Hincl. lia.
Qed.

(** for a valid PIN the call always returns an ID (the search over the table ends and nothing
    overflows): the user's own when there is one, otherwise the lowest four-digit number
    from 0001 on that no active user has *)
Lemma obtenerHuella_asignada l pin i u
    (Hl : tabla_ok l) (Hu : list_find (tiene_pin pin) l = Some (i, u)) :
  (huella u <> [] -> obtenerHuellaAsignadaPorPin l pin = Some (true, huella u)) /\
  (huella u = [] -> exists n, 1 <= n <= 100 /\
     obtenerHuellaAsignadaPorPin l pin = Some (true, fmt_0 4 n) /\
     huella_en_uso l (fmt_0 4 n) = false /\
     forall k, 1 <= k < n -> huella_en_uso l (fmt_0 4 k) = true).
Proof.
  unfold obtenerHuellaAsignadaPorPin. rewrite Hu.
  destruct (tabla_find _ _ _ _ Hl Hu) as (_ & _ & Hlen & _). split.
  - intros Hne. unfold strlen, strcpy. destruct (huella u) as [|c h]; [done|].
    rewrite (proj2 (Z.ltb_lt _ _)) by (simpl; lia). by rewrite (proj2 (Nat.ltb_lt _ _)).
  - intros ->. change (0 <? strlen []) with false. cbv iota.
    destruct (buscar_termina l) as [n Hn]; [apply Hl|]. destruct (buscar_Some _ _ _ _ Hn) as (Hr & Hfree & Hlow).
    rewrite (proj1 Hl) in Hr. change (Z.of_nat (S MAX_PINS)) with 100 in Hr.
    exists n. split; [lia|]. rewrite Hn. unfold strcpy. cbn [mbind option_bind].
    rewrite id_corto by lia. done.
Qed.

(** No fingerprint belongs to two active users. *)
Definition sin_repetidas (l : list PinUsuario_t) : Prop :=
  forall i j u v, l !! i = Some u -> l !! j = Some v -> activo u = true -> activo v = true ->
    huella u <> [] -> huella u = huella v -> i = j.

(** the ID obtained, once stored, is its user's alone *)
Lemma huella_guardada l pin h i u
    (Hl : tabla_ok l) (Hs : sin_repetidas l) (Hu : list_find (tiene_pin pin) l = Some (i, u))
    (Hh : obtenerHuellaAsignadaPorPin l pin = Some (true, h)) :
  let l' := snd (asociarHuellaaPin l pin h) in
  sin_repetidas l' /\ validarHuella l' (Some h) = true /\
  list_find (tiene_huella h) l' = Some (i, set_huella h u) /\
  (forall q, validarPin l' q = validarPin l q).
Proof.
  unfold asociarHuellaaPin. rewrite Hu. cbv zeta. cbn [snd].
  assert (Hlen : (length h < 5)%nat) by (by eapply obtener_ok).
  unfold strncpy. rewrite take_ge by lia.
  pose proof Hu as (Hi & [Hact Hpin] & _)%list_find_Some.
  assert (Hlt : (i < length l)%nat) by (by eapply lookup_lt_Some).
  (* no other active user has [h], and [h] is not empty *)
  assert (Hne : h <> [] /\ forall j v, l !! j = Some v -> activo v = true -> huella v = h -> j = i).
  { destruct (obtenerHuella_asignada l pin i u Hl Hu) as [H1 H2].
    destruct (decide (huella u = [])) as [He|He].
    - destruct (H2 He) as (n & Hn & Ho & Hfree & _). rewrite Hh in Ho. injection Ho as ->.
      split; [intros Hx; pose proof (id_corto n Hn) as Hc; rewrite Hx in Hc; done|].
      intros j v Hj Ha Hv. exfalso. assert (Ht : huella_en_uso l (fmt_0 4 n) = true)
        by (apply huella_en_uso_spec; eauto). congruence.
    - rewrite (H1 He) in Hh. injection Hh as <-. split; [done|].
      intros j v Hj Ha Hv. symmetry. by eapply Hs. }
  destruct Hne as [Hne Hotros].
  assert (Hf : list_find (tiene_huella h) (<[i := set_huella h u]> l) = Some (i, set_huella h u)).
  { apply list_find_unico.
    - by rewrite list_lookup_insert_eq.
    - split; [done|]. simpl. split; [|done]. unfold strlen. destruct h; [done|simpl; lia].
    - intros j v Hj (Ha & _ & Hv).
      apply list_lookup_insert_Some in Hj as [(<- & _)|(_ & Hj)]; [done|by apply (Hotros j v)]. }
  split; [|split; [|split; [done|]]].
  - intros a b x y Hx Hy Hax Hay Hnx Heq.
    apply list_lookup_insert_Some in Hx as [(<- & <- & _)|(Hna & Hx)];
    apply list_lookup_insert_Some in Hy as [(<- & <- & _)|(Hnb & Hy)]; try done.
    + simpl in *. symmetry. by apply (Hotros b y).
    + simpl in *. by apply (Hotros a x).
    + by eapply Hs.
  - unfold validarHuella. by rewrite Hf.
  - intros q. rewrite !validarPin_existe. by apply (existe_insert _ _ _ u).
Qed.

(** C17: registering a fingerprint keeps the IDs unique: the ID obtained for a
    PIN, once stored, is found under that user and no other, and every other
    fingerprint still belongs to whom it belonged. *)
Theorem registro_huella_unico l pin h i u
    (Hl : tabla_ok l) (Hs : sin_repetidas l) (Hu : list_find (tiene_pin pin) l = Some (i, u))
    (Hh : obtenerHuellaAsignadaPorPin l pin = Some (true, h)) :
  let l' := snd (asociarHuellaaPin l pin h) in
  sin_repetidas l' /\ validarHuella l' (Some h) = true /\
  list_find (tiene_huella h) l' = Some (i, set_huella h u) /\
  (forall q, validarPin l' q = validarPin l q).
Proof. by apply huella_guardada. Qed.

Definition sin_repetidas_b (l : list PinUsuario_t) : bool :=
  forallb (fun i => forallb (fun j =>
    match l !! i, l !! j with
    | Some u, Some v =>
        implb (activo u && activo v && negb (bool_decide (huella u = [])) &&
               bool_decide (huella u = huella v)) (i =? j)%nat
    | _, _ => true
    end) (List.seq 0 (length l))) (List.seq 0 (length l)).

Lemma sin_repetidas_sound l : sin_repetidas_b l = true -> sin_repetidas l.
Proof.
  unfold sin_repetidas_b. rewrite forallb_forall. intros H i j u v Hi Hj Hau Hav Hne Heq.
  specialize (H i). rewrite forallb_forall in H.
  assert (Hin : forall k x, l !! k = Some x -> In k (List.seq 0 (length l))).
  { intros k x Hk%lookup_lt_Some. apply in_seq. lia. }
  specialize (H (Hin _ _ Hi) j (Hin _ _ Hj)). rewrite Hi, Hj, Hau, Hav in H.
  rewrite bool_decide_eq_false_2 in H by done. rewrite bool_decide_eq_true_2 in H by done.
  simpl in H. by apply Nat.eqb_eq.
Qed.

Lemma registro_huella_unico_witness :
  let l' := snd (asociarHuellaaPin listaPins_inicial $"66666" $"0005") in
  sin_repetidas l' /\ validarHuella l' (Some $"0005") = true.
Proof.
  destruct (registro_huella_unico listaPins_inicial $"66666" $"0005" 5
              (mkUsuario $"66666" true [] [] $"usuario6") tabla_inicial) as (H1 & H2 & _).
  - apply sin_repetidas_sound. vm_compute. reflexivity.
  - reflexivity.
  - vm_compute. reflexivity.
  - split; [exact H1|exact H2].
Defined.

(** a change of the fingerprints alone *)
Lemma existe_sin_huellas (P : PinUsuario_t -> Prop) `{!forall u, Decision (P u)} l :
  (forall u, P (set_huella [] u) <-> P u) -> existe P (eliminarTodasHuellasLocal l) = existe P l.
Proof.
  intros HP. unfold eliminarTodasHuellasLocal. apply eq_true_iff_eq. rewrite !existe_spec. split.
  - intros (j & v & Hj & Hv). apply list_lookup_fmap_Some in Hj as (x & -> & Hx). exists j, x.
    split; [done|by apply HP].
  - intros (j & v & Hj & Hv). exists j, (set_huella [] v). rewrite list_lookup_fmap, Hj.
    split; [done|by apply HP].
Qed.
Lemma huellas_sin_una l i u h :
  l !! i = Some u -> h <> huella u ->
  validarHuella (<[i := set_huella [] u]> l) (Some h) = validarHuella l (Some h).
Proof.
  intros Hi Hh. assert (Hlt : (i < length l)%nat) by (by eapply lookup_lt_Some).
  unfold validarHuella.
  change (existe (tiene_huella h) (<[i := set_huella [] u]> l) = existe (tiene_huella h) l).
  apply eq_true_iff_eq. rewrite !existe_spec. split.
  - intros (j & v & Hj & Hv). apply list_lookup_insert_Some in Hj as [(<- & <- & _)|(_ & Hj)]; [|eauto].
    destruct Hv as (_ & Hlen & _). unfold strlen in Hlen. simpl in Hlen. lia.
  - intros (j & v & Hj & Hv). exists j, v. rewrite list_lookup_insert_ne; [done|].
    intros ->. rewrite Hi in Hj. injection Hj as <-. destruct Hv as (_ & _ & Hv). by symmetry in Hv.
Qed.

(** C19: deleting a fingerprint revokes it and nothing else: once a user's ID is deleted
    no finger with that ID validates, the user keeps its code, its card and its tag,
    every other row is as it was, and the PINs, the cards and the other fingerprints
    are as valid as before; the table keeps its IDs unique.  Deleting all of them leaves
    no valid fingerprint, and every PIN, every card and the master's PIN as they were. *)
Theorem eliminar_revoca l pin i u
    (Hs : sin_repetidas l) (Hu : list_find (tiene_pin pin) l = Some (i, u)) :
  let l' := snd (eliminarHuellaLocal l pin) in
  let l0 := eliminarTodasHuellasLocal l in
  (huella u <> [] -> validarHuella l' (Some (huella u)) = false) /\
  list_find (tiene_pin pin) l' = Some (i, set_huella [] u) /\ (forall j, j <> i -> l' !! j = l !! j) /\
  (forall q, validarPin l' q = validarPin l q) /\ (forall q, validarRFID l' q = validarRFID l q) /\
  (forall h, h <> huella u -> validarHuella l' (Some h) = validarHuella l (Some h)) /\
  sin_repetidas l' /\
  (forall h, validarHuella l0 h = false) /\
  (forall q, validarPin l0 q = validarPin l q) /\ (forall q, validarRFID l0 q = validarRFID l q) /\
  (forall q, esPinMaster l0 q = esPinMaster l q) /\ length l0 = length l.
Proof.
  unfold eliminarHuellaLocal. rewrite Hu. cbv zeta. cbn [snd].
  pose proof Hu as (Hi & [Hact Hpin] & Hmin)%list_find_Some.
  assert (Hlt : (i < length l)%nat) by (by eapply lookup_lt_Some).
  split; [|split; [|split; [|split; [|split; [|split; [|split; [|split]]]]]]].
  - intros Hne. apply not_true_iff_false. unfold validarHuella.
    change (existe (tiene_huella (huella u)) (<[i:=set_huella [] u]> l) <> true).
    rewrite existe_spec. intros (j & v & Hj & Ha & Hlen & Hv).
    apply list_lookup_insert_Some in Hj as [(<- & <- & _)|(Hne' & Hj)].
    + unfold strlen in Hlen. simpl in Hlen. lia.
    + by specialize (Hs i j u v Hi Hj Hact Ha Hne (eq_sym Hv)).
  - apply list_find_Some. rewrite list_lookup_insert_eq by done. do 2 (split; [done|]).
    intros j v Hj Hji. rewrite list_lookup_insert_ne in Hj by lia. by apply (Hmin j v).
  - intros j Hj. by apply list_lookup_insert_ne.
  - intros q. rewrite !validarPin_existe. by apply (existe_insert _ _ _ u).
  - intros q. rewrite !validarRFID_existe. by apply (existe_insert _ _ _ u).
  - intros h Hh. by apply huellas_sin_una.
  - intros a b x y Hx Hy Hax Hay Hnx Heq.
    apply list_lookup_insert_Some in Hx as [(<- & <- & _)|(Hna & Hx)]; [done|].
    apply list_lookup_insert_Some in Hy as [(<- & <- & _)|(Hnb & Hy)].
    + by rewrite Heq in Hnx.
    + by eapply Hs.
  - intros [h|]; [|done]. apply not_true_iff_false.
    change (existe (tiene_huella h) (eliminarTodasHuellasLocal l) <> true).
    rewrite existe_spec. intros (j & v & Hj & _ & Hlen & _).
    unfold eliminarTodasHuellasLocal in Hj. apply list_lookup_fmap_Some in Hj as (x & -> & _).
    unfold strlen in Hlen. simpl in Hlen. lia.
  - split; [intros q; rewrite !validarPin_existe; by apply existe_sin_huellas|].
    split; [intros q; rewrite !validarRFID_existe; by apply existe_sin_huellas|].
    split; [by destruct l|apply length_fmap].
Qed.

Lemma eliminar_revoca_witness :
  validarHuella (snd (eliminarHuellaLocal listaPins_inicial $"33333")) (Some $"0002") = false.
Proof.
  destruct (eliminar_revoca listaPins_inicial $"33333" 2
              (mkUsuario $"33333" true $"1234567890AB" $"0002" $"pepe")) as (H & _).
  - apply sin_repetidas_sound. vm_compute. reflexivity.
  - reflexivity.
  - apply H. discriminate.
Defined.

(** C20: after a synchronisation the valid PINs are exactly those of the active users
    received, the user in front of the list is the one whose PIN is the master's, and the
    rest of the ninety-nine slots are empty. *)
Theorem actualizar_spec us pin (Hlen : (length us <= MAX_PINS)%nat) :
  let l' := actualizarBaseDeDatos us (Z.of_nat (length us)) in
  length l' = MAX_PINS /\
  (validarPin l' pin = true <-> exists u, u ∈ us /\ activo u = true /\ codigo u = pin) /\
  (us <> [] -> esPinMaster l' pin = true <->
     exists u, head us = Some u /\ activo u = true /\ codigo u = pin).
Proof.
  unfold actualizarBaseDeDatos. rewrite (proj2 (Z.ltb_ge _ _)) by lia. rewrite Nat2Z.id.
  rewrite take_ge by lia. cbv zeta. split; [rewrite length_app, length_replicate; lia|]. split.
  - rewrite validarPin_existe, existe_spec. split.
    + intros (i & u & Hi & Ha & Hp). apply lookup_app_Some in Hi as [Hi|[_ Hi]].
      * exists u. split; [by eapply list_elem_of_lookup_2|done].
      * apply lookup_replicate in Hi as [-> _]. done.
    + intros (u & Hin & Ha & Hp). apply list_elem_of_lookup in Hin as [i Hi].
      exists i, u. split; [|done]. by apply lookup_app_l_Some.
  - intros Hne. destruct us as [|u us]; [done|]. simpl. split.
    + intros [Ha Hc]%andb_prop. apply bool_decide_eq_true in Hc. eauto.
    + intros (v & [= <-] & Ha & Hc). rewrite Ha. by apply bool_decide_eq_true.
Qed.

(** the server's list takes the master's slot *)
Lemma actualizar_spec_witness :
  esPinMaster (actualizarBaseDeDatos [mkUsuario $"12345" true [] [] $"ana"] 1) $"12345" = true.
Proof.
  destruct (actualizar_spec [mkUsuario $"12345" true [] [] $"ana"] $"12345") as (_ & _ & H);
    [apply Nat.leb_le; reflexivity|].
  apply H; [discriminate|]. eexists. split; [reflexivity|split; reflexivity].
Defined.
