(* ===== verification/Json.v ===== *)
(** * espAT.c: the JSON scanner of the user list

    [buscarValorJSON] and [parsearJSONPins] work on one C string [s] with
    positions into it; a pointer is an offset from the start of [s]. *)

From Stdlib Require Import ZArith Lia Bool Ascii String.
From stdpp Require Import base list strings numbers sets.
From stdpp Require Import options.
From S2P Require Import Prelude Machine Usuarios.

(** [strstr] and [strchr] from position [i] on; the result is a position. *)
Definition strstr_at (s : list ascii) (i : nat) (p : list ascii) : option nat :=
  (fun n => (i + n)%nat) <$> strstr p (drop i s).
Definition strchr_at (s : list ascii) (i : nat) (c : ascii) : option nat :=
  (fun n => (i + n)%nat) <$> strchr c (drop i s).

(** a position before [fin], or nothing *)
Definition before (fin : nat) (o : option nat) : option nat :=
  n ← o; if (n <? fin)%nat then Some n else None.

(** the copy loop: up to [maxLen] characters, a closing quote or [fin] *)
Fixpoint copiar_valor (n : nat) (maxLen : nat) (s : list ascii) : list ascii :=
  match n, maxLen, s with
  | S n', S m', c :: s' => if ord c =? 34 then [] else c :: copiar_valor n' m' s'
  | _, _, _ => []
  end.

(** [Some v]: [destino] receives [v]; [None]: it is left as it was. *)
Definition buscarValorJSON (s : list ascii) (fuente fin : nat) (clave : list ascii)
    (maxLen : nat) : option (list ascii) :=
  let keyPatron := DQ ++ clave ++ DQ in
  k ← before fin (strstr_at s fuente keyPatron);
  dosPuntos ← before fin (strchr_at s (k + length keyPatron) (chr 58));
  comilla ← before fin (strchr_at s dosPuntos (chr 34));
  let inicioValor := S comilla in
  Some (copiar_valor (fin - inicioValor) maxLen (drop inicioValor s)).

(** the field ["activo"]: a colon and [true] before the end of the object *)
Definition leer_activo (s : list ascii) (objStart objEnd : nat) : bool :=
  match before objEnd (strstr_at s objStart (DQ ++ $"activo" ++ DQ)) with
  | Some pActivo =>
      match before objEnd (strchr_at s pActivo (chr 58)) with
      | Some dosPuntos =>
          match before objEnd (strstr_at s dosPuntos $"true") with
          | Some _ => true
          | None => false
          end
      | None => false
      end
  | None => false
  end.

(** one object of the array, between its braces *)
Definition leer_usuario (s : list ascii) (objStart objEnd : nat) : PinUsuario_t :=
  let campo clave maxLen := default [] (buscarValorJSON s objStart objEnd clave maxLen) in
  mkUsuario (campo $"codigo" 5%nat) (leer_activo s objStart objEnd)
            (campo $"rfid" 19%nat) (campo $"huella" 4%nat) (campo $"tag" 19%nat).

(** the loop over the objects; [count] users were stored before *)
Fixpoint leer_objetos (fuel : nat) (s : list ascii) (ptr fin maxPins count : nat) :
    list PinUsuario_t :=
  match fuel with
  | O => []
  | S f =>
      if (ptr <? fin)%nat && (count <? maxPins)%nat then
        match before fin (strchr_at s ptr (chr 123)) with       (* '{' *)
        | None => []
        | Some objStart =>
            match before fin (strchr_at s objStart (chr 125)) with   (* '}' *)
            | None => []
            | Some objEnd =>
                let pin := leer_usuario s objStart objEnd in
                if 0 <? strlen (codigo pin)
                then pin :: leer_objetos f s (S objEnd) fin maxPins (S count)
                else leer_objetos f s (S objEnd) fin maxPins count
            end
        end
      else []
  end.

(** The users written to [pinsOut]; the C function returns their number. *)
Definition parsearJSONPins (json : list ascii) (jsonLen maxPins : nat) : list PinUsuario_t :=
  match strstr_at json 0 (DQ ++ $"pins" ++ DQ) with
  | None => []
  | Some keyPins =>
      match before jsonLen (strchr_at json keyPins (chr 91)) with    (* '[' *)
      | None => []
      | Some arrayStart =>
          leer_objetos (S jsonLen) json (S arrayStart) jsonLen maxPins 0
      end
  end.

(** The JSON part of a response: from its first '{' to its last '}'. *)
Fixpoint strrchr (c : ascii) (s : list ascii) : option nat :=
  match s with
  | [] => None
  | d :: s' =>
      match strrchr c s' with
      | Some n => Some (S n)
      | None => if decide (d = c) then Some O else None
      end
  end.

Definition extraerJSON (httpResp : list ascii) : option (list ascii * nat) :=
  jsonStart ← strchr (chr 123) httpResp;
  jsonEnd ← strrchr (chr 125) httpResp;
  if (jsonEnd <? jsonStart)%nat then None
  else Some (drop jsonStart httpResp, (jsonEnd - jsonStart + 1)%nat).

(** ** Bounds on what the parser stores *)
Lemma length_copiar n maxLen s : (length (copiar_valor n maxLen s) <= maxLen)%nat.
Proof.
  revert maxLen s. induction n as [|n IH]; intros [|m] [|c s]; simpl; try lia.
  destruct (ord c =? 34); simpl; [lia|]. specialize (IH m s). lia.
Qed.

Lemma length_campo s a b clave maxLen :
  (length (default [] (buscarValorJSON s a b clave maxLen)) <= maxLen)%nat.
Proof.
  unfold buscarValorJSON.
  destruct (before _ _) as [k|]; simpl; [|lia].
  destruct (before _ _) as [p|]; simpl; [|lia].
  destruct (before _ _) as [q|]; simpl; [|lia]. apply length_copiar.
Qed.

Lemma leer_usuario_ok s a b : usuario_ok (leer_usuario s a b).
Proof.
  unfold usuario_ok, leer_usuario. cbn [codigo u_rfid huella tag].
  pose proof (length_campo s a b $"codigo" 5). pose proof (length_campo s a b $"rfid" 19).
  pose proof (length_campo s a b $"huella" 4). pose proof (length_campo s a b $"tag" 19). lia.
Qed.

Lemma leer_objetos_ok f s ptr fin maxPins count :
  (count <= maxPins)%nat ->
  (length (leer_objetos f s ptr fin maxPins count) + count <= maxPins)%nat /\
  Forall (fun u => usuario_ok u /\ 0 < strlen (codigo u))
         (leer_objetos f s ptr fin maxPins count).
Proof.
  revert ptr count. induction f as [|f IH]; intros ptr count Hc; [split; [simpl; lia|constructor]|].
  cbn [leer_objetos].
  destruct (_ && _) eqn:Hb; [|split; [simpl; lia|constructor]].
  apply andb_prop in Hb as [_ Hlt%Nat.ltb_lt].
  destruct (before _ _) as [a|]; [|split; [simpl; lia|constructor]].
  destruct (before _ _) as [b|]; [|split; [simpl; lia|constructor]].
  destruct (Z.ltb_spec 0 (strlen (codigo (leer_usuario s a b)))) as [Hs|Hs].
  - destruct (IH (S b) (S count)) as [H1 H2]; [lia|]. split; [simpl; lia|].
    constructor; [|done]. split; [apply leer_usuario_ok|done].
  - apply IH. lia.
Qed.

Lemma parsearJSONPins_acotado json jsonLen maxPins :
  (length (parsearJSONPins json jsonLen maxPins) <= maxPins)%nat /\
  Forall (fun u => usuario_ok u /\ 0 < strlen (codigo u)) (parsearJSONPins json jsonLen maxPins).
Proof.
  unfold parsearJSONPins.
  destruct (strstr_at _ _ _); [|split; [simpl; lia|constructor]].
  destruct (before _ _); [|split; [simpl; lia|constructor]].
  destruct (leer_objetos_ok (S jsonLen) json (S n0) jsonLen maxPins 0) as [H1 H2]; [lia|].
  split; [lia|done].
Qed.

(** C24: whatever the server sends, the parser stores at most [maxPins] users,
    each with a non-empty code, and every field fits its array. *)
Theorem parsearJSONPins_bounds json jsonLen maxPins :
  (length (parsearJSONPins json jsonLen maxPins) <= maxPins)%nat /\
  Forall (fun u => usuario_ok u /\ 0 < strlen (codigo u)) (parsearJSONPins json jsonLen maxPins).
Proof. apply parsearJSONPins_acotado. Qed.
