(* ===== verification/Servidor.v ===== *)
(** * src/Server/server.py: the server of the users

    The table [usuarios] of the server's database, the routes of the Flask
    application as functions on it, and the JSON text that the lock downloads.
    A request parameter that is absent is [None]; a response is its text and
    its HTTP status; [ahora] is the clock of the call ([time.time()]).  The main
    theorem composes the two programs: what [sync_pins] prints, the parser of
    espAT.c reads back. *)

From Stdlib Require Import ZArith Lia Bool Ascii String.
From stdpp Require Import base list strings numbers sets.
From stdpp Require Import options.
From S2P Require Import Prelude Machine Usuarios Json.

(** ** The table *)

(** a row of [usuarios]; a TEXT column that allows NULL is an option *)
Record fila : Type := mkFila {
  f_id : Z;
  f_codigo : list ascii;
  f_activo : Z;
  f_rfid : option (list ascii);
  f_huella : option (list ascii);
  f_tag : option (list ascii)
}.

(** the database, the next AUTOINCREMENT key and the time of the last change *)
Record servidor : Type := mkServidor {
  usuarios : list fila;
  proximo_id : Z;
  LAST_UPDATE_TIME : Z
}.

Definition set_f_codigo (c : list ascii) (f : fila) : fila :=
  mkFila (f_id f) c (f_activo f) (f_rfid f) (f_huella f) (f_tag f).
Definition set_f_rfid (r : list ascii) (f : fila) : fila :=
  mkFila (f_id f) (f_codigo f) (f_activo f) (Some r) (f_huella f) (f_tag f).
Definition set_f_huella (h : list ascii) (f : fila) : fila :=
  mkFila (f_id f) (f_codigo f) (f_activo f) (f_rfid f) (Some h) (f_tag f).

(** [UPDATE usuarios SET ... WHERE ...] *)
Definition sql_update (P : fila -> bool) (g : fila -> fila) (s : servidor) : servidor :=
  mkServidor ((fun f => if P f then g f else f) <$> usuarios s) (proximo_id s) (LAST_UPDATE_TIME s).
(** [DELETE FROM usuarios WHERE ...] *)
Definition sql_delete (P : fila -> bool) (s : servidor) : servidor :=
  mkServidor (List.filter (fun f => negb (P f)) (usuarios s)) (proximo_id s) (LAST_UPDATE_TIME s).
(** [INSERT INTO usuarios (...)]: [activo] takes its default *)
Definition sql_insert (codigo tag rfid huella : list ascii) (s : servidor) : servidor :=
  mkServidor (usuarios s ++ [mkFila (proximo_id s) codigo 1 (Some rfid) (Some huella) (Some tag)])
             (proximo_id s + 1) (LAST_UPDATE_TIME s).
(** [SELECT * FROM usuarios WHERE codigo = ?], first row *)
Definition con_codigo (c : list ascii) (f : fila) : bool := bool_decide (f_codigo f = c).
Definition con_id (i : Z) (f : fila) : bool := f_id f =? i.
Definition sql_select1 (P : fila -> bool) (s : servidor) : option fila := List.find P (usuarios s).

Definition notificar_cambio (ahora : Z) (s : servidor) : servidor :=
  mkServidor (usuarios s) (proximo_id s) ahora.

Definition respuesta : Type := list ascii * Z.

(** [not x] of a request parameter *)
Definition falta (x : option (list ascii)) : bool :=
  match x with None | Some [] => true | Some _ => false end.

(** ** The routes *)

Definition init_db (s : servidor) : servidor :=
  match usuarios s with
  | [] => sql_insert $"11111" $"ADMIN" [] [] s
  | _ :: _ => s
  end.

Definition delete_user (ahora user_id : Z) (s : servidor) : respuesta * servidor :=
  if user_id =? 1
  then (($"ERROR: No se puede borrar al usuario Maestro (ID 1)", 403), s)
  else (($"panel_admin", 302), notificar_cambio ahora (sql_delete (con_id user_id) s)).

Definition delete_rfid (ahora user_id : Z) (s : servidor) : respuesta * servidor :=
  (($"panel_admin", 302),
   match sql_select1 (con_id user_id) s with
   | Some _ => notificar_cambio ahora (sql_update (con_id user_id) (set_f_rfid []) s)
   | None => s
   end).

(** [str.isdigit] on the ASCII characters *)
Definition isdigit (s : list ascii) : bool := negb (bool_decide (s = [])) && forallb is_digit s.

Definition update_admin_pin (ahora : Z) (nuevo_pin : list ascii) (s : servidor) :
    respuesta * servidor :=
  (($"panel_admin", 302),
   if negb (strlen nuevo_pin =? 5) || negb (isdigit nuevo_pin) then s
   else notificar_cambio ahora (sql_update (con_id 1) (set_f_codigo nuevo_pin) s)).

Definition update_rfid_endpoint (ahora : Z) (pin rfid : option (list ascii)) (s : servidor) :
    respuesta * servidor :=
  if falta pin || falta rfid then (($"ERROR: Faltan parametros", 400), s)
  else
    let pin := default [] pin in
    match sql_select1 (con_codigo pin) s with
    | Some _ => (($"UPDATED OK", 200),
                 notificar_cambio ahora (sql_update (con_codigo pin) (set_f_rfid (default [] rfid)) s))
    | None => (($"ERROR: PIN NO EXISTE", 404), s)
    end.

Definition delete_huella_endpoint (ahora : Z) (pin : option (list ascii)) (s : servidor) :
    respuesta * servidor :=
  if falta pin then (($"ERROR: Falta PIN", 400), s)
  else (($"DELETED OK", 200),
        notificar_cambio ahora (sql_update (con_codigo (default [] pin)) (set_f_huella []) s)).

Definition clear_all_huellas_endpoint (ahora : Z) (s : servidor) : respuesta * servidor :=
  (($"ALL CLEARED OK", 200),
   notificar_cambio ahora (sql_update (fun _ => true) (set_f_huella []) s)).

Definition update_huella_endpoint (ahora : Z) (pin huella_id : option (list ascii)) (s : servidor) :
    respuesta * servidor :=
  if falta pin || falta huella_id then (($"ERROR: Faltan parametros", 400), s)
  else
    let pin := default [] pin in
    match sql_select1 (con_codigo pin) s with
    | Some _ => (($"UPDATED OK", 200),
                 notificar_cambio ahora
                   (sql_update (con_codigo pin) (set_f_huella (default [] huella_id)) s))
    | None => (($"ERROR: PIN NO EXISTE", 404), s)
    end.

(** the form of the web panel that adds a user *)
Definition panel_admin (ahora : Z) (codigo tag rfid huella : list ascii) (s : servidor) :
    respuesta * servidor :=
  (($"panel_admin", 302),
   match sql_select1 (con_codigo codigo) s with
   | Some _ => s
   | None => notificar_cambio ahora (sql_insert codigo tag rfid huella s)
   end).

(** ** The download *)

(** [json.dumps] of a string of Latin-1 characters *)
Definition hex4 (z : Z) : list ascii :=
  let h d := if d <? 10 then chr (48 + d) else chr (87 + d) in
  [h (z / 4096 mod 16); h (z / 256 mod 16); h (z / 16 mod 16); h (z mod 16)].
Definition esc_char (c : ascii) : list ascii :=
  let z := ord c in
  if z =? 34 then [chr 92; chr 34]
  else if z =? 92 then [chr 92; chr 92]
  else if z =? 10 then [chr 92; chr 110]
  else if z =? 13 then [chr 92; chr 114]
  else if z =? 9 then [chr 92; chr 116]
  else if z =? 12 then [chr 92; chr 102]
  else if z =? 8 then [chr 92; chr 98]
  else if (32 <=? z) && (z <=? 126) then [c]
  else chr 92 :: chr 117 :: hex4 z.
Definition json_str (s : list ascii) : list ascii := DQ ++ flat_map esc_char s ++ DQ.
Definition json_bool (b : bool) : list ascii := if b then $"true" else $"false".
Definition json_par (clave valor : list ascii) : list ascii := json_str clave ++ $":" ++ valor.

(** the elements, the pairs, ... separated by commas *)
Fixpoint con_comas (l : list (list ascii)) : list ascii :=
  match l with
  | [] => []
  | [x] => x
  | x :: l' => x ++ $"," ++ con_comas l'
  end.

(** [row[k] if row[k] else d] *)
Definition valor_o (x : option (list ascii)) (d : list ascii) : list ascii :=
  if falta x then d else default [] x.

(** the dictionary of a row *)
Definition usuario_de (f : fila) : PinUsuario_t :=
  mkUsuario (f_codigo f) (negb (f_activo f =? 0)) (valor_o (f_rfid f) [])
            (valor_o (f_huella f) []) (valor_o (f_tag f) $"usuario").

Definition json_usuario (u : PinUsuario_t) : list ascii :=
  $"{" ++ con_comas [json_par $"codigo" (json_str (codigo u));
                     json_par $"activo" (json_bool (activo u));
                     json_par $"rfid" (json_str (u_rfid u));
                     json_par $"huella" (json_str (huella u));
                     json_par $"tag" (json_str (tag u))] ++ $"}".

Definition json_pins (l : list PinUsuario_t) : list ascii :=
  $"{" ++ json_par $"pins" ($"[" ++ con_comas (json_usuario <$> l) ++ $"]") ++ $"}".

Definition lista_usuarios (s : servidor) : list PinUsuario_t :=
  usuario_de <$> List.filter (fun f => f_activo f =? 1) (usuarios s).

Definition sync_pins (s : servidor) : list ascii := json_pins (lista_usuarios s).

Example sync_inicial :
  sync_pins (init_db (mkServidor [] 1 0)) =
    $"{" ++ DQ ++ $"pins" ++ DQ ++ $":[{" ++ DQ ++ $"codigo" ++ DQ ++ $":" ++ DQ ++ $"11111" ++ DQ ++
    $"," ++ DQ ++ $"activo" ++ DQ ++ $":true," ++ DQ ++ $"rfid" ++ DQ ++ $":" ++ DQ ++ DQ ++ $"," ++
    DQ ++ $"huella" ++ DQ ++ $":" ++ DQ ++ DQ ++ $"," ++ DQ ++ $"tag" ++ DQ ++ $":" ++ DQ ++
    $"ADMIN" ++ DQ ++ $"}]}".
Proof. vm_compute. reflexivity. Qed.

(** ** First occurrences

    [sin_par q s]: no double quote of [s] is followed by [q], so that no key that
    starts with [q] occurs in [s]. *)
Fixpoint sin_par (q : ascii) (s : list ascii) : bool :=
  match s with
  | a :: s' =>
      match s' with
      | b :: _ => negb (bool_decide (a = chr 34) && bool_decide (b = q)) && sin_par q s'
      | [] => true
      end
  | [] => true
  end.

Lemma sin_par_app q l c s : sin_par q (l ++ c :: s) = sin_par q (l ++ [c]) && sin_par q (c :: s).
Proof.
  induction l as [|a [|b l] IH]; [done|..].
  - destruct s; simpl; by rewrite ?andb_true_r.
  - change (sin_par q ((a :: b :: l) ++ c :: s)) with
      (negb (bool_decide (a = chr 34) && bool_decide (b = q)) && sin_par q ((b :: l) ++ c :: s)).
    rewrite IH, andb_assoc. done.
Qed.

Lemma sin_par_valor q v s :
  q <> chr 34 -> Forall (fun c => c <> chr 34 /\ c <> q) v ->
  sin_par q (DQ ++ v ++ DQ ++ s) = sin_par q (DQ ++ s).
Proof.
  intros Hq Hv. destruct Hv as [|c v [Hc1 Hc2] Hv].
  - cbn [app DQ sin_par]. rewrite (bool_decide_eq_false_2 (chr 34 = q)) by congruence.
    by rewrite andb_false_r.
  - transitivity (sin_par q ((c :: v) ++ DQ ++ s)).
    { cbn [app DQ sin_par]. rewrite (bool_decide_eq_false_2 (c = q)) by done.
      by rewrite andb_false_r. }
    assert (Hall : Forall (fun d => d <> chr 34 /\ d <> q) (c :: v)) by by constructor.
    clear Hv Hc1 Hc2. induction Hall as [|d l [Hd1 Hd2] Hl IH]; [done|].
    change ((d :: l) ++ DQ ++ s) with (d :: (l ++ DQ ++ s)). rewrite <- IH.
    destruct (l ++ DQ ++ s) as [|b r]; [done|]. cbn [sin_par].
    by rewrite (bool_decide_eq_false_2 (d = chr 34)).
Qed.

Lemma sin_par_campo q A v s :
  q <> chr 34 -> Forall (fun c => c <> chr 34 /\ c <> q) v ->
  sin_par q (A ++ DQ) = true -> sin_par q (DQ ++ s) = true ->
  sin_par q (A ++ DQ ++ v ++ DQ ++ s) = true.
Proof.
  intros Hq Hv HA Hs. change (DQ ++ v ++ DQ ++ s) with (chr 34 :: (v ++ DQ ++ s)).
  rewrite sin_par_app. fold DQ. rewrite HA. cbn [andb].
  change (chr 34 :: (v ++ DQ ++ s)) with (DQ ++ v ++ DQ ++ s). by rewrite sin_par_valor.
Qed.

Lemma strstr_clave q k p r :
  q <> chr 34 -> sin_par q (p ++ DQ) = true ->
  strstr (chr 34 :: q :: k) (p ++ chr 34 :: q :: k ++ r) = Some (length p).
Proof.
  intros Hq. induction p as [|a p IH]; intros Hp.
  - cbn [app]. change (chr 34 :: q :: k ++ r) with ((chr 34 :: q :: k) ++ r).
    simpl. rewrite !bool_decide_eq_true_2 by done. simpl. by rewrite prefixb_app.
  - change ((a :: p) ++ chr 34 :: q :: k ++ r) with (a :: (p ++ chr 34 :: q :: k ++ r)).
    cbn [strstr].
    assert (Hno : prefixb (chr 34 :: q :: k) (a :: (p ++ chr 34 :: q :: k ++ r)) = false).
    { cbn [prefixb]. destruct (decide (chr 34 = a)) as [<-|Hne];
        [|by rewrite bool_decide_eq_false_2].
      destruct p as [|b p]; cbn [app prefixb].
      - rewrite (bool_decide_eq_false_2 (q = chr 34)) by done. by rewrite andb_false_r.
      - cbn [app sin_par] in Hp. apply andb_prop in Hp as [Hp _].
        rewrite bool_decide_eq_true_2 in Hp by done. simpl in Hp.
        rewrite (bool_decide_eq_false_2 (q = b)); [by rewrite andb_false_r|].
        intros <-. by rewrite bool_decide_eq_true_2 in Hp. }
    rewrite Hno, IH; [done|].
    destruct p as [|b p]; [done|]. cbn [app sin_par] in Hp. by apply andb_prop in Hp as [_ Hp].
Qed.

(** the scanner's positions are relative to the text they start in *)
Lemma strchr_at_shift pre s i c :
  strchr_at (pre ++ s) (length pre + i) c = Nat.add (length pre) <$> strchr_at s i c.
Proof.
  unfold strchr_at. rewrite <- drop_drop, drop_app_length.
  destruct (strchr c (drop i s)); simpl; [f_equal; lia|done].
Qed.
Lemma strstr_at_shift pre s i p :
  strstr_at (pre ++ s) (length pre + i) p = Nat.add (length pre) <$> strstr_at s i p.
Proof.
  unfold strstr_at. rewrite <- drop_drop, drop_app_length.
  destruct (strstr p (drop i s)); simpl; [f_equal; lia|done].
Qed.
Lemma before_shift n fin o : before (n + fin) (Nat.add n <$> o) = Nat.add n <$> before fin o.
Proof.
  destruct o as [k|]; [|done]. unfold before. simpl.
  replace (n + k <? n + fin)%nat with (k <? fin)%nat; [by destruct (k <? fin)%nat|].
  destruct (Nat.ltb_spec k fin), (Nat.ltb_spec (n + k) (n + fin)); lia || done.
Qed.

Lemma buscarValorJSON_shift pre s a b clave m :
  buscarValorJSON (pre ++ s) (length pre + a) (length pre + b) clave m =
  buscarValorJSON s a b clave m.
Proof.
  unfold buscarValorJSON. rewrite strstr_at_shift, before_shift.
  destruct (before b (strstr_at _ _ _)) as [k|]; simpl; [|done].
  rewrite <- Nat.add_assoc, strchr_at_shift, before_shift.
  destruct (before b (strchr_at s _ (chr 58))) as [p|]; simpl; [|done].
  rewrite strchr_at_shift, before_shift.
  destruct (before b (strchr_at s _ (chr 34))) as [c|]; simpl; [|done].
  f_equal. f_equal; [lia|].
  rewrite <- Nat.add_succ_r, <- drop_drop, drop_app_length. done.
Qed.

Lemma leer_activo_shift pre s a b :
  leer_activo (pre ++ s) (length pre + a) (length pre + b) = leer_activo s a b.
Proof.
  unfold leer_activo. rewrite strstr_at_shift, before_shift.
  destruct (before b (strstr_at _ _ _)) as [k|]; simpl; [|done].
  rewrite strchr_at_shift, before_shift.
  destruct (before b (strchr_at s _ (chr 58))) as [p|]; simpl; [|done].
  rewrite strstr_at_shift, before_shift.
  by destruct (before b (strstr_at s _ _)).
Qed.

Lemma leer_usuario_shift pre s a b :
  leer_usuario (pre ++ s) (length pre + a) (length pre + b) = leer_usuario s a b.
Proof.
  unfold leer_usuario. by rewrite !buscarValorJSON_shift, leer_activo_shift.
Qed.

Lemma copiar_valor_app n m v r :
  Forall (fun c => c <> chr 34) v -> (length v <= n)%nat ->
  copiar_valor n m (v ++ chr 34 :: r) = take m v.
Proof.
  intros Hv. revert n m. induction Hv as [|c v Hc Hv IH]; intros n m Hn.
  - by destruct n, m.
  - destruct n as [|n]; [simpl in Hn; lia|]. destruct m as [|m]; [done|].
    cbn [copiar_valor app]. destruct (Z.eqb_spec (ord c) 34) as [E|_].
    + destruct Hc. by rewrite <- (chr_ord c), E.
    + simpl. f_equal. apply IH. simpl in Hn. lia.
Qed.

Lemma buscar_valor q k p v r fin m :
  q <> chr 34 -> sin_par q (p ++ DQ) = true -> Forall (fun c => c <> chr 34) v ->
  (length p + length k + 5 + length v <= fin)%nat ->
  buscarValorJSON (p ++ chr 34 :: q :: k ++ chr 34 :: chr 58 :: chr 34 :: v ++ chr 34 :: r)
                  0 fin (q :: k) m = Some (take m v).
Proof.
  intros Hq Hp Hv Hfin.
  assert (Hb : forall n, (n < fin)%nat -> before fin (Some n) = Some n).
  { intros n Hn. unfold before. simpl. by rewrite (proj2 (Nat.ltb_lt n fin)). }
  set (t := chr 58 :: chr 34 :: v ++ chr 34 :: r).
  set (pre := p ++ chr 34 :: q :: k ++ DQ).
  assert (Ht : p ++ chr 34 :: q :: k ++ chr 34 :: t = pre ++ t).
  { unfold pre. rewrite <- app_assoc. simpl. by rewrite <- app_assoc. }
  assert (Hk : strstr_at (pre ++ t) 0 (DQ ++ (q :: k) ++ DQ) = Some (length p)).
  { unfold strstr_at, pre. rewrite drop_0, <- app_assoc.
    change (DQ ++ (q :: k) ++ DQ) with (chr 34 :: q :: k ++ DQ).
    change ((chr 34 :: q :: k ++ DQ) ++ t) with (chr 34 :: q :: (k ++ DQ) ++ t).
    by rewrite strstr_clave. }
  assert (Hpre : length pre = (length p + length k + 3)%nat).
  { unfold pre. rewrite length_app. simpl. rewrite length_app. simpl. lia. }
  assert (Hlen : (length p + length (DQ ++ (q :: k) ++ DQ))%nat = (length pre + 0)%nat).
  { rewrite Hpre. simpl. rewrite length_app. simpl. lia. }
  unfold buscarValorJSON. rewrite Ht, Hk, Hb by lia. simpl option_bind. cbv beta.
  cbn [mbind option_bind]. rewrite Hlen, strchr_at_shift.
  change (strchr_at t 0 (chr 58)) with (Some 0%nat). cbn [fmap option_fmap option_map].
  rewrite Hb by lia. cbn [mbind option_bind]. rewrite strchr_at_shift.
  change (strchr_at t 0 (chr 34)) with (Some 1%nat). cbn [fmap option_fmap option_map].
  rewrite Hb by lia. cbn [mbind option_bind]. f_equal.
  replace (S (length pre + 1)) with (length pre + 2)%nat by lia.
  rewrite <- drop_drop, drop_app_length. apply copiar_valor_app; [done|lia].
Qed.

(** ** Users that the format carries

    Printable characters other than quotes, backslashes and braces; digits in the
    code and the fingerprint's number, hexadecimal digits in the card's UID. *)
Definition plano (c : ascii) : bool :=
  (32 <=? ord c) && (ord c <=? 126) &&
  negb ((ord c =? 34) || (ord c =? 92) || (ord c =? 123) || (ord c =? 125)).
Definition hexa (c : ascii) : bool :=
  is_digit c || ((65 <=? ord c) && (ord c <=? 70)) || ((97 <=? ord c) && (ord c <=? 102)).

Definition legible (u : PinUsuario_t) : Prop :=
  codigo u <> [] /\ forallb is_digit (codigo u) = true /\ activo u = true /\
  forallb hexa (u_rfid u) = true /\ forallb is_digit (huella u) = true /\
  forallb plano (tag u) = true.

(** what the arrays of a user record hold of it *)
Definition recorte (u : PinUsuario_t) : PinUsuario_t :=
  mkUsuario (take 5 (codigo u)) (activo u) (take 19 (u_rfid u)) (take 4 (huella u))
            (take 19 (tag u)).

Lemma plano_digit c : is_digit c = true -> plano c = true.
Proof. unfold is_digit, plano. intros [H1%Z.leb_le H2%Z.leb_le]%andb_prop. lia. Qed.
Lemma hexa_digit c : is_digit c = true -> hexa c = true.
Proof. unfold hexa. by intros ->. Qed.
Lemma plano_hexa c : hexa c = true -> plano c = true.
Proof. unfold hexa, is_digit, plano. lia. Qed.

Lemma forallb_impl {A} (f g : A -> bool) l :
  (forall a, f a = true -> g a = true) -> forallb f l = true -> forallb g l = true.
Proof. intros H. induction l as [|a l IH]; [done|]. simpl. intros [H1 H2]%andb_prop. by rewrite H, IH. Qed.

(** a character that [f] refuses does not occur *)
Lemma forallb_no (f : ascii -> bool) (c : ascii) s :
  f c = false -> forallb f s = true -> Forall (fun d => d <> c) s.
Proof.
  intros Hc. induction s as [|d s IH]; simpl; [constructor|]. intros [H1 H2]%andb_prop.
  constructor; [congruence|auto].
Qed.
Lemma forallb_no2 (f : ascii -> bool) (b c : ascii) s :
  f b = false -> f c = false -> forallb f s = true -> Forall (fun d => d <> b /\ d <> c) s.
Proof.
  intros Hb Hc H. apply Forall_and. split; by apply (forallb_no f).
Qed.

Lemma esc_plano s : forallb plano s = true -> flat_map esc_char s = s.
Proof.
  induction s as [|c s IH]; [done|]. cbn [forallb flat_map]. intros [Hc Hs]%andb_prop.
  rewrite IH by done. change (c :: s) with ([c] ++ s). f_equal.
  unfold plano in Hc. unfold esc_char. cbv zeta.
  repeat match goal with |- context [?a =? ?b] => destruct (Z.eqb_spec a b); [exfalso; lia|] end.
  apply andb_prop in Hc as [-> _]. done.
Qed.

Lemma json_str_plano s : forallb plano s = true -> json_str s = DQ ++ s ++ DQ.
Proof. intros H. unfold json_str. by rewrite esc_plano. Qed.

(** the text between the values of an object *)
Definition T1 : list ascii := $"{" ++ DQ ++ $"codigo" ++ DQ ++ $":".
Definition T2 : list ascii :=
  $"," ++ DQ ++ $"activo" ++ DQ ++ $":true," ++ DQ ++ $"rfid" ++ DQ ++ $":".
Definition T3 : list ascii := $"," ++ DQ ++ $"huella" ++ DQ ++ $":".
Definition T4 : list ascii := $"," ++ DQ ++ $"tag" ++ DQ ++ $":".

Lemma json_usuario_texto u :
  legible u ->
  json_usuario u = T1 ++ DQ ++ codigo u ++ DQ ++ T2 ++ DQ ++ u_rfid u ++ DQ ++ T3 ++ DQ ++
                   huella u ++ DQ ++ T4 ++ DQ ++ tag u ++ DQ ++ $"}".
Proof.
  intros (_ & Hc & Ha & Hr & Hh & Ht). unfold json_usuario, json_par.
  rewrite (json_str_plano (codigo u)), (json_str_plano (u_rfid u)), (json_str_plano (huella u)),
    (json_str_plano (tag u)), Ha;
    eauto using forallb_impl, plano_digit, plano_hexa.
  unfold T1, T2, T3, T4. cbn [con_comas]. rewrite <- !app_assoc. reflexivity.
Qed.

(** a campo of the object whose text up to the key has no such key *)
Lemma buscar_campo s q k p v r fin m :
  s = p ++ chr 34 :: q :: k ++ chr 34 :: chr 58 :: chr 34 :: v ++ chr 34 :: r ->
  q <> chr 34 -> sin_par q (p ++ DQ) = true -> Forall (fun c => c <> chr 34) v ->
  (length p + length k + 5 + length v <= fin)%nat ->
  default [] (buscarValorJSON s 0 fin (q :: k) m) = take m v.
Proof. intros -> H1 H2 H3 H4. by rewrite buscar_valor. Qed.

Lemma leer_activo_texto p r s fin :
  s = p ++ DQ ++ $"activo" ++ DQ ++ $":true" ++ r ->
  sin_par "a"%char (p ++ DQ) = true -> (length p + 13 <= fin)%nat ->
  leer_activo s 0 fin = true.
Proof.
  intros -> Hp Hfin. unfold leer_activo.
  assert (Hb : forall n, (n < fin)%nat -> before fin (Some n) = Some n).
  { intros n Hn. unfold before. simpl. by rewrite (proj2 (Nat.ltb_lt n fin)). }
  assert (Hk : strstr_at (p ++ DQ ++ $"activo" ++ DQ ++ $":true" ++ r) 0
                 (DQ ++ $"activo" ++ DQ) = Some (length p)).
  { unfold strstr_at. rewrite drop_0.
    change (DQ ++ $"activo" ++ DQ ++ $":true" ++ r)
      with (chr 34 :: "a"%char :: ($"ctivo" ++ DQ) ++ $":true" ++ r).
    change (DQ ++ $"activo" ++ DQ) with (chr 34 :: "a"%char :: ($"ctivo" ++ DQ)).
    by rewrite strstr_clave. }
  rewrite Hk, Hb by lia. rewrite <- (Nat.add_0_r (length p)), strchr_at_shift.
  change (strchr_at (DQ ++ $"activo" ++ DQ ++ $":true" ++ r) 0 (chr 58)) with (Some 8%nat).
  cbn [fmap option_fmap option_map]. rewrite Hb by lia. rewrite strstr_at_shift.
  assert (Ht : strstr_at (DQ ++ $"activo" ++ DQ ++ $":true" ++ r) 8 $"true" = Some 9%nat).
  { unfold strstr_at. change (drop 8 (DQ ++ $"activo" ++ DQ ++ $":true" ++ r)) with ($":true" ++ r).
    destruct r; reflexivity. }
  rewrite Ht. cbn [fmap option_fmap option_map]. by rewrite Hb by lia.
Qed.

Lemma leer_usuario_json u r :
  legible u ->
  leer_usuario (json_usuario u ++ r) 0 (length (json_usuario u) - 1) = recorte u.
Proof.
  intros Hu. pose proof Hu as (_ & Hc & Ha & Hr & Hh & Ht).
  assert (Hlen : (length (json_usuario u) - 1 = length (codigo u) + length (u_rfid u) +
    length (huella u) + length (tag u) + 57)%nat).
  { rewrite json_usuario_texto by done. repeat rewrite length_app. simpl. lia. }
  rewrite Hlen, json_usuario_texto by done. clear Hlen.
  assert (Nc : Forall (fun c => c <> chr 34) (codigo u)) by by apply (forallb_no is_digit).
  assert (Nr : Forall (fun c => c <> chr 34) (u_rfid u)) by by apply (forallb_no hexa).
  assert (Nh : Forall (fun c => c <> chr 34) (huella u)) by by apply (forallb_no is_digit).
  assert (Nt : Forall (fun c => c <> chr 34) (tag u)) by by apply (forallb_no plano).
  unfold leer_usuario, recorte. rewrite Ha. f_equal.
  - apply (buscar_campo _ _ _ $"{" _ (T2 ++ DQ ++ u_rfid u ++ DQ ++ T3 ++ DQ ++ huella u ++ DQ ++
      T4 ++ DQ ++ tag u ++ DQ ++ $"}" ++ r)); [|done..|simpl; lia].
    repeat rewrite <- app_assoc. reflexivity.
  - apply (leer_activo_texto (T1 ++ DQ ++ codigo u ++ DQ ++ $",")
      ($"," ++ DQ ++ $"rfid" ++ DQ ++ $":" ++ DQ ++ u_rfid u ++ DQ ++ T3 ++ DQ ++ huella u ++
       DQ ++ T4 ++ DQ ++ tag u ++ DQ ++ $"}" ++ r)).
    + repeat rewrite <- app_assoc. reflexivity.
    + repeat rewrite <- app_assoc. apply sin_par_campo; try done. by apply (forallb_no2 is_digit).
    + repeat rewrite length_app. simpl. lia.
  - apply (buscar_campo _ _ _ (T1 ++ DQ ++ codigo u ++ DQ ++ $"," ++ DQ ++ $"activo" ++ DQ ++ $":true,")
      _ (T3 ++ DQ ++ huella u ++ DQ ++ T4 ++ DQ ++ tag u ++ DQ ++ $"}" ++ r)).
    + repeat rewrite <- app_assoc. reflexivity.
    + done.
    + repeat rewrite <- app_assoc. apply sin_par_campo; try done. by apply (forallb_no2 is_digit).
    + done.
    + repeat rewrite length_app. simpl. lia.
  - apply (buscar_campo _ _ _ (T1 ++ DQ ++ codigo u ++ DQ ++ T2 ++ DQ ++ u_rfid u ++ DQ ++ $",")
      _ (T4 ++ DQ ++ tag u ++ DQ ++ $"}" ++ r)).
    + repeat rewrite <- app_assoc. reflexivity.
    + done.
    + repeat rewrite <- app_assoc. apply sin_par_campo; try done; [by apply (forallb_no2 is_digit)|].
      rewrite app_assoc. apply sin_par_campo; try done. by apply (forallb_no2 hexa).
    + done.
    + repeat rewrite length_app. simpl. lia.
  - apply (buscar_campo _ _ _ (T1 ++ DQ ++ codigo u ++ DQ ++ T2 ++ DQ ++ u_rfid u ++ DQ ++ T3 ++ DQ ++
        huella u ++ DQ ++ $",") _ ($"}" ++ r)).
    + repeat rewrite <- app_assoc. reflexivity.
    + done.
    + repeat rewrite <- app_assoc. apply sin_par_campo; try done; [by apply (forallb_no2 is_digit)|].
      rewrite app_assoc. apply sin_par_campo; try done; [by apply (forallb_no2 hexa)|].
      rewrite app_assoc. apply sin_par_campo; try done. by apply (forallb_no2 is_digit).
    + done.
    + repeat rewrite length_app. simpl. lia.
Qed.

(** ** The array of users *)

(** an object is a pair of braces around a text with no closing brace *)
Lemma json_usuario_llaves u :
  legible u ->
  exists cuerpo, json_usuario u = chr 123 :: cuerpo ++ [chr 125] /\
    Forall (fun c => c <> chr 125 /\ c <> chr 0) cuerpo.
Proof.
  intros Hu. pose proof Hu as (_ & Hc & _ & Hr & Hh & Ht).
  exists (tail T1 ++ DQ ++ codigo u ++ DQ ++ T2 ++ DQ ++ u_rfid u ++ DQ ++ T3 ++ DQ ++ huella u ++
          DQ ++ T4 ++ DQ ++ tag u ++ DQ). split.
  - rewrite json_usuario_texto by done. repeat rewrite <- app_assoc. reflexivity.
  - assert (Hlit : forall s, forallb (fun d => negb ((ord d =? 125) || (ord d =? 0))) s = true ->
      Forall (fun c => c <> chr 125 /\ c <> chr 0) s) by by intros s; apply forallb_no2.
    repeat (apply Forall_app; split); first
      [by apply Hlit | by apply (forallb_no2 is_digit) | by apply (forallb_no2 hexa)
      |by apply (forallb_no2 plano)].
Qed.

Lemma strchr_at_0 pre s c :
  strchr_at (pre ++ s) (length pre) c = Nat.add (length pre) <$> strchr c s.
Proof. unfold strchr_at. rewrite drop_app_length. by destruct (strchr c s). Qed.

Lemma strchr_at_app pre l c s :
  Forall (fun d => d <> c) l ->
  strchr_at (pre ++ l ++ c :: s) (length pre) c = Some (length pre + length l)%nat.
Proof.
  intros H. by rewrite strchr_at_0, strchr_app.
Qed.

Lemma before_lt fin n : (n < fin)%nat -> before fin (Some n) = Some n.
Proof. intros H. unfold before. simpl. by rewrite (proj2 (Nat.ltb_lt n fin)). Qed.

(** one turn of the loop over the objects *)
Lemma leer_objetos_paso f pre sep u post fin maxPins count :
  legible u -> Forall (fun d => d <> chr 123) sep -> (count < maxPins)%nat ->
  (length (pre ++ sep ++ json_usuario u) <= fin)%nat ->
  let s := pre ++ sep ++ json_usuario u ++ post in
  leer_objetos (S f) s (length pre) fin maxPins count =
  recorte u :: leer_objetos f s (length (pre ++ sep ++ json_usuario u)) fin maxPins (S count).
Proof.
  intros Hu Hsep Hc Hfin s. destruct (json_usuario_llaves u Hu) as (cuerpo & Hj & Hcuerpo).
  assert (Hn : length (json_usuario u) = S (S (length cuerpo))).
  { rewrite Hj. simpl. rewrite length_app. simpl. lia. }
  rewrite !length_app, Hn in Hfin.
  assert (Ho : strchr_at s (length pre) (chr 123) = Some (length pre + length sep)%nat).
  { unfold s. rewrite Hj. simpl. by apply strchr_at_app. }
  assert (Hcl : strchr_at s (length pre + length sep) (chr 125) =
                Some (length pre + length sep + (length (json_usuario u) - 1))%nat).
  { unfold s. rewrite Hj, (app_assoc pre sep), <- (length_app pre sep).
    replace ((chr 123 :: cuerpo ++ [chr 125]) ++ post)
      with ((chr 123 :: cuerpo) ++ chr 125 :: post)
      by (simpl; by rewrite <- app_assoc).
    rewrite strchr_at_app.
    - do 2 f_equal. simpl. rewrite length_app. simpl. lia.
    - constructor; [done|]. eapply Forall_impl; [exact Hcuerpo|]. by intros c [? _]. }
  assert (Hl : leer_usuario s (length pre + length sep)
                 (length pre + length sep + (length (json_usuario u) - 1)) = recorte u).
  { unfold s. rewrite (app_assoc pre sep), <- (length_app pre sep).
    rewrite <- (Nat.add_0_r (length (pre ++ sep))) at 1.
    rewrite leer_usuario_shift. by apply leer_usuario_json. }
  cbn [leer_objetos]. rewrite (proj2 (Nat.ltb_lt _ _)), (proj2 (Nat.ltb_lt _ _)) by lia.
  cbn [andb]. rewrite Ho, before_lt by lia. rewrite Hcl, before_lt by lia. rewrite Hl.
  destruct Hu as (Hne & _). unfold recorte at 1. cbn [codigo].
  destruct (Z.ltb_spec 0 (strlen (take 5 (codigo u)))) as [_|Hz].
  - f_equal. f_equal. rewrite !length_app, Hn. lia.
  - destruct (codigo u); [done|]. unfold strlen in Hz. simpl in Hz. lia.
Qed.

(** after the last object there is no other one *)
Lemma leer_objetos_fin f pre post maxPins count :
  leer_objetos f (pre ++ $"]}" ++ post) (length pre) (length pre + 2) maxPins count = [].
Proof.
  destruct f as [|f]; [done|]. cbn [leer_objetos]. destruct (_ && _); [|done].
  rewrite strchr_at_0. cbn [lit list_ascii_of_string app strchr].
  rewrite !decide_False by done. destruct (strchr (chr 123) post); simpl; [|done].
  unfold before. simpl. rewrite (proj2 (Nat.ltb_ge _ _)) by lia. done.
Qed.

(** the objects after the first one *)
Definition resto (us : list PinUsuario_t) : list ascii :=
  flat_map (fun u => $"," ++ json_usuario u) us.

Lemma con_comas_json u us : con_comas (json_usuario <$> u :: us) = json_usuario u ++ resto us.
Proof.
  revert u. induction us as [|v us IH]; intros u.
  - simpl. by rewrite app_nil_r.
  - rewrite fmap_cons. change (con_comas (json_usuario u :: (json_usuario <$> v :: us))) with
      (json_usuario u ++ $"," ++ con_comas (json_usuario <$> v :: us)).
    rewrite IH. cbn [resto flat_map]. by rewrite <- !app_assoc.
Qed.

Lemma leer_objetos_resto us : forall f pre post maxPins count,
  Forall legible us -> (count <= maxPins)%nat -> (length us <= f)%nat ->
  leer_objetos f (pre ++ resto us ++ $"]}" ++ post) (length pre)
    (length (pre ++ resto us) + 2) maxPins count = take (maxPins - count) (recorte <$> us).
Proof.
  induction us as [|u us IH]; intros f pre post maxPins count Hus Hc Hf.
  - cbn [resto flat_map]. rewrite app_nil_l, app_nil_r, leer_objetos_fin. by rewrite fmap_nil, take_nil.
  - apply Forall_cons in Hus as [Hu Hus]. destruct f as [|f]; [simpl in Hf; lia|].
    destruct (decide (count = maxPins)) as [->|Hne].
    { cbn [leer_objetos]. rewrite Nat.ltb_irrefl, andb_false_r, Nat.sub_diag. done. }
    cbn [resto flat_map]. fold (resto us).
    replace (pre ++ (($"," ++ json_usuario u) ++ resto us) ++ $"]}" ++ post)
      with (pre ++ $"," ++ json_usuario u ++ (resto us ++ $"]}" ++ post))
      by (rewrite <- !app_assoc; done).
    replace (length (pre ++ ($"," ++ json_usuario u) ++ resto us))
      with (length ((pre ++ $"," ++ json_usuario u) ++ resto us)) by (by rewrite <- !app_assoc).
    rewrite leer_objetos_paso; [|done| |lia| ].
    + replace (pre ++ $"," ++ json_usuario u ++ (resto us ++ $"]}" ++ post))
        with ((pre ++ $"," ++ json_usuario u) ++ resto us ++ $"]}" ++ post)
        by (by rewrite <- !app_assoc).
      rewrite IH by (done || (simpl in Hf; lia)).
      replace (maxPins - count)%nat with (S (maxPins - S count)) by lia. done.
    + repeat constructor. done.
    + rewrite !length_app. lia.
Qed.

(** the list between the brackets *)
Lemma leer_objetos_json us f pre post maxPins :
  Forall legible us -> (length us <= f)%nat ->
  leer_objetos f (pre ++ con_comas (json_usuario <$> us) ++ $"]}" ++ post) (length pre)
    (length (pre ++ con_comas (json_usuario <$> us)) + 2) maxPins 0 = take maxPins (recorte <$> us).
Proof.
  intros Hus Hf. destruct us as [|u us].
  { cbn [fmap list_fmap con_comas]. rewrite app_nil_l, app_nil_r, leer_objetos_fin.
    by rewrite take_nil. }
  apply Forall_cons in Hus as [Hu Hus]. destruct f as [|f]; [simpl in Hf; lia|].
  destruct maxPins as [|m]; [cbn [leer_objetos]; by rewrite andb_false_r|].
  rewrite con_comas_json.
  replace (pre ++ (json_usuario u ++ resto us) ++ $"]}" ++ post)
    with (pre ++ [] ++ json_usuario u ++ (resto us ++ $"]}" ++ post)) by (by rewrite <- !app_assoc).
  rewrite leer_objetos_paso; [|done|constructor|lia|rewrite !length_app; simpl; lia].
  rewrite !app_nil_l.
  replace (pre ++ json_usuario u ++ resto us ++ $"]}" ++ post)
    with ((pre ++ json_usuario u) ++ resto us ++ $"]}" ++ post) by (by rewrite <- !app_assoc).
  replace (pre ++ json_usuario u ++ resto us) with ((pre ++ json_usuario u) ++ resto us)
    by (by rewrite <- !app_assoc).
  rewrite leer_objetos_resto by (done || (simpl in Hf; lia)).
  rewrite fmap_cons. simpl. by rewrite Nat.sub_0_r.
Qed.

(** ** The round trip *)

Lemma strrchr_app c s r :
  Forall (fun d => d <> c) r -> strrchr c (s ++ c :: r) = Some (length s).
Proof.
  intros Hr. assert (Hn : strrchr c r = None).
  { induction Hr as [|d r Hd _ IH]; [done|]. simpl. by rewrite IH, decide_False. }
  induction s as [|d s IH]; simpl.
  - by rewrite Hn, decide_True.
  - by rewrite IH.
Qed.

Definition sin_nul (s : list ascii) : Prop := Forall (fun c => c <> chr 0) s.

Lemma sin_nul_lit s : forallb (fun d => negb (ord d =? 0)) s = true -> sin_nul s.
Proof. by apply forallb_no. Qed.

Lemma sin_nul_usuario u : legible u -> sin_nul (json_usuario u).
Proof.
  intros Hu. destruct (json_usuario_llaves u Hu) as (cuerpo & -> & Hc). constructor; [done|].
  apply Forall_app. split; [|by apply sin_nul_lit].
  eapply Forall_impl; [exact Hc|]. by intros c [_ ?].
Qed.

Lemma sin_nul_pins us : Forall legible us -> sin_nul (con_comas (json_usuario <$> us)).
Proof.
  intros Hus. destruct Hus as [|u us Hu Hus]; [constructor|]. rewrite con_comas_json.
  apply Forall_app. split; [by apply sin_nul_usuario|].
  induction Hus as [|v us Hv _ IH]; [constructor|]. cbn [resto flat_map].
  rewrite <- app_assoc. apply Forall_app. split; [by apply sin_nul_lit|].
  apply Forall_app. split; [by apply sin_nul_usuario|done].
Qed.

(** the document, its opening and its end *)
Definition json_abre : list ascii := $"{" ++ DQ ++ $"pins" ++ DQ ++ $":[".

Lemma json_pins_texto us : json_pins us = json_abre ++ con_comas (json_usuario <$> us) ++ $"]}".
Proof. unfold json_pins, json_par, json_abre. rewrite <- !app_assoc. reflexivity. Qed.

Lemma extraer_pins pre us post :
  Forall legible us -> sin_nul pre -> sin_nul post ->
  Forall (fun c => c <> chr 123) pre -> Forall (fun c => c <> chr 125) post ->
  extraerJSON (cstr (pre ++ json_pins us ++ post)) =
    Some (json_pins us ++ post, length (json_pins us)).
Proof.
  intros Hus Hpre Hpost Hab Hci. rewrite cstr_id.
  2: { rewrite json_pins_texto. repeat (apply Forall_app; split); try done;
       first [by apply sin_nul_lit | by apply sin_nul_pins]. }
  unfold extraerJSON. set (c := con_comas (json_usuario <$> us)).
  assert (Hj : json_pins us = (json_abre ++ c ++ $"]") ++ [chr 125]).
  { rewrite json_pins_texto. rewrite <- !app_assoc. reflexivity. }
  assert (Hs : strchr (chr 123) (pre ++ json_pins us ++ post) = Some (length pre)).
  { rewrite json_pins_texto. by apply strchr_app. }
  assert (Hr : strrchr (chr 125) (pre ++ json_pins us ++ post) =
               Some (length pre + length (json_pins us) - 1)%nat).
  { replace (pre ++ json_pins us ++ post)
      with ((pre ++ json_abre ++ c ++ $"]") ++ chr 125 :: post)
      by (rewrite Hj, <- !app_assoc; reflexivity).
    rewrite strrchr_app by done. f_equal. rewrite Hj.
    rewrite (length_app pre), (length_app _ [chr 125]). cbn [length]. lia. }
  assert (Hn : (1 <= length (json_pins us))%nat) by (rewrite Hj, length_app; cbn [length]; lia).
  rewrite Hs, Hr. cbn [mbind option_bind]. rewrite (proj2 (Nat.ltb_ge _ _)) by lia.
  rewrite drop_app_length. do 2 f_equal. lia.
Qed.

Lemma length_resto us : (length us <= length (resto us))%nat.
Proof.
  induction us as [|v us IH]; [simpl; lia|]. cbn [resto flat_map]. fold (resto us).
  rewrite !length_app. simpl. lia.
Qed.

Lemma parsear_pins us post maxPins :
  Forall legible us ->
  parsearJSONPins (json_pins us ++ post) (length (json_pins us)) maxPins =
    take maxPins (recorte <$> us).
Proof.
  intros Hus. unfold parsearJSONPins.
  assert (Hk : strstr_at (json_pins us ++ post) 0 (DQ ++ $"pins" ++ DQ) = Some 1%nat).
  { reflexivity. }
  assert (Ha : strchr_at (json_pins us ++ post) 1 (chr 91) = Some 8%nat) by reflexivity.
  set (c := con_comas (json_usuario <$> us)).
  assert (Hlen : length (json_pins us) = (length (json_abre ++ c) + 2)%nat).
  { rewrite json_pins_texto, app_assoc, length_app. done. }
  assert (Hl : (length us <= length c)%nat).
  { unfold c. destruct us as [|u us]; [simpl; lia|]. rewrite con_comas_json, length_app.
    apply Forall_cons in Hus as [Hu _]. pose proof (length_resto us).
    destruct (json_usuario_llaves u Hu) as (b & -> & _). cbn [length]. lia. }
  rewrite Hk, Ha, before_lt by (rewrite Hlen, length_app; simpl; lia).
  rewrite Hlen, json_pins_texto, <- app_assoc, <- app_assoc.
  apply (leer_objetos_json us _ json_abre post maxPins Hus). rewrite length_app. lia.
Qed.

(** ** Requests one after the other *)

Inductive peticion : Type :=
  | PDeleteUser (user_id : Z)
  | PDeleteRfid (user_id : Z)
  | PAdminPin (nuevo_pin : list ascii)
  | PUpdateRfid (pin rfid : option (list ascii))
  | PDeleteHuella (pin : option (list ascii))
  | PClearHuellas
  | PUpdateHuella (pin huella_id : option (list ascii))
  | PAlta (codigo tag rfid huella : list ascii)
  | PSyncPins.

Definition atender (ahora : Z) (p : peticion) (s : servidor) : respuesta * servidor :=
  match p with
  | PDeleteUser i => delete_user ahora i s
  | PDeleteRfid i => delete_rfid ahora i s
  | PAdminPin n => update_admin_pin ahora n s
  | PUpdateRfid p r => update_rfid_endpoint ahora p r s
  | PDeleteHuella p => delete_huella_endpoint ahora p s
  | PClearHuellas => clear_all_huellas_endpoint ahora s
  | PUpdateHuella p h => update_huella_endpoint ahora p h s
  | PAlta c t r h => panel_admin ahora c t r h s
  | PSyncPins => ((sync_pins s, 200), s)
  end.

(** the server after some requests, from a new database *)
Definition tras (t0 : Z) (ps : list (Z * peticion)) : servidor :=
  fold_left (fun s '(ahora, p) => snd (atender ahora p s)) ps (init_db (mkServidor [] 1 t0)).

(** The first row is the master's, with ID 1; the others have later IDs; nobody is
    inactive. *)
Definition servidor_ok (s : servidor) : Prop :=
  exists f fs, usuarios s = f :: fs /\ f_id f = 1 /\ f_activo f = 1 /\
    Forall (fun g => 1 < f_id g /\ f_activo g = 1) fs /\ 1 < proximo_id s.

(** an update that keeps the keys *)
Definition conserva (g : fila -> fila) : Prop :=
  forall f, f_id (g f) = f_id f /\ f_activo (g f) = f_activo f.

Lemma conserva_codigo c : conserva (set_f_codigo c).
Proof. done. Qed.
Lemma conserva_rfid r : conserva (set_f_rfid r).
Proof. done. Qed.
Lemma conserva_huella h : conserva (set_f_huella h).
Proof. done. Qed.

Lemma ok_notificar t s : servidor_ok s -> servidor_ok (notificar_cambio t s).
Proof. done. Qed.

Lemma ok_update P g s : conserva g -> servidor_ok s -> servidor_ok (sql_update P g s).
Proof.
  intros Hg (f & fs & Hu & Hi & Ha & Hfs & Hp).
  exists (if P f then g f else f), ((fun f => if P f then g f else f) <$> fs).
  split; [simpl; by rewrite Hu|]. destruct (Hg f) as [Hg1 Hg2].
  split; [destruct (P f); congruence|]. split; [destruct (P f); congruence|].
  split; [|done]. apply Forall_fmap. eapply Forall_impl; [exact Hfs|]. intros h [H1 H2].
  simpl. destruct (P h), (Hg h) as [Hh1 Hh2]; rewrite ?Hh1, ?Hh2; done.
Qed.

Lemma ok_delete i s : i <> 1 -> servidor_ok s -> servidor_ok (sql_delete (con_id i) s).
Proof.
  intros Hi (f & fs & Hu & Hf & Ha & Hfs & Hp).
  exists f, (List.filter (fun h => negb (con_id i h)) fs). split.
  - simpl. rewrite Hu. simpl. unfold con_id at 1. rewrite Hf.
    by rewrite (proj2 (Z.eqb_neq 1 i)) by congruence.
  - do 2 (split; [done|]). split; [|done]. apply List.Forall_forall. intros h Hh.
    apply filter_In in Hh as [Hh _]. by apply (proj1 (List.Forall_forall _ _) Hfs).
Qed.

Lemma ok_insert c t r h s : servidor_ok s -> servidor_ok (sql_insert c t r h s).
Proof.
  intros (f & fs & Hu & Hf & Ha & Hfs & Hp). eexists f, (fs ++ _). split.
  - simpl. rewrite Hu. reflexivity.
  - do 2 (split; [done|]). simpl. split; [|lia]. apply Forall_app. split; [done|].
    constructor; [|constructor]. done.
Qed.

Lemma atender_ok t p s : servidor_ok s -> servidor_ok (snd (atender t p s)).
Proof.
  intros Hs. destruct p; simpl;
    unfold delete_user, delete_rfid, update_admin_pin, update_rfid_endpoint,
      delete_huella_endpoint, clear_all_huellas_endpoint, update_huella_endpoint, panel_admin;
    repeat match goal with
           | |- context [if ?b then _ else _] => destruct b eqn:?
           | |- context [match sql_select1 ?P ?s with _ => _ end] => destruct (sql_select1 P s)
           end; simpl; try done; try apply ok_notificar;
    first [apply ok_insert; done | apply ok_delete; [by apply Z.eqb_neq|done]
          |apply ok_update; done].
Qed.

Lemma lista_ok s f fs :
  usuarios s = f :: fs -> f_activo f = 1 -> Forall (fun g => 1 < f_id g /\ f_activo g = 1) fs ->
  lista_usuarios s = usuario_de <$> usuarios s.
Proof.
  intros Hu Ha Hfs. unfold lista_usuarios. f_equal. rewrite Hu.
  assert (H : Forall (fun g => f_activo g = 1) (f :: fs)).
  { constructor; [done|]. eapply Forall_impl; [exact Hfs|]. by intros g [_ ?]. }
  clear - H. induction H as [|g l Hg _ IH]; [done|]. simpl. by rewrite Hg, IH.
Qed.

(** C23: whatever requests the server has attended since its database was created, its first
    row is the administrator's (ID 1), everybody is active, and the list that the lock
    downloads has one entry for each row, the administrator's in front: the master of the
    lock's table.  A request that changes that list records its time as the new version. *)
Theorem servidor_invariante t0 ps t p :
  let s := tras t0 ps in
  (exists f, head (usuarios s) = Some f /\ f_id f = 1 /\
     head (lista_usuarios s) = Some (usuario_de f)) /\
  lista_usuarios s = usuario_de <$> usuarios s /\
  (lista_usuarios (snd (atender t p s)) = lista_usuarios s \/
   LAST_UPDATE_TIME (snd (atender t p s)) = t).
Proof.
  intros s. assert (Hs : servidor_ok s).
  { unfold s, tras. assert (H0 : servidor_ok (init_db (mkServidor [] 1 t0))).
    { eexists _, []. split; [reflexivity|]. repeat split; constructor. }
    revert H0. generalize (init_db (mkServidor [] 1 t0)) as r.
    induction ps as [|[a q] ps IH]; intros r Hr; [done|]. simpl. by apply IH, atender_ok. }
  destruct Hs as (f & fs & Hu & Hf & Ha & Hfs & _).
  pose proof (lista_ok s f fs Hu Ha Hfs) as Hl. split; [|split; [done|]].
  - exists f. rewrite Hl, Hu. done.
  - destruct p; simpl;
      unfold delete_user, delete_rfid, update_admin_pin, update_rfid_endpoint,
        delete_huella_endpoint, clear_all_huellas_endpoint, update_huella_endpoint, panel_admin;
      repeat match goal with
             | |- context [if ?b then _ else _] => destruct b
             | |- context [match sql_select1 ?P ?s with _ => _ end] => destruct (sql_select1 P s)
             end; simpl; auto.
Qed.

(** C22: what the server prints, the lock's parser reads, when every user listed is
    [legible]: a code that is digits and not empty, a card of hexadecimal digits, a
    fingerprint of digits and a tag of plain characters, without quotes, backslashes, braces
    or control characters.  Then in any response made of the server's document between a
    header without opening braces or NULs and a trailer without closing braces or NULs,
    the JSON part is that document, and the users stored are the first [maxPins] active
    users of the server, each field cut to its array.  Nothing in server.py makes its
    users [legible]: its forms take any text for a code or a tag, and for such rows the
    theorem says nothing. *)
Theorem sync_ida_y_vuelta s pre post maxPins
    (Hus : Forall legible (lista_usuarios s))
    (Hpre : Forall (fun c => c <> chr 123 /\ c <> chr 0) pre)
    (Hpost : Forall (fun c => c <> chr 125 /\ c <> chr 0) post) :
  (j ← extraerJSON (cstr (pre ++ sync_pins s ++ post));
   Some (parsearJSONPins (fst j) (snd j) maxPins)) =
  Some (take maxPins (recorte <$> lista_usuarios s)).
Proof.
  apply Forall_and in Hpre as [Hp1 Hp2]. apply Forall_and in Hpost as [Hq1 Hq2].
  unfold sync_pins. rewrite extraer_pins by done. cbn [mbind option_bind fst snd].
  by rewrite parsear_pins.
Qed.

(** an administrator, a user with a card and a finger, one whose code is too long *)
Definition servidor_ejemplo : servidor :=
  tras 0 [(1, PAlta $"22222" $"ana" $"A1B2C3D4" $"0001"); (2, PAlta $"3333377" $"juan perez" [] [])].

Lemma sync_ida_y_vuelta_witness :
  (j ← extraerJSON (cstr ($"+HTTPCGET:214," ++ sync_pins servidor_ejemplo ++ CRLF));
   Some (parsearJSONPins (fst j) (snd j) MAX_PINS)) =
  Some [mkUsuario $"11111" true [] [] $"ADMIN"; mkUsuario $"22222" true $"A1B2C3D4" $"0001" $"ana";
        mkUsuario $"33333" true [] [] $"juan perez"].
Proof.
  rewrite sync_ida_y_vuelta.
  - reflexivity.
  - repeat (apply Forall_cons; split; [split; [discriminate|repeat split; reflexivity]|]). constructor.
  - repeat (apply Forall_cons; split; [split; discriminate|]). constructor.
  - repeat (apply Forall_cons; split; [split; discriminate|]). constructor.
Defined.
