(* ===== verification/Dobles.v ===== *)
(** * Doubles: [atof] and comparisons

    The server's version stamp is a C [double].  It is kept as the IEEE-754
    binary64 value of Stdlib's [SpecFloat]; [atof] is newlib's correctly
    rounded conversion. *)

From Stdlib Require Import ZArith Lia Bool Ascii String.
From Stdlib Require Import SpecFloat.
From stdpp Require Import base list strings numbers sets.
From stdpp Require Import options.
From S2P Require Import Prelude.

Definition prec : Z := 53.
Definition emax : Z := 1024.

Definition dbl_of_Z (z : Z) : spec_float := binary_normalize prec emax z 0 false.
Definition dbl_zero : spec_float := S754_zero false.

(** [a < b], [a > b] *)
Definition dbl_ltb (a b : spec_float) : bool := SFltb a b.
Definition dbl_gtb (a b : spec_float) : bool := SFltb b a.

(** The rounding of [m * 10^e] with a sign. *)
Definition dbl_of_decimal (s : bool) (m e : Z) : spec_float :=
  match m with
  | Zpos mp =>
      if 0 <=? e then
        match m * 10 ^ e with
        | Zpos q => binary_round prec emax s q 0
        | _ => S754_zero s
        end
      else
        match 10 ^ (- e) with
        | Zpos d =>
            let '(mz, ez, lz) := SFdiv_core_binary prec emax (Zpos mp) 0 (Zpos d) 0 in
            binary_round_aux prec emax s mz ez lz
        | _ => S754_zero s
        end
  | _ => S754_zero s
  end.

Definition hex_digit (c : ascii) : option Z :=
  if (48 <=? ord c) && (ord c <=? 57) then Some (ord c - 48)
  else if (97 <=? ord c) && (ord c <=? 102) then Some (ord c - 87)
  else if (65 <=? ord c) && (ord c <=? 70) then Some (ord c - 55)
  else None.
Definition dec_digit (c : ascii) : option Z :=
  if is_digit c then Some (ord c - 48) else None.

(** The digits of a mantissa in a base: value, number of digits, rest. *)
Fixpoint scan_digits (dig : ascii -> option Z) (base acc n : Z) (s : list ascii) :
    Z * Z * list ascii :=
  match s with
  | c :: s' =>
      match dig c with
      | Some d => scan_digits dig base (acc * base + d) (n + 1) s'
      | None => (acc, n, s)
      end
  | [] => (acc, n, [])
  end.

(** digits, an optional point, digits: value, digits read, digits after the point *)
Definition scan_mantissa (dig : ascii -> option Z) (base : Z) (s : list ascii) :
    Z * Z * Z * list ascii :=
  let '(m, n, r) := scan_digits dig base 0 0 s in
  match r with
  | c :: r' =>
      if ord c =? 46 then
        let '(m', n', r'') := scan_digits dig base m 0 r' in (m', n + n', n', r'')
      else (m, n, 0, r)
  | [] => (m, n, 0, r)
  end.

(** an exponent introduced by one of the two letters; 0 when absent *)
Definition scan_exponent (lower upper : Z) (s : list ascii) : Z :=
  match s with
  | c :: r =>
      if (ord c =? lower) || (ord c =? upper) then
        let '(neg, r) := match r with
                         | d :: r' => if ord d =? 45 then (true, r')
                                      else if ord d =? 43 then (false, r') else (false, r)
                         | [] => (false, r)
                         end in
        let '(e, n, _) := scan_digits dec_digit 10 0 0 r in
        if neg : bool then - e else e
      else 0
  | [] => 0
  end.

Definition to_lower (c : ascii) : ascii :=
  if (65 <=? ord c) && (ord c <=? 90) then chr (ord c + 32) else c.

Definition atof_unsigned (sg : bool) (s : list ascii) : spec_float :=
  if prefixb $"inf" (to_lower <$> s) then S754_infinity sg
  else if prefixb $"nan" (to_lower <$> s) then S754_nan
  else if prefixb $"0x" (to_lower <$> s) then
    let '(m, n, frac, r) := scan_mantissa hex_digit 16 (drop 2 s) in
    if n =? 0 then S754_zero sg
    else match m with
         | Zpos mp => binary_round prec emax sg mp (scan_exponent 112 80 r - 4 * frac)
         | _ => S754_zero sg
         end
  else
    let '(m, n, frac, r) := scan_mantissa dec_digit 10 s in
    if n =? 0 then dbl_zero
    else dbl_of_decimal sg m (scan_exponent 101 69 r - frac).

Definition atof (s : list ascii) : spec_float :=
  match skip_spaces s with
  | c :: r =>
      if ord c =? 45 then atof_unsigned true r
      else if ord c =? 43 then atof_unsigned false r
      else atof_unsigned false (c :: r)
  | [] => dbl_zero
  end.
