(* ===== verification/EspAT.v ===== *)
(** * espAT.c: the ESP modem

    AT commands over UART 5, the WiFi start-up, HTTP requests, and the
    server's endpoints.  A response buffer is the list of bytes received
    (at most its size less one); as a C string it is [cstr] of that list. *)

From Stdlib Require Import ZArith Lia Bool Ascii String.
From Stdlib Require Import SpecFloat.
From stdpp Require Import base list strings numbers sets.
From stdpp Require Import options.
From S2P Require Import Prelude Machine Effects Triples Banco Sapi Serie Display Cerrojo Usuarios.
From S2P Require Import Json Dobles.

Definition ESP_UART : Z := 5.

(** [sprintf] into [n] bytes is undefined when the text does not fit;
    [snprintf] truncates. *)
Definition sprintf {E : Env} (n : nat) (s : list ascii) : M (list ascii) :=
  if (length s <? n)%nat then mret s else undef.
Definition snprintf (n : nat) (s : list ascii) : list ascii := take (n - 1) s.

(** [resp[i] == 'O' && resp[i+1] == 'K' && (resp[i+2] == '\r' || '\n')] *)
Definition ok_crlf_at (resp : list ascii) (i : nat) : bool :=
  match drop i resp with
  | a :: b :: c :: _ =>
      (ord a =? 79) && (ord b =? 75) && ((ord c =? 13) || (ord c =? 10))
  | _ => false
  end.

Section EspAT.
Context {E : Env}.

(** ** AT commands *)

(** The bytes stored in [respuesta]; the C function returns their number. *)
Definition enviarComandoAT (cmd : list ascii) (maxLen timeoutMs : Z) : M (list ascii) :=
  if maxLen =? 0 then mret []
  else
    uartWriteString ESP_UART cmd ;;
    uartWriteString ESP_UART CRLF ;;
    now ← tickRead;
    let start := u32 now in
    let idleTimeoutMs := 1000 in
    loop (fun '(respuesta, lastByteTime) =>
      t ← tickRead;
      if u64 (t - start) <? timeoutMs then
        b ← uartReadByte ESP_UART;
        match b with
        | Some byte =>
            let respuesta := if strlen respuesta <? maxLen - 1
                             then respuesta ++ [chr byte] else respuesta in
            if maxLen - 1 <=? strlen respuesta then mret (inr respuesta)
            else
              t ← tickRead;
              mret (inl (respuesta, u32 t))
        | None =>
            idle ← (if 0 <? strlen respuesta then
                      t ← tickRead; mret (idleTimeoutMs <? u64 (t - lastByteTime))
                    else mret false);
            if idle : bool then mret (inr respuesta)
            else delay 1 ;; mret (inl (respuesta, lastByteTime))
        end
      else mret (inr respuesta)) ([], start).

Definition espATInit (baudrate : Z) : M unit :=
  let baudrate := if baudrate =? 0 then 115200 else baudrate in
  uartInit ESP_UART baudrate ;;
  uartWriteString ESP_UART $"+++" ;;
  delay 1000 ;;
  uartWriteString ESP_UART ($"AT+RST" ++ CRLF) ;;
  delay 1000 ;;
  loop (fun _ : unit =>
    b ← uartReadByte ESP_UART;
    mret (match b with Some _ => inl tt | None => inr tt end)) tt.

(** ** WiFi start-up *)

(** step 1: "AT" until "OK" *)
Definition esperarAT (timeoutMs : Z) : M bool :=
  now ← tickRead;
  let start := u32 now in
  loop (fun _ : unit =>
    t ← tickRead;
    if u64 (t - start) <? timeoutMs then
      resp ← enviarComandoAT $"AT" 256 1000;
      if (0 <? strlen resp) && has $"OK" (cstr resp) then mret (inr true)
      else delay 500 ;; mret (inl tt)
    else mret (inr false)) tt.

(** the wait for an IP address, 15 s at most *)
Definition esperarIP : M unit :=
  now ← tickRead;
  let waitStart := u32 now in
  loop (fun count =>
    t ← tickRead;
    if u64 (t - waitStart) <? 15000 then
      resp ← enviarComandoAT $"AT+CIPSTATUS" 256 1000;
      if has $"STATUS:2" (cstr resp) || has $"STATUS:3" (cstr resp) then
        enviarComandoAT $"AT+CIFSR" 256 1000 ;;
        display_println $"WiFi CONECTADO" 50 ;;
        display_update ;;
        delay 1000 ;;
        modify (fun w => set_conectado true w) ;;
        mret (inr tt)
      else
        delay 1000 ;;
        let count := s32 (count + 1) in
        when (count =? 4) (enviarComandoAT $"AT+RST" 256 1000 ;; mret tt) ;;
        mret (inl count)
    else mret (inr tt)) 0.

Definition inicializarESP (timeoutMs : Z) : M bool :=
  ok ← esperarAT timeoutMs;
  if negb ok then mret false
  else
    enviarComandoAT $"AT+CWMODE=1" 256 1000 ;;
    enviarComandoAT $"AT+CIPMUX=0" 256 1000 ;;
    enviarComandoAT $"AT+CWAUTOCONN=1" 256 1000 ;;
    esperarIP ;;
    con ← gets conectado;
    if con : bool then mret true
    else
      display_println $"WiFi NO CONECTADO" 36 ;;
      display_println $"REVISE ROUTER" 50 ;;
      display_update ;;
      delay 100 ;;
      display_println $"WiFi NO CONECTADO" 36 ;;
      display_println $"SIN CREDENCIALES" 50 ;;
      display_update ;;
      delay 100 ;;
      enviarComandoAT ($"AT+BLUFINAME=" ++ DQ ++ $"cerradura" ++ DQ) 256 2000 ;;
      enviarComandoAT $"AT+BLUFI=1" 256 2000 ;;
      mret false.

Definition resetearCredencialesESP : M bool :=
  resp ← enviarComandoAT $"AT+RESTORE" 512 5000;
  let n := length resp in
  if (0 <? n)%nat then
    (* n - 3 is a size_t: below three bytes the loop runs off the buffer *)
    if (n <? 3)%nat then undef
    else if existsb (ok_crlf_at resp) (List.seq 0 (n - 3)) then
      delay 3000 ;;
      delay 1000 ;;
      inicializarESP 10000 ;;
      mret true
    else mret false
  else mret false.

(** ** HTTP *)

(** [Some resp]: the function returns true with [resp] in [bufferResp] *)
Definition espRawHTTPGet (path : list ascii) (bufferSize : Z) : M (option (list ascii)) :=
  enviarComandoAT $"AT+CIPCLOSE" 128 500 ;;
  cmd ← sprintf 256 ($"AT+CIPSTART=" ++ DQ ++ $"TCP" ++ DQ ++ $"," ++ DQ ++ SERVER_IP ++
                     DQ ++ $"," ++ SERVER_PORT);
  aux ← enviarComandoAT cmd 128 15000;
  if (strlen aux =? 0) || has $"ERROR" (cstr aux) then mret None
  else
    request ← sprintf 300 ($"GET " ++ path ++ $" HTTP/1.1" ++ CRLF ++
                           $"Host: " ++ SERVER_IP ++ $":" ++ SERVER_PORT ++ CRLF ++
                           $"Connection: close" ++ CRLF ++ CRLF);
    cmd ← sprintf 256 ($"AT+CIPSEND=" ++ fmt_d (strlen request));
    aux ← enviarComandoAT cmd 128 2000;
    if negb (has $">" (cstr aux)) then mret None
    else
      resp ← enviarComandoAT request bufferSize 5000;
      if 0 <? strlen resp then mret (Some resp) else mret None.

Definition espHTTPGetViaAT (path : list ascii) (bufferSize : Z) : M (option (list ascii)) :=
  let cmd := snprintf 512 ($"AT+HTTPCGET=" ++ DQ ++ $"http://" ++ SERVER_IP ++ $":" ++
                           SERVER_PORT ++ path ++ DQ) in
  resp ← enviarComandoAT cmd bufferSize 10000;
  if (0 <? strlen resp) &&
     (bool_decide (is_Some (strchr (chr 123) (cstr resp))) || has $"HTTP/" (cstr resp) ||
      has $"+HTTPCGET:" (cstr resp))
  then mret (Some resp)
  else espRawHTTPGet path bufferSize.

(** ** The server's endpoints *)

(** the users stored in [pinsOut]; the C function returns their number *)
Definition espHTTPGetPins (maxPins : nat) : M (list PinUsuario_t) :=
  if (maxPins =? 0)%nat then mret []
  else
    r ← espHTTPGetViaAT $"/syncPins/?allPins=true" 2048;
    mret (match r with
          | None => []
          | Some httpResp =>
              match extraerJSON (cstr httpResp) with
              | None => []
              | Some (json, jsonLen) => parsearJSONPins json jsonLen maxPins
              end
          end).

Definition espEnviarNuevaHuella (pin idHuella : list ascii) : M bool :=
  path ← sprintf 200 ($"/update-huella?pin=" ++ pin ++ $"&huella=" ++ idHuella);
  r ← espHTTPGetViaAT path 512;
  mret (match r with
        | Some resp => has $"UPDATED OK" (cstr resp)
        | None => false
        end).

Definition espEnviarNuevoRFID (pin rfidHex : list ascii) : M bool :=
  ruta ← sprintf 200 ($"/update-rfid?pin=" ++ pin ++ $"&rfid=" ++ rfidHex);
  r ← espHTTPGetViaAT ruta 256;
  mret (match r with
        | Some resp => has $"UPDATED OK" (cstr resp) || has $"200 OK" (cstr resp) ||
                       has (DQ ++ $"ok" ++ DQ) (cstr resp) || has $"UPDATED" (cstr resp)
        | None => false
        end).

Definition espBorrarHuellaServidor (pin : list ascii) : M bool :=
  url ← sprintf 256 ($"http://" ++ SERVER_IP ++ $":" ++ SERVER_PORT ++
                     $"/delete-huella?pin=" ++ pin);
  let cmd := snprintf 300 ($"AT+HTTPCGET=" ++ DQ ++ url ++ DQ) in
  resp ← enviarComandoAT cmd 128 4000;
  mret ((0 <? strlen resp) && has $"DELETED OK" (cstr resp)).

Definition espBorrarTodasHuellasServidor : M bool :=
  url ← sprintf 256 ($"http://" ++ SERVER_IP ++ $":" ++ SERVER_PORT ++ $"/clear-all-huellas");
  let cmd := snprintf 300 ($"AT+HTTPCGET=" ++ DQ ++ url ++ DQ) in
  resp ← enviarComandoAT cmd 128 4000;
  mret ((0 <? strlen resp) && has $"ALL CLEARED OK" (cstr resp)).

(** the number after ["last_update":] in a response, [-1.0] for none *)
Definition leerVersion (resp : list ascii) : spec_float :=
  let err := dbl_of_Z (-1) in
  match strchr (chr 123) resp with
  | None => err
  | Some i =>
      let jsonBody := drop i resp in
      match strstr (DQ ++ $"last_update" ++ DQ) jsonBody with
      | None => err
      | Some j =>
          match strchr (chr 58) (drop j jsonBody) with
          | None => err
          | Some k =>
              let val := atof (drop (S k) (drop j jsonBody)) in
              if dbl_gtb val (dbl_of_Z 1000000) then val else err
          end
      end
  end.

Definition espObtenerTiempoServidor : M spec_float :=
  r ← espHTTPGetViaAT $"/check-status" 1024;
  mret (match r with
        | Some resp => leerVersion (cstr resp)
        | None => dbl_of_Z (-1)
        end).
End EspAT.

(* opaque to instance search *)
#[export] Hint Opaque enviarComandoAT espATInit esperarAT esperarIP inicializarESP
  resetearCredencialesESP espRawHTTPGet espHTTPGetViaAT espHTTPGetPins espEnviarNuevaHuella
  espEnviarNuevoRFID espBorrarHuellaServidor espBorrarTodasHuellasServidor
  espObtenerTiempoServidor : typeclass_instances.

(** ** Footprints *)
Section EspEff.
Context {E : Env}.

#[export] Instance sprintf_eff F K n s : Eff F K (sprintf n s).
Proof. unfold sprintf. eff_solve. Qed.
#[export] Instance enviarComandoAT_eff F K c m t :
  Sub [KUart ESP_UART] K -> Eff F K (enviarComandoAT c m t).
Proof. unfold enviarComandoAT. eff_solve. Qed.
#[export] Instance espATInit_eff F K b :
  Sub [KUart ESP_UART; KConf] K -> Eff F K (espATInit b).
Proof. eff_op (@nil comp) [KUart ESP_UART; KConf]. unfold espATInit. eff_solve. Qed.
#[export] Instance esperarAT_eff F K t : Sub [KUart ESP_UART] K -> Eff F K (esperarAT t).
Proof. unfold esperarAT. eff_solve. Qed.
#[export] Instance esperarIP_eff F K :
  Sub [CWifi; CDisp] F -> Sub [KUart ESP_UART; KI2c] K -> Eff F K esperarIP.
Proof. eff_op [CWifi; CDisp] [KUart ESP_UART; KI2c]. unfold esperarIP. eff_solve. Qed.
#[export] Instance inicializarESP_eff F K t :
  Sub [CWifi; CDisp] F -> Sub [KUart ESP_UART; KI2c] K -> Eff F K (inicializarESP t).
Proof. eff_op [CWifi; CDisp] [KUart ESP_UART; KI2c]. unfold inicializarESP. eff_solve. Qed.
#[export] Instance resetear_eff F K :
  Sub [CWifi; CDisp] F -> Sub [KUart ESP_UART; KI2c] K -> Eff F K resetearCredencialesESP.
Proof. eff_op [CWifi; CDisp] [KUart ESP_UART; KI2c]. unfold resetearCredencialesESP. eff_solve. Qed.
#[export] Instance espRawHTTPGet_eff F K p b :
  Sub [KUart ESP_UART] K -> Eff F K (espRawHTTPGet p b).
Proof. unfold espRawHTTPGet. eff_solve. Qed.
#[export] Instance espHTTPGetViaAT_eff F K p b :
  Sub [KUart ESP_UART] K -> Eff F K (espHTTPGetViaAT p b).
Proof. unfold espHTTPGetViaAT. eff_solve. Qed.
#[export] Instance espHTTPGetPins_eff F K m : Sub [KUart ESP_UART] K -> Eff F K (espHTTPGetPins m).
Proof. unfold espHTTPGetPins. eff_solve. Qed.
#[export] Instance espEnviarNuevaHuella_eff F K p i :
  Sub [KUart ESP_UART] K -> Eff F K (espEnviarNuevaHuella p i).
Proof. unfold espEnviarNuevaHuella. eff_solve. Qed.
#[export] Instance espEnviarNuevoRFID_eff F K p i :
  Sub [KUart ESP_UART] K -> Eff F K (espEnviarNuevoRFID p i).
Proof. unfold espEnviarNuevoRFID. eff_solve. Qed.
#[export] Instance espBorrarHuella_eff F K p :
  Sub [KUart ESP_UART] K -> Eff F K (espBorrarHuellaServidor p).
Proof. unfold espBorrarHuellaServidor. eff_solve. Qed.
#[export] Instance espBorrarTodas_eff F K :
  Sub [KUart ESP_UART] K -> Eff F K espBorrarTodasHuellasServidor.
Proof. unfold espBorrarTodasHuellasServidor. eff_solve. Qed.
#[export] Instance espObtenerTiempo_eff F K :
  Sub [KUart ESP_UART] K -> Eff F K espObtenerTiempoServidor.
Proof. unfold espObtenerTiempoServidor. eff_solve. Qed.
End EspEff.

(** ** What the modem is sent and what is kept of its answer *)
Section EspSerie.
Context {E : Env}.

Lemma enviarComandoAT_tx cmd maxLen timeoutMs l :
  maxLen <> 0 ->
  tri (tx ESP_UART) l (enviarComandoAT cmd maxLen timeoutMs)
    (fun _ l' => l' = rev (ord <$> (cmd ++ CRLF)) ++ l).
Proof.
  intros Hm. unfold enviarComandoAT. rewrite (proj2 (Z.eqb_neq _ _) Hm).
  apply tri_bind. eapply tri_conseq; [apply tri_send_str|]. intros _ l1 ->.
  apply tri_bind. eapply tri_conseq; [apply tri_send_str|]. intros _ l2 ->.
  tri_step. tri_step. cbv zeta. apply tri_keep; [apply keeps_tx; eff_solve|intros _].
  by rewrite fmap_app, rev_app_distr, <- app_assoc.
Qed.

Lemma uartReadByte_byte u w b w' : uartReadByte u w = Ret (Some b) w' -> 0 <= b < 256.
Proof.
  intros H. unfold uartReadByte in H. apply bind_Ret in H as (r & w1 & _ & H).
  destruct r; [|done]. apply bind_Ret in H as (v & w2 & H & H3). injection H3 as <- _.
  unfold uartRxRead in H. apply bind_Ret in H as (v2 & w3 & _ & H). injection H as <- _.
  apply u8_bound.
Qed.

(** the receiving loop: never more than [maxLen - 1] bytes, and none lost before that *)
Lemma enviarComandoAT_rx {C : Cola ESP_UART} cmd maxLen timeoutMs :
  1 < maxLen -> Recibe ESP_UART (enviarComandoAT cmd maxLen timeoutMs) (fun resp => ord <$> resp).
Proof.
  intros Hm. unfold enviarComandoAT. rewrite (proj2 (Z.eqb_neq maxLen 0)) by lia.
  apply recibe_skip; [apply _|intros _]. apply recibe_skip; [apply _|intros _].
  apply recibe_skip; [apply _|intros now]. cbv zeta.
  apply (recibe_loop _ _ _ (fun s => strlen s.1 < maxLen - 1) (fun s => ord <$> s.1));
    [unfold strlen; simpl; lia|done|].
  intros [resp last] w r w' HI H. cbn [fst] in HI.
  apply bind_Ret in H as (t & w1 & [n1 E1]%(no_recibe ESP_UART) & H).
  destruct (u64 (t - u32 now) <? timeoutMs).
  2: { injection H as <- <-. exists n1, []. by rewrite E1, app_nil_r. }
  apply bind_Ret in H as (b & w2 & Hb & H). pose proof Hb as [n2 E2]%(recibe ESP_UART).
  assert (E3 : rx ESP_UART w ++ n1 ++ n2 = option_list b ++ rx ESP_UART w2).
  { by rewrite app_assoc, <- E1, E2. }
  destruct b as [b|].
  - apply uartReadByte_byte in Hb. rewrite (proj2 (Z.ltb_lt _ _) HI) in H.
    destruct (Z.leb_spec (maxLen - 1) (strlen (resp ++ [chr b]))) as [_|Hlt].
    + injection H as <- <-. exists (n1 ++ n2), [b]. split; [done|].
      rewrite fmap_app. simpl. by rewrite ord_chr.
    + apply bind_Ret in H as (t2 & w3 & [n3 E4]%(no_recibe ESP_UART) & H). injection H as <- <-.
      exists ((n1 ++ n2) ++ n3), [b]. split; [by rewrite app_assoc, E3, E4, <- app_assoc|].
      split; [done|]. cbn [fst]. rewrite fmap_app. simpl. by rewrite ord_chr.
  - apply bind_Ret in H as (idle & w3 & H3 & H).
    assert (E5 : exists n, rx ESP_UART w3 = rx ESP_UART w2 ++ n).
    { destruct (0 <? strlen resp); [|injection H3 as _ <-; exists []; by rewrite app_nil_r].
      exact (no_recibe ESP_UART _ _ _ H3). }
    destruct E5 as [n3 E5]. destruct idle.
    + injection H as <- <-. exists ((n1 ++ n2) ++ n3), []. rewrite app_nil_r.
      split; [by rewrite app_assoc, E3, E5|done].
    + apply bind_Ret in H as ([] & w4 & [n4 E6]%(no_recibe ESP_UART) & H). injection H as <- <-.
      exists (((n1 ++ n2) ++ n3) ++ n4), []. rewrite app_nil_r.
      split; [by rewrite !app_assoc, <- (app_assoc _ n1), E3, E6, E5|done].
Qed.

Lemma enviarComandoAT_largo cmd maxLen timeoutMs :
  1 < maxLen -> result (enviarComandoAT cmd maxLen timeoutMs) (fun resp => strlen resp < maxLen).
Proof.
  intros Hm. unfold result, enviarComandoAT. rewrite (proj2 (Z.eqb_neq maxLen 0)) by lia.
  do 6 tri_step. cbv zeta.
  apply (tri_loop _ (fun s _ => strlen s.1 < maxLen - 1)); [unfold strlen; simpl; lia|].
  intros [resp last] [] HI. cbn [fst] in HI. tri_step. tri_step. tri_step; [|tri_step; lia].
  tri_step. tri_step. match goal with |- tri _ _ (match ?x with _ => _ end) _ => destruct x as [b|] end.
  - rewrite (proj2 (Z.ltb_lt _ _) HI). destruct (Z.leb_spec (maxLen - 1) (strlen (resp ++ [chr b]))).
    + tri_step. unfold strlen in *. rewrite length_app. simpl. lia.
    + do 3 tri_step. done.
  - tri_step. apply tri_keep; [apply _|intros idle]. destruct idle; [tri_step; lia|].
    do 3 tri_step. done.
Qed.

(** C27: an AT command puts on the modem's line its text, CR and LF, and nothing else; of
    the answer it returns fewer bytes than the buffer holds, and they are exactly the bytes
    taken from the line, in order, none lost and none repeated. *)
Theorem enviarComandoAT_spec {C : Cola ESP_UART} cmd maxLen timeoutMs w resp w'
    (Hm : 1 < maxLen) (H : enviarComandoAT cmd maxLen timeoutMs w = Ret resp w') :
  tx ESP_UART w' = rev (ord <$> (cmd ++ CRLF)) ++ tx ESP_UART w /\
  strlen resp < maxLen /\
  exists llegan, rx ESP_UART w ++ llegan = (ord <$> resp) ++ rx ESP_UART w'.
Proof.
  split; [exact (enviarComandoAT_tx cmd maxLen timeoutMs _ ltac:(lia) w resp w' eq_refl H)|]. split.
  - exact (result_run _ _ _ _ _ (enviarComandoAT_largo cmd maxLen timeoutMs Hm) H).
  - exact (enviarComandoAT_rx cmd maxLen timeoutMs Hm w resp w' H).
Qed.
End EspSerie.

(** the modem of the bench: a queue, filled at the end of each line sent *)
#[refine, export] Instance cola_banco paso fuel : @Cola (env_banco paso fuel) ESP_UART :=
  @Build_Cola (env_banco paso fuel) ESP_UART (fun d : banco => u8 <$> b_uart5 d) _ _ _ _.
Proof.
  - intros d. simpl. destruct (b_uart5 d); [by intros []|done].
  - intros d b q Hq. simpl in *. destruct (b_uart5 d) as [|c l]; [done|].
    injection Hq as <- <-. split; [done|]. exists []. by rewrite app_nil_r.
  - intros i d Hi. exists []. rewrite app_nil_r. destruct i as [| |v|a b| | |]; try reflexivity.
    simpl. destruct (v =? 0); [reflexivity|]. by destruct (Z.eqb_spec v 5) as [->|Hv].
  - intros e d. destruct e as [p q b|v b| | | | | |]; try (exists []; by rewrite app_nil_r).
    + simpl. destruct (_ && _); exists []; by rewrite app_nil_r.
    + simpl. destruct (_ && _); [|exists []; by rewrite app_nil_r].
      exists (u8 <$> b_modem d). apply fmap_app.
Defined.

(** the modem answers the command, in a buffer of eight bytes *)
Definition mundo_modem : @world (env_banco 1 100) :=
  mundo 1 100 (con_modem (ord <$> $"OK" ++ CRLF) (banco_quieto 0)) [] (mkScan ST_IDLE 0 0 [] 0 0 0)
    (mkMef REPOSO [] 0 0 (S754_zero false) [] 0 false false).

Lemma enviarComandoAT_spec_witness :
  returns (enviarComandoAT $"AT" 5 40 mundo_modem) (fun resp w' =>
    resp = $"OK" ++ CRLF /\ rev (tx ESP_UART w') = [65; 84; 13; 10] /\
    exists llegan, rx ESP_UART mundo_modem ++ llegan = [79; 75; 13; 10] ++ rx ESP_UART w').
Proof.
  run_as a w H. assert (Ha : a = $"OK" ++ CRLF).
  { assert (Hv : match enviarComandoAT $"AT" 5 40 mundo_modem with
                 | Ret x _ => x | _ => [] end = $"OK" ++ CRLF) by (vm_compute; reflexivity).
    rewrite H in Hv. exact Hv. }
  destruct (enviarComandoAT_spec $"AT" 5 40 _ _ _ ltac:(lia) H) as (Ht & _ & Hr). subst a.
  split; [done|]. split; [rewrite Ht; reflexivity|exact Hr].
Defined.
