(* ===== verification/As608.v ===== *)
(** * as608.c: the fingerprint sensor

    The packet protocol over UART 0 (frame construction, acknowledgements,
    the blocking commands, enrolment) and the non-blocking scan state machine
    on the static [g_scan]. *)

From Stdlib Require Import ZArith Lia Bool Ascii String.
From stdpp Require Import base list strings numbers sets.
From stdpp Require Import options.
From S2P Require Import Prelude Machine Effects Triples Banco Sapi Serie Display EspAT.

Definition AS608_UART : Z := 0.
Definition AS608_DEFAULT_BAUD : Z := 57600.
Definition AS608_FLUSH_MS_SHORT : Z := 2.
Definition AS608_FLUSH_MS_TINY : Z := 1.
Definition AS608_DELAY_BEFORE_SEND_MS : Z := 2.
Definition AS608_GETIMAGE_LONG_TIMEOUT_MS : Z := 200.
Definition AS608_IMAGE2TZ_PRE_DELAY_MS : Z := 10.
Definition AS608_IMAGE2TZ_TIMEOUT_MS : Z := 400.
Definition AS608_SEARCH_TIMEOUT_MS : Z := 200.
Definition AS608_CHECK_DELAY_MS : Z := 5.
Definition AS608_CHECK_TIMEOUT_MS : Z := 3000.
Definition AS608_TEMPLATECOUNT_TIMEOUT_MS : Z := 3000.
Definition AS608_REGMODEL_TIMEOUT_MS : Z := 300.
Definition AS608_STORE_TIMEOUT_MS : Z := 500.
Definition AS608_ENROLL_NOFINGER_DELAY_MS : Z := 200.
Definition AS608_ENROLL_ERROR_DELAY_MS : Z := 300.
Definition AS608_ENROLL_ATTEMPT_INTERVAL_MS : Z := 300.

(** [buf[i]] of a byte buffer *)
Definition byte_at (buf : list Z) (i : nat) : Z := nth i buf 0.

(** ** Frames *)

Definition sum_bytes (l : list Z) : Z := fold_right Z.add 0 l.

(** header, payload and checksum of a packet *)
Definition as608Header (packetType payloadLen : Z) : list Z :=
  let len := u16 (payloadLen + 2) in
  [239; 1; 255; 255; 255; 255; packetType; u8 (Z.shiftr len 8); u8 (Z.land len 255)].
Definition as608Sum (header payload : list Z) : Z :=
  u16 (byte_at header 6 + byte_at header 7 + byte_at header 8 + sum_bytes payload).
Definition as608Frame (packetType : Z) (payload : list Z) : list Z :=
  let header := as608Header packetType (Z.of_nat (length payload)) in
  let sum := as608Sum header payload in
  header ++ payload ++ [u8 (Z.shiftr sum 8); u8 (Z.land sum 255)].

(** the confirm code of an acknowledgement, 0xFF while there is none *)
Definition as608TryParseAck (buf : list Z) (len : Z) : Z :=
  if len <? 12 then 255
  else if negb (byte_at buf 0 =? 239) || negb (byte_at buf 1 =? 1) then 255
  else if negb (byte_at buf 6 =? 7) then 255
  else byte_at buf 9.

Definition as608ExpectedFrameLen (buf : list Z) (len : Z) : Z :=
  if len <? 9 then 0
  else if negb (byte_at buf 0 =? 239) || negb (byte_at buf 1 =? 1) then 0
  else
    let l := Z.lor (u16 (Z.shiftl (byte_at buf 7) 8)) (byte_at buf 8) in
    u16 (9 + l).

(** two bytes, big-endian *)
Definition be16 (hi lo : Z) : Z := Z.lor (u16 (Z.shiftl hi 8)) lo.

Inductive as608ScanStatus_t : Type :=
  | AS608_SCAN_IDLE | AS608_SCAN_INPROGRESS | AS608_SCAN_MATCH
  | AS608_SCAN_NOMATCH | AS608_SCAN_ERROR | AS608_SCAN_NOFINGER.
#[global] Instance scan_status_eq_dec : EqDecision as608ScanStatus_t.
Proof. solve_decision. Defined.

(** ** Fields of [g_scan] *)
Definition set_st (s : as608ScanState_t) (g : scan_st) : scan_st :=
  mkScan s (tCmdStart g) (tLastByte g) (resp g) (respLen g) (lastId g) (lastScore g).
Definition set_tCmdStart (t : Z) (g : scan_st) : scan_st :=
  mkScan (st g) t (tLastByte g) (resp g) (respLen g) (lastId g) (lastScore g).
Definition set_respLen (n : Z) (g : scan_st) : scan_st :=
  mkScan (st g) (tCmdStart g) (tLastByte g) (resp g) n (lastId g) (lastScore g).
Definition set_last (i s : Z) (g : scan_st) : scan_st :=
  mkScan (st g) (tCmdStart g) (tLastByte g) (resp g) (respLen g) i s.
(** append [b] to [buf] and note the time of the last byte *)
Definition store_byte (b t : Z) (g : scan_st) : scan_st :=
  mkScan (st g) (tCmdStart g) t (<[Z.to_nat (respLen g) := b]> (resp g)) (respLen g + 1)
         (lastId g) (lastScore g).
Definition scan_zero : scan_st := mkScan ST_IDLE 0 0 (replicate 64 0) 0 0 0.

Section As608.
Context {E : Env}.

Definition mod_scan (f : scan_st -> scan_st) : M unit :=
  modify (fun w => set_scan (f (g_scan w)) w).

(** ** Transport *)
Definition as608Send (data : list Z) : M unit :=
  for_each data (uartWriteByte AS608_UART).

Definition as608FlushRx (ms : Z) : M unit :=
  now ← tickRead;
  let start := u32 now in
  loop (fun _ : unit =>
    t ← tickRead;
    if u64 (t - start) <? ms then
      _ ← uartReadByte AS608_UART; mret (inl tt)
    else mret (inr tt)) tt.

Definition as608FlushAndDelay (flushMs delayMs : Z) : M unit :=
  as608FlushRx flushMs ;;
  when (negb (delayMs =? 0)) (delay delayMs).

(** the bytes received, at most [maxLen] *)
Definition as608Recv (maxLen timeoutMs : Z) : M (list Z) :=
  now ← tickRead;
  let start := u32 now in
  loop (fun '(buf, lastByte) =>
    t ← tickRead;
    if u64 (t - start) <? timeoutMs then
      b ← uartReadByte AS608_UART;
      match b with
      | Some b =>
          if Z.of_nat (length buf) <? maxLen then
            t ← tickRead; mret (inl (buf ++ [b], u32 t))
          else mret (inr buf)
      | None =>
          idle ← (if 0 <? Z.of_nat (length buf) then
                    t ← tickRead; mret (30 <? u64 (t - lastByte))
                  else mret false);
          mret (if idle : bool then inr buf else inl (buf, lastByte))
      end
    else mret (inr buf)) ([], start).

(** the local [frame] has room for 256 bytes of payload *)
Definition as608WritePacket (packetType : Z) (payload : list Z) : M unit :=
  if (256 <? length payload)%nat then undef
  else as608Send (as608Frame packetType payload).

Definition as608GetAck (respMax timeoutMs : Z) : M Z :=
  buf ← as608Recv respMax timeoutMs;
  mret (as608TryParseAck buf (Z.of_nat (length buf))).

(** at most seven bytes of [extra] are sent *)
Definition as608CmdAck (instr : Z) (extra : list Z) (timeoutMs preDelayMs flushMs : Z) : M Z :=
  let payload := instr :: take 7 extra in
  when (negb (preDelayMs =? 0)) (delay preDelayMs) ;;
  as608FlushRx flushMs ;;
  as608WritePacket 1 payload ;;
  as608GetAck 32 timeoutMs.

(** ** Commands *)
Definition cmdVfyPwd : list Z :=
  [239; 1; 255; 255; 255; 255; 1; 0; 7; 19; 0; 0; 0; 0; 0; 27].

Definition as608Check : M bool :=
  as608FlushRx AS608_FLUSH_MS_TINY ;;
  as608Send cmdVfyPwd ;;
  delay AS608_CHECK_DELAY_MS ;;
  buf ← as608Recv 32 AS608_CHECK_TIMEOUT_MS;
  mret (if (Z.of_nat (length buf) <? 12) || negb (byte_at buf 0 =? 239) ||
           negb (byte_at buf 1 =? 1) || negb (byte_at buf 6 =? 7)
        then false
        else byte_at buf 9 =? 0).

Definition as608CmdGetImageLong : M Z :=
  as608CmdAck 1 [] AS608_GETIMAGE_LONG_TIMEOUT_MS AS608_DELAY_BEFORE_SEND_MS AS608_FLUSH_MS_SHORT.
Definition as608CmdImage2Tz (slot : Z) : M Z :=
  as608CmdAck 2 [slot] AS608_IMAGE2TZ_TIMEOUT_MS AS608_IMAGE2TZ_PRE_DELAY_MS AS608_FLUSH_MS_SHORT.
Definition as608CmdRegModel : M Z :=
  as608CmdAck 5 [] AS608_REGMODEL_TIMEOUT_MS 0 AS608_FLUSH_MS_TINY.
Definition as608CmdStore (id : Z) : M Z :=
  as608CmdAck 6 [1; u8 (Z.shiftr id 8); u8 (Z.land id 255)]
    AS608_STORE_TIMEOUT_MS 0 AS608_FLUSH_MS_TINY.
Definition as608CmdEmpty : M Z := as608CmdAck 13 [] 2000 0 AS608_FLUSH_MS_SHORT.
Definition as608CmdDelete (pageID n : Z) : M Z :=
  as608CmdAck 12 [u8 (Z.shiftr pageID 8); u8 (Z.land pageID 255);
                  u8 (Z.shiftr n 8); u8 (Z.land n 255)] 1000 0 AS608_FLUSH_MS_SHORT.

Definition searchPayload (startPage pageCount : Z) : list Z :=
  [27; 1; u8 (Z.shiftr startPage 8); u8 (Z.land startPage 255);
   u8 (Z.shiftr pageCount 8); u8 (Z.land pageCount 255)].

(** the result code, and on 0 the page ID and the match score *)
Definition as608CmdHiSpeedSearch (startPage pageCount : Z) : M (Z * option (Z * Z)) :=
  as608FlushRx 2 ;;
  as608WritePacket 1 (searchPayload startPage pageCount) ;;
  buf ← as608Recv 32 AS608_SEARCH_TIMEOUT_MS;
  mret (if Z.of_nat (length buf) <? 14 then (-1, None)
        else if negb (byte_at buf 0 =? 239) || negb (byte_at buf 1 =? 1) then (-1, None)
        else if negb (byte_at buf 6 =? 7) then (-1, None)
        else if negb (byte_at buf 9 =? 0) then (byte_at buf 9, None)
        else (0, Some (be16 (byte_at buf 10) (byte_at buf 11),
                       be16 (byte_at buf 12) (byte_at buf 13)))).

Definition as608CmdTemplateCount : M Z :=
  as608FlushRx AS608_FLUSH_MS_TINY ;;
  as608WritePacket 1 [29] ;;
  buf ← as608Recv 32 AS608_TEMPLATECOUNT_TIMEOUT_MS;
  mret (if Z.of_nat (length buf) <? 14 then -1
        else if negb (byte_at buf 0 =? 239) || negb (byte_at buf 1 =? 1) then -1
        else if negb (byte_at buf 6 =? 7) then -1
        else if negb (byte_at buf 9 =? 0) then -1
        else Z.lor (Z.shiftl (byte_at buf 10) 8) (byte_at buf 11)).
Definition as608GetTemplateCount : M Z := as608CmdTemplateCount.

Definition as608ClearAllTemplates : M bool :=
  r ← as608CmdEmpty; mret (r =? 0).

Definition as608DeleteId (id : Z) : M bool :=
  r ← as608CmdDelete id 1;
  display_clear ;;
  display_println (cstr ($"ERROR " ++ [chr r])) 30 ;;
  display_update ;;
  mret (r =? 0).

(** reads the ID from [g_scan.resp], which this command does not fill *)
Definition as608SearchInBuffer1 : M Z :=
  p ← as608CmdAck 4 [1; 0; 0; 1; 44] 1000 0 AS608_FLUSH_MS_SHORT;
  g ← gets g_scan;
  mret (if p =? 0
        then u16 (Z.lor (Z.shiftl (byte_at (resp g) 10) 8) (byte_at (resp g) 11))
        else -1).

(** ** Enrolment *)
Definition as608EnrollCapture (slot : Z) : M bool :=
  as608FlushAndDelay 50 100 ;;
  now ← tickRead;
  let start := u32 now in
  loop (fun lastAttempt =>
    t ← tickRead;
    if u64 (t - start) <? 30000 then
      t ← tickRead;
      if u64 (t - lastAttempt) <? AS608_ENROLL_ATTEMPT_INTERVAL_MS then
        delay 10 ;; mret (inl lastAttempt)
      else
        t ← tickRead;
        let lastAttempt := u32 t in
        as608FlushAndDelay 10 50 ;;
        r ← as608CmdGetImageLong;
        if r =? 0 then
          as608FlushAndDelay 20 200 ;;
          tz ← as608CmdImage2Tz slot;
          mret (inr (tz =? 0))
        else if r =? 2 then
          delay AS608_ENROLL_NOFINGER_DELAY_MS ;; mret (inl lastAttempt)
        else
          delay AS608_ENROLL_ERROR_DELAY_MS ;; mret (inl lastAttempt)
    else mret (inr false)) 0.

(** the result and the content of [idOut] *)
Definition as608EnrollAtId (idTarget : Z) : M (bool * list ascii) :=
  display_clear ;;
  display_println $"Preparando sensor..." 20 ;;
  display_update ;;
  as608FlushAndDelay 100 200 ;;
  display_clear ;;
  display_println $"COLOQUE DEDO EN" 10 ;;
  display_println $"EL SENSOR " 30 ;;
  display_update ;;
  delay 2000 ;;
  c1 ← as608EnrollCapture 1;
  if negb c1 then mret (false, [])
  else
    as608FlushRx 50 ;;
    display_println $"No lo retire" 50 ;;
    display_update ;;
    delay 2000 ;;
    c2 ← as608EnrollCapture 2;
    if negb c2 then mret (false, [])
    else
      rm ← as608CmdRegModel;
      if negb (rm =? 0) then mret (false, [])
      else if 163 <? idTarget then
        display_clear ;;
        display_println $"ID FUERA" 10 ;;
        display_println $"DE RANGO" 20 ;;
        display_update ;;
        mret (false, [])
      else
        s ← as608CmdStore idTarget;
        if negb (s =? 0) then mret (false, [])
        else
          display_clear ;;
          display_println $"LISTO" 20 ;;
          display_println $"HUELLA GUARDADA" 30 ;;
          display_update ;;
          mret (true, snprintf 5 (fmt_0 4 idTarget)).

Definition as608Init (baudrate : Z) : M unit :=
  let baudrate := if baudrate =? 0 then AS608_DEFAULT_BAUD else baudrate in
  uartInit AS608_UART baudrate ;;
  as608FlushRx 10 ;;
  _ ← as608Check;
  _ ← as608CmdTemplateCount;
  mret tt.
End As608.

(** ** The scan state machine *)
Section Scan.
Context {E : Env}.

Definition as608ScanReset : M unit :=
  mod_scan (fun _ => set_st ST_SEND_GETIMAGE scan_zero).

(** [as608ReadSlice(g_scan.resp, &g_scan.respLen, sizeof(g_scan.resp), sliceMs)] *)
Definition as608ReadSlice (sliceMs : Z) : M unit :=
  now ← tickRead;
  let start := u32 now in
  loop (fun _ : unit =>
    t ← tickRead;
    if u64 (t - start) <? sliceMs then
      b ← uartReadByte AS608_UART;
      match b with
      | Some b =>
          g ← gets g_scan;
          if respLen g <? 64 then
            t ← tickRead;
            mod_scan (store_byte b (u32 t)) ;;
            mret (inl tt)
          else mret (inr tt)
      | None => mret (inl tt)
      end
    else mret (inr tt)) tt.

(** start of a command: empty the response, flush, send, note the time *)
Definition scan_send (flushMs : Z) (payload : list Z) (next : as608ScanState_t) : M unit :=
  mod_scan (set_respLen 0) ;;
  as608FlushRx flushMs ;;
  as608WritePacket 1 payload ;;
  t ← tickRead;
  mod_scan (set_tCmdStart (u32 t)) ;;
  mod_scan (set_st next).

(** a slice of reading, then the confirm code *)
Definition scan_code : M Z :=
  as608ReadSlice 4 ;;
  g ← gets g_scan;
  mret (as608TryParseAck (resp g) (respLen g)).

(** [(tickRead() - g_scan.tCmdStart) > limit] *)
Definition scan_expired (limit : Z) : M bool :=
  t ← tickRead;
  g ← gets g_scan;
  mret (limit <? u64 (t - tCmdStart g)).

Definition SLICE_MS : Z := 4.

Definition scan_wait_getimage : M as608ScanStatus_t :=
  code ← scan_code;
  if negb (code =? 255) then
    if code =? 0 then
      mod_scan (set_st ST_PREDLY_IMAGE2TZ) ;;
      t ← tickRead;
      mod_scan (set_tCmdStart (u32 t)) ;;
      mret AS608_SCAN_INPROGRESS
    else if code =? 2 then
      mod_scan (set_st ST_DONE_NOFINGER) ;; mret AS608_SCAN_INPROGRESS
    else
      mod_scan (set_st ST_DONE_ERROR) ;; mret AS608_SCAN_INPROGRESS
  else
    late ← scan_expired AS608_GETIMAGE_LONG_TIMEOUT_MS;
    when late (mod_scan (set_st ST_DONE_NOFINGER)) ;;
    mret AS608_SCAN_INPROGRESS.

Definition scan_predly : M as608ScanStatus_t :=
  t ← tickRead;
  g ← gets g_scan;
  when (AS608_IMAGE2TZ_PRE_DELAY_MS <=? u64 (t - tCmdStart g))
    (mod_scan (set_st ST_SEND_IMAGE2TZ)) ;;
  mret AS608_SCAN_INPROGRESS.

Definition scan_wait_image2tz : M as608ScanStatus_t :=
  code ← scan_code;
  if negb (code =? 255) then
    if code =? 0 then
      mod_scan (set_st ST_SEND_SEARCH) ;; mret AS608_SCAN_INPROGRESS
    else
      mod_scan (set_st ST_DONE_ERROR) ;; mret AS608_SCAN_INPROGRESS
  else
    late ← scan_expired AS608_IMAGE2TZ_TIMEOUT_MS;
    when late (mod_scan (set_st ST_DONE_ERROR)) ;;
    mret AS608_SCAN_INPROGRESS.

(** status, and the new values of [*idOut] and [*scoreOut] *)
Definition scan_wait_search (idOut scoreOut : Z) : M (as608ScanStatus_t * Z * Z) :=
  code ← scan_code;
  if negb (code =? 255) then
    g ← gets g_scan;
    let expect := as608ExpectedFrameLen (resp g) (respLen g) in
    if code =? 0 then
      if negb (expect =? 0) && (expect <=? respLen g) && (14 <=? respLen g) then
        let id := be16 (byte_at (resp g) 10) (byte_at (resp g) 11) in
        let score := be16 (byte_at (resp g) 12) (byte_at (resp g) 13) in
        mod_scan (set_last id score) ;;
        mod_scan (set_st ST_DONE_MATCH) ;;
        mret (AS608_SCAN_INPROGRESS, id, score)
      else mret (AS608_SCAN_INPROGRESS, idOut, scoreOut)
    else
      mod_scan (set_st ST_DONE_NOMATCH) ;;
      mret (AS608_SCAN_INPROGRESS, idOut, scoreOut)
  else
    late ← scan_expired AS608_SEARCH_TIMEOUT_MS;
    when late (mod_scan (set_st ST_DONE_NOFINGER)) ;;
    mret (AS608_SCAN_INPROGRESS, idOut, scoreOut).

(** One call: [idOut] and [scoreOut] are the caller's variables. *)
Definition as608ScanStep (idOut scoreOut : Z) : M (as608ScanStatus_t * Z * Z) :=
  let keep (m : M as608ScanStatus_t) := s ← m; mret (s, idOut, scoreOut) in
  let done (r : as608ScanStatus_t) := keep (mod_scan (set_st ST_IDLE) ;; mret r) in
  g ← gets g_scan;
  match st g with
  | ST_IDLE =>
      keep (mod_scan (set_st ST_SEND_GETIMAGE) ;; mret AS608_SCAN_INPROGRESS)
  | ST_SEND_GETIMAGE =>
      keep (scan_send AS608_FLUSH_MS_SHORT [1] ST_WAIT_GETIMAGE ;; mret AS608_SCAN_INPROGRESS)
  | ST_WAIT_GETIMAGE => keep scan_wait_getimage
  | ST_PREDLY_IMAGE2TZ => keep scan_predly
  | ST_SEND_IMAGE2TZ =>
      keep (scan_send AS608_FLUSH_MS_SHORT [2; 1] ST_WAIT_IMAGE2TZ ;; mret AS608_SCAN_INPROGRESS)
  | ST_WAIT_IMAGE2TZ => keep scan_wait_image2tz
  | ST_SEND_SEARCH =>
      keep (scan_send AS608_FLUSH_MS_TINY (searchPayload 0 163) ST_WAIT_SEARCH ;;
            mret AS608_SCAN_INPROGRESS)
  | ST_WAIT_SEARCH => scan_wait_search idOut scoreOut
  | ST_DONE_MATCH =>
      mod_scan (set_st ST_IDLE) ;;
      mret (AS608_SCAN_MATCH, lastId g, lastScore g)
  | ST_DONE_NOFINGER => done AS608_SCAN_NOFINGER
  | ST_DONE_NOMATCH => done AS608_SCAN_NOMATCH
  | ST_DONE_ERROR => done AS608_SCAN_ERROR
  end.
End Scan.

(* opaque to instance search *)
#[export] Hint Opaque mod_scan as608Send as608FlushRx as608FlushAndDelay as608Recv
  as608WritePacket as608GetAck as608CmdAck as608Check as608CmdGetImageLong as608CmdImage2Tz
  as608CmdRegModel as608CmdStore as608CmdEmpty as608CmdDelete as608CmdHiSpeedSearch
  as608CmdTemplateCount as608GetTemplateCount as608ClearAllTemplates as608DeleteId
  as608SearchInBuffer1 as608EnrollCapture as608EnrollAtId as608Init as608ScanReset
  as608ReadSlice scan_send scan_code scan_expired scan_wait_getimage scan_predly
  scan_wait_image2tz scan_wait_search as608ScanStep : typeclass_instances.

(** ** Footprints *)
Section As608Eff.
Context {E : Env}.

#[export] Instance mod_scan_eff F K f : Sub [CScan] F -> Eff F K (mod_scan f).
Proof. unfold mod_scan. apply _. Qed.
#[export] Instance as608Send_eff F K d : Sub [KUart AS608_UART] K -> Eff F K (as608Send d).
Proof. unfold as608Send. eff_solve. Qed.
#[export] Instance as608FlushRx_eff F K ms : Eff F K (as608FlushRx ms).
Proof. unfold as608FlushRx. eff_solve. Qed.
#[export] Instance as608FlushAndDelay_eff F K a b : Eff F K (as608FlushAndDelay a b).
Proof. unfold as608FlushAndDelay. eff_solve. Qed.
#[export] Instance as608Recv_eff F K a b : Eff F K (as608Recv a b).
Proof. unfold as608Recv. eff_solve. Qed.
#[export] Instance as608WritePacket_eff F K a b :
  Sub [KUart AS608_UART] K -> Eff F K (as608WritePacket a b).
Proof. unfold as608WritePacket. eff_solve. Qed.
#[export] Instance as608GetAck_eff F K a b : Eff F K (as608GetAck a b).
Proof. unfold as608GetAck. eff_solve. Qed.
#[export] Instance as608CmdAck_eff F K a b c d e :
  Sub [KUart AS608_UART] K -> Eff F K (as608CmdAck a b c d e).
Proof. unfold as608CmdAck. eff_solve. Qed.
#[export] Instance as608Check_eff F K : Sub [KUart AS608_UART] K -> Eff F K as608Check.
Proof. unfold as608Check. eff_solve. Qed.
#[export] Instance as608CmdTemplateCount_eff F K :
  Sub [KUart AS608_UART] K -> Eff F K as608CmdTemplateCount.
Proof. unfold as608CmdTemplateCount. eff_solve. Qed.
#[export] Instance as608ClearAll_eff F K :
  Sub [KUart AS608_UART] K -> Eff F K as608ClearAllTemplates.
Proof. unfold as608ClearAllTemplates, as608CmdEmpty. eff_solve. Qed.
#[export] Instance as608DeleteId_eff F K i :
  Sub [CDisp] F -> Sub [KUart AS608_UART; KI2c] K -> Eff F K (as608DeleteId i).
Proof.
  eff_op [CDisp] [KUart AS608_UART; KI2c]. unfold as608DeleteId, as608CmdDelete. eff_solve.
Qed.
#[export] Instance as608EnrollCapture_eff F K s :
  Sub [KUart AS608_UART] K -> Eff F K (as608EnrollCapture s).
Proof.
  unfold as608EnrollCapture, as608CmdGetImageLong, as608CmdImage2Tz. eff_solve.
Qed.
#[export] Instance as608EnrollAtId_eff F K i :
  Sub [CDisp] F -> Sub [KUart AS608_UART; KI2c] K -> Eff F K (as608EnrollAtId i).
Proof.
  eff_op [CDisp] [KUart AS608_UART; KI2c].
  unfold as608EnrollAtId, as608CmdRegModel, as608CmdStore. eff_solve.
Qed.
#[export] Instance as608Init_eff F K b :
  Sub [KUart AS608_UART; KConf] K -> Eff F K (as608Init b).
Proof. eff_op (@nil comp) [KUart AS608_UART; KConf]. unfold as608Init. eff_solve. Qed.
#[export] Instance as608ScanReset_eff F K : Sub [CScan] F -> Eff F K as608ScanReset.
Proof. unfold as608ScanReset. eff_solve. Qed.
#[export] Instance as608ReadSlice_eff F K s : Sub [CScan] F -> Eff F K (as608ReadSlice s).
Proof. unfold as608ReadSlice. eff_solve. Qed.
#[export] Instance scan_code_eff F K : Sub [CScan] F -> Eff F K scan_code.
Proof. unfold scan_code. eff_solve. Qed.
#[export] Instance scan_expired_eff F K l : Eff F K (scan_expired l).
Proof. unfold scan_expired. eff_solve. Qed.
#[export] Instance scan_send_eff F K a b c :
  Sub [CScan] F -> Sub [KUart AS608_UART] K -> Eff F K (scan_send a b c).
Proof. unfold scan_send. eff_solve. Qed.
#[export] Instance as608ScanStep_eff F K i s :
  Sub [CScan] F -> Sub [KUart AS608_UART] K -> Eff F K (as608ScanStep i s).
Proof.
  intros. unfold as608ScanStep, scan_wait_getimage, scan_predly, scan_wait_image2tz,
    scan_wait_search. eff_solve.
Qed.
End As608Eff.

(** ** The packet format *)

Definition es_byte (b : Z) : Prop := 0 <= b < 256.

(** A receiver of the protocol, written from the packet layout: start word,
    any address, type, 16-bit length, payload, 16-bit sum of everything from the
    type on. *)
Definition recibir (f : list Z) : option (Z * list Z) :=
  match f with
  | h0 :: h1 :: _ :: _ :: _ :: _ :: ty :: lh :: ll :: resto =>
      if negb ((h0 =? 239) && (h1 =? 1)) then None
      else
        let len := lh * 256 + ll in
        if negb (Z.of_nat (length resto) =? len) || (len <? 2) then None
        else
          let n := (length resto - 2)%nat in
          let payload := take n resto in
          match drop n resto with
          | [sh; sl] =>
              if sh * 256 + sl =? (ty + lh + ll + sum_bytes payload) mod 65536
              then Some (ty, payload) else None
          | _ => None
          end
  | _ => None
  end.

Lemma hi_lo v : 0 <= v < 65536 -> es_byte (u8 (Z.shiftr v 8)) /\ es_byte (u8 (Z.land v 255)) /\
  u8 (Z.shiftr v 8) * 256 + u8 (Z.land v 255) = v.
Proof.
  intros Hv. unfold es_byte. split; [apply u8_bound|]. split; [apply u8_bound|].
  rewrite Z.shiftr_div_pow2 by lia. change 255 with (Z.ones 8). rewrite Z.land_ones by lia.
  change (2 ^ 8) with 256. assert (0 <= v / 256 < 256)
    by (split; [apply Z.div_pos; lia|apply Z.div_lt_upper_bound; lia]).
  pose proof (Z.mod_pos_bound v 256). rewrite !u8_small by lia. pose proof (Z.div_mod v 256). lia.
Qed.

Lemma sum_bytes_bound l : Forall es_byte l -> 0 <= sum_bytes l <= 255 * Z.of_nat (length l).
Proof.
  induction 1 as [|b l [Hb1 Hb2] _ IH]; [done|]. cbn [sum_bytes fold_right length].
  fold (sum_bytes l). lia.
Qed.

Lemma es_byte_seq b : es_byte b -> In b (seqZ 0 256).
Proof. intros Hb. apply list_elem_of_In, elem_of_seqZ. unfold es_byte in Hb. lia. Qed.

Lemma be16_spec hi lo : es_byte hi -> es_byte lo -> be16 hi lo = hi * 256 + lo.
Proof.
  intros Hh Hl. assert (H : forallb (fun hi => forallb (fun lo => be16 hi lo =? hi * 256 + lo)
    (seqZ 0 256)) (seqZ 0 256) = true) by (vm_compute; reflexivity).
  rewrite forallb_forall in H. specialize (H hi (es_byte_seq _ Hh)).
  rewrite forallb_forall in H. apply Z.eqb_eq, H, es_byte_seq, Hl.
Qed.

(** a packet, its receiver and its length *)
Lemma trama_recibida ty payload
    (Hty : es_byte ty) (Hp : Forall es_byte payload) (Hlen : (length payload <= 256)%nat) :
  recibir (as608Frame ty payload) = Some (ty, payload) /\
  Forall es_byte (as608Frame ty payload) /\
  as608ExpectedFrameLen (as608Frame ty payload)
    (Z.of_nat (length (as608Frame ty payload))) = Z.of_nat (length (as608Frame ty payload)).
Proof.
  unfold as608Frame. cbv zeta. unfold as608Header. cbv zeta.
  set (len := u16 (Z.of_nat (length payload) + 2)).
  assert (Hl : len = Z.of_nat (length payload) + 2) by (unfold len; rewrite u16_small; lia).
  set (lh := u8 (Z.shiftr len 8)). set (ll := u8 (Z.land len 255)).
  destruct (hi_lo len) as (Hlh & Hll & Hlen'); [lia|]. fold lh ll in Hlh, Hll, Hlen'.
  set (sum := as608Sum _ _).
  assert (Hs : sum = (ty + lh + ll + sum_bytes payload) mod 65536) by done.
  destruct (hi_lo sum) as (Hsh & Hsl & Hsum).
  { rewrite Hs. apply Z.mod_pos_bound. lia. }
  set (sh := u8 (Z.shiftr sum 8)) in *. set (sl := u8 (Z.land sum 255)) in *.
  split; [|split].
  - cbn [app recibir Z.eqb Pos.eqb negb andb].
    rewrite length_app. cbn [length]. rewrite (proj2 (Z.eqb_eq _ _)) by lia.
    rewrite (proj2 (Z.ltb_ge _ _)) by lia. cbn [negb orb].
    replace (length payload + 2 - 2)%nat with (length payload) by lia.
    rewrite take_app_length, drop_app_length. by rewrite Hsum, Hs, Z.eqb_refl.
  - repeat (apply Forall_cons; split; [try done; unfold es_byte; lia|]).
    apply Forall_app. split; [done|]. by apply Forall_cons; split; [|apply Forall_singleton].
  - rewrite !length_app. cbn [length]. unfold as608ExpectedFrameLen, byte_at.
    rewrite (proj2 (Z.ltb_ge _ _)) by lia. cbn [app nth Z.eqb Pos.eqb negb orb].
    fold (be16 lh ll). rewrite be16_spec, Hlen', u16_small by (done || lia). lia.
Qed.

(** an acknowledgement packet is understood: its confirm code, and with a search's answer
    the page and the score *)
Lemma ack_de_trama code datos
    (Hc : es_byte code) (Hd : Forall es_byte datos) (Hlen : (length datos < 256)%nat) :
  let f := as608Frame 7 (code :: datos) in
  as608TryParseAck f (Z.of_nat (length f)) = code /\
  (forall p1 p0 s1 s0, datos = [p1; p0; s1; s0] ->
     be16 (byte_at f 10) (byte_at f 11) = p1 * 256 + p0 /\
     be16 (byte_at f 12) (byte_at f 13) = s1 * 256 + s0).
Proof.
  cbv zeta. split.
  - unfold as608TryParseAck. destruct (Z.ltb_spec (Z.of_nat (length (as608Frame 7 (code :: datos)))) 12)
      as [Hx|_]; [|reflexivity].
    unfold as608Frame in Hx. cbv zeta in Hx. rewrite !length_app in Hx. simpl in Hx. lia.
  - intros p1 p0 s1 s0 ->. apply Forall_cons in Hd as [H1 Hd]. apply Forall_cons in Hd as [H2 Hd].
    apply Forall_cons in Hd as [H3 Hd]. apply Forall_cons in Hd as [H4 _].
    unfold byte_at. cbn [as608Frame as608Header app nth]. by rewrite !be16_spec.
Qed.

(** C26: a packet built for the sensor is read back by the protocol's receiver:
    same type, same payload, consistent length and checksum; every element is a
    byte, and the length the firmware derives from the header is the packet's.  And
    when it is the sensor's acknowledgement, the firmware reads from it the confirm code
    and, with a search's answer, the page and the score. *)
Theorem as608Frame_roundtrip ty payload
    (Hty : es_byte ty) (Hp : Forall es_byte payload) (Hlen : (length payload <= 256)%nat) :
  let f := as608Frame ty payload in
  (recibir f = Some (ty, payload) /\
   Forall es_byte f /\
   as608ExpectedFrameLen f (Z.of_nat (length f)) = Z.of_nat (length f)) /\
  (forall code datos, ty = 7 -> payload = code :: datos ->
     as608TryParseAck f (Z.of_nat (length f)) = code /\
     (forall p1 p0 s1 s0, datos = [p1; p0; s1; s0] ->
        be16 (byte_at f 10) (byte_at f 11) = p1 * 256 + p0 /\
        be16 (byte_at f 12) (byte_at f 13) = s1 * 256 + s0)).
Proof.
  cbv zeta. split; [by apply trama_recibida|]. intros code datos -> ->.
  apply Forall_cons in Hp as [Hc Hd]. apply ack_de_trama; [done|done|simpl in Hlen; lia].
Qed.

(** the VfyPwd packet of [as608Check], written out in the source, is the one
    [as608WritePacket] would build *)
Lemma as608Frame_roundtrip_witness :
  as608Frame 1 [19; 0; 0; 0; 0] = cmdVfyPwd /\ recibir cmdVfyPwd = Some (1, [19; 0; 0; 0; 0]).
Proof.
  split; [reflexivity|].
  apply (as608Frame_roundtrip 1 [19; 0; 0; 0; 0]);
    [split; lia|repeat (constructor; [split; lia|]); constructor|simpl; lia].
Defined.

(** ** What is sent and received *)

Section Transporte.
Context {E : Env}.

Lemma as608Recv_result maxLen timeoutMs :
  0 <= maxLen -> result (as608Recv maxLen timeoutMs) (fun buf => Z.of_nat (length buf) <= maxLen).
Proof.
  intros Hm. unfold result, as608Recv. tri_step. tri_step.
  apply (tri_loop _ (fun s _ => Z.of_nat (length s.1) <= maxLen)); [simpl; lia|].
  intros [buf last] [] Hb. simpl in Hb. tri_step. tri_step. tri_step; [|by tri_step].
  tri_step. tri_step. destruct a1 as [b|].
  - destruct (Z.ltb_spec (Z.of_nat (length buf)) maxLen); [|by tri_step].
    tri_step. tri_step. tri_step. simpl. rewrite length_app. simpl. lia.
  - tri_step. apply tri_keep; [apply _|intros idle]. tri_step. by destruct idle.
Qed.

(** a command puts on the sensor's UART exactly the bytes of its packet, in
    order and nothing else; its result is the confirm code of what was received,
    at most the 32 bytes of the buffer, or 0xFF. *)
Lemma as608CmdAck_sends instr extra timeoutMs preDelayMs flushMs w r w'
    (H : as608CmdAck instr extra timeoutMs preDelayMs flushMs w = Ret r w') :
  tx AS608_UART w' = rev (as608Frame 1 (instr :: take 7 extra)) ++ tx AS608_UART w /\
  exists buf, r = as608TryParseAck buf (Z.of_nat (length buf)) /\ (length buf <= 32)%nat.
Proof.
  refine ((_ : tri (tx AS608_UART) (tx AS608_UART w) _ (fun r l' =>
    l' = rev (as608Frame 1 (instr :: take 7 extra)) ++ tx AS608_UART w /\
    exists buf, r = as608TryParseAck buf (Z.of_nat (length buf)) /\ (length buf <= 32)%nat))
    w r w' eq_refl H).
  unfold as608CmdAck. cbv zeta. tri_step. tri_step. tri_step. tri_step. tri_step.
  unfold as608WritePacket. destruct (Nat.ltb_spec 256 (length (instr :: take 7 extra))) as [Hx|_].
  { tri_step. }
  eapply tri_conseq; [apply tri_send_all|]. intros _ l' ->. unfold as608GetAck. tri_step.
  apply (result_tri _ _ _ _ _ (as608Recv_result 32 timeoutMs ltac:(lia))). tri_step.
  tri_step. split; [done|]. exists a1. split; [done|lia].
Qed.
End Transporte.

(** a sensor that acknowledges *)
Definition mundo_sensor (q : list Z) : @world (env_banco 1 100) :=
  mundo 1 100 (con_uart0 q (banco_quieto 0)) [] scan_zero
    (mkMef REPOSO [] 0 0 (SpecFloat.S754_zero false) [] 0 false false).

Lemma as608CmdAck_sends_witness :
  returns (as608CmdAck 2 [1] 40 0 0 (mundo_sensor (as608Frame 7 [0]))) (fun _ w' =>
    rev (tx AS608_UART w') = [239; 1; 255; 255; 255; 255; 1; 0; 4; 2; 1; 0; 8]).
Proof.
  run_as a w H. destruct (as608CmdAck_sends _ _ _ _ _ _ _ _ H) as [Ht _]. rewrite Ht. reflexivity.
Defined.

(** ** The scan, as a protocol *)

(** a whole search answer with code 0 in the buffer *)
Definition trama_ok (g : scan_st) : Prop :=
  as608TryParseAck (resp g) (respLen g) = 0 /\
  as608ExpectedFrameLen (resp g) (respLen g) <> 0 /\
  as608ExpectedFrameLen (resp g) (respLen g) <= respLen g /\ 14 <= respLen g.

(** the buffer's bound, and what a match rests on *)
Definition buffer_ok (g : scan_st) : Prop :=
  length (resp g) = 64%nat /\ 0 <= respLen g <= 64.
Definition scan_ok (g : scan_st) : Prop :=
  buffer_ok g /\
  (st g = ST_DONE_MATCH -> trama_ok g /\
     lastId g = be16 (byte_at (resp g) 10) (byte_at (resp g) 11) /\
     lastScore g = be16 (byte_at (resp g) 12) (byte_at (resp g) 13)).

(** The order of the commands: an image, its features, a search. *)
Inductive scan_arco : as608ScanState_t -> as608ScanState_t -> Prop :=
  | sa_idle : scan_arco ST_IDLE ST_SEND_GETIMAGE
  | sa_send_image : scan_arco ST_SEND_GETIMAGE ST_WAIT_GETIMAGE
  | sa_wait s : s = ST_WAIT_GETIMAGE \/ s = ST_PREDLY_IMAGE2TZ \/ s = ST_WAIT_IMAGE2TZ \/
      s = ST_WAIT_SEARCH -> scan_arco s s
  | sa_image : scan_arco ST_WAIT_GETIMAGE ST_PREDLY_IMAGE2TZ
  | sa_image_no : scan_arco ST_WAIT_GETIMAGE ST_DONE_NOFINGER
  | sa_image_err : scan_arco ST_WAIT_GETIMAGE ST_DONE_ERROR
  | sa_predly : scan_arco ST_PREDLY_IMAGE2TZ ST_SEND_IMAGE2TZ
  | sa_send_tz : scan_arco ST_SEND_IMAGE2TZ ST_WAIT_IMAGE2TZ
  | sa_tz : scan_arco ST_WAIT_IMAGE2TZ ST_SEND_SEARCH
  | sa_tz_err : scan_arco ST_WAIT_IMAGE2TZ ST_DONE_ERROR
  | sa_send_search : scan_arco ST_SEND_SEARCH ST_WAIT_SEARCH
  | sa_search s : s = ST_DONE_MATCH \/ s = ST_DONE_NOMATCH \/ s = ST_DONE_NOFINGER ->
      scan_arco ST_WAIT_SEARCH s
  | sa_done s : s = ST_DONE_MATCH \/ s = ST_DONE_NOMATCH \/ s = ST_DONE_NOFINGER \/
      s = ST_DONE_ERROR -> scan_arco s ST_IDLE.

(** the status a call reports, by the state it starts in *)
Definition scan_status (s : as608ScanState_t) : as608ScanStatus_t :=
  match s with
  | ST_DONE_MATCH => AS608_SCAN_MATCH
  | ST_DONE_NOMATCH => AS608_SCAN_NOMATCH
  | ST_DONE_NOFINGER => AS608_SCAN_NOFINGER
  | ST_DONE_ERROR => AS608_SCAN_ERROR
  | _ => AS608_SCAN_INPROGRESS
  end.

Section ScanSpec.
Context {E : Env}.

#[local] Instance keeps_scan {A} (m : M A) : Eff [CDisp] [KUart AS608_UART] m -> Keeps g_scan m.
Proof.
  intros Hm w a w' H. apply (eff_frame _ _ _ _ (Hm _ _ _ H) CScan).
  by intros ?%list_elem_of_singleton.
Qed.

Lemma scan_mod g f (Q : unit -> scan_st -> Prop) : Q tt (f g) -> tri g_scan g (mod_scan f) Q.
Proof. intros H. apply tri_modify. intros w <-. exact H. Qed.
Lemma scan_gets g (Q : scan_st -> scan_st -> Prop) : Q g g -> tri g_scan g (gets g_scan) Q.
Proof. intros H. apply tri_gets. intros w <-. exact H. Qed.

(** a slice of reading fills the buffer, and only the buffer *)
Definition leyendo (g g' : scan_st) : Prop :=
  buffer_ok g' /\ st g' = st g /\ tCmdStart g' = tCmdStart g.

Lemma tri_ReadSlice g ms :
  buffer_ok g -> tri g_scan g (as608ReadSlice ms) (fun _ g' => leyendo g g').
Proof.
  intros Hg. unfold as608ReadSlice. tri_step. tri_step.
  apply (tri_loop _ (fun _ g' => leyendo g g')); [done|]. intros _ g1 H1.
  tri_step. tri_step. tri_step; [|by tri_step]. tri_step. tri_step.
  destruct a1 as [b|]; [|by tri_step]. tri_step. apply scan_gets.
  destruct (Z.ltb_spec (respLen g1) 64) as [Hlt|]; [|by tri_step].
  tri_step. tri_step. tri_step. apply scan_mod. tri_step.
  destruct H1 as ((Hr & Hl) & Hs & Hc). repeat split; simpl; try done; [|lia|lia].
  by rewrite length_insert.
Qed.

Lemma tri_scan_code g :
  buffer_ok g ->
  tri g_scan g scan_code (fun code g' =>
    leyendo g g' /\ code = as608TryParseAck (resp g') (respLen g')).
Proof.
  intros Hg. unfold scan_code. tri_step. eapply tri_conseq; [by apply tri_ReadSlice|].
  intros [] g' Hg'. tri_step. apply scan_gets. by tri_step.
Qed.
End ScanSpec.

Ltac scan_run := repeat match goal with
  | |- tri _ _ (mbind _ _) _ => apply tri_bind
  | |- tri _ _ (mret _) _ => apply tri_ret
  | |- tri _ _ (gets g_scan) _ => apply scan_gets
  | |- tri _ _ (mod_scan _) _ => apply scan_mod
  | |- tri _ _ (when ?b _) _ => apply tri_when; intros ?Hb
  | |- tri _ _ (if ?b then _ else _) _ => let H := fresh "Hb" in destruct b eqn:H
  | |- tri _ _ _ _ => apply tri_keep; [solve [apply _]|intros]
  end.

Section ScanStep.
Context {E : Env}.
#[local] Existing Instance keeps_scan.

(** the result of a call from [g] *)
Definition scan_post (g : scan_st) (r : as608ScanStatus_t * Z * Z) (g' : scan_st) : Prop :=
  scan_ok g' /\ scan_arco (st g) (st g') /\ r.1.1 = scan_status (st g) /\
  (st g = ST_DONE_MATCH -> r.1.2 = lastId g /\ r.2 = lastScore g).

Lemma tri_scan_send g ms payload next :
  buffer_ok g ->
  tri g_scan g (scan_send ms payload next) (fun _ g' => buffer_ok g' /\ st g' = next).
Proof. intros [Hr Hl]. unfold scan_send. scan_run. repeat split; simpl; [done|lia|lia]. Qed.

Lemma post_espera g r g' s :
  st g' = s -> buffer_ok g' -> s <> ST_DONE_MATCH -> scan_arco (st g) s ->
  r.1.1 = scan_status (st g) -> st g <> ST_DONE_MATCH -> scan_post g r g'.
Proof. intros <- Hb Hs Ha Hr Hg. split; [split; [done|by intros ?]|]. by split. Qed.

(** closes a branch that does not report a match *)
Ltac scan_fin Hst :=
  eapply post_espera; [first [eassumption|reflexivity]|by simpl|simpl..];
    rewrite ?Hst; try done; eauto 8 using scan_arco.

Lemma tri_scan_wait_search g i s :
  buffer_ok g -> st g = ST_WAIT_SEARCH ->
  tri g_scan g (scan_wait_search i s) (scan_post g).
Proof.
  intros Hb Hst. unfold scan_wait_search. apply tri_bind.
  eapply tri_conseq; [by apply tri_scan_code|]. intros code g' ((Hb' & Hs & _) & Hcode).
  rewrite Hst in Hs. scan_run. all: try (by scan_fin Hst).
  apply andb_true_iff in Hb2 as [[H1 H2]%andb_true_iff H3].
  apply negb_true_iff, Z.eqb_neq in H1. apply Z.leb_le in H2, H3. apply Z.eqb_eq in Hb1.
  split; [split; [done|intros _]|split; [rewrite Hst; simpl; eauto using scan_arco|]].
  - split; [split; [simpl; congruence|done]|done].
  - rewrite Hst. done.
Qed.

Lemma tri_scan_espera g i s (m : M as608ScanStatus_t) :
  st g <> ST_DONE_MATCH ->
  tri g_scan g m (fun r g' => buffer_ok g' /\ r = scan_status (st g) /\
    scan_arco (st g) (st g') /\ st g' <> ST_DONE_MATCH) ->
  tri g_scan g (r ← m; mret (r, i, s)) (scan_post g).
Proof.
  intros Hn Hm. apply tri_bind. eapply tri_conseq; [exact Hm|].
  intros r g' (Hb & -> & Ha & Hd). apply tri_ret. by eapply post_espera.
Qed.

(** closes a branch of a waiting state *)
Ltac wait_fin Hs Hst :=
  repeat split; simpl; rewrite ?Hs, ?Hst; try done; try lia; eauto 8 using scan_arco.

Lemma tri_scan_waits g :
  buffer_ok g ->
  let Q r g' := buffer_ok g' /\ r = scan_status (st g) /\ scan_arco (st g) (st g') /\
    st g' <> ST_DONE_MATCH in
  (st g = ST_WAIT_GETIMAGE -> tri g_scan g scan_wait_getimage Q) /\
  (st g = ST_PREDLY_IMAGE2TZ -> tri g_scan g scan_predly Q) /\
  (st g = ST_WAIT_IMAGE2TZ -> tri g_scan g scan_wait_image2tz Q).
Proof.
  intros Hb Q. subst Q. split; [|split]; intros Hst.
  - unfold scan_wait_getimage. apply tri_bind.
    eapply tri_conseq; [by apply tri_scan_code|]. intros code g' (((Hr & Hl) & Hs & _) & _).
    rewrite Hst in Hs. scan_run; wait_fin Hs Hst.
  - unfold scan_predly. destruct Hb. scan_run; wait_fin Hst Hst.
  - unfold scan_wait_image2tz. apply tri_bind.
    eapply tri_conseq; [by apply tri_scan_code|]. intros code g' (((Hr & Hl) & Hs & _) & _).
    rewrite Hst in Hs. scan_run; wait_fin Hs Hst.
Qed.

(** C15: the fingerprint scan runs the commands in order (image, features,
    search; nothing is skipped), never writes outside its 64-byte buffer, and
    reports a match only from a whole acknowledgement packet with code 0, whose
    bytes are the page and score it returns. *)
Theorem as608ScanStep_ok idOut scoreOut w r w'
    (Hok : scan_ok (g_scan w)) (H : as608ScanStep idOut scoreOut w = Ret r w') :
  scan_post (g_scan w) r (g_scan w').
Proof.
  refine ((_ : tri g_scan (g_scan w) _ (scan_post (g_scan w))) w r w' eq_refl H).
  clear H. generalize dependent (g_scan w). intros g [Hb Hm].
  unfold as608ScanStep. apply tri_bind, scan_gets.
  destruct (st g) eqn:Hst; cbv zeta.
  all: destruct (tri_scan_waits g Hb) as (H1 & H2 & H3).
  all: try (apply tri_scan_espera; [by rewrite Hst|];
    first [by apply H1|by apply H2|by apply H3|
      apply tri_bind; first
        [eapply tri_conseq; [by apply tri_scan_send|]; intros _ g' [Hb' Hs']; apply tri_ret;
         rewrite Hst, Hs'; by eauto using scan_arco
        |apply scan_mod, tri_ret; rewrite Hst; by eauto 9 using scan_arco]]).
  - by apply tri_scan_wait_search.
  - apply tri_bind, scan_mod, tri_ret. split; [split; [done|by intros ?]|].
    rewrite Hst. simpl. eauto 9 using scan_arco.
Qed.
End ScanStep.

(** a search sent, its answer in the buffer but for the last two bytes *)
Definition scan_busqueda : scan_st :=
  mkScan ST_WAIT_SEARCH 0 0 (take 64 (take 14 (as608Frame 7 [0; 0; 5; 0; 80]) ++ replicate 64 0))
    14 0 0.
Definition mundo_busqueda : @world (env_banco 1 100) :=
  set_scan scan_busqueda (mundo_sensor (drop 14 (as608Frame 7 [0; 0; 5; 0; 80]))).

Lemma as608ScanStep_ok_witness :
  returns ((as608ScanStep 0 0 ;; as608ScanStep 0 0) mundo_busqueda)
    (fun r w' => r = (AS608_SCAN_MATCH, 5, 80)) /\
  returns (as608ScanStep 0 0 mundo_busqueda) (fun r w' =>
    scan_post (g_scan mundo_busqueda) r (g_scan w')).
Proof.
  split; [vm_compute; reflexivity|]. run_as r w H. apply (as608ScanStep_ok 0 0 _ _ _); [|exact H].
  split; [split; [reflexivity|split; vm_compute; discriminate]|]. intros [=].
Defined.
