(* ===== verification/Rc522.v ===== *)
(** * rc522_drv.c: the RFID reader

    Register access over SPI (chip select on [GPIO6]), the transceive loop,
    request and anticollision of ISO 14443-A, and the UID as a hexadecimal
    string. *)

From Stdlib Require Import ZArith Lia Bool Ascii String.
From stdpp Require Import base list strings numbers sets.
From stdpp Require Import options.
From S2P Require Import Prelude Machine Effects Triples Sapi.

(** Registers and commands of the MFRC522 the driver uses. *)
Definition CommandReg : Z := 1.
Definition CommIEnReg : Z := 2.
Definition CommIrqReg : Z := 4.
Definition DivIrqReg : Z := 5.
Definition ErrorReg : Z := 6.
Definition FIFODataReg : Z := 9.
Definition FIFOLevelReg : Z := 10.
Definition ControlReg : Z := 12.
Definition BitFramingReg : Z := 13.
Definition CollReg : Z := 14.
Definition ModeReg : Z := 17.
Definition TxControlReg : Z := 20.
Definition TxASKReg : Z := 21.
Definition RFCfgReg : Z := 38.
Definition TModeReg : Z := 42.
Definition TPrescalerReg : Z := 43.
Definition TReloadRegH : Z := 44.
Definition TReloadRegL : Z := 45.
Definition PCD_Idle : Z := 0.
Definition PCD_Transceive : Z := 12.
Definition PCD_SoftReset : Z := 15.
Definition PICC_REQIDL : Z := 38.
Definition RC522_CS_GPIO : Z := GPIO6.
Definition RC522_RST_GPIO : Z := GPIO7.

(** the address byte of a register write, of a register read *)
Definition write_addr (reg : Z) : Z := u8 (Z.land (Z.shiftl reg 1) 126).
Definition read_addr (reg : Z) : Z := u8 (Z.lor (Z.land (Z.shiftl reg 1) 126) 128).

(** the number of bits received, in eight bits *)
Definition rx_bits (fifo lastBits : Z) : Z :=
  if negb (lastBits =? 0) then u8 ((fifo - 1) * 8 + lastBits) else u8 (fifo * 8).

(** [h[i]] of the hexadecimal digits *)
Definition hex_digits : list ascii := $"0123456789ABCDEF".
Definition hex_digit (i : Z) : ascii := nth (Z.to_nat i) hex_digits (chr 0).
(** the two digits written for a byte *)
Definition hex_byte (b : Z) : list ascii :=
  [hex_digit (Z.land (Z.shiftr b 4) 15); hex_digit (Z.land b 15)].

Section Rc522.
Context {E : Env}.

Definition rc522_cs_low : M unit := _ ← gpioWrite RC522_CS_GPIO false; mret tt.
Definition rc522_cs_high : M unit := _ ← gpioWrite RC522_CS_GPIO true; mret tt.
Definition spi_write (b : list Z) : M unit := _ ← spiWrite b; mret tt.

Definition rc522_write_reg (reg val : Z) : M unit :=
  rc522_cs_low ;; spi_write [write_addr reg] ;; spi_write [val] ;; rc522_cs_high.

Definition rc522_read_reg (reg : Z) : M Z :=
  rc522_cs_low ;; spi_write [read_addr reg] ;; v ← spiRead1; rc522_cs_high ;; mret v.

Definition rc522_set_bits (reg m : Z) : M unit :=
  v ← rc522_read_reg reg; rc522_write_reg reg (u8 (Z.lor v m)).
Definition rc522_clr_bits (reg m : Z) : M unit :=
  v ← rc522_read_reg reg; rc522_write_reg reg (u8 (Z.land v (Z.lnot m))).

Definition rc522_reset : M unit := rc522_write_reg CommandReg PCD_SoftReset ;; delay 50.

Definition rc522_antenna_on : M unit :=
  v ← rc522_read_reg TxControlReg;
  when (negb (Z.land v 3 =? 3)) (rc522_set_bits TxControlReg 3).

(** the wait for the receive or idle interrupt, 50 ms at most *)
Definition transceive_wait : M unit :=
  trans_start ← tickRead;
  loop (fun _ : unit =>
    t ← tickRead;
    if u64 (t - trans_start) <? 50 then
      irq ← rc522_read_reg CommIrqReg;
      if negb (Z.land irq 48 =? 0) then mret (inr tt)
      else
        div ← rc522_read_reg DivIrqReg;
        mret (if negb (Z.land div 1 =? 0) then inr tt else inl tt)
    else mret (inr tt)) tt.

(** [back[i] = rc522_read_reg(FIFODataReg)] for each [i] of the list; [back] holds
    [cap] bytes *)
Fixpoint read_fifo (cap : Z) (idx : list Z) : M (list Z) :=
  match idx with
  | [] => mret []
  | i :: idx' =>
      b ← rc522_read_reg FIFODataReg;
      if i <? cap then r ← read_fifo cap idx'; mret (b :: r) else undef
  end.

(** the result, the bytes stored from [back[0]] on, and [*backBits] ([None]: not
    written) *)
Definition transceive (send : list Z) (cap : Z) : M (bool * list Z * option Z) :=
  rc522_write_reg CommandReg PCD_Idle ;;
  rc522_write_reg CommIrqReg 127 ;;
  rc522_write_reg FIFOLevelReg 128 ;;
  for_each send (fun b => rc522_write_reg FIFODataReg b) ;;
  rc522_write_reg CommandReg PCD_Transceive ;;
  rc522_set_bits BitFramingReg 128 ;;
  transceive_wait ;;
  rc522_clr_bits BitFramingReg 128 ;;
  err ← rc522_read_reg ErrorReg;
  if negb (Z.land err 27 =? 0) then mret (false, [], None)
  else
    fifo ← rc522_read_reg FIFOLevelReg;
    ctl ← rc522_read_reg ControlReg;
    let lastBits := Z.land ctl 7 in
    let nBytes := fifo in
    let nBits := rx_bits fifo lastBits in
    back ← read_fifo cap (seqZ 0 nBytes);
    mret (0 <? nBytes, back, Some nBits).

Definition rc522_hw_init : M unit :=
  _ ← gpioInit RC522_CS_GPIO GPIO_OUTPUT;
  _ ← gpioInit RC522_RST_GPIO GPIO_OUTPUT;
  rc522_cs_high ;;
  _ ← gpioWrite RC522_RST_GPIO true;
  _ ← spiInit;
  mret tt.

Definition rc522_init_iso14443a : M unit :=
  rc522_reset ;;
  rc522_write_reg TModeReg 141 ;;
  rc522_write_reg TPrescalerReg 62 ;;
  rc522_write_reg TReloadRegL 30 ;;
  rc522_write_reg TReloadRegH 0 ;;
  rc522_write_reg TxASKReg 64 ;;
  rc522_write_reg ModeReg 61 ;;
  rc522_write_reg RFCfgReg 112 ;;
  rc522_write_reg CommIrqReg 127 ;;
  rc522_write_reg CommIEnReg 48 ;;
  rc522_antenna_on ;;
  delay 5.

Definition rc522_version : M Z := rc522_read_reg 55.
Definition rc522_txcontrol : M Z := rc522_read_reg TxControlReg.
Definition rc522_clear_irqs : M unit := rc522_write_reg CommIrqReg 127.

(** [Some atqa] when a card answered; [back] is zeroed beforehand *)
Definition rc522_requestA : M (option (list Z)) :=
  rc522_write_reg CollReg 128 ;;
  rc522_write_reg BitFramingReg 7 ;;
  r ← transceive [PICC_REQIDL] 3;
  let '(ok, stored, bits) := r in
  let back := stored ++ drop (length stored) [0; 0; 0] in
  let backBits := default 0 bits in
  rc522_write_reg BitFramingReg 0 ;;
  if negb ok || negb (backBits =? 16) then mret None
  else mret (Some (take 2 back)).

(** [Some uid5]; reading a byte of [back] that was not stored is undefined *)
Definition rc522_anticoll_cl1 : M (option (list Z)) :=
  rc522_write_reg BitFramingReg 0 ;;
  r ← transceive [147; 32] 10;
  let '(ok, back, bits) := r in
  if negb ok then mret None
  else if negb (default 0 bits =? 40) then mret None
  else if (length back <? 5)%nat then undef
  else mret (Some (take 5 back)).

(** [Some out] when a card was read *)
Definition leer_rfid_str (maxlen : Z) : M (option (list ascii)) :=
  atqa ← rc522_requestA;
  match atqa with
  | None => mret None
  | Some _ =>
      uid ← rc522_anticoll_cl1;
      match uid with
      | None => mret None
      | Some uid5 =>
          let uid_len := 4 in
          if maxlen <? uid_len * 2 + 1 then mret None
          else mret (Some (concat (hex_byte <$> take 4 uid5)))
      end
  end.
End Rc522.

(* opaque to instance search *)
#[export] Hint Opaque rc522_cs_low rc522_cs_high spi_write rc522_write_reg rc522_read_reg
  rc522_set_bits rc522_clr_bits rc522_reset rc522_antenna_on transceive_wait read_fifo
  transceive rc522_hw_init rc522_init_iso14443a rc522_version rc522_txcontrol rc522_clear_irqs
  rc522_requestA rc522_anticoll_cl1 leer_rfid_str : typeclass_instances.

(** ** Footprints *)
Definition rfid_kinds : list kind := [pin_kind RC522_CS_GPIO; KSpi].

Section Rc522Eff.
Context {E : Env}.

#[export] Instance rc522_cs_low_eff F K : Sub rfid_kinds K -> Eff F K rc522_cs_low.
Proof. eff_op (@nil comp) rfid_kinds. unfold rc522_cs_low. eff_solve. Qed.
#[export] Instance rc522_cs_high_eff F K : Sub rfid_kinds K -> Eff F K rc522_cs_high.
Proof. eff_op (@nil comp) rfid_kinds. unfold rc522_cs_high. eff_solve. Qed.
#[export] Instance spi_write_eff F K b : Sub rfid_kinds K -> Eff F K (spi_write b).
Proof. eff_op (@nil comp) rfid_kinds. unfold spi_write. eff_solve. Qed.
#[export] Instance rc522_write_reg_eff F K r v :
  Sub rfid_kinds K -> Eff F K (rc522_write_reg r v).
Proof. unfold rc522_write_reg. eff_solve. Qed.
#[export] Instance rc522_read_reg_eff F K r : Sub rfid_kinds K -> Eff F K (rc522_read_reg r).
Proof. unfold rc522_read_reg. eff_solve. Qed.
#[export] Instance rc522_set_bits_eff F K r m :
  Sub rfid_kinds K -> Eff F K (rc522_set_bits r m).
Proof. unfold rc522_set_bits. eff_solve. Qed.
#[export] Instance rc522_clr_bits_eff F K r m :
  Sub rfid_kinds K -> Eff F K (rc522_clr_bits r m).
Proof. unfold rc522_clr_bits. eff_solve. Qed.
#[export] Instance transceive_wait_eff F K : Sub rfid_kinds K -> Eff F K transceive_wait.
Proof. unfold transceive_wait. eff_solve. Qed.
#[export] Instance read_fifo_eff F K c l : Sub rfid_kinds K -> Eff F K (read_fifo c l).
Proof. intros. induction l; simpl; eff_solve. Qed.
#[export] Instance transceive_eff F K s c : Sub rfid_kinds K -> Eff F K (transceive s c).
Proof. unfold transceive. eff_solve. Qed.
#[export] Instance rc522_requestA_eff F K : Sub rfid_kinds K -> Eff F K rc522_requestA.
Proof. unfold rc522_requestA. eff_solve. Qed.
#[export] Instance rc522_anticoll_eff F K : Sub rfid_kinds K -> Eff F K rc522_anticoll_cl1.
Proof. unfold rc522_anticoll_cl1. eff_solve. Qed.
#[export] Instance leer_rfid_str_eff F K m : Sub rfid_kinds K -> Eff F K (leer_rfid_str m).
Proof. unfold leer_rfid_str. eff_solve. Qed.
#[export] Instance rc522_hw_init_eff F K :
  Sub [KConf; pin_kind RC522_CS_GPIO; pin_kind RC522_RST_GPIO] K -> Eff F K rc522_hw_init.
Proof.
  eff_op (@nil comp) [KConf; pin_kind RC522_CS_GPIO; pin_kind RC522_RST_GPIO].
  unfold rc522_hw_init, rc522_cs_high. eff_solve.
Qed.
#[export] Instance rc522_init_eff F K : Sub rfid_kinds K -> Eff F K rc522_init_iso14443a.
Proof. unfold rc522_init_iso14443a, rc522_reset, rc522_antenna_on. eff_solve. Qed.
End Rc522Eff.

(** ** The UID string *)

(** a card's UID as [leer_rfid_str] writes it *)
Definition hex_ok (c : ascii) : Prop := c ∈ hex_digits.
Definition uid_ok (s : list ascii) : Prop := length s = 8%nat /\ Forall hex_ok s.

(** the value of a digit, and the bytes of a string *)
Definition hex_value (c : ascii) : Z :=
  match list_find (eq c) hex_digits with Some (i, _) => Z.of_nat i | None => -1 end.
Fixpoint unhex (s : list ascii) : list Z :=
  match s with
  | a :: b :: s' => hex_value a * 16 + hex_value b :: unhex s'
  | _ => []
  end.

Lemma hex_nibble i : 0 <= i < 16 -> hex_ok (hex_digit i) /\ hex_value (hex_digit i) = i.
Proof.
  intros Hi. assert (H : forallb (fun i => bool_decide (hex_digit i ∈ hex_digits) &&
    (hex_value (hex_digit i) =? i)) (seqZ 0 16) = true) by (vm_compute; reflexivity).
  rewrite forallb_forall in H.
  assert (Hin : In i (seqZ 0 16)) by (apply list_elem_of_In, elem_of_seqZ; lia).
  specialize (H i Hin). apply andb_prop in H as [H1 H2].
  apply bool_decide_eq_true in H1. apply Z.eqb_eq in H2. done.
Qed.

Lemma nibbles b :
  0 <= b < 256 ->
  0 <= Z.land (Z.shiftr b 4) 15 < 16 /\ 0 <= Z.land b 15 < 16 /\
  Z.land (Z.shiftr b 4) 15 * 16 + Z.land b 15 = b.
Proof.
  intros Hb. change 15 with (Z.ones 4). rewrite !Z.land_ones, Z.shiftr_div_pow2 by lia.
  change (2 ^ 4) with 16. assert (b / 16 < 16) by (apply Z.div_lt_upper_bound; lia).
  assert (0 <= b / 16) by (apply Z.div_pos; lia).
  rewrite (Z.mod_small (b / 16)) by lia.
  pose proof (Z.mod_pos_bound b 16). pose proof (Z.div_mod b 16). lia.
Qed.

Lemma nibble_any b : 0 <= Z.land b 15 < 16.
Proof. change 15 with (Z.ones 4). rewrite Z.land_ones by lia. apply Z.mod_pos_bound. lia. Qed.

Lemma hex_string_ok l :
  length (concat (hex_byte <$> l)) = (2 * length l)%nat /\
  Forall hex_ok (concat (hex_byte <$> l)).
Proof.
  induction l as [|b l [IH1 IH2]]; [by split|]. rewrite fmap_cons. cbn [concat].
  split; [rewrite length_app; simpl length; rewrite IH1; lia|].
  apply Forall_app. split; [|done]. unfold hex_byte.
  constructor; [apply hex_nibble, nibble_any|].
  constructor; [apply hex_nibble, nibble_any|constructor].
Qed.

(** the UID string determines the UID: reading the digits back gives the
    bytes, so two cards with different UIDs never share a string. *)
Theorem unhex_hex l (Hl : Forall (fun b => 0 <= b < 256) l) :
  unhex (concat (hex_byte <$> l)) = l.
Proof.
  induction Hl as [|b l Hb Hl IH]; [done|]. rewrite fmap_cons. cbn [concat hex_byte app unhex].
  destruct (nibbles b Hb) as (H1 & H2 & H3).
  rewrite (proj2 (hex_nibble _ H1)), (proj2 (hex_nibble _ H2)), IH. by f_equal.
Qed.

Lemma unhex_hex_witness :
  concat (hex_byte <$> [4; 171; 0; 255]) = $"04AB00FF" /\ unhex $"04AB00FF" = [4; 171; 0; 255].
Proof.
  split; [reflexivity|]. apply (unhex_hex [4; 171; 0; 255]). repeat constructor; lia.
Defined.

(** what the reading functions return when they return *)
Section Rc522Results.
Context {E : Env}.

Lemma anticoll_result :
  result rc522_anticoll_cl1 (fun o => forall uid5, o = Some uid5 -> length uid5 = 5%nat).
Proof.
  unfold result, rc522_anticoll_cl1. tri_step. tri_step. tri_step. tri_step.
  destruct a0 as [[ok back] bits]. tri_step; [by tri_step|]. tri_step; [by tri_step|].
  destruct (Nat.ltb_spec (length back) 5); [tri_step|]. tri_step.
  intros uid5 [= <-]. rewrite length_take. lia.
Qed.

Lemma leer_rfid_str_result n :
  result (leer_rfid_str n) (fun o => forall s, o = Some s -> uid_ok s).
Proof.
  unfold result, leer_rfid_str. tri_step. tri_step. tri_step; [|by tri_step].
  tri_step. eapply tri_conseq; [apply anticoll_result|]. intros o [] Ho.
  destruct o as [uid5|]; [|by tri_step]. cbv zeta. tri_step; [by tri_step|].
  tri_step. intros s [= <-]. destruct (hex_string_ok (take 4 uid5)) as [H1 H2].
  split; [|exact H2]. rewrite H1, length_take, (Ho uid5 eq_refl). reflexivity.
Qed.
End Rc522Results.
