(* ===== verification/Sincronizacion.v ===== *)
(** * validacion.c: synchronisation with the server

    [sincronizarConServidor]: the download of the user table and its
    installation in [listaPins]. *)

From Stdlib Require Import ZArith Lia Bool Ascii String.
From Stdlib Require Import SpecFloat.
From stdpp Require Import base list strings numbers sets.
From stdpp Require Import options.
From S2P Require Import Prelude Machine Effects Sapi Display Cerrojo Usuarios EspAT.

Section Sincronizacion.
Context {E : Env}.

(** 0: the table was replaced, 1: it was kept *)
Definition sincronizarConServidor : M Z :=
  display_clear ;;
  display_println $"SINCRONIZANDO..." 20 ;;
  display_update ;;
  bufferUsuarios ← espHTTPGetPins MAX_PINS;
  let usuariosRecibidos := Z.of_nat (length bufferUsuarios) in
  display_clear ;;
  valor ← (if 0 <? usuariosRecibidos then
      modify (fun w => set_db (actualizarBaseDeDatos bufferUsuarios usuariosRecibidos) w) ;;
      display_println $"SYNC COMPLETADA" 20 ;;
      buff ← sprintf 20 ($"USUARIOS: " ++ fmt_d (s32 usuariosRecibidos));
      display_println buff 40 ;;
      mret 0
    else
      display_println $"ERROR DE SYNC" 20 ;;
      display_println $"MANTENIENDO DB" 40 ;;
      mret 1);
  display_update ;;
  delay 1000 ;;
  display_clear ;;
  mret valor.
End Sincronizacion.

(* opaque to instance search *)
#[export] Hint Opaque sincronizarConServidor : typeclass_instances.

(** ** Footprint *)
Section SincronizacionEff.
Context {E : Env}.

#[export] Instance sincronizar_eff F K :
  Sub [CDb; CDisp] F -> Sub [KUart ESP_UART; KI2c] K -> Eff F K sincronizarConServidor.
Proof. eff_op [CDb; CDisp] [KUart ESP_UART; KI2c]. unfold sincronizarConServidor. eff_solve. Qed.
End SincronizacionEff.
