(* ===== verification/Mef.v ===== *)
(** * MEF.c, CerraduraElectronica.c: the main state machine

    One definition per state of [mefUpdate] and per option of the
    administrator's menu, the sleep mode, the initialisation and [main]. *)

From Stdlib Require Import ZArith Lia Bool Ascii String.
From Stdlib Require Import SpecFloat.
From stdpp Require Import base list strings numbers sets.
From stdpp Require Import options.
From S2P Require Import Prelude Machine Effects Sapi Display Cerrojo Teclado Usuarios Dobles.
From S2P Require Import EspAT As608 Rc522 Sincronizacion.

Definition INTERVALO_HUELLA_MS : Z := 600.

(** ** The static variables *)
Definition mef_inicial : mef_st := mkMef REPOSO [] 0 0 (dbl_of_Z 0) [] 0 false false.

Definition set_estado (e : EstadoMEF_t) (m : mef_st) : mef_st :=
  mkMef e (pinIngresado m) (intentosFallidos m) (ultimaPresencia m) (ultimaVersionConocida m)
        (rfid m) (agendaHuella m) (escaneoActivo m) (eventoPresencia m).
Definition set_pin (p : list ascii) (m : mef_st) : mef_st :=
  mkMef (estadoActual m) p (intentosFallidos m) (ultimaPresencia m) (ultimaVersionConocida m)
        (rfid m) (agendaHuella m) (escaneoActivo m) (eventoPresencia m).
Definition set_intentos (n : Z) (m : mef_st) : mef_st :=
  mkMef (estadoActual m) (pinIngresado m) n (ultimaPresencia m) (ultimaVersionConocida m)
        (rfid m) (agendaHuella m) (escaneoActivo m) (eventoPresencia m).
Definition set_presencia (t : Z) (m : mef_st) : mef_st :=
  mkMef (estadoActual m) (pinIngresado m) (intentosFallidos m) t (ultimaVersionConocida m)
        (rfid m) (agendaHuella m) (escaneoActivo m) (eventoPresencia m).
Definition set_version (v : spec_float) (m : mef_st) : mef_st :=
  mkMef (estadoActual m) (pinIngresado m) (intentosFallidos m) (ultimaPresencia m) v
        (rfid m) (agendaHuella m) (escaneoActivo m) (eventoPresencia m).
Definition set_leido (r : list ascii) (m : mef_st) : mef_st :=
  mkMef (estadoActual m) (pinIngresado m) (intentosFallidos m) (ultimaPresencia m)
        (ultimaVersionConocida m) r (agendaHuella m) (escaneoActivo m) (eventoPresencia m).
Definition set_agenda (t : Z) (m : mef_st) : mef_st :=
  mkMef (estadoActual m) (pinIngresado m) (intentosFallidos m) (ultimaPresencia m)
        (ultimaVersionConocida m) (rfid m) t (escaneoActivo m) (eventoPresencia m).
Definition set_escaneo (b : bool) (m : mef_st) : mef_st :=
  mkMef (estadoActual m) (pinIngresado m) (intentosFallidos m) (ultimaPresencia m)
        (ultimaVersionConocida m) (rfid m) (agendaHuella m) b (eventoPresencia m).
Definition set_evento (b : bool) (m : mef_st) : mef_st :=
  mkMef (estadoActual m) (pinIngresado m) (intentosFallidos m) (ultimaPresencia m)
        (ultimaVersionConocida m) (rfid m) (agendaHuella m) (escaneoActivo m) b.

Section Mef.
Context {E : Env}.

Definition mod_mef (f : mef_st -> mef_st) : M unit :=
  modify (fun w => set_mef (f (mef w)) w).
Definition mod_db (f : list PinUsuario_t -> list PinUsuario_t) : M unit :=
  modify (fun w => set_db (f (listaPins w)) w).
Definition ir_a (e : EstadoMEF_t) : M unit := mod_mef (set_estado e).
(** [ultimaPresencia = tickRead();], a [long int] *)
Definition registrarPresencia : M unit :=
  t ← tickRead; mod_mef (set_presencia (s32 t)).
(** [x = tickRead();] for a local [long int] *)
Definition leerReloj : M Z := t ← tickRead; mret (s32 t).
(** [tickRead() - x], of type [tick_t] *)
Definition transcurrido (x : Z) : M Z := t ← tickRead; mret (u64 (t - x)).
(** two lines of text on a cleared display *)
Definition mensaje (l : list (list ascii * Z)) : M unit :=
  display_clear ;; for_each l (fun '(s, y) => display_println s y) ;; display_update.

(** [tecladoLeerPin(pin, &t)] with a [long int] as the time stamp *)
Definition leerPin (pin : list ascii) (t : Z) : M (Z * list ascii * Z) :=
  r ← tecladoLeerPin pin (Some t);
  let '(res, pin, ult) := r in mret (res, pin, s32 (default 0 ult)).

(** ** Sleep mode *)
Definition GPIO0_IRQHandler : M unit :=
  Chip_PININT_ClearIntStatus PININTCH0 ;;
  mod_mef (set_evento true).

(** Presence detected while its interrupt is enabled and the core awake. *)
Definition irq_point : M unit :=
  v ← inp InWake; when (negb (v =? 0)) GPIO0_IRQHandler.

(** [__WFI()]: the presence interrupt is the only one enabled.  Value 0 is
    an interrupt that never comes, 1 the interrupt, any other value a wake-up
    without it (a debugger). *)
Definition WFI : M unit :=
  emit EvWfi ;;
  v ← inp InWake;
  if v =? 0 then diverge else when (v =? 1) GPIO0_IRQHandler.

(** [entrarModoSleep] up to the WFI: the interrupt is enabled before the last lines of
    text are drawn *)
Definition adormecer : M unit :=
  mensaje [($"ENTRANDO EN MODO", 10); ($"BAJO CONSUMO", 30)] ;;
  delay 100 ;;
  mod_mef (set_evento false) ;;
  Chip_PININT_ClearIntStatus PININTCH0 ;;
  emit (EvConfig "NVIC_ClearPendingIRQ" [PININTCH0]) ;;
  emit (EvNvic true) ;;
  irq_point ;;
  emit (EvSysTick false) ;;
  set_systick false ;;
  emit (EvConfig "SCB_SCR_SLEEPDEEP" [0]) ;;
  mensaje [($"MODO BAJO", 10); ($"CONSUMO ACTIVADO", 30)].

(** after it *)
Definition despertar : M unit :=
  emit (EvNvic false) ;;
  emit (EvSysTick true) ;;
  set_systick true ;;
  mensaje [($"DESPERTANDO...", 10)] ;;
  delay 500.

Definition dormir : M unit := adormecer ;; WFI ;; despertar.

(** the version the server reports, with one attempt to reconnect *)
Definition consultarVersion : M spec_float :=
  mensaje [($"VERIFICANDO", 10); ($"ACTUALIZACIONES...", 30)] ;;
  versionServer ← espObtenerTiempoServidor;
  if dbl_ltb versionServer (dbl_of_Z 0) then
    mensaje [($"RECONECTANDO", 10); ($"WIFI...", 30)] ;;
    ok ← inicializarESP 15000;
    if ok : bool then espObtenerTiempoServidor else mret versionServer
  else mret versionServer.

(** the comparison with the last version known *)
Definition actualizarVersion (versionServer : spec_float) : M unit :=
  if dbl_ltb versionServer (dbl_of_Z 0) then
    display_println $"ERROR RED" 40 ;;
    display_println $"SIN CONEXION" 50 ;;
    display_update ;;
    delay 2000 ;;
    display_clear
  else
    m ← gets mef;
    if dbl_gtb versionServer (ultimaVersionConocida m) then
      mensaje [($"DESCARGANDO", 10); ($"DATOS NUEVOS...", 22)] ;;
      delay 1000 ;;
      valor ← sincronizarConServidor;
      when (valor =? 0) (mod_mef (set_version versionServer)) ;;
      delay 1000
    else
      mensaje [($"SISTEMA", 10); ($"ACTUALIZADO", 30)] ;;
      delay 1000.

Definition entrarModoSleep : M unit :=
  dormir ;;
  versionServer ← consultarVersion;
  actualizarVersion versionServer.

(** ** [mefUpdate], state by state *)
Definition reposo : M unit :=
  entrarModoSleep ;;
  display_clear ;;
  ir_a ESPERANDO_ACCION.

(** the ten seconds granted to the master PIN *)
Definition pedirPinAdmin : M bool :=
  tAuth ← leerReloj;
  tecladoReset ;;
  loop (fun '(pinAdmin, tAuth) =>
    dt ← transcurrido tAuth;
    if dt <? 10000 then
      r ← leerPin pinAdmin tAuth;
      let '(res, pinAdmin, tAuth) := r in
      if res =? 1 then
        l ← gets listaPins;
        mret (inr (esPinMaster l pinAdmin))
      else if res =? -1 then mret (inr false)
      else delay 50 ;; mret (inl (pinAdmin, tAuth))
    else mret (inr false)) ([], tAuth).

Definition accesoAdmin : M unit :=
  mensaje [($"SEGURIDAD", 10); ($"PIN ADMIN?", 22)] ;;
  accesoConcedido ← pedirPinAdmin;
  if accesoConcedido : bool then
    mensaje [($"ACCESO CONCEDIDO", 20)] ;;
    alertaExito ;;
    delay 1000 ;;
    registrarPresencia ;;
    ir_a MENU_ADMIN
  else
    mensaje [($"PIN INCORRECTO", 20)] ;;
    alertaError ;;
    delay 1500 ;;
    display_clear ;;
    tecladoReset.

(** the polls of the idle state: RFID, then the fingerprint schedule *)
Definition sondearSensores : M unit :=
  uid ← leer_rfid_str 10;
  match uid with
  | Some s =>
      mod_mef (set_leido s) ;;
      registrarPresencia ;;
      mensaje [($"PROCESANDO...", 20)] ;;
      ir_a VALIDAR_RFID
  | None =>
      m ← gets mef;
      toca ← (if negb (escaneoActivo m) then
                dt ← transcurrido (agendaHuella m); mret (INTERVALO_HUELLA_MS <=? dt)
              else mret false);
      when toca (
        as608ScanReset ;;
        mod_mef (set_escaneo true) ;;
        t ← tickRead;
        mod_mef (set_agenda (s32 t))) ;;
      m ← gets mef;
      when (escaneoActivo m) (ir_a LEER_Y_VALIDAR_HUELLA)
  end.

Definition esperando_accion : M unit :=
  m ← gets mef;
  when (eventoPresencia m) (mod_mef (set_evento false) ;; registrarPresencia) ;;
  display_println $"SISTEMA DE ACCESO" 0 ;;
  display_println $"INGRESE PIN:" 18 ;;
  display_update ;;
  m ← gets mef;
  r ← leerPin (pinIngresado m) (ultimaPresencia m);
  let '(resultado, pin, ult) := r in
  mod_mef (fun m => set_presencia ult (set_pin pin m)) ;;
  if resultado =? 1 then
    registrarPresencia ;;
    ir_a VALIDAR
  else if resultado =? -1 then accesoAdmin
  else
    dt ← transcurrido ult;
    if TIMEOUT_MS <? dt then ir_a REPOSO
    else sondearSensores.

(** [sprintf(buffer, "BIENVENIDO, %s", tag)] into 30 bytes *)
Definition saludo (tag : list ascii) : M (list ascii) := sprintf 30 ($"BIENVENIDO, " ++ tag).

(** [idStr]: the page number as [%04u] of the [short] *)
Definition idStr_de (id : Z) : list ascii := snprintf 5 (fmt_0 4 (u32 (s16 id))).

Definition leer_y_validar_huella : M unit :=
  r ← as608ScanStep 0 0;
  let '(status, id, _) := r in
  abierta ← (match status with
    | AS608_SCAN_MATCH =>
        let idStr := idStr_de id in
        l ← gets listaPins;
        if validarHuella l (Some idStr) then
          tag ← access (obtenerTagPorHuella l (Some idStr));
          display_clear ;;
          display_println $"ACCESO CONCEDIDO" 20 ;;
          buffer ← saludo tag;
          display_println buffer 35 ;;
          display_update ;;
          alertaExito ;;
          mod_mef (set_intentos 0) ;;
          when (negb OMITIR_MOTOR) abrirCerradura ;;
          ir_a SENSOR_CIERRE ;;
          mod_mef (set_escaneo false) ;;
          mret true
        else mret false
    | AS608_SCAN_NOMATCH =>
        mensaje [($"HUELLA NO", 20); ($"REGISTRADA", 35)] ;;
        alertaError ;;
        delay 1500 ;;
        display_clear ;;
        mod_mef (set_escaneo false) ;;
        registrarPresencia ;;
        mret false
    | AS608_SCAN_NOFINGER | AS608_SCAN_ERROR => mod_mef (set_escaneo false) ;; mret false
    | _ => mret false
    end);
  when (negb abierta) (ir_a ESPERANDO_ACCION).

Definition validar_rfid : M unit :=
  m ← gets mef;
  l ← gets listaPins;
  match obtenerTagPorRFID l (rfid m) with
  | Some tag =>
      display_clear ;;
      display_println $"ACCESO CONCEDIDO" 20 ;;
      buffer ← saludo tag;
      display_println buffer 10 ;;
      display_update ;;
      alertaExito ;;
      when (negb OMITIR_MOTOR) abrirCerradura ;;
      ir_a SENSOR_CIERRE ;;
      mod_mef (set_leido [])
  | None =>
      alertaError ;;
      mensaje [($"ACCESO DENEGADO", 20); ($"RFID NO REGISTRADO", 35)] ;;
      delay 1500 ;;
      display_clear ;;
      tecladoReset ;;
      ir_a ESPERANDO_ACCION
  end.

(** a wrong PIN *)
Definition pin_denegado : M unit :=
  alertaError ;;
  mod_mef (fun m => set_intentos (s32 (intentosFallidos m + 1)) m) ;;
  display_println $"ACCESO DENEGADO " 10 ;;
  m ← gets mef;
  buffer ← sprintf 40 ($"INTENTOS = " ++ fmt_d (intentosFallidos m) ++ $" de 3");
  display_println buffer 25 ;;
  when (intentosFallidos m =? 3) (
    display_println $"ALERTA INTRUSO " 40 ;;
    mod_mef (set_intentos 0) ;;
    alertaError) ;;
  tecladoReset ;;
  display_update ;;
  delay 1000 ;;
  display_clear ;;
  ir_a ESPERANDO_ACCION.

Definition validar : M unit :=
  display_clear ;;
  m ← gets mef;
  l ← gets listaPins;
  if validarPin l (pinIngresado m) then
    match obtenerTagPorPin l (pinIngresado m) with
    | Some tag =>
        display_println $"ACCESO CONCEDIDO" 20 ;;
        buffer ← saludo tag;
        display_println buffer 35
    | None =>
        display_println $"ACCESO CONCEDIDO" 20 ;;
        display_println $"SIN ETIQUETA" 35
    end ;;
    alertaExito ;;
    mod_mef (set_intentos 0) ;;
    ir_a SENSOR_CIERRE ;;
    display_update ;;
    abrirCerradura ;;
    delay 1200 ;;
    display_clear
  else pin_denegado.

Definition sensor_cierre : M unit :=
  display_println $"CERRADURA" 40 ;;
  display_println $"ABIERTA" 60 ;;
  display_update ;;
  if OMITIR_SENSOR_CIERRE then
    delay 4000 ;;
    cerrarCerradura ;;
    display_clear ;;
    ir_a ESPERANDO_ACCION
  else
    sensorState ← Chip_GPIO_GetPinState SENSORHALL_GPIO_PORT SENSORHALL_GPIO_PIN;
    when (negb sensorState) (
      when (negb OMITIR_MOTOR) cerrarCerradura ;;
      registrarPresencia ;;
      ir_a ESPERANDO_ACCION ;;
      display_clear) ;;
    delay 500.

(** *** The administrator's menu *)
Definition mostrarMenu : M unit :=
  display_clear ;;
  display_println $"MENU ADMINISTRADOR" 0 ;;
  display_printAt $"1=Registrar RFID" 0 16 ;;
  display_printAt $"2=Registrar Huella" 0 30 ;;
  display_printAt $"3=Reset WiFi" 0 35 ;;
  display_printAt $"4=Borrar Huellas" 0 42 ;;
  display_printAt $"5=Sinc. con servidor" 0 49 ;;
  display_update.

(** [while (!opcion)]: no time limit *)
Definition leerOpcion : M ascii :=
  loop (fun _ : unit =>
    k ← tecladoLeerTecla;
    delay 60 ;;
    mret (match k with
          | Some c => if ord c =? 0 then inl tt else inr c
          | None => inl tt
          end)) tt.

Definition opcion_wifi : M unit :=
  mensaje [($"RESET WiFi ", 30)] ;;
  ok ← resetearCredencialesESP;
  (if ok : bool then
    mensaje [($"RECONECTANDO ESP...", 30)] ;;
    delay 3000 ;;
    inicializarESP 60000 ;;
    mensaje [($"CONFIGURAR WiFi:", 10); ($"USA LA APP", 25); (DQ ++ $"ESP BluFI" ++ DQ, 40)] ;;
    delay 5000
  else mensaje [($"ERROR AL RESETEAR ESP", 30)]) ;;
  delay 1000 ;;
  display_clear ;;
  registrarPresencia ;;
  ir_a ESPERANDO_ACCION.

(** a PIN typed within [limite] ms of the last key; [false]: the time ran out *)
Definition pedirPinEn (limite : Z) : M (bool * list ascii) :=
  t0 ← leerReloj;
  loop (fun '(pin, t) =>
    r ← leerPin pin t;
    let '(res, pin, t) := r in
    if res =? 1 then mret (inr (true, pin))
    else
      dt ← transcurrido t;
      if limite <? dt then mret (inr (false, pin))
      else delay 50 ;; mret (inl (pin, t))) ([], t0).

(** the sub-menu; [None] after ten seconds *)
Definition leerSubOpcion : M (option ascii) :=
  tSub ← leerReloj;
  loop (fun _ : unit =>
    dt ← transcurrido tSub;
    if dt <? 10000 then
      k ← tecladoLeerTecla;
      delay 50 ;;
      mret (match k with
            | Some c => if (ord c =? 49) || (ord c =? 50) then inr (Some c) else inl tt
            | None => inl tt
            end)
    else mret (inr None)) tt.

Definition borrarTodas : M unit :=
  mensaje [($"BORRANDO...", 10)] ;;
  ok ← as608ClearAllTemplates;
  (if ok : bool then
    mod_db eliminarTodasHuellasLocal ;;
    _ ← espBorrarTodasHuellasServidor;
    display_println $"SENSOR SIN" 30 ;;
    display_println $"HUELLAS" 40 ;;
    alertaExito
  else
    display_println $"3RROR SENSOR" 40 ;;
    alertaError) ;;
  display_update ;;
  delay 2000 ;;
  display_clear.

(** the ID to delete, [None] when the PIN is unknown *)
Definition huellaABorrar (pinTarget : list ascii) : M (option (list ascii)) :=
  l ← gets listaPins;
  if validarPin l pinTarget then
    r ← access (obtenerHuellaAsignadaPorPin l pinTarget);
    let '(found, idStr) := r in
    mret (if found : bool then Some idStr else None)
  else mret None.

Definition borrarUna : M unit :=
  mensaje [($"PIN DE USUARIO", 10); ($"A BORRAR:", 22)] ;;
  r ← pedirPinEn 15000;
  let '(_, pinTarget) := r in
  o ← huellaABorrar pinTarget;
  match o with
  | Some idStr =>
      let idSensor := u16 (atoi idStr) in
      display_clear ;;
      display_println $"SE BORRARA" 20 ;;
      buffer ← sprintf 30 ($"ID = , " ++ fmt_d idSensor);
      display_println buffer 35 ;;
      display_update ;;
      delay 5000 ;;
      ok ← as608DeleteId idSensor;
      if ok : bool then
        mod_db (fun l => snd (eliminarHuellaLocal l pinTarget)) ;;
        _ ← espBorrarHuellaServidor pinTarget;
        display_clear ;;
        display_println $"HUELLA BORRADA" 20 ;;
        alertaExito
      else
        display_println $"ERROR SENSOR" 40 ;;
        alertaError
  | None =>
      display_clear ;;
      display_println $"NO TIENE HUELLA" 20 ;;
      display_println $"O PIN INVALIDO" 40 ;;
      alertaError
  end ;;
  display_update ;;
  delay 2000 ;;
  display_clear.

Definition opcion_borrar : M unit :=
  mensaje [($"SEGURIDAD:", 10); ($"PIN MASTER?", 22)] ;;
  r ← pedirPinEn 10000;
  let '(completo, pinAuth) := r in
  l ← gets listaPins;
  if negb completo || negb (esPinMaster l pinAuth) then
    mensaje [($"ERROR SEGURIDAD", 30)] ;;
    alertaError ;;
    delay 1500
  else
    mensaje [($"1=BORRAR TODAS", 10); ($"2=BORRAR UNA", 22)] ;;
    subOp ← leerSubOpcion;
    match subOp with
    | Some c => if ord c =? 49 then borrarTodas else borrarUna
    | None => mret tt
    end ;;
    registrarPresencia ;;
    ir_a ESPERANDO_ACCION.

Definition menu_admin : M unit :=
  mostrarMenu ;;
  opcion ← leerOpcion;
  if ord opcion =? 49 then ir_a REGISTRAR_RFID
  else if ord opcion =? 50 then ir_a REGISTRAR_HUELLA
  else if ord opcion =? 51 then opcion_wifi
  else if ord opcion =? 52 then opcion_borrar
  else if ord opcion =? 53 then
    _ ← sincronizarConServidor;
    registrarPresencia ;;
    ir_a ESPERANDO_ACCION
  else
    mensaje [($"OPCION INVALIDA", 30)] ;;
    display_clear ;;
    registrarPresencia ;;
    ir_a ESPERANDO_ACCION.

(** *** Registration *)

(** giving up: back to the idle state *)
Definition abandonar : M unit :=
  display_clear ;; registrarPresencia ;; ir_a ESPERANDO_ACCION.

(** one PIN: the inner loop of the registration states *)
Definition teclearPin (pin : list ascii) (timer : Z) : M (list ascii * Z) :=
  loop (fun '(pin, timer) =>
    r ← leerPin pin timer;
    let '(res, pin, timer) := r in
    if res =? 1 then mret (inr (pin, timer))
    else
      dt ← transcurrido timer;
      if 15000 <? dt then abandonar ;; mret (inr (pin, timer))
      else delay 50 ;; mret (inl (pin, timer))) (pin, timer).

(** the outer loop: three PINs at most; the state tells how it ended *)
Definition pedirPinUsuario : M (list ascii) :=
  timer ← leerReloj;
  loop (fun '(intentos, pinValidado, timer) =>
    mensaje [($"INGRESE PIN USUARIO", 30)] ;;
    r ← teclearPin pinValidado timer;
    let '(pinValidado, timer) := r in
    l ← gets listaPins;
    if validarPin l pinValidado then mret (inr pinValidado)
    else
      let intentos := s32 (intentos + 1) in
      alertaError ;;
      display_clear ;;
      display_println $"PIN INVALIDO" 20 ;;
      buffer ← sprintf 40 ($"INTENTOS = " ++ fmt_d intentos ++ $" de 3");
      display_println buffer 40 ;;
      display_update ;;
      delay 1500 ;;
      if 3 <=? intentos then
        display_clear ;;
        display_println $"DEMASIADOS INTENTOS" 20 ;;
        delay 2000 ;;
        abandonar ;;
        mret (inr pinValidado)
      else mret (inl (intentos, pinValidado, timer))) (0, [], timer).

(** [estadoActual == ESPERANDO_ACCION] after a loop that may have given up *)
Definition abandonado : M bool :=
  m ← gets mef; mret (bool_decide (estadoActual m = ESPERANDO_ACCION)).

(** the card held to the reader within 15 s *)
Definition esperarTarjeta : M unit :=
  timer ← leerReloj;
  display_println $"ACERQUE TARJETA" 20 ;;
  display_update ;;
  loop (fun _ : unit =>
    uid ← leer_rfid_str 10;
    match uid with
    | Some s => mod_mef (set_leido s) ;; mret (inr tt)
    | None =>
        dt ← transcurrido timer;
        if 15000 <? dt then abandonar ;; mret (inr tt)
        else delay 50 ;; mret (inl tt)
    end) tt.

Definition registrar_rfid : M unit :=
  mensaje [($"REGISTRAR TARJETA", 20)] ;;
  delay 1500 ;;
  pinValidado ← pedirPinUsuario;
  fin ← abandonado;
  if fin : bool then mret tt
  else
    esperarTarjeta ;;
    fin ← abandonado;
    if fin : bool then mret tt
    else
      alertaExito ;;
      m ← gets mef;
      l ← gets listaPins;
      r ← access (asociarRFIDaPin l pinValidado (rfid m));
      mod_db (fun _ => snd r) ;;
      mensaje [($"TARJETA GUARDADA", 20); ($"Sincronizando servidor", 40)] ;;
      nube ← espEnviarNuevoRFID pinValidado (rfid m);
      display_clear ;;
      display_println (if nube : bool then $"NUBE: OK" else $"NUBE: ERROR") 40 ;;
      display_update ;;
      delay 2000 ;;
      abandonar.

(** five attempts at most; [None] when all failed *)
Definition enrolar (idObjetivo : Z) : M (option (list ascii)) :=
  loop (fun intentos =>
    if intentos <? 5 then
      r ← as608EnrollAtId (u16 idObjetivo);
      let '(ok, out) := r in
      if ok : bool then mret (inr (Some out))
      else
        let intentos := s32 (intentos + 1) in
        alertaError ;;
        display_clear ;;
        display_println $"ERROR REGISTRANDO" 20 ;;
        buffer ← sprintf 40 ($"INTENTOS = " ++ fmt_d intentos ++ $" de 5");
        display_println buffer 40 ;;
        display_update ;;
        delay 1500 ;;
        mret (inl intentos)
    else mret (inr None)) 0.

(** the registration for a PIN whose fingerprint ID is known *)
Definition registrar_en (pinValidado idHuellaStr : list ascii) : M unit :=
  let idObjetivo := s16 (u16 (atoi idHuellaStr)) in
  display_clear ;;
  display_println $"COLOCAR DEDO EN" 20 ;;
  display_println $"SENSOR" 30 ;;
  buff ← sprintf 20 ($"ID ASIGNADO: " ++ fmt_d idObjetivo);
  display_println buff 50 ;;
  display_update ;;
  delay 2000 ;;
  o ← enrolar idObjetivo;
  match o with
  | None =>
      mensaje [($"FALLÓ REGISTRO", 20)] ;;
      delay 2000 ;;
      abandonar
  | Some idResultado =>
      mod_db (fun l => snd (asociarHuellaaPin l pinValidado idResultado)) ;;
      mensaje [($"HUELLA GUARDADA", 10); ($"SUBIENDO...", 30)] ;;
      alertaExito ;;
      delay 1500 ;;
      nube ← espEnviarNuevaHuella pinValidado idResultado;
      display_println (if nube : bool then $"NUBE: OK" else $"NUBE: ERROR") 50 ;;
      display_update ;;
      ir_a ESPERANDO_ACCION ;;
      delay 1500 ;;
      display_clear ;;
      registrarPresencia
  end.

Definition registrar_huella : M unit :=
  mensaje [($"REGISTRAR HUELLA", 10); ($"INGRESE PIN USUARIO", 22)] ;;
  pinValidado ← pedirPinUsuario;
  fin ← abandonado;
  if fin : bool then mret tt
  else
    l ← gets listaPins;
    r ← access (obtenerHuellaAsignadaPorPin l pinValidado);
    let '(found, idHuellaStr) := r in
    if found : bool then registrar_en pinValidado idHuellaStr
    else
      display_println $"ERROR BASE DATOS" 30 ;;
      display_update ;;
      delay 1500 ;;
      display_clear ;;
      registrarPresencia.

(** *** The step *)
Definition mefUpdate : M unit :=
  m ← gets mef;
  match estadoActual m with
  | REPOSO => reposo
  | ESPERANDO_ACCION => esperando_accion
  | LEER_Y_VALIDAR_HUELLA => leer_y_validar_huella
  | VALIDAR_RFID => validar_rfid
  | VALIDAR => validar
  | SENSOR_CIERRE => sensor_cierre
  | BLOQUEADO => mret tt
  | MENU_ADMIN => menu_admin
  | REGISTRAR_RFID => registrar_rfid
  | REGISTRAR_HUELLA => registrar_huella
  end.

(** ** Initialisation *)
Definition mefInit : M unit :=
  configurarPines ;;
  when ALERTAS_ENABLE alertasInit ;;
  when SENSOR_WIFI_ENABLE (
    mensaje [($"CONECTANDO WIFI...", 20)] ;;
    espATInit 115200 ;;
    wifiOk ← inicializarESP 10000;
    loop (fun wifiOk : bool =>
      if wifiOk then mret (inr tt)
      else
        mensaje [($"REINTENTO WIFI...", 20)] ;;
        ok ← inicializarESP 5000;
        mret (inl ok)) wifiOk ;;
    _ ← sincronizarConServidor;
    mret tt) ;;
  when SENSOR_HUELLA_ENABLE (as608Init 0 ;; as608ScanReset) ;;
  configurarInterrupcionPRESENCIA ;;
  emit (EvNvic false) ;;
  rc522_hw_init ;;
  rc522_init_iso14443a ;;
  mensaje [($"CERRADURA ELECTRONICA", 20); ($"INICIADA", 35)] ;;
  delay 1000 ;;
  display_clear ;;
  registrarPresencia ;;
  ir_a ESPERANDO_ACCION.

(** [main] up to its loop, and [n] turns of it *)
Definition arranque : M unit :=
  boardInit ;; display_init ;; driverConfig ;; tecladoInit ;; mefInit.
Definition main_n (n : nat) : M unit :=
  arranque ;; for_each (replicate n tt) (fun _ => mefUpdate).

(** the static storage at reset *)
Definition world0 (d : dev) : world :=
  mkWorld (mkHw d 0 false []) (mkDisplay (replicate 1024 0) 0 0) (mkTeclado [] 0 false 65535)
          listaPins_inicial false scan_zero mef_inicial.
End Mef.

(* opaque to instance search *)
#[export] Hint Opaque mod_mef mod_db ir_a registrarPresencia leerReloj transcurrido mensaje
  leerPin GPIO0_IRQHandler irq_point WFI adormecer despertar dormir consultarVersion actualizarVersion
  entrarModoSleep reposo pedirPinAdmin accesoAdmin sondearSensores esperando_accion saludo
  leer_y_validar_huella validar_rfid pin_denegado validar sensor_cierre mostrarMenu leerOpcion
  opcion_wifi pedirPinEn leerSubOpcion borrarTodas huellaABorrar borrarUna opcion_borrar
  menu_admin abandonar teclearPin pedirPinUsuario abandonado esperarTarjeta registrar_rfid
  enrolar registrar_en registrar_huella mefUpdate mefInit arranque main_n : typeclass_instances.

(** ** Footprints of the helpers *)
Section MefEff.
Context {E : Env}.

#[export] Instance leerReloj_eff F K : Eff F K leerReloj.
Proof. unfold leerReloj. eff_solve. Qed.
#[export] Instance transcurrido_eff F K x : Eff F K (transcurrido x).
Proof. unfold transcurrido. eff_solve. Qed.
#[export] Instance abandonado_eff F K : Eff F K abandonado.
Proof. unfold abandonado. eff_solve. Qed.
#[export] Instance saludo_eff F K s : Eff F K (saludo s).
Proof. unfold saludo. eff_solve. Qed.
#[export] Instance mensaje_eff F K l : Sub [CDisp] F -> Sub [KI2c] K -> Eff F K (mensaje l).
Proof. unfold mensaje. eff_solve. Qed.
#[export] Instance mostrarMenu_eff F K : Sub [CDisp] F -> Sub [KI2c] K -> Eff F K mostrarMenu.
Proof. unfold mostrarMenu. eff_solve. Qed.
#[export] Instance consultarVersion_eff F K :
  Sub [CWifi; CDisp] F -> Sub [KUart ESP_UART; KI2c] K -> Eff F K consultarVersion.
Proof. eff_op [CWifi; CDisp] [KUart ESP_UART; KI2c]. unfold consultarVersion. eff_solve. Qed.
#[export] Instance enrolar_eff F K n :
  Sub [CDisp] F -> Sub [KUart AS608_UART; KI2c; buzzer_kind] K -> Eff F K (enrolar n).
Proof. eff_op [CDisp] [KUart AS608_UART; KI2c; buzzer_kind]. unfold enrolar. eff_solve. Qed.
End MefEff.
