(* ===== verification/Cerradura.v ===== *)
(** * The lock, abstractly

    What the whole firmware promises, without drivers, display or clock: the
    state of the main machine, the user table, the fingerprint scan and the
    bolt's driver, and the steps they may make together. *)

From Stdlib Require Import ZArith Lia Bool Ascii String.
From Stdlib Require Import SpecFloat.
From stdpp Require Import base list strings numbers sets.
From stdpp Require Import options.
From S2P Require Import Prelude Machine Effects Triples Sapi Cerrojo Teclado Usuarios Dobles.
From S2P Require Import EspAT As608 Rc522 Mef.

Record cerradura : Type := mkC {
  c_mef : mef_st;
  c_db : list PinUsuario_t;
  c_scan : scan_st;
  c_drv : drv
}.

(** the driver after a full move *)
Definition mover (abre : bool) (d : drv) : drv :=
  mkDrv false abre false (d_pos d + if abre then STEPS else - STEPS).

(** the table after a synchronisation *)
Definition sincronizada (db' : list PinUsuario_t) : Prop :=
  exists us, us <> [] /\ (length us <= MAX_PINS)%nat /\ Forall usuario_ok us /\
             db' = actualizarBaseDeDatos us (Z.of_nat (length us)).

(** what the deletion menu may do to the table *)
Inductive borrado (db : list PinUsuario_t) : list PinUsuario_t -> Prop :=
  | borrado_nada : borrado db db
  | borrado_todas : borrado db (eliminarTodasHuellasLocal db)
  | borrado_una p : validarPin db p = true -> borrado db (snd (eliminarHuellaLocal db p)).

(** a wrong PIN: the third one in a row starts the count again *)
Definition siguiente_intento (n : Z) : Z := if s32 (n + 1) =? 3 then 0 else s32 (n + 1).

(** some PIN of the table is a master's; that it was typed is not a matter of the table
    ([Autorizacion] follows the keypad) *)
Definition maestro (db : list PinUsuario_t) : Prop :=
  exists p, pin_ok p /\ esPinMaster db p = true.

(** the fingerprint found is one of an active user's *)
Definition huella_conocida (db : list PinUsuario_t) (g : scan_st) : Prop :=
  st g = ST_DONE_MATCH /\ validarHuella db (Some (idStr_de (lastId g))) = true.

Section Paso.
Variables (m : mef_st) (db : list PinUsuario_t) (g : scan_st) (d : drv).

(** One call of [mefUpdate]; the state it starts in is a premise. *)
Inductive paso : cerradura -> Prop :=
  | paso_despertar ev :
      estadoActual m = REPOSO ->
      paso (mkC (set_estado ESPERANDO_ACCION (set_evento ev m)) db g d)
  | paso_actualizar ev v db' :
      estadoActual m = REPOSO -> dbl_gtb v (ultimaVersionConocida m) = true ->
      sincronizada db' ->
      paso (mkC (set_estado ESPERANDO_ACCION (set_version v (set_evento ev m))) db' g d)
  | paso_espera t :
      estadoActual m = ESPERANDO_ACCION ->
      paso (mkC (set_presencia t (set_evento false m)) db g d)
  | paso_dormir t :
      estadoActual m = ESPERANDO_ACCION ->
      paso (mkC (set_estado REPOSO (set_presencia t (set_evento false m))) db g d)
  | paso_pin t p :
      estadoActual m = ESPERANDO_ACCION -> pin_ok p ->
      paso (mkC (set_estado VALIDAR (set_presencia t (set_pin p (set_evento false m)))) db g d)
  | paso_admin t :
      estadoActual m = ESPERANDO_ACCION -> maestro db ->
      paso (mkC (set_estado MENU_ADMIN (set_presencia t (set_evento false m))) db g d)
  | paso_tarjeta t r :
      estadoActual m = ESPERANDO_ACCION -> uid_ok r ->
      paso (mkC (set_estado VALIDAR_RFID (set_presencia t (set_leido r (set_evento false m)))) db g d)
  | paso_huella t a g' :
      estadoActual m = ESPERANDO_ACCION ->
      g' = g /\ escaneoActivo m = true \/ g' = set_st ST_SEND_GETIMAGE scan_zero ->
      paso (mkC (set_estado LEER_Y_VALIDAR_HUELLA (set_presencia t (set_agenda a
                  (set_escaneo true (set_evento false m))))) db g' d)
  | paso_huella_abre :
      estadoActual m = LEER_Y_VALIDAR_HUELLA -> huella_conocida db g ->
      paso (mkC (set_estado SENSOR_CIERRE (set_escaneo false (set_intentos 0 m))) db
                (set_st ST_IDLE g) (mover true d))
  | paso_huella_rechaza t :
      estadoActual m = LEER_Y_VALIDAR_HUELLA -> st g = ST_DONE_NOMATCH ->
      paso (mkC (set_estado ESPERANDO_ACCION (set_presencia t (set_escaneo false m))) db
                (set_st ST_IDLE g) d)
  | paso_huella_sigue s g' :
      estadoActual m = LEER_Y_VALIDAR_HUELLA -> ~ huella_conocida db g ->
      paso (mkC (set_estado ESPERANDO_ACCION (set_escaneo s m)) db g' d)
  | paso_rfid_abre tag :
      estadoActual m = VALIDAR_RFID -> obtenerTagPorRFID db (rfid m) = Some tag ->
      paso (mkC (set_estado SENSOR_CIERRE (set_leido [] m)) db g (mover true d))
  | paso_rfid_rechaza :
      estadoActual m = VALIDAR_RFID -> obtenerTagPorRFID db (rfid m) = None ->
      paso (mkC (set_estado ESPERANDO_ACCION m) db g d)
  | paso_pin_abre :
      estadoActual m = VALIDAR -> validarPin db (pinIngresado m) = true ->
      paso (mkC (set_estado SENSOR_CIERRE (set_intentos 0 m)) db g (mover true d))
  | paso_pin_rechaza :
      estadoActual m = VALIDAR -> validarPin db (pinIngresado m) = false ->
      paso (mkC (set_estado ESPERANDO_ACCION
                  (set_intentos (siguiente_intento (intentosFallidos m)) m)) db g d)
  | paso_cierra t :
      estadoActual m = SENSOR_CIERRE ->
      paso (mkC (set_estado ESPERANDO_ACCION (set_presencia t m)) db g (mover false d))
  | paso_igual :
      estadoActual m = SENSOR_CIERRE \/ estadoActual m = BLOQUEADO \/ estadoActual m = MENU_ADMIN ->
      paso (mkC m db g d)
  | paso_menu e :
      estadoActual m = MENU_ADMIN -> e = REGISTRAR_RFID \/ e = REGISTRAR_HUELLA ->
      paso (mkC (set_estado e m) db g d)
  | paso_menu_vuelve t :
      estadoActual m = MENU_ADMIN ->
      paso (mkC (set_estado ESPERANDO_ACCION (set_presencia t m)) db g d)
  | paso_menu_borra t db' :
      estadoActual m = MENU_ADMIN -> maestro db -> borrado db db' ->
      paso (mkC (set_estado ESPERANDO_ACCION (set_presencia t m)) db' g d)
  | paso_menu_sincroniza t db' :
      estadoActual m = MENU_ADMIN -> sincronizada db' ->
      paso (mkC (set_estado ESPERANDO_ACCION (set_presencia t m)) db' g d)
  | paso_abandona t :
      estadoActual m = REGISTRAR_RFID \/ estadoActual m = REGISTRAR_HUELLA ->
      paso (mkC (set_estado ESPERANDO_ACCION (set_presencia t m)) db g d)
  | paso_registra_rfid t p r db' :
      estadoActual m = REGISTRAR_RFID -> pin_ok p -> validarPin db p = true -> uid_ok r ->
      asociarRFIDaPin db p r = Some (true, db') ->
      paso (mkC (set_estado ESPERANDO_ACCION (set_presencia t (set_leido r m))) db' g d)
  | paso_registra_huella t p h id :
      estadoActual m = REGISTRAR_HUELLA -> pin_ok p -> validarPin db p = true ->
      obtenerHuellaAsignadaPorPin db p = Some (true, h) ->
      id = u16 (s16 (u16 (atoi h))) -> id <= 163 ->
      paso (mkC (set_estado ESPERANDO_ACCION (set_presencia t m))
                (snd (asociarHuellaaPin db p (snprintf 5 (fmt_0 4 id)))) g d).
End Paso.

(** the step on a record *)
Definition paso_de (c c' : cerradura) : Prop := paso (c_mef c) (c_db c) (c_scan c) (c_drv c) c'.
