(* ===== verification/Refinamiento.v ===== *)
(** * The firmware implements the abstract lock

    The projection [nuc] of a world, the rules that carry a triple on it
    through each component's functions, and the refinement of [mefUpdate],
    state by state. *)

From Stdlib Require Import ZArith Lia Bool Ascii String.
From Stdlib Require Import SpecFloat.
From stdpp Require Import base list strings numbers sets.
From stdpp Require Import options.
From S2P Require Import Prelude Machine Effects Triples Sapi Display Cerrojo Teclado Usuarios.
From S2P Require Import Json Dobles EspAT As608 Rc522 Sincronizacion Mef Cerradura.

(** the writes that reach neither the motor nor the state of the lock *)
Definition quietos : list kind :=
  [KI2c; KUart AS608_UART; KUart ESP_UART; KSpi; KConf; KSleep; buzzer_kind;
   pin_kind RC522_CS_GPIO; pin_kind RC522_RST_GPIO] ++ row_kinds ++ board_kinds ++ (pin_kind <$> colPins).

Lemma quietos_no_motor k : k ∈ quietos -> k ∉ motor_kinds.
Proof.
  intros Hk. assert (H : forallb (fun k => bool_decide (k ∉ motor_kinds)) quietos = true)
    by reflexivity.
  rewrite forallb_forall in H. specialize (H k (proj1 (list_elem_of_In _ _) Hk)).
  exact (proj1 (bool_decide_eq_true _) H).
Qed.

(** the driver at power-up *)
Definition drv0 : drv := mkDrv false false false 0.

Section Nucleo.
Context {E : Env}.

Definition abs (w : world) : cerradura :=
  mkC (mef w) (listaPins w) (g_scan w) (driver drv0 (trace (hw w))).
Definition nuc (w : world) : cerradura * teclado_st := (abs w, tec w).

Lemma abs_eff w w' F :
  eff_rel F quietos w w' -> CDb ∉ F -> CScan ∉ F -> CMef ∉ F -> abs w' = abs w.
Proof.
  intros [Hf (t & Ht & Hk) _] H2 H3 H4. unfold abs.
  rewrite (Hf CDb H2), (Hf CScan H3), (Hf CMef H4), Ht, driver_app, driver_quiet; [done|].
  eapply Forall_impl; [exact Hk|]. intros e. apply quietos_no_motor.
Qed.

Lemma nuc_eff w w' F :
  eff_rel F quietos w w' -> CTec ∉ F -> CDb ∉ F -> CScan ∉ F -> CMef ∉ F -> nuc w' = nuc w.
Proof.
  intros H H1 H2 H3 H4. unfold nuc. rewrite (abs_eff _ _ _ H H2 H3 H4).
  by rewrite (eff_frame _ _ _ _ H CTec H1).
Qed.

#[export] Instance keeps_nuc {A} (m : M A) : Eff [CDisp; CWifi; CSys] quietos m -> Keeps nuc m.
Proof.
  intros Hm w a w' H. apply (nuc_eff _ _ _ (Hm _ _ _ H));
    apply (proj1 (bool_decide_eq_true _)); reflexivity.
Qed.

(** ** Rules *)
Variables (m : mef_st) (db : list PinUsuario_t) (g : scan_st) (d : drv) (t : teclado_st).
Abbreviation C := (mkC m db g d, t).

Lemma tri_mod_mef f (Q : unit -> cerradura * teclado_st -> Prop) :
  Q tt (mkC (f m) db g d, t) -> tri nuc C (mod_mef f) Q.
Proof. intros H. apply tri_modify. intros w [= <- <- <- <- <-]. exact H. Qed.
Lemma tri_mod_db f (Q : unit -> cerradura * teclado_st -> Prop) :
  Q tt (mkC m (f db) g d, t) -> tri nuc C (mod_db f) Q.
Proof. intros H. apply tri_modify. intros w [= <- <- <- <- <-]. exact H. Qed.
Lemma tri_mod_scan f (Q : unit -> cerradura * teclado_st -> Prop) :
  Q tt (mkC m db (f g) d, t) -> tri nuc C (mod_scan f) Q.
Proof. intros H. apply tri_modify. intros w [= <- <- <- <- <-]. exact H. Qed.
Lemma tri_gets_mef (Q : mef_st -> cerradura * teclado_st -> Prop) :
  Q m C -> tri nuc C (gets mef) Q.
Proof. intros H. apply tri_gets. intros w [= <- <- <- <- <-]. exact H. Qed.
Lemma tri_gets_db (Q : list PinUsuario_t -> cerradura * teclado_st -> Prop) :
  Q db C -> tri nuc C (gets listaPins) Q.
Proof. intros H. apply tri_gets. intros w [= <- <- <- <- <-]. exact H. Qed.
Lemma tri_gets_scan (Q : scan_st -> cerradura * teclado_st -> Prop) :
  Q g C -> tri nuc C (gets g_scan) Q.
Proof. intros H. apply tri_gets. intros w [= <- <- <- <- <-]. exact H. Qed.
Lemma tri_ir_a e (Q : unit -> cerradura * teclado_st -> Prop) :
  Q tt (mkC (set_estado e m) db g d, t) -> tri nuc C (ir_a e) Q.
Proof. apply tri_mod_mef. Qed.
Lemma tri_presencia (Q : unit -> cerradura * teclado_st -> Prop) :
  (forall x, Q tt (mkC (set_presencia x m) db g d, t)) -> tri nuc C registrarPresencia Q.
Proof. intros H. unfold registrarPresencia. tri_step. tri_step. apply tri_mod_mef, H. Qed.
Lemma tri_mover dir (Q : unit -> cerradura * teclado_st -> Prop) :
  en_reposo d -> Q tt (mkC m db g (mover dir d), t) -> tri nuc C (step_move dir) Q.
Proof.
  intros Hd H w a w' Hw Hr. rewrite step_move_tras in Hr. injection Hr as [] <-.
  injection Hw as <- <- <- Hdr <-. unfold nuc, abs, tras.
  cbn [mef listaPins g_scan hw trace tec set_hw].
  rewrite driver_app, Hdr, driver_motor by done. exact H.
Qed.
Lemma tri_abrir (Q : unit -> cerradura * teclado_st -> Prop) :
  en_reposo d -> Q tt (mkC m db g (mover true d), t) -> tri nuc C abrirCerradura Q.
Proof. apply tri_mover. Qed.
Lemma tri_cerrar (Q : unit -> cerradura * teclado_st -> Prop) :
  en_reposo d -> Q tt (mkC m db g (mover false d), t) -> tri nuc C cerrarCerradura Q.
Proof. apply tri_mover. Qed.
Lemma tri_reset (Q : unit -> cerradura * teclado_st -> Prop) :
  (forall t', tec_ok t' -> Q tt (mkC m db g d, t')) -> tri nuc C tecladoReset Q.
Proof.
  intros H. apply tri_modify. intros w [= <- <- <- <- <-]. apply H, tec_ok_reset.
Qed.

(** *** The keypad *)
Lemma tri_leerPin pin x :
  tec_ok t ->
  tri nuc C (leerPin pin x) (fun r c' => exists t', c' = (mkC m db g d, t') /\ tec_ok t' /\
    (r.1.1 = 1 /\ pin_ok r.1.2 \/ r.1.1 <> 1 /\ r.1.2 = pin)).
Proof.
  intros Ht. unfold leerPin. apply tri_bind. intros w [[r p] u] w' Hw H.
  assert (Hok : tec_ok (tec w)) by (injection Hw as _ _ _ _ ->; done).
  destruct (tecladoLeerPin_muestra _ _ _ _ _ _ _ Hok H) as (k & w1 & e & _ & _ & _ & Hr & Ht' & Hp).
  assert (Ha : abs w' = abs w).
  { eapply (abs_eff _ _ [CTec; CDisp]);
      [|apply (proj1 (bool_decide_eq_true _)); reflexivity ..].
    eapply eff_rel_weaken; [| |exact (tecladoLeerPin_eff [CTec; CDisp] (KI2c :: row_kinds)
      pin (Some x) eq_refl eq_refl _ _ _ H)]; apply _. }
  apply tri_ret. exists (tec w'). unfold nuc. rewrite Ha. injection Hw as <- <- <- <- _.
  split; [done|]. split; [done|]. simpl. destruct e as [| |q]; injection Hr as -> ->.
  - by right.
  - by right.
  - left. split; [done|]. by apply Hp.
Qed.

Lemma tri_tecla :
  tec_ok t ->
  tri nuc C tecladoLeerTecla (fun _ c' => exists t', c' = (mkC m db g d, t') /\ tec_ok t').
Proof.
  intros Ht w a w' Hw H. exists (tec w').
  assert (Ha : abs w' = abs w).
  { eapply (abs_eff _ _ [CTec]); [|apply (proj1 (bool_decide_eq_true _)); reflexivity ..].
    eapply eff_rel_weaken; [| |exact (tecladoLeerTecla_eff [CTec] row_kinds
      eq_refl eq_refl _ _ _ H)]; apply _. }
  unfold nuc. rewrite Ha. injection Hw as <- <- <- <- Htec. split; [done|].
  subst. by eapply tecladoLeerTecla_ok.
Qed.

(** *** The fingerprint scan *)
Lemma tri_scan_any {A} (p : M A) (Q : A -> cerradura * teclado_st -> Prop) :
  Eff [CScan; CDisp] quietos p -> (forall a g', Q a (mkC m db g' d, t)) -> tri nuc C p Q.
Proof.
  intros Hp HQ w a w' Hw H. destruct (Hp _ _ _ H) as [Hf (tr & Ht & Hk) _].
  assert (Hn : nuc w' = (mkC m db (g_scan w') d, t)).
  { unfold nuc, abs. injection Hw as <- <- <- <- <-.
    rewrite Ht, driver_app, driver_quiet.
    - pose proof (Hf CMef) as H1. pose proof (Hf CDb) as H2. pose proof (Hf CTec) as H3.
      simpl in H1, H2, H3. rewrite H1, H2, H3;
        [done|apply (proj1 (bool_decide_eq_true _)); reflexivity ..].
    - eapply Forall_impl; [exact Hk|]. intros e. apply quietos_no_motor. }
  rewrite Hn. apply HQ.
Qed.
End Nucleo.

Ltac scan_step :=
  match goal with
  | |- tri _ _ (mbind _ _) _ => apply tri_bind
  | |- tri _ _ (mret _) _ => apply tri_ret
  | |- tri _ _ (gets g_scan) _ => apply tri_gets_scan
  | |- tri _ _ (if ?b then _ else _) _ => destruct b
  | |- tri _ _ _ _ => apply tri_scan_any; [solve [apply _]|intros]
  end.

Section Escaneo.
Context {E : Env}.

Lemma tri_scan_step m db g d t i s :
  tri nuc (mkC m db g d, t) (as608ScanStep i s) (fun r c' =>
    exists g', c' = (mkC m db g' d, t) /\
    match r.1.1 with
    | AS608_SCAN_MATCH => st g = ST_DONE_MATCH /\ r.1.2 = lastId g /\ g' = set_st ST_IDLE g
    | AS608_SCAN_NOMATCH => st g = ST_DONE_NOMATCH /\ g' = set_st ST_IDLE g
    | _ => st g <> ST_DONE_MATCH
    end).
Proof.
  unfold as608ScanStep. scan_step. scan_step.
  destruct (st g) eqn:Hst;
    [.. | scan_step; apply tri_mod_scan; scan_step; eauto
        | scan_step; scan_step; apply tri_mod_scan; scan_step; scan_step; eauto | ];
    unfold scan_wait_getimage, scan_predly, scan_wait_image2tz, scan_wait_search;
    repeat scan_step; eauto; eexists; split; try reflexivity; try done.
Qed.

(** *** Synchronisation *)
Lemma espHTTPGetPins_ok n w us w' :
  espHTTPGetPins n w = Ret us w' -> (length us <= n)%nat /\ Forall usuario_ok us.
Proof.
  assert (H0 : (length (@nil PinUsuario_t) <= n)%nat /\ Forall usuario_ok [])
    by (split; [simpl; lia|constructor]).
  unfold espHTTPGetPins. destruct (Nat.eqb_spec n 0); [by intros [= <- _]|].
  intros (r & w1 & _ & [= <- _])%bind_Ret. destruct r as [resp|]; [|done].
  destruct (extraerJSON _) as [[json len]|]; [|done].
  destruct (parsearJSONPins_acotado json len n) as [H1 H2]. split; [done|].
  eapply Forall_impl; [exact H2|]. by intros u [].
Qed.

Lemma tri_sincronizar m db g d t :
  tri nuc (mkC m db g d, t) sincronizarConServidor (fun v c' =>
    v = 0 /\ (exists db', sincronizada db' /\ c' = (mkC m db' g d, t)) \/
    v = 1 /\ c' = (mkC m db g d, t)).
Proof.
  unfold sincronizarConServidor. do 6 tri_step. apply tri_bind.
  eapply tri_conseq.
  { apply (tri_and _ _ _ (fun us c' => c' = (mkC m db g d, t))
      (fun us _ => (length us <= MAX_PINS)%nat /\ Forall usuario_ok us)).
    - apply tri_keep; [apply _|done].
    - intros w us w' _ H. by eapply espHTTPGetPins_ok. }
  intros us c' [-> [Hlen Hok]]. tri_step. tri_step. tri_step.
  destruct (Z.ltb_spec 0 (Z.of_nat (length us))) as [Hpos|Hz].
  - tri_step. apply tri_modify. intros w [= <- <- <- <- <-]. repeat tri_step.
    left. split; [done|]. eexists. split; [|done].
    exists us. repeat split; try done. by intros ->.
  - repeat tri_step. by right.
Qed.
End Escaneo.

(** Symbolic execution of the state machine's functions. *)
Ltac nuc_step :=
  match goal with
  | |- tri _ _ (mbind _ _) _ => apply tri_bind
  | |- tri _ _ (mret _) _ => apply tri_ret
  | |- tri _ _ (gets mef) _ => apply tri_gets_mef
  | |- tri _ _ (gets listaPins) _ => apply tri_gets_db
  | |- tri _ _ (gets g_scan) _ => apply tri_gets_scan
  | |- tri _ _ (mod_mef _) _ => apply tri_mod_mef
  | |- tri _ _ (mod_db _) _ => apply tri_mod_db
  | |- tri _ _ (ir_a _) _ => apply tri_ir_a
  | |- tri _ _ registrarPresencia _ => apply tri_presencia; intros
  | |- tri _ _ abrirCerradura _ => apply tri_abrir; [assumption|]
  | |- tri _ _ cerrarCerradura _ => apply tri_cerrar; [assumption|]
  | |- tri _ _ tecladoReset _ => apply tri_reset; intros
  | |- tri _ _ (access _) _ => apply tri_access; intros
  | |- tri _ _ (when ?b _) _ =>
      lazymatch b with
      | negb OMITIR_MOTOR => cbn [when negb OMITIR_MOTOR]
      | _ => apply tri_when; intros ?Hb
      end
  | |- tri _ _ (match ?x with _ => _ end) _ => let H := fresh "Hb" in destruct x eqn:H
  | |- tri _ _ _ _ => apply tri_keep; [solve [apply _]|intros]
  end.
Ltac nuc_run := repeat nuc_step.

Section Estados.
Context {E : Env}.
#[local] Set Default Proof Using "Type*".
Variables (m : mef_st) (db : list PinUsuario_t) (g : scan_st) (d : drv) (t : teclado_st).
Hypothesis (Ht : tec_ok t) (Hd : en_reposo d).

Definition paso_post (c' : cerradura * teclado_st) : Prop := paso m db g d c'.1 /\ tec_ok c'.2.

Lemma ref_rfid :
  estadoActual m = VALIDAR_RFID ->
  tri nuc (mkC m db g d, t) validar_rfid (fun _ => paso_post).
Proof.
  intros He. unfold validar_rfid. nuc_run.
  - split; [|done]. by eapply paso_rfid_abre.
  - split; [|done]. by eapply paso_rfid_rechaza.
Qed.

Lemma ref_validar :
  estadoActual m = VALIDAR ->
  tri nuc (mkC m db g d, t) validar (fun _ => paso_post).
Proof.
  intros He. unfold validar, pin_denegado. nuc_run.
  1,2: split; [by apply paso_pin_abre|done].
  all: split; [|done]; pose proof (paso_pin_rechaza m db g d He Hb) as Hpaso;
    unfold siguiente_intento in Hpaso; simpl in Hb0; rewrite Hb0 in Hpaso; exact Hpaso.
Qed.

Lemma ref_sensor :
  estadoActual m = SENSOR_CIERRE ->
  tri nuc (mkC m db g d, t) sensor_cierre (fun _ => paso_post).
Proof.
  intros He. unfold sensor_cierre. cbn [OMITIR_SENSOR_CIERRE]. nuc_run.
  - split; [by apply paso_cierra|done].
  - split; [apply paso_igual; auto|done].
Qed.

Lemma ref_huella :
  estadoActual m = LEER_Y_VALIDAR_HUELLA ->
  tri nuc (mkC m db g d, t) leer_y_validar_huella (fun _ => paso_post).
Proof.
  intros He. unfold leer_y_validar_huella. apply tri_bind.
  eapply tri_conseq; [apply tri_scan_step|].
  intros [[s id] sc] c' (g' & -> & Hs). simpl in Hs.
  assert (Hno : st g <> ST_DONE_MATCH -> ~ huella_conocida db g) by (by intros ? []).
  destruct s; nuc_run; split; try done.
  1,2: by apply (paso_huella_sigue _ _ _ _ (escaneoActivo m)), Hno.
  - destruct Hs as (Hst & -> & ->). by apply paso_huella_abre.
  - destruct Hs as (Hst & -> & ->). apply (paso_huella_sigue _ _ _ _ (escaneoActivo m)); [done|].
    intros [_ Hv]. congruence.
  - destruct Hs as (Hst & ->). by apply paso_huella_rechaza.
  - by apply (paso_huella_sigue _ _ _ _ false), Hno.
  - by apply (paso_huella_sigue _ _ _ _ false), Hno.
Qed.

(** *** Sleep *)
Lemma ref_reposo :
  estadoActual m = REPOSO ->
  tri nuc (mkC m db g d, t) reposo (fun _ => paso_post).
Proof.
  intros He. unfold reposo, entrarModoSleep. apply tri_bind, tri_bind.
  apply (tri_conseq _ _ _ _ (fun _ c' => exists ev, c' = (mkC (set_evento ev m) db g d, t))).
  { unfold dormir, adormecer, despertar, irq_point, WFI, GPIO0_IRQHandler. nuc_run; eauto. }
  intros _ c' [ev ->]. nuc_step. nuc_step. unfold actualizarVersion. nuc_step.
  - nuc_run. split; [by apply paso_despertar|done].
  - nuc_step. nuc_step. nuc_step; [|nuc_run; split; [by apply paso_despertar|done]].
    do 4 nuc_step. apply tri_bind. eapply tri_conseq; [apply tri_sincronizar|].
    intros v c' [[-> (db' & Hdb & ->)]|[-> ->]]; cbn [when Z.eqb]; nuc_run.
    + split; [by eapply paso_actualizar|done].
    + split; [by apply paso_despertar|done].
Qed.

(** *** The idle state *)
Lemma tri_pedirPinAdmin :
  tri nuc (mkC m db g d, t) pedirPinAdmin (fun ok c' => exists t', c' = (mkC m db g d, t') /\
    tec_ok t' /\ (ok = true -> maestro db)).
Proof using Ht.
  unfold pedirPinAdmin. nuc_step. nuc_step. nuc_step. nuc_step.
  apply (tri_loop _ (fun _ c' => exists t', c' = (mkC m db g d, t') /\ tec_ok t')); [eauto|].
  clear Ht. intros [pin x] c (t1 & -> & Ht). nuc_step. nuc_step. nuc_step; [|nuc_step; by exists t1].
  nuc_step. eapply tri_conseq; [by apply tri_leerPin|].
  intros [[res pin'] y] c' (t2 & -> & Ht2 & Hr). simpl in Hr.
  destruct (Z.eqb_spec res 1) as [->|Hne].
  - nuc_run. exists t2. do 2 (split; [done|]). intros Hm. exists pin'. split; [|done].
    by destruct Hr as [[_ ?]|[? _]].
  - nuc_run; exists t2; done.
Qed.

End Estados.

Section Espera.
Context {E : Env}.
Variables (m : mef_st) (db : list PinUsuario_t) (g : scan_st) (d : drv).
Hypothesis (He : estadoActual m = ESPERANDO_ACCION).
#[local] Set Default Proof Using "Type*".
(** the state once the presence flag is cleared *)
Abbreviation m0 x := (set_presencia x (set_evento false m)).

Lemma ref_accesoAdmin x t :
  tec_ok t -> tri nuc (mkC (m0 x) db g d, t) accesoAdmin (fun _ => paso_post m db g d).
Proof.
  intros Ht. unfold accesoAdmin. nuc_step. nuc_step. nuc_step.
  eapply tri_conseq; [by apply tri_pedirPinAdmin|]. intros ok c' (t1 & -> & Ht1 & Hok).
  destruct ok; nuc_run; (split; [|done]).
  - apply (paso_admin m db g d _ He). by apply Hok.
  - by apply (paso_espera m db g d _ He).
Qed.

Lemma ref_sondear x t :
  tec_ok t -> tri nuc (mkC (m0 x) db g d, t) sondearSensores (fun _ => paso_post m db g d).
Proof.
  intros Ht. unfold sondearSensores. nuc_step. apply (result_tri _ _ _ _ _ (leer_rfid_str_result 10)).
  nuc_step. destruct a as [s|].
  - nuc_run. split; [|done]. apply (paso_tarjeta m db g d x0 s); auto.
  - nuc_step. nuc_step. nuc_step. apply (tri_conseq _ _ _ _ (fun b c' =>
      c' = (mkC (m0 x) db g d, t) /\ (escaneoActivo m = true -> b = false))).
    { destruct (escaneoActivo (m0 x)) eqn:Hs; simpl in Hs; rewrite Hs; simpl negb; cbv iota;
        nuc_run; split; try done. }
    intros toca c' [-> Htoca]. nuc_step. nuc_step.
    + unfold as608ScanReset. nuc_step. apply tri_mod_scan. nuc_run.
      * split; [|done]. apply (paso_huella m db g d x (s32 a)); auto.
      * done.
    + nuc_run.
      * split; [|done].
        assert (Heq : m0 x = set_agenda (agendaHuella m) (set_escaneo true (m0 x)))
          by (destruct m; simpl in *; subst; done).
        rewrite Heq. apply (paso_huella m db g d x (agendaHuella m) g He). by left.
      * split; [|done]. by apply (paso_espera m db g d _ He).
Qed.

Lemma ref_esperando t :
  tec_ok t -> tri nuc (mkC m db g d, t) esperando_accion (fun _ => paso_post m db g d).
Proof.
  intros Ht. unfold esperando_accion. nuc_step. nuc_step. nuc_step.
  apply (tri_conseq _ _ _ _ (fun _ c' => exists x, c' = (mkC (m0 x) db g d, t))).
  { nuc_run; [by eexists|]. exists (ultimaPresencia m). destruct m; simpl in *; subst; done. }
  intros _ c' [x ->]. do 7 nuc_step. nuc_step. nuc_step.
  eapply tri_conseq; [by apply tri_leerPin|].
  intros [[res pin] y] c' (t1 & -> & Ht1 & Hr). simpl in Hr. nuc_step. nuc_step.
  destruct Hr as [[-> Hp]|[Hne Hp]].
  - change (1 =? 1) with true. cbv iota. nuc_run. split; [|done]. by apply (paso_pin m db g d _ pin He).
  - rewrite (proj2 (Z.eqb_neq res 1) Hne).
    change (set_presencia y (set_pin pin (m0 x))) with (set_pin pin (m0 y)).
    assert (Heq : set_pin pin (m0 y) = m0 y) by (subst; by destruct m). rewrite Heq.
    destruct (res =? -1); [by apply ref_accesoAdmin|].
    nuc_step. nuc_step. nuc_step; [|by apply ref_sondear].
    nuc_step. split; [|done]. by apply (paso_dormir m db g d _ He).
Qed.
End Espera.

(** *** The administrator's menu *)
Section Menu.
Context {E : Env}.
Variables (m : mef_st) (db : list PinUsuario_t) (g : scan_st) (d : drv).

(** the same state, the keypad's variables apart *)
Definition mismo (c' : cerradura * teclado_st) : Prop :=
  exists t', c' = (mkC m db g d, t') /\ tec_ok t'.

Lemma tri_leerOpcion t : tec_ok t -> tri nuc (mkC m db g d, t) leerOpcion (fun _ => mismo).
Proof.
  intros Ht. unfold leerOpcion. apply (tri_loop _ (fun _ => mismo)); [by exists t|].
  clear t Ht. intros _ c (t & -> & Ht). nuc_step. eapply tri_conseq; [by apply tri_tecla|].
  intros k c' (t1 & -> & Ht1). nuc_step. nuc_step. nuc_step.
  destruct k as [c|]; [destruct (ord c =? 0)|]; by exists t1.
Qed.

Lemma tri_leerSubOpcion t :
  tec_ok t -> tri nuc (mkC m db g d, t) leerSubOpcion (fun _ => mismo).
Proof.
  intros Ht. unfold leerSubOpcion. nuc_step. nuc_step.
  apply (tri_loop _ (fun _ => mismo)); [by exists t|].
  clear t Ht. intros _ c (t & -> & Ht). nuc_step. nuc_step. nuc_step; [|nuc_step; by exists t].
  nuc_step. eapply tri_conseq; [by apply tri_tecla|].
  intros k c' (t1 & -> & Ht1). nuc_step. nuc_step. nuc_step.
  destruct k as [c|]; [destruct (_ || _)|]; by exists t1.
Qed.

Lemma tri_pedirPinEn l t :
  tec_ok t -> tri nuc (mkC m db g d, t) (pedirPinEn l) (fun r c' =>
    mismo c' /\ if r.1 : bool then pin_ok r.2 else r.2 = []).
Proof.
  intros Ht. unfold pedirPinEn. nuc_step. nuc_step.
  apply (tri_loop _ (fun s c => mismo c /\ s.1 = [])); [split; [by exists t|done]|].
  clear t Ht. intros [pin x] c [(t & -> & Ht) Hpin]. simpl in Hpin. subst pin.
  nuc_step. eapply tri_conseq; [by apply tri_leerPin|].
  intros [[res pin] y] c' (t1 & -> & Ht1 & Hr). simpl in Hr. destruct Hr as [[-> Hp]|[Hne ->]].
  - change (1 =? 1) with true. cbv iota. nuc_step. split; [by exists t1|done].
  - rewrite (proj2 (Z.eqb_neq res 1) Hne). nuc_step. nuc_step. nuc_step; nuc_run;
      (split; [by exists t1|done]).
Qed.

Hypothesis (He : estadoActual m = MENU_ADMIN).

Definition tras_borrar (c' : cerradura * teclado_st) : Prop :=
  exists db' t', c' = (mkC m db' g d, t') /\ tec_ok t' /\ borrado db db'.

Lemma tri_borrarTodas t :
  tec_ok t -> tri nuc (mkC m db g d, t) borrarTodas (fun _ => tras_borrar).
Proof.
  intros Ht. unfold borrarTodas. nuc_run; eexists _, t; (split; [done|split; [done|constructor]]).
Qed.

Lemma tri_borrarUna t :
  tec_ok t -> tri nuc (mkC m db g d, t) borrarUna (fun _ => tras_borrar).
Proof.
  intros Ht. unfold borrarUna, huellaABorrar. nuc_step. nuc_step. nuc_step.
  eapply tri_conseq; [by apply tri_pedirPinEn|]. intros [b pin] c' [(t1 & -> & Ht1) _].
  do 4 nuc_step.
  - nuc_run; eexists _, t1; (split; [done|split; [done|]]); by constructor.
  - nuc_run; eexists _, t1; (split; [done|split; [done|]]); by constructor.
Qed.

Lemma ref_opcion_borrar t :
  tec_ok t -> tri nuc (mkC m db g d, t) opcion_borrar (fun _ => paso_post m db g d).
Proof using He.
  intros Ht. unfold opcion_borrar. nuc_step. nuc_step. nuc_step.
  eapply tri_conseq; [by apply tri_pedirPinEn|]. intros [b pin] c' [(t1 & -> & Ht1) Hp].
  simpl in Hp. nuc_step. nuc_step.
  destruct (negb b || negb (esPinMaster db pin)) eqn:Hb.
  - nuc_run. split; [|done]. apply paso_igual. auto.
  - assert (Hm : maestro db).
    { apply orb_false_elim in Hb as [Hb Hm]. destruct b; [|done].
      exists pin. split; [done|]. by destruct (esPinMaster db pin). }
    nuc_step. nuc_step. nuc_step. eapply tri_conseq; [by apply tri_leerSubOpcion|].
    intros o c' (t2 & -> & Ht2). nuc_step.
    apply (tri_conseq _ _ _ _ (fun _ => tras_borrar)).
    + destruct o as [c|]; [destruct (ord c =? 49)|].
      * by apply tri_borrarTodas.
      * by apply tri_borrarUna.
      * nuc_step. exists db, t2. split; [done|]. split; [done|constructor].
    + intros _ c' (db' & t3 & -> & Ht3 & Hb'). nuc_run. split; [|done].
      by apply (paso_menu_borra m db g d _ _ He).
Qed.

Lemma ref_menu t :
  tec_ok t -> tri nuc (mkC m db g d, t) menu_admin (fun _ => paso_post m db g d).
Proof using He.
  intros Ht. unfold menu_admin. nuc_step. nuc_step. nuc_step.
  eapply tri_conseq; [by apply tri_leerOpcion|]. intros o c' (t1 & -> & Ht1).
  nuc_step; [nuc_step; split; [apply paso_menu; auto|done]|].
  nuc_step; [nuc_step; split; [apply paso_menu; auto|done]|].
  nuc_step; [unfold opcion_wifi; nuc_run; (split; [by apply paso_menu_vuelve|done])|].
  nuc_step; [by apply ref_opcion_borrar|].
  nuc_step; [|nuc_run; (split; [by apply paso_menu_vuelve|done])].
  nuc_step. eapply tri_conseq; [apply tri_sincronizar|].
  intros v c' [[-> (db' & Hdb & ->)]|[-> ->]]; nuc_run; (split; [|done]).
  - by apply paso_menu_sincroniza.
  - by apply paso_menu_vuelve.
Qed.
End Menu.

(** *** Registration *)
Section Registro.
Context {E : Env}.
Variables (m : mef_st) (db : list PinUsuario_t) (g : scan_st) (d : drv).

(** still at it, or back to the idle state *)
Definition en_curso (c' : cerradura * teclado_st) : Prop := mismo m db g d c'.
Definition dejado (c' : cerradura * teclado_st) : Prop :=
  exists x t', c' = (mkC (set_estado ESPERANDO_ACCION (set_presencia x m)) db g d, t') /\
               tec_ok t'.

Definition pin_o_nada (pin : list ascii) : Prop := pin = [] \/ pin_ok pin.

(** in both situations the rules apply to the state *)
Definition activa (m' : mef_st) : Prop :=
  m' = m \/ exists x, m' = set_estado ESPERANDO_ACCION (set_presencia x m).
Lemma activa_estado c :
  en_curso c \/ dejado c <->
  exists m' t, c = (mkC m' db g d, t) /\ tec_ok t /\ activa m'.
Proof.
  split.
  - intros [(t & -> & Ht)|(x & t & -> & Ht)]; eexists _, t; (split; [done|split; [done|]]).
    + by left.
    + right. by exists x.
  - intros (m' & t & -> & Ht & [->|[x ->]]); [left; by exists t|right; by exists x, t].
Qed.
Lemma activa_dejado m' x t :
  activa m' -> tec_ok t ->
  dejado (mkC (set_estado ESPERANDO_ACCION (set_presencia x m')) db g d, t).
Proof. intros [->|[y ->]] Ht; by exists x, t. Qed.

Lemma tri_teclearPin pin x c :
  en_curso c \/ dejado c -> pin_o_nada pin ->
  tri nuc c (teclearPin pin x) (fun r c' =>
    (en_curso c' /\ pin_ok r.1) \/ (dejado c' /\ pin_o_nada r.1)).
Proof.
  intros Hc Hp. unfold teclearPin.
  apply (tri_loop _ (fun s c => (en_curso c \/ dejado c) /\ pin_o_nada s.1)); [done|].
  clear pin x c Hc Hp. intros [pin x] c [Hc Hp]. simpl in Hp.
  apply activa_estado in Hc as (m' & t & -> & Ht & Hm').
  nuc_step. eapply tri_conseq; [by apply tri_leerPin|].
  intros [[res pin'] z] c' (t1 & -> & Ht1 & Hr). simpl in Hr.
  assert (Hdone : en_curso (mkC m' db g d, t1) \/ dejado (mkC m' db g d, t1))
    by (apply activa_estado; eauto).
  destruct Hr as [[-> Hok]|[Hne ->]].
  - change (1 =? 1) with true. cbv iota. nuc_step. simpl.
    destruct Hdone; [by left|right; split; [done|by right]].
  - rewrite (proj2 (Z.eqb_neq res 1) Hne). nuc_step. nuc_step. nuc_step.
    + unfold abandonar. nuc_run. right. split; [|done]. by apply activa_dejado.
    + nuc_run. by split.
Qed.

Lemma tri_pedirPinUsuario t :
  tec_ok t ->
  tri nuc (mkC m db g d, t) pedirPinUsuario (fun pin c' =>
    (en_curso c' /\ pin_ok pin /\ validarPin db pin = true) \/ dejado c').
Proof.
  intros Ht. unfold pedirPinUsuario. nuc_step. nuc_step.
  apply (tri_loop _ (fun s c => (en_curso c \/ dejado c) /\ pin_o_nada s.1.2));
    [split; [left; by exists t|by left]|].
  clear t Ht. intros [[n pin] x] c [Hc Hp]. simpl in Hp.
  pose proof (proj1 (activa_estado c) Hc) as (m' & t & -> & Ht & Hm').
  nuc_step. nuc_step. nuc_step. eapply tri_conseq; [by apply tri_teclearPin|].
  intros [pin' y] c' Hc'. simpl in Hc'.
  assert (Hac : en_curso c' \/ dejado c') by (destruct Hc' as [[]|[]]; auto).
  assert (Hpin : pin_o_nada pin') by (destruct Hc' as [[]|[]]; [by right|done]).
  pose proof (proj1 (activa_estado c') Hac) as (m1 & t1 & -> & Ht1 & Hm1).
  nuc_step. nuc_step. nuc_step.
  - nuc_step. destruct Hc' as [[]|[]]; [by left|by right].
  - unfold abandonar. nuc_run.
    + right. by apply activa_dejado.
    + done.
Qed.

Lemma tri_abandonado m' t :
  tri nuc (mkC m' db g d, t) abandonado (fun b c' =>
    c' = (mkC m' db g d, t) /\ b = bool_decide (estadoActual m' = ESPERANDO_ACCION)).
Proof. unfold abandonado. nuc_run. done. Qed.

Hypothesis (He : estadoActual m = REGISTRAR_RFID \/ estadoActual m = REGISTRAR_HUELLA).

Lemma dejado_paso c' : dejado c' -> paso_post m db g d c'.
Proof using He. intros (x & t & -> & Ht). split; [by apply paso_abandona|done]. Qed.

(** after the PIN: given up, or the rest of the state with a valid PIN *)
Lemma tri_tras_pin {A} (k : list ascii -> M A) t (Q : A -> cerradura * teclado_st -> Prop) (dflt : A) :
  tec_ok t ->
  (forall c', dejado c' -> Q dflt c') ->
  (forall pin t', tec_ok t' -> pin_ok pin -> validarPin db pin = true ->
     tri nuc (mkC m db g d, t') (k pin) Q) ->
  tri nuc (mkC m db g d, t)
    (pin ← pedirPinUsuario; fin ← abandonado; if fin : bool then mret dflt else k pin) Q.
Proof using He.
  intros Ht Hdej Hk. nuc_step. eapply tri_conseq; [by apply tri_pedirPinUsuario|].
  intros pin c' [[(t1 & -> & Ht1) [Hp Hv]]|(x & t1 & -> & Ht1)].
  - nuc_step. eapply tri_conseq; [apply tri_abandonado|]. intros b c' [-> ->].
    rewrite bool_decide_eq_false_2 by (intros Hx; rewrite Hx in He; by destruct He).
    by apply Hk.
  - nuc_step. eapply tri_conseq; [apply tri_abandonado|]. intros b c' [-> ->].
    rewrite bool_decide_eq_true_2 by done. nuc_step. apply Hdej. by exists x, t1.
Qed.

Lemma tri_esperarTarjeta t :
  tec_ok t ->
  tri nuc (mkC m db g d, t) esperarTarjeta (fun _ c' =>
    (exists r, uid_ok r /\ c' = (mkC (set_leido r m) db g d, t)) \/ dejado c').
Proof.
  intros Ht. unfold esperarTarjeta. do 6 nuc_step.
  apply (tri_loop _ (fun _ c => c = (mkC m db g d, t))); [done|]. intros _ c ->.
  nuc_step. apply (result_tri _ _ _ _ _ (leer_rfid_str_result 10)). nuc_step.
  unfold abandonar. nuc_run.
  - left. eauto.
  - right. by apply activa_dejado; [left|].
  - done.
Qed.
End Registro.

Section Registros.
Context {E : Env}.
Variables (m : mef_st) (db : list PinUsuario_t) (g : scan_st) (d : drv).

Lemma ref_registrar_rfid t :
  estadoActual m = REGISTRAR_RFID -> tec_ok t ->
  tri nuc (mkC m db g d, t) registrar_rfid (fun _ => paso_post m db g d).
Proof.
  intros He Ht. assert (He' : estadoActual m = REGISTRAR_RFID \/ estadoActual m = REGISTRAR_HUELLA)
    by auto.
  unfold registrar_rfid. do 4 nuc_step. apply tri_tras_pin; [done..| |].
  { intros c' Hc. by eapply dejado_paso. }
  intros pin t1 Ht1 Hpin Hv. nuc_step. eapply tri_conseq; [by apply tri_esperarTarjeta|].
  intros _ c' [(r & Hr & ->)|Hc].
  - nuc_step. eapply tri_conseq; [apply tri_abandonado|]. intros b c' [-> ->]. simpl.
    rewrite He. change (bool_decide (REGISTRAR_RFID = ESPERANDO_ACCION)) with false. cbv iota.
    assert (Hfin : forall a x t', asociarRFIDaPin db pin r = Some a -> tec_ok t' ->
      paso_post m db g d
        (mkC (set_estado ESPERANDO_ACCION (set_presencia x (set_leido r m))) a.2 g d, t')).
    { intros [b db'] x t' Ha Ht'. pose proof (asociarRFID_true _ _ _ _ _ Hv Ha) as ->.
      split; [|done]. by apply (paso_registra_rfid m db g d x pin r). }
    unfold abandonar. nuc_run; by apply Hfin.
  - destruct Hc as (x & t2 & -> & Ht2). nuc_step. eapply tri_conseq; [apply tri_abandonado|].
    intros b c' [-> ->]. rewrite bool_decide_eq_true_2 by done. nuc_step.
    split; [|done]. apply paso_abandona. auto.
Qed.

Lemma enrolar_result n :
  result (enrolar n) (fun o => forall s, o = Some s ->
    u16 n <= 163 /\ s = snprintf 5 (fmt_0 4 (u16 n))).
Proof.
  unfold enrolar. apply (tri_loop _ (fun _ _ => True)); [done|]. intros i [] _.
  tri_step; [|by tri_step]. tri_step.
  assert (Hen : result (as608EnrollAtId (u16 n)) (fun r => r.1 = true ->
    u16 n <= 163 /\ r.2 = snprintf 5 (fmt_0 4 (u16 n)))).
  { unfold result, as608EnrollAtId. repeat tri_step; simpl; try done.
    intros _. split; [|done]. by apply Z.ltb_ge. }
  eapply tri_conseq; [apply Hen|]. intros [ok out] [] Hok. simpl in Hok.
  destruct ok; [tri_step; intros s [= <-]; by apply Hok|]. repeat tri_step. done.
Qed.

Lemma ref_registrar_huella t :
  estadoActual m = REGISTRAR_HUELLA -> tec_ok t ->
  tri nuc (mkC m db g d, t) registrar_huella (fun _ => paso_post m db g d).
Proof.
  intros He Ht. assert (He' : estadoActual m = REGISTRAR_RFID \/ estadoActual m = REGISTRAR_HUELLA)
    by auto.
  unfold registrar_huella. do 2 nuc_step. apply tri_tras_pin; [done..| |].
  { intros c' Hc. by eapply dejado_paso. }
  intros pin t1 Ht1 Hpin Hv. do 4 nuc_step. destruct a0 as [found h].
  pose proof (obtener_true _ _ _ _ Hv H) as ->. unfold registrar_en. cbv zeta. do 15 nuc_step.
  apply (result_tri _ _ _ _ _ (enrolar_result _)). nuc_step. destruct a7 as [id|].
  - destruct (H0 id eq_refl) as [Hid ->].
    assert (Hfin : forall x t', tec_ok t' -> paso_post m db g d
      (mkC (set_presencia x (set_estado ESPERANDO_ACCION m))
           (asociarHuellaaPin db pin (snprintf 5
              (fmt_0 4 (u16 (s16 (u16 (atoi h))))))).2 g d, t')).
    { intros x t' Ht'. split; [|done].
      by apply (paso_registra_huella m db g d x pin h (u16 (s16 (u16 (atoi h))))). }
    nuc_run; by apply Hfin.
  - unfold abandonar. nuc_run. split; [|done]. by apply paso_abandona.
Qed.
End Registros.

(** ** The step *)
Section Paso.
Context {E : Env}.

Lemma tri_mefUpdate m db g d t :
  tec_ok t -> en_reposo d ->
  tri nuc (mkC m db g d, t) mefUpdate (fun _ => paso_post m db g d).
Proof.
  intros Ht Hd. unfold mefUpdate. nuc_step. nuc_step. destruct (estadoActual m) eqn:He.
  - by apply ref_reposo.
  - by apply ref_esperando.
  - by apply ref_huella.
  - by apply ref_rfid.
  - by apply ref_validar.
  - by apply ref_sensor.
  - nuc_step. split; [|done]. apply paso_igual. auto.
  - by apply ref_menu.
  - by apply ref_registrar_rfid.
  - by apply ref_registrar_huella.
Qed.
End Paso.
