(* ===== verification/Seguridad.v ===== *)
(** * What the lock guarantees

    The properties of the running firmware that follow from the refinement:
    who can open, the invariant of every reachable state, the failed-attempt
    count and the transitions. *)

From Stdlib Require Import ZArith Lia Bool Ascii String.
From Stdlib Require Import SpecFloat.
From stdpp Require Import base list strings numbers sets.
From stdpp Require Import options.
From S2P Require Import Prelude Machine Effects Triples Banco Sapi Display Cerrojo Teclado.
From S2P Require Import Usuarios Dobles EspAT As608 Rc522 Sincronizacion Mef Cerradura Refinamiento.

(** ** The abstract step *)

(** the states with a credential that will be found valid; for a card that is a tag, which
    [validar_rfid] asks for, not [validarRFID] *)
Definition autorizado (c : cerradura) : Prop :=
  estadoActual (c_mef c) = VALIDAR /\ validarPin (c_db c) (pinIngresado (c_mef c)) = true \/
  estadoActual (c_mef c) = VALIDAR_RFID /\
    (exists tag, obtenerTagPorRFID (c_db c) (rfid (c_mef c)) = Some tag) \/
  estadoActual (c_mef c) = LEER_Y_VALIDAR_HUELLA /\ huella_conocida (c_db c) (c_scan c).

(** The arrows between states. *)
Inductive arco : EstadoMEF_t -> EstadoMEF_t -> Prop :=
  | arco_mismo e : e <> REPOSO -> e <> VALIDAR -> e <> VALIDAR_RFID ->
      e <> LEER_Y_VALIDAR_HUELLA -> e <> REGISTRAR_RFID -> e <> REGISTRAR_HUELLA -> arco e e
  | arco_vuelve e : e <> BLOQUEADO -> arco e ESPERANDO_ACCION
  | arco_dormir : arco ESPERANDO_ACCION REPOSO
  | arco_pin : arco ESPERANDO_ACCION VALIDAR
  | arco_rfid : arco ESPERANDO_ACCION VALIDAR_RFID
  | arco_huella : arco ESPERANDO_ACCION LEER_Y_VALIDAR_HUELLA
  | arco_menu : arco ESPERANDO_ACCION MENU_ADMIN
  | arco_abre e : e = VALIDAR \/ e = VALIDAR_RFID \/ e = LEER_Y_VALIDAR_HUELLA -> arco e SENSOR_CIERRE
  | arco_registro e : e = REGISTRAR_RFID \/ e = REGISTRAR_HUELLA -> arco MENU_ADMIN e.

(** The invariant of the main loop. *)
Record invariante (c : cerradura) : Prop := {
  inv_drv : en_reposo (c_drv c);
  inv_pos : d_pos (c_drv c) =
            if decide (estadoActual (c_mef c) = SENSOR_CIERRE) then STEPS else 0;
  inv_db : tabla_ok (c_db c);
  inv_intentos : 0 <= intentosFallidos (c_mef c) < 3;
  inv_pin : estadoActual (c_mef c) = VALIDAR -> pin_ok (pinIngresado (c_mef c));
  inv_uid : estadoActual (c_mef c) = VALIDAR_RFID -> uid_ok (rfid (c_mef c));
  inv_bloqueado : estadoActual (c_mef c) <> BLOQUEADO
}.

Lemma en_reposo_mover b d : en_reposo (mover b d).
Proof. done. Qed.

Lemma paso_reposo c c' : paso_de c c' -> en_reposo (c_drv c) -> en_reposo (c_drv c').
Proof. intros []; done. Qed.

Lemma tabla_sincronizada db : sincronizada db -> tabla_ok db.
Proof.
  intros (us & _ & Hl & Hok & ->). apply tabla_actualizar; [done|]. lia.
Qed.
Lemma tabla_borrado db db' : borrado db db' -> tabla_ok db -> tabla_ok db'.
Proof.
  intros [| |p _] H; [done|by apply tabla_eliminarTodas|by apply tabla_eliminarHuella].
Qed.

Lemma siguiente_rango n : 0 <= n < 3 -> 0 <= siguiente_intento n < 3.
Proof.
  intros H. unfold siguiente_intento. rewrite s32_small by lia.
  destruct (Z.eqb_spec (n + 1) 3); lia.
Qed.

Lemma paso_invariante c c' : paso_de c c' -> invariante c -> invariante c'.
Proof.
  intros Hp [Hd Hpos Hdb Hn Hpin Huid Hb]. split.
  - by eapply paso_reposo.
  - destruct c as [m db g d]. unfold paso_de in Hp. simpl in *.
    destruct Hp; simpl in *; repeat case_decide; try congruence; try lia; intuition congruence.
  - destruct Hp; simpl in *; try done.
    + by apply tabla_sincronizada.
    + by eapply tabla_borrado.
    + by apply tabla_sincronizada.
    + by eapply tabla_asociarRFID.
    + by apply tabla_asociarHuella.
  - destruct Hp; simpl in *; try done. by apply siguiente_rango.
  - destruct Hp; simpl in *; try done; intuition congruence.
  - destruct Hp; simpl in *; try done; intuition congruence.
  - destruct Hp; simpl in *; try done; intuition congruence.
Qed.

(** what a step does to the bolt *)
Inductive movimiento (c c' : cerradura) : Prop :=
  | mov_abre : autorizado c -> c_drv c' = mover true (c_drv c) -> movimiento c c'
  | mov_cierra : ~ autorizado c -> estadoActual (c_mef c) = SENSOR_CIERRE ->
      estadoActual (c_mef c') = ESPERANDO_ACCION -> c_drv c' = mover false (c_drv c) ->
      movimiento c c'
  | mov_nada : ~ autorizado c -> c_drv c' = c_drv c -> movimiento c c'.

Lemma no_autorizado m db g d :
  estadoActual m <> VALIDAR -> estadoActual m <> VALIDAR_RFID ->
  estadoActual m <> LEER_Y_VALIDAR_HUELLA -> ~ autorizado (mkC m db g d).
Proof. intros ? ? ? [[]|[[]|[]]]; simpl in *; done. Qed.

Lemma paso_movimiento c c' : paso_de c c' -> movimiento c c'.
Proof.
  destruct c as [m db g d]. intros Hp. unfold paso_de in Hp. simpl in Hp.
  destruct Hp;
    try (apply mov_nada; [apply no_autorizado; intuition congruence|done]);
    try (apply mov_abre; [unfold autorizado; simpl; eauto|done]);
    try (apply mov_cierra; [apply no_autorizado; intuition congruence|done..]);
    apply mov_nada; try done; unfold autorizado; simpl;
    intros [[He' Hv]|[[He' [tag' Ht]]|[He' [Hg Hv]]]];
    first [congruence | match goal with Hn : ~ huella_conocida _ _ |- _ => by apply Hn end].
Qed.

Lemma paso_arco c c' :
  paso_de c c' -> arco (estadoActual (c_mef c)) (estadoActual (c_mef c')).
Proof.
  destruct c as [m db g d]. intros Hp. unfold paso_de in Hp. simpl in *.
  destruct Hp; simpl;
    repeat match goal with
    | He : estadoActual _ = _ \/ _ |- _ => destruct He
    | He : estadoActual _ = _ |- _ => rewrite He
    end; try (by constructor); constructor; auto.
Qed.

(** ** Start-up *)
Section Arranque.
Context {E : Env}.

Lemma tri_en_alto m db g d t (Q : unit -> cerradura * teclado_st -> Prop) :
  Q tt (mkC m db g (mkDrv false (d_abre d) (d_step d) (d_pos d)), t) ->
  tri nuc (mkC m db g d, t) (Chip_GPIO_SetPinState EN_GPIO_PORT EN_GPIO_PIN true) Q.
Proof.
  intros H. apply tri_modify. intros w [= <- <- <- <- <-]. exact H.
Qed.

Lemma tri_mefInit m db g d t :
  tabla_ok db -> tec_ok t ->
  tri nuc (mkC m db g d, t) mefInit (fun _ c' => exists x db' g',
    c' = (mkC (set_estado ESPERANDO_ACCION (set_presencia x m)) db' g' d, t) /\ tabla_ok db').
Proof.
  intros Hdb Ht. unfold mefInit. cbn [when ALERTAS_ENABLE SENSOR_WIFI_ENABLE SENSOR_HUELLA_ENABLE].
  nuc_run. apply tri_keep; [apply keeps_nuc; eff_solve|intros _].
  nuc_step. eapply tri_conseq; [apply tri_sincronizar|].
  assert (Hresto : forall db', tabla_ok db' ->
    tri nuc (mkC m db' g d, t) ((as608Init 0 ;; as608ScanReset) ;;
      configurarInterrupcionPRESENCIA ;; emit (EvNvic false) ;; rc522_hw_init ;;
      rc522_init_iso14443a ;;
      mensaje [($"CERRADURA ELECTRONICA", 20); ($"INICIADA", 35)] ;;
      delay 1000 ;; display_clear ;; registrarPresencia ;; ir_a ESPERANDO_ACCION)
      (fun _ c' => exists x db' g',
        c' = (mkC (set_estado ESPERANDO_ACCION (set_presencia x m)) db' g' d, t) /\
        tabla_ok db')).
  { intros db' Hdb'. unfold as608ScanReset. nuc_run. apply tri_mod_scan. nuc_run. eauto 10. }
  intros v c' [[-> (db' & Hs & ->)]|[-> ->]]; nuc_step; apply Hresto; [|done].
  by apply tabla_sincronizada.
Qed.

Lemma tri_arranque :
  tri nuc (mkC mef_inicial listaPins_inicial scan_zero drv0, mkTeclado [] 0 false 65535)
    arranque (fun _ c' => invariante c'.1 /\ tec_ok c'.2).
Proof.
  unfold arranque. do 4 nuc_step. unfold driverConfig. nuc_run. apply tri_en_alto.
  nuc_step. unfold tecladoInit. nuc_step. apply tri_keep; [apply _|intros].
  nuc_step. eapply tri_conseq; [apply tri_mefInit; [apply tabla_inicial|done]|].
  intros _ c' (x & db' & g' & -> & Hdb). split; [|done]. split; simpl; try done; try lia.
Qed.

(** between two calls of [mefUpdate]: the keypad's variables well-formed, the
    motor off *)
Definition en_marcha (w : world) : Prop := tec_ok (tec w) /\ en_reposo (c_drv (abs w)).

Lemma mefUpdate_post w w' :
  en_marcha w -> mefUpdate w = Ret tt w' ->
  paso_de (abs w) (abs w') /\ tec_ok (tec w').
Proof.
  intros [Ht Hd] H.
  exact (tri_mefUpdate (mef w) (listaPins w) (g_scan w) (driver drv0 (trace (hw w))) (tec w)
           Ht Hd w tt w' eq_refl H).
Qed.

Lemma tri_turnos (l : list unit) c t :
  invariante c -> tec_ok t ->
  tri nuc (c, t) (for_each l (fun _ => mefUpdate))
    (fun _ c' => invariante c'.1 /\ tec_ok c'.2).
Proof.
  revert c t. induction l as [|u l IH]; intros [m db g d] t Hi Ht; simpl.
  - by apply tri_ret.
  - apply tri_bind. eapply tri_conseq; [apply tri_mefUpdate; [done|apply Hi]|].
    intros _ [c' t'] [Hp Ht']. apply IH; [|done]. exact (paso_invariante (mkC m db g d) c' Hp Hi).
Qed.
End Arranque.

(** ** The firmware *)
Section Teoremas.
Context {E : Env}.

(** C2: every call of [mefUpdate] is a step of the abstract lock: whatever the
    peripherals answer, if the call returns, the state of the main machine, the user
    table, the fingerprint scan and the position of the bolt change as one of
    the transitions of [paso] says, and the keypad's variables stay well-formed. *)
Theorem mefUpdate_refines w w'
    (Hw : en_marcha w) (H : mefUpdate w = Ret tt w') :
  paso_de (abs w) (abs w') /\ tec_ok (tec w').
Proof. by apply mefUpdate_post. Qed.

(** C1: the bolt opens (one hundred steps in the opening direction) in exactly
    those calls that start with a credential checked and found valid: in [VALIDAR] the
    PIN of an active user; in [VALIDAR_RFID] a card whose first active owner in the table
    has a tag (the card of an active user without one is refused); in
    [LEER_Y_VALIDAR_HUELLA] a match of the scan with the fingerprint ID of an active
    user. In any other call it stays where it is, or closes from [SENSOR_CIERRE]. *)
Theorem apertura_autorizada w w'
    (Hw : en_marcha w) (H : mefUpdate w = Ret tt w') :
  (d_pos (c_drv (abs w')) = d_pos (c_drv (abs w)) + STEPS <-> autorizado (abs w)) /\
  (~ autorizado (abs w) ->
     c_drv (abs w') = c_drv (abs w) \/
     estadoActual (mef w) = SENSOR_CIERRE /\ estadoActual (mef w') = ESPERANDO_ACCION /\
     d_pos (c_drv (abs w')) = d_pos (c_drv (abs w)) - STEPS).
Proof.
  destruct (mefUpdate_post _ _ Hw H) as [Hp _].
  destruct (paso_movimiento _ _ Hp) as [Ha Hm|Ha He He' Hm|Ha Hm]; rewrite Hm; unfold STEPS.
  - split; [split; [done|intros _; cbn [d_pos mover]; unfold STEPS; lia]|done].
  - split; [split; [cbn [d_pos mover]; unfold STEPS; intros Hx; exfalso; lia|done]|].
    intros _. right. do 2 (split; [done|]). cbn [d_pos mover]. unfold STEPS. lia.
  - split; [split; [intros Hx; exfalso; lia|done]|]. by left.
Qed.

(** C3: in every state the main loop reaches from power-up, whatever the
    environment does: the motor is off between calls; the bolt is open (one
    hundred steps from its start) exactly in the state [SENSOR_CIERRE] and
    shut in every other; every user field fits its array; fewer than three
    failed attempts are on record; a PIN being validated has five digits
    and a card eight hexadecimal ones; the state [BLOQUEADO] is never entered. *)
Theorem main_invariante n d0 w (H : main_n n (world0 d0) = Ret tt w) :
  invariante (abs w) /\ tec_ok (tec w).
Proof.
  refine ((_ : tri nuc (nuc (world0 d0)) (main_n n) (fun _ c' => invariante c'.1 /\ tec_ok c'.2))
            _ tt w eq_refl H).
  unfold main_n. apply tri_bind. eapply tri_conseq; [apply tri_arranque|].
  intros _ [c t] [Hi Ht]. by apply tri_turnos.
Qed.

(** C9: the arrows between the states of [mefUpdate]: nothing but [arco]
    happens; in particular [SENSOR_CIERRE] is entered only from the three
    validation states, and [MENU_ADMIN] only from [ESPERANDO_ACCION]. *)
Theorem mefUpdate_arco w w'
    (Hw : en_marcha w) (H : mefUpdate w = Ret tt w') :
  arco (estadoActual (mef w)) (estadoActual (mef w')).
Proof.
  destruct (mefUpdate_post _ _ Hw H) as [Hp _].
  exact (paso_arco _ _ Hp).
Qed.

(** C10: the count of failed attempts: a wrong PIN adds one, the third in a row
    (which raises the intruder alarm) clears it, a valid PIN or fingerprint
    clears it, and no other call changes it, a rejected card or fingerprint
    included. *)
Theorem intentos_exactos w w'
    (Hw : en_marcha w) (H : mefUpdate w = Ret tt w') :
  intentosFallidos (mef w') =
  match estadoActual (mef w) with
  | VALIDAR => if validarPin (listaPins w) (pinIngresado (mef w)) then 0
               else siguiente_intento (intentosFallidos (mef w))
  | LEER_Y_VALIDAR_HUELLA => if decide (estadoActual (mef w') = SENSOR_CIERRE) then 0
                             else intentosFallidos (mef w)
  | _ => intentosFallidos (mef w)
  end.
Proof.
  destruct (mefUpdate_post _ _ Hw H) as [Hp _].
  change (mef w) with (c_mef (abs w)). change (mef w') with (c_mef (abs w')).
  change (listaPins w) with (c_db (abs w)). generalize dependent (abs w').
  destruct (abs w) as [m db g d]. simpl. intros c' Hp. unfold paso_de in Hp. simpl in Hp.
  destruct Hp; simpl;
    repeat match goal with
    | He : _ \/ _ |- _ => destruct He
    | He : estadoActual m = _ |- _ => rewrite He
    | Hv : validarPin _ _ = _ |- _ => rewrite Hv
    end; try done; by repeat case_decide.
Qed.

End Teoremas.

(** ** The bench *)

(** a modem that answers every line with the same text: two users *)
Definition respuesta_modem : list ascii :=
  $"OK STATUS:2 {" ++ DQ ++ $"pins" ++ DQ ++ $":[{" ++ DQ ++ $"codigo" ++ DQ ++ $":" ++ DQ ++
  $"12345" ++ DQ ++ $"," ++ DQ ++ $"activo" ++ DQ ++ $":true}]}".
Definition banco_modem : banco := con_modem (ord <$> respuesta_modem) (banco_quieto 0).

Lemma main_invariante_witness :
  returns (@main_n (env_banco 10 5000) 1 (@world0 (env_banco 10 5000) banco_modem)) (fun _ w =>
    invariante (abs w) /\ tec_ok (tec w)).
Proof. run_as a w H. destruct a. exact (@main_invariante (env_banco 10 5000) 1 banco_modem w H). Defined.

(** a PIN typed in, to be validated *)
Definition mundo_pin (pin : list ascii) : @world (env_banco 10 300) :=
  mundo 10 300 (banco_quieto 0) listaPins_inicial scan_zero
    (set_estado VALIDAR (set_pin pin (set_intentos 2 mef_inicial))).

Lemma mefUpdate_refines_witness :
  returns (mefUpdate (mundo_pin $"99999")) (fun _ w' =>
    paso_de (abs (mundo_pin $"99999")) (abs w') /\ tec_ok (tec w')).
Proof.
  run_as a w H. destruct a.
  exact (mefUpdate_refines (mundo_pin $"99999") w (conj (tec_ok_reset false 65535) (conj eq_refl eq_refl)) H).
Defined.

Lemma apertura_autorizada_witness :
  returns (mefUpdate (mundo_pin $"22222")) (fun _ w' => d_pos (c_drv (abs w')) = 100).
Proof.
  run_as a w H. destruct a.
  destruct (apertura_autorizada (mundo_pin $"22222") w (conj (tec_ok_reset false 65535) (conj eq_refl eq_refl)) H) as [Hp _].
  apply Hp. left. split; reflexivity.
Defined.

Lemma mefUpdate_arco_witness :
  returns (mefUpdate (mundo_pin $"99998")) (fun _ w' => arco VALIDAR (estadoActual (mef w'))).
Proof.
  run_as a w H. destruct a.
  exact (mefUpdate_arco (mundo_pin $"99998") w (conj (tec_ok_reset false 65535) (conj eq_refl eq_refl)) H).
Defined.

(** the third wrong PIN *)
Lemma intentos_exactos_witness :
  returns (mefUpdate (mundo_pin $"00000")) (fun _ w' => intentosFallidos (mef w') = 0).
Proof.
  run_as a w H. destruct a.
  rewrite (intentos_exactos (mundo_pin $"00000") w (conj (tec_ok_reset false 65535) (conj eq_refl eq_refl)) H). reflexivity.
Defined.
