(* ===== verification/Duracion.v ===== *)
(** * How long the drivers take

    On a live board ([Vivo]) the functions of each component return within a
    bound, whatever the peripherals answer: instances of [Dur] by component. *)

From Stdlib Require Import ZArith Lia Bool Ascii String.
From Stdlib Require Import SpecFloat.
From stdpp Require Import base list strings numbers sets.
From stdpp Require Import options.
From S2P Require Import Prelude Machine Effects Triples Banco Sapi Display Plazos Cerrojo Teclado.
From S2P Require Import Usuarios EspAT As608.

(** text that fits the array *)
Class CabeEn (n : nat) (s : list ascii) : Prop := cabe_en : (length s < n)%nat.
#[export] Hint Extern 0 (CabeEn _ _) => assumption : typeclass_instances.
#[export] Hint Extern 1 (CabeEn _ _) => (apply Nat.ltb_lt; vm_compute; reflexivity) : typeclass_instances.
Lemma sprintf_run {E : Env} n str : CabeEn n str -> sprintf n str = mret str.
Proof. intros H. unfold sprintf. by rewrite (proj2 (Nat.ltb_lt _ _)) by exact H. Qed.

Ltac dur_paso :=
  lazymatch goal with
  | |- Dur _ _ (mbind _ (sprintf ?n ?str)) => rewrite (sprintf_run n str) by (solve [apply _])
  | |- _ => dur_step
  end.
Ltac dur_run ::= pose proof v_salto_rango; repeat dur_paso.

Section Perifericos.
Context {E : Env} {V : Vivo}.

(** ** sapi *)
#[global] Instance uartRxReady_dur s u : Dur s 0 (uartRxReady u).
Proof. unfold uartRxReady. dur_run. Qed.
#[global] Instance uartTxReady_dur s u : Dur s 0 (uartTxReady u).
Proof. unfold uartTxReady. dur_run. Qed.
#[global] Instance uartRxRead_dur s u : Dur s 0 (uartRxRead u).
Proof. unfold uartRxRead. dur_run. Qed.
#[global] Instance uartReadByte_dur s u : Dur s 0 (uartReadByte u).
Proof. unfold uartReadByte. dur_run. Qed.
#[global] Instance uartTxWrite_dur s u v : Dur s 0 (uartTxWrite u v).
Proof. unfold uartTxWrite. apply _. Qed.

(** the wait for the transmitter *)
Lemma espera_tx s u n w :
  listo s w -> (v_tx u (device (hw w)) < n)%nat ->
  exists w', loop_n n (fun _ : unit => ready ← uartTxReady u;
      mret (if ready : bool then inr tt else inl tt)) tt w = Ret tt w' /\ listo s w' /\ avanza 0 w w'.
Proof.
  revert w. induction n as [|n IH]; intros w Hw Hn; [lia|].
  destruct (uartTxReady_dur s u) as [_ Hd]. destruct (Hd w Hw) as (r & w1 & H1 & Hw1 & Ha1).
  rewrite loop_n_S. unfold mbind, M_bind. rewrite H1. destruct r; [eauto|].
  destruct (IH w1 Hw1) as (w2 & H2 & Hw2 & Ha2).
  - unfold uartTxReady, mbind, M_bind, inp in H1. pose proof (v_lsr u (device (hw w))) as Hl.
    destruct (dev_in (InLsr u) (device (hw w))) as [v d]. simpl in Hl, H1.
    injection H1 as Hz <-. apply negb_false_iff, Z.eqb_eq in Hz. simpl. destruct Hl; [done|lia].
  - exists w2. split; [exact H2|]. split; [done|].
    exact (avanza_trans 0 0 _ _ _ Ha1 Ha2).
Qed.

#[global] Instance uartWriteByte_dur s u v : Dur s 0 (uartWriteByte u v).
Proof.
  unfold uartWriteByte. eapply (dur_bind s 0 0); [|intros _; apply dur_emit; lia|lia].
  split; [lia|]. intros w Hw. unfold loop.
  destruct (espera_tx s u env_fuel w Hw) as (w' & H1 & H2 & H3); [|eauto].
  pose proof (v_tx_max u (device (hw w))). pose proof v_fuel. lia.
Qed.
#[global] Instance uartWriteString_dur s u str : Dur s 0 (uartWriteString u str).
Proof. unfold uartWriteString. apply (dur_for_each _ _ 0); [intros; apply _|lia|lia]. Qed.
#[global] Instance delayInaccurateUs_dur s us : Dur s 0 (delayInaccurateUs us).
Proof.
  split; [lia|]. intros w Hw. exists tt, w. split; [apply countdown_Ret|].
  split; [done|]. by eapply avanza_refl.
Qed.
#[global] Instance pinState_dur s p q b : Dur s 0 (Chip_GPIO_SetPinState p q b).
Proof. unfold Chip_GPIO_SetPinState. apply _. Qed.
#[global] Instance getPinState_dur s p q : Dur s 0 (Chip_GPIO_GetPinState p q).
Proof. unfold Chip_GPIO_GetPinState. dur_run. Qed.
#[global] Instance i2cWrite_dur s n a d : Dur s 0 (i2cWrite n a d).
Proof. unfold i2cWrite. dur_run. Qed.
#[global] Instance spiWrite_dur s l : Dur s 0 (spiWrite l).
Proof. unfold spiWrite. dur_run. Qed.
#[global] Instance spiRead1_dur s : Dur s 0 spiRead1.
Proof. unfold spiRead1. dur_run. Qed.

(** a pin of the board's table *)
Class Pata (p : Z) : Prop := pata : (if p <? 0 then None else gpioPinsInit !! Z.to_nat p) <> None.
Lemma gpioObtain_dur s p : Pata p -> Dur s 0 (gpioObtainPinInit p).
Proof.
  unfold Pata, gpioObtainPinInit. destruct (p <? 0); [done|]. intros H.
  apply dur_access; [lia|]. by apply not_eq_None_Some.
Qed.
#[global] Instance gpioWrite_dur s p b : Pata p -> Dur s 0 (gpioWrite p b).
Proof. intros Hp. pose proof (gpioObtain_dur s p Hp). unfold gpioWrite. dur_run. Qed.
#[global] Instance gpioRead_dur s p : Pata p -> Dur s 0 (gpioRead p).
Proof. intros Hp. pose proof (gpioObtain_dur s p Hp). unfold gpioRead. dur_run. Qed.
End Perifericos.
#[export] Hint Extern 0 (Pata _) => (vm_compute; discriminate) : typeclass_instances.

Section Teclas.
Context {E : Env} {V : Vivo}.

(** ** The keypad *)
Lemma row_pin_teclado r : 0 <= r < 4 -> exists p, row_pin keypad r = mret p /\ Pata p.
Proof.
  intros Hr. assert (Hc : r = 0 \/ r = 1 \/ r = 2 \/ r = 3) by lia.
  destruct Hc as [->|[->|[->| ->]]]; (eexists; split; [reflexivity|apply _]).
Qed.
Lemma col_pin_teclado c : 0 <= c < 3 -> exists p, col_pin keypad c = mret p /\ Pata p.
Proof.
  intros Hr. assert (Hc : c = 0 \/ c = 1 \/ c = 2) by lia.
  destruct Hc as [->|[->| ->]]; (eexists; split; [reflexivity|apply _]).
Qed.

Lemma write_row_dur s r l : 0 <= r < 4 -> Dur s 0 (write_row keypad r l).
Proof.
  intros Hr. unfold write_row. destruct (row_pin_teclado r Hr) as (p & -> & Hp). dur_run.
Qed.

Lemma keypad_row_dur s c r : 0 <= c < 3 -> 0 <= r < 4 -> Dur s 0 (keypad_row keypad c r).
Proof.
  intros Hc Hr. unfold keypad_row. destruct (col_pin_teclado c Hc) as (p & -> & Hp).
  pose proof (write_row_dur s r false Hr).
  destruct (Z.ltb_spec 0 r); cbn [when]; [|dur_run].
  pose proof (write_row_dur s (r - 1) true ltac:(lia)). dur_run.
Qed.

Definition LEER_TECLA_MS : Z := 150 + 9 * v_salto.

#[global] Instance keypadRead_dur : Dur true LEER_TECLA_MS (keypadRead keypad).
Proof.
  pose proof v_salto_rango. unfold keypadRead, LEER_TECLA_MS.
  eapply dur_bind; [apply (dur_for_each _ 0 0); [|lia|lia]|intros _|lia].
  { intros r Hr%elem_of_seqZ. apply write_row_dur. exact Hr. }
  apply (dur_first_some _ _ (50 + 3 * v_salto));
    [|lia|change (length (seqZ 0 (keypadColSize keypad))) with 3%nat; lia].
  intros c Hc%elem_of_seqZ. destruct (col_pin_teclado c Hc) as (p & -> & Hp). do 2 dur_step.
  dur_step; [|by dur_run]. dur_step.
  eapply dur_bind; [apply (dur_for_each _ 0 0); [|lia|lia]|intros _|lia].
  { intros r Hr%elem_of_seqZ. apply write_row_dur. cbn in Hr. unfold KEYPAD_ROWS in Hr. lia. }
  apply (dur_first_some _ _ 0); [|lia|lia].
  intros r Hr%elem_of_seqZ. by apply keypad_row_dur.
Qed.
End Teclas.

Section Pantalla.
Context {E : Env} {V : Vivo}.

(** ** The display *)

(** a write inside the frame buffer *)
Lemma put_dur s i v : 0 <= i < 1024 -> Dur s 0 (put i v).
Proof.
  intros Hi. split; [lia|]. intros w (H1 & H2 & H3). unfold put, get_buffer, mbind, M_bind, gets.
  rewrite H3. change (Z.of_nat 1024) with 1024. rewrite (proj2 (andb_true_iff _ _)) by lia.
  eexists tt, _. split; [reflexivity|]. split.
  - split; [done|]. split; [done|]. simpl. by rewrite length_insert.
  - by eapply (avanza_refl w).
Qed.

#[global] Instance display_clear_dur s : Dur s 0 display_clear.
Proof.
  unfold display_clear. apply (dur_for_each _ _ 0); [|lia|lia].
  intros i Hi%elem_of_seqZ. apply put_dur. lia.
Qed.
#[global] Instance ssd1306_cmd_dur s c : Dur s 0 (ssd1306_cmd c).
Proof. unfold ssd1306_cmd. dur_run. Qed.
#[global] Instance ssd1306_data_dur s d : Dur s 0 (ssd1306_data d).
Proof. unfold ssd1306_data. dur_run. Qed.
#[global] Instance display_update_dur s : Dur s 0 display_update.
Proof.
  unfold display_update. apply (dur_for_each _ _ 0); [|lia|lia]. intros page _.
  unfold get_buffer. dur_run.
Qed.

(** the text cursor *)
Definition cursor (w : world) : Z * Z := (cursorX (disp w), cursorY (disp w)).

Lemma glyph_run c : exists g, glyph c = mret g /\ length g = 6%nat.
Proof.
  unfold glyph. cbv zeta. set (k := if (ord c <? 32) || (126 <? ord c) then 63 else ord c).
  assert (Hk : (Z.to_nat (k - 32) < length font6x8)%nat).
  { subst k. change (length font6x8) with 95%nat.
    destruct (Z.ltb_spec (ord c) 32), (Z.ltb_spec 126 (ord c)); simpl; lia. }
  apply lookup_lt_is_Some_2 in Hk as [g Hg]. exists g. rewrite Hg. split; [done|].
  assert (H6 : forallb (fun g => (length g =? 6)%nat) font6x8 = true) by reflexivity.
  rewrite forallb_forall in H6. apply Nat.eqb_eq, H6, list_elem_of_In.
  by eapply list_elem_of_lookup_2.
Qed.

Lemma put_cursor i v c (Q : unit -> Z * Z -> Prop) : Q tt c -> tri cursor c (put i v) Q.
Proof.
  intros HQ. unfold put, get_buffer. apply tri_bind, tri_gets. intros w <-.
  destruct (_ && _); [|apply tri_undef]. apply tri_modify. intros w' Hw'.
  change (Q tt (cursor w')). by rewrite Hw'.
Qed.

(** a character, its six columns inside the frame buffer *)
Lemma print_char_durp s x y c :
  0 <= x + y / 8 * 128 -> x + y / 8 * 128 + 5 < 1024 ->
  durp cursor (x, y) s 0 (print_char c) (fun _ c' => c' = (u8 (x + 6), y)).
Proof.
  intros H0 H1. unfold print_char. destruct (glyph_run c) as (g & -> & Hg).
  change (durp cursor (x, y) s 0 (for_each (seqZ 0 6) (fun i =>
    d ← gets disp; v ← access (g !! Z.to_nat i);
    put (cursorX d + cursorY d / 8 * 128 + i) v) ;;
    d ← gets disp; display_setCursor (u8 (cursorX d + 6)) (cursorY d))
    (fun _ c' => c' = (u8 (x + 6), y))).
  eapply (durp_bind _ _ _ _ 0 _ _ (fun _ c' => c' = (x, y))); [|intros _ c' ->|lia].
  - assert (Hl : forall i, i ∈ seqZ 0 6 -> 0 <= i < 6) by (intros i Hi%elem_of_seqZ; lia).
    revert Hl. generalize (seqZ 0 6). intros l. induction l as [|i l IH]; intros Hl; simpl.
    { apply durp_ret; [lia|done]. }
    eapply (durp_bind _ _ _ _ 0 _ _ (fun _ c' => c' = (x, y))); [|intros _ c' ->|lia].
    2: { apply IH. intros j Hj. apply Hl. by apply list_elem_of_further. }
    assert (Hi : 0 <= i < 6) by (apply Hl, list_elem_of_here).
    destruct (lookup_lt_is_Some_2 g (Z.to_nat i)) as [v Hv]; [lia|].
    split; [lia|]. intros w Hw [= Hx Hy].
    destruct (put_dur s (cursorX (disp w) + cursorY (disp w) / 8 * 128 + i) v) as [_ Hp];
      [rewrite Hx, Hy; lia|].
    destruct (Hp w Hw) as ([] & w' & Hr & Hw' & Ha). exists tt, w'.
    split; [unfold mbind, M_bind, gets; rewrite Hv; exact Hr|]. split; [done|]. split; [done|].
    eapply (put_cursor _ _ (x, y) (fun _ c' => c' = (x, y))); [done| |exact Hr].
    by rewrite <- Hx, <- Hy.
  - split; [lia|]. intros w Hw [= Hx Hy]. eexists tt, _. split; [reflexivity|].
    split; [exact Hw|]. split; [by eapply (avanza_refl w)|]. unfold cursor. simpl. by rewrite Hx, Hy.
Qed.

(** Text that fits: on the pages 0 to 5 any text does (it goes on in the next
    page), on the last two it must end before the right edge. *)
Definition cabe (str : list ascii) (x y : Z) : Prop :=
  0 <= x < 256 /\ 0 <= y /\ (y < 48 \/ y < 64 /\ x + 6 * strlen str <= 128).

Lemma display_print_durp s str : forall x y, cabe str x y ->
  durp cursor (x, y) s 0 (display_print str) (fun _ _ => True).
Proof.
  unfold display_print. induction str as [|c str IH]; intros x y (Hx & Hy & Hc); simpl.
  { by apply durp_ret. }
  unfold strlen in Hc. rewrite length_cons in Hc. pose proof (Z.div_mod y 8 ltac:(lia)).
  pose proof (Z.mod_pos_bound y 8 ltac:(lia)).
  eapply durp_bind; [apply print_char_durp; lia|intros _ c' ->|lia].
  change (0 - 0) with 0. apply IH. unfold cabe, strlen. split; [pose proof (u8_bound (x + 6)); lia|].
  split; [done|]. destruct Hc as [Hc|[Hc H6]]; [by left|right]. split; [done|].
  rewrite u8_small; lia.
Qed.

(** a line of text, centred, that fits *)
Class Linea (str : list ascii) (y : Z) : Prop :=
  linea : 0 <= y /\ strlen str <= 255 /\ (y < 48 \/ y < 64 /\ strlen str <= 21).

#[global] Instance display_println_dur s str y : Linea str y -> Dur s 0 (display_println str y).
Proof.
  intros (Hy & Hl & Hc). unfold display_println. rewrite (proj2 (Z.ltb_ge _ _)) by lia. cbv zeta.
  assert (Hn : 0 <= strlen str) by (unfold strlen; lia).
  set (q := Z.quot (128 - strlen str * 6) 2).
  assert (Hq : -1000 <= q /\ 2 * q <= 129 - strlen str * 6).
  { pose proof (Z.quot_rem' (128 - strlen str * 6) 2) as H1.
    pose proof (Z.rem_bound_abs (128 - strlen str * 6) 2) as H2. fold q in H1. lia. }
  rewrite s16_small by lia. set (x := if q <? 0 then 0 else q).
  assert (Hx : cabe str (u8 x) y).
  { assert (Hx : 0 <= x <= Z.max 0 q) by (subst x; destruct (Z.ltb_spec q 0); lia).
    rewrite u8_small by lia. split; [lia|]. split; [done|]. lia. }
  split; [lia|]. intros w Hw.
  destruct (display_print_durp s str (u8 x) y Hx) as [_ Hp].
  destruct (Hp (set_disp (mkDisplay (buffer (disp w)) (u8 x) y) w) Hw eq_refl) as (a & w' & H1 & H2 & H3 & _).
  eexists a, w'. split; [exact H1|]. split; [exact H2|exact H3].
Qed.
End Pantalla.

Definition lineab (str : list ascii) (y : Z) : bool :=
  (0 <=? y) && (strlen str <=? 255) && ((y <? 48) || (y <? 64) && (strlen str <=? 21)).
Lemma lineab_sound str y : lineab str y = true -> Linea str y.
Proof. unfold lineab, Linea. lia. Qed.
#[export] Hint Extern 0 (Linea _ _) => assumption : typeclass_instances.
#[export] Hint Extern 1 (Linea _ _) => (apply lineab_sound; vm_compute; reflexivity) : typeclass_instances.

(** [dur_loop start limit b]: a loop that watches the clock, its body lasting [b] *)
Ltac dur_loop start limit b :=
  eapply dur_mono; [eapply (dur_bucle _ start limit b)|];
  [ intros;
    repeat match goal with s : (_ * _)%type |- _ => destruct s end;
    eexists; split; [reflexivity|]; let t := fresh "t" in let Ht := fresh "Ht" in
    intros t; split; intros Ht;
    [ rewrite (proj2 (Z.ltb_lt _ _) Ht)
    | rewrite (proj2 (Z.ltb_ge _ _) Ht); eexists; reflexivity ]
  | first [lia | split; vm_compute; discriminate] | unfold LARGO; lia | try lia ].

Section Alertas.
Context {E : Env} {V : Vivo}.

(** ** stepperMotor.c, alertas.c *)
#[global] Instance step_move_dur s d : Dur s 0 (step_move d).
Proof.
  split; [lia|]. intros w (H1 & H2 & H3). exists tt, (tras (motor_events d) w).
  split; [apply step_move_tras|]. split; [done|]. exists 0. split; [lia|].
  split; [simpl; rewrite Z.add_0_r; by rewrite u64_small|]. intros _.
  unfold tras, set_hw. cbn [hw device].
  generalize (motor_events d). intros l. induction l as [|e l IH]; simpl; [lia|].
  etransitivity; [apply v_out|exact IH].
Qed.
#[global] Instance abrirCerradura_dur s : Dur s 0 abrirCerradura.
Proof. apply step_move_dur. Qed.
#[global] Instance cerrarCerradura_dur s : Dur s 0 cerrarCerradura.
Proof. apply step_move_dur. Qed.
#[global] Instance buzzer_dur s b : Dur s 0 (buzzer b).
Proof. unfold buzzer. apply _. Qed.
#[global] Instance alertaExito_dur : Dur true (320 + 9 * v_salto) alertaExito.
Proof. unfold alertaExito. dur_run. Qed.
#[global] Instance alertaError_dur : Dur true (1000 + 3 * v_salto) alertaError.
Proof. unfold alertaError. dur_run. Qed.
End Alertas.

Section Huella.
Context {E : Env} {V : Vivo}.

(** ** as608.c *)
#[global] Instance mod_scan_dur s f : Dur s 0 (mod_scan f).
Proof. unfold mod_scan. apply _. Qed.
#[global] Instance as608Send_dur s d : Dur s 0 (as608Send d).
Proof. unfold as608Send. apply (dur_for_each _ _ 0); [intros; apply _|lia|lia]. Qed.
#[global] Instance as608FlushRx_dur ms : Plazo ms -> Dur true (ms + 3 * v_salto) (as608FlushRx ms).
Proof.
  unfold Plazo. intros Hms. unfold as608FlushRx. pose proof v_salto_rango. dur_step.
  dur_loop (u32 a) ms 0. dur_run.
Qed.
#[global] Instance as608FlushAndDelay_dur a b :
  Plazo a -> Plazo b -> Dur true (a + b + 6 * v_salto) (as608FlushAndDelay a b).
Proof. intros Ha Hb. unfold as608FlushAndDelay, Plazo in *. dur_run. Qed.
#[global] Instance as608Recv_dur n ms : Plazo ms -> Dur true (ms + 4 * v_salto) (as608Recv n ms).
Proof.
  unfold Plazo. intros Hms. unfold as608Recv. pose proof v_salto_rango. dur_step.
  dur_loop (u32 a) ms v_salto. dur_run.
Qed.
Lemma as608WritePacket_dur s ty p : (length p <= 256)%nat -> Dur s 0 (as608WritePacket ty p).
Proof.
  intros Hp. unfold as608WritePacket. rewrite (proj2 (Nat.ltb_ge _ _)) by done. apply _.
Qed.
#[global] Instance as608CmdAck_dur i e ms pre fl :
  Plazo ms -> Plazo pre -> Plazo fl ->
  Dur true (ms + pre + fl + 10 * v_salto) (as608CmdAck i e ms pre fl).
Proof.
  intros Hms Hpre Hfl. unfold as608CmdAck, as608GetAck.
  pose proof (as608WritePacket_dur true 1 (i :: take 7 e)) as Hw.
  assert (Dur true 0 (as608WritePacket 1 (i :: take 7 e))).
  { apply Hw. rewrite length_cons, length_take. lia. }
  unfold Plazo in *. dur_run.
Qed.

#[global] Instance as608ScanReset_dur s : Dur s 0 as608ScanReset.
Proof. unfold as608ScanReset. apply _. Qed.
#[global] Instance as608ReadSlice_dur ms : Plazo ms -> Dur true (ms + 4 * v_salto) (as608ReadSlice ms).
Proof.
  unfold Plazo. intros Hms. unfold as608ReadSlice. pose proof v_salto_rango. dur_step.
  dur_loop (u32 a) ms v_salto. dur_run.
Qed.
#[global] Instance scan_send_dur fl p next :
  Plazo fl -> (length p <= 256)%nat -> Dur true (fl + 4 * v_salto) (scan_send fl p next).
Proof.
  intros Hfl Hp. unfold scan_send. pose proof (as608WritePacket_dur true 1 p Hp).
  unfold Plazo in *. dur_run.
Qed.
#[global] Instance scan_code_dur : Dur true (4 + 4 * v_salto) scan_code.
Proof. unfold scan_code. dur_run. Qed.
#[global] Instance scan_expired_dur l : Dur true v_salto (scan_expired l).
Proof. unfold scan_expired. dur_run. Qed.

(** one step of the scan never holds up the main loop *)
#[global] Instance as608ScanStep_dur i s : Dur true (4 + 5 * v_salto) (as608ScanStep i s).
Proof.
  unfold as608ScanStep, scan_wait_getimage, scan_predly, scan_wait_image2tz, scan_wait_search.
  pose proof (scan_send_dur AS608_FLUSH_MS_SHORT [1] ST_WAIT_GETIMAGE).
  pose proof (scan_send_dur AS608_FLUSH_MS_SHORT [2; 1] ST_WAIT_IMAGE2TZ).
  pose proof (scan_send_dur AS608_FLUSH_MS_TINY (searchPayload 0 163) ST_WAIT_SEARCH).
  assert (Hl : (length (searchPayload 0 163) <= 256)%nat) by (simpl; lia).
  assert (Plazo AS608_FLUSH_MS_SHORT /\ Plazo AS608_FLUSH_MS_TINY) as [] by (split; apply _).
  specialize (H ltac:(done) ltac:(simpl; lia)). specialize (H0 ltac:(done) ltac:(simpl; lia)).
  specialize (H1 ltac:(done) ltac:(done)).
  unfold AS608_FLUSH_MS_SHORT, AS608_FLUSH_MS_TINY in *. dur_run.
Qed.
End Huella.

Section Registro.
Context {E : Env} {V : Vivo}.

(** *** Enrolment *)
#[global] Instance as608EnrollCapture_dur slot : Dur true (32000 + 50 * v_salto) (as608EnrollCapture slot).
Proof.
  unfold as608EnrollCapture, as608CmdGetImageLong, as608CmdImage2Tz. pose proof v_salto_rango.
  unfold AS608_ENROLL_ATTEMPT_INTERVAL_MS, AS608_ENROLL_NOFINGER_DELAY_MS,
    AS608_ENROLL_ERROR_DELAY_MS, AS608_GETIMAGE_LONG_TIMEOUT_MS, AS608_DELAY_BEFORE_SEND_MS,
    AS608_FLUSH_MS_SHORT, AS608_IMAGE2TZ_TIMEOUT_MS, AS608_IMAGE2TZ_PRE_DELAY_MS.
  do 2 dur_step. dur_loop (u32 a0) 30000 (1200 + 40 * v_salto). dur_run.
Qed.
#[global] Instance as608EnrollAtId_dur id : Dur true (71000 + 150 * v_salto) (as608EnrollAtId id).
Proof.
  unfold as608EnrollAtId, as608CmdRegModel, as608CmdStore, AS608_REGMODEL_TIMEOUT_MS,
    AS608_FLUSH_MS_TINY, AS608_STORE_TIMEOUT_MS. dur_run.
Qed.
End Registro.

Section Modem.
Context {E : Env} {V : Vivo}.

(** ** espAT.c *)
#[global] Instance enviarComandoAT_dur c n ms :
  Plazo ms -> Dur true (ms + 1 + 8 * v_salto) (enviarComandoAT c n ms).
Proof.
  unfold Plazo. intros Hms. unfold enviarComandoAT. pose proof v_salto_rango.
  destruct (n =? 0); [dur_run|]. do 3 dur_step.
  dur_loop (u32 a1) ms (1 + 5 * v_salto). dur_run.
Qed.
#[global] Instance esperarAT_dur ms : Plazo ms -> Dur true (ms + 1501 + 14 * v_salto) (esperarAT ms).
Proof.
  unfold Plazo. intros Hms. unfold esperarAT. pose proof v_salto_rango. dur_step.
  dur_loop (u32 a) ms (1501 + 11 * v_salto). dur_run.
Qed.
#[global] Instance esperarIP_dur : Dur true (18100 + 30 * v_salto) esperarIP.
Proof.
  unfold esperarIP. pose proof v_salto_rango. dur_step.
  dur_loop (u32 a) 15000 (3010 + 25 * v_salto). dur_run.
Qed.
#[global] Instance inicializarESP_dur ms :
  Plazo ms -> Dur true (ms + 28000 + 100 * v_salto) (inicializarESP ms).
Proof. intros Hms. unfold inicializarESP. unfold Plazo in Hms. dur_run. Qed.

End Modem.

(** a decimal number below a thousand *)
Lemma fmt_d_corto n : 0 <= n < 1000 -> (length (fmt_d n) <= 3)%nat.
Proof.
  intros Hn. assert (H : forallb (fun n => (length (fmt_d n) <=? 3)%nat) (seqZ 0 1000) = true)
    by (vm_compute; reflexivity).
  rewrite forallb_forall in H. apply Nat.leb_le, H, list_elem_of_In, elem_of_seqZ. lia.
Qed.

Section Http.
Context {E : Env} {V : Vivo}.

#[global] Instance espRawHTTPGet_dur path n :
  CabeEn 200 path -> Dur true (22510 + 40 * v_salto) (espRawHTTPGet path n).
Proof.
  intros Hp. unfold CabeEn in Hp. unfold espRawHTTPGet. pose proof v_salto_rango.
  set (req := $"GET " ++ _).
  assert (Hr : (length req < 300)%nat).
  { subst req. rewrite !length_app. cbn. lia. }
  assert (CabeEn 300 req) by exact Hr.
  assert (CabeEn 256 ($"AT+CIPSEND=" ++ fmt_d (strlen req))).
  { unfold CabeEn. rewrite length_app. change (length ($"AT+CIPSEND=")) with 11%nat.
    pose proof (fmt_d_corto (strlen req) ltac:(unfold strlen; lia)). lia. }
  dur_run.
Qed.
#[global] Instance espHTTPGetViaAT_dur path n :
  CabeEn 200 path -> Dur true (32520 + 60 * v_salto) (espHTTPGetViaAT path n).
Proof. intros Hp. unfold espHTTPGetViaAT. dur_run. Qed.
#[global] Instance espHTTPGetPins_dur n : Dur true (32520 + 60 * v_salto) (espHTTPGetPins n).
Proof. unfold espHTTPGetPins. dur_run. Qed.
#[global] Instance espObtenerTiempo_dur : Dur true (32520 + 60 * v_salto) espObtenerTiempoServidor.
Proof. unfold espObtenerTiempoServidor. dur_run. Qed.
End Http.
