(* ===== verification/Matriz.v ===== *)
(** * The key matrix under sapi_keypad.c

    The hardware between the row outputs and the column inputs, as the class
    [Matriz]: a column reads low exactly when the key held down joins it to a row that
    is driven low.  With it, [keypadRead] finds the key. *)

From Stdlib Require Import ZArith Lia Bool Ascii String.
From stdpp Require Import base list strings numbers sets.
From stdpp Require Import options.
From S2P Require Import Prelude Machine Effects Triples Banco Sapi Display Plazos Cerrojo Teclado.
From S2P Require Import Usuarios EspAT As608 Duracion.

(** ports and pins of the four rows and the three columns *)
Definition puerto_fila : Z := 2.
Definition pata_columna (c : Z) : Z * Z :=
  if c =? 0 then (1, 8) else if c =? 1 then (3, 12) else (3, 13).

(** is column [c] pulled low, by the key down and the levels of the rows? *)
Definition baja (filas : list bool) (tecla : option (Z * Z)) (c : Z) : bool :=
  match tecla with
  | Some (r, c') => (c =? c') && negb (nth (Z.to_nat r) filas true)
  | None => false
  end.

(** a reading begins: the last of the rows is driven low when the others are *)
Definition empieza (filas : list bool) (e : event) : bool :=
  match e with
  | EvPinState p q b => (p =? puerto_fila) && (q =? 3) && negb b && forallb negb (take 3 filas)
  | _ => false
  end.

(** The keyboard and the person at it: the levels the firmware left on the rows, the
    readings begun so far and the key (row and column) held down during each, at most one,
    which changes between two readings only. *)
Class Matriz {E : Env} : Type := {
  m_filas : dev -> list bool;
  m_turno : dev -> nat;
  m_tecla : nat -> option (Z * Z);
  m_in i d : m_filas (snd (dev_in i d)) = m_filas d /\ m_turno (snd (dev_in i d)) = m_turno d;
  m_out e d :
    m_turno (dev_out e d) = (if empieza (m_filas d) e then S (m_turno d) else m_turno d) /\
    m_filas (dev_out e d) =
      match e with
      | EvPinState p q b => if (p =? puerto_fila) && (0 <=? q) && (q <? 4)
                            then <[Z.to_nat q := b]> (m_filas d) else m_filas d
      | _ => m_filas d
      end;
  m_len d : length (m_filas d) = 4%nat;
  m_columna c d : 0 <= c < 3 ->
    (fst (dev_in (InPin (fst (pata_columna c)) (snd (pata_columna c))) d) =? 0) =
    baja (m_filas d) (m_tecla (m_turno d)) c
}.

Section Lectura.
Context {E : Env} {T : Matriz}.

(** the rows, and the readings begun *)
Definition matriz (w : world) : list bool * nat :=
  (m_filas (device (hw w)), m_turno (device (hw w))).

Lemma keeps_inp i : Keeps matriz (inp i).
Proof.
  intros w a w' H. unfold inp in H. pose proof (m_in i (device (hw w))) as [H1 H2].
  destruct (dev_in i (device (hw w))) as [v d]. injection H as _ <-. unfold matriz. simpl in *. congruence.
Qed.
#[global] Instance matriz_reloj : Reloj matriz.
Proof. split; [apply keeps_inp|by intros t w a w' [= _ <-]]. Qed.
#[global] Instance matriz_dibujo : Dibujo matriz.
Proof.
  split; [by intros g w a w' [= _ <-]|intros a d w b w' [= _ <-]|apply keeps_inp].
  unfold matriz. cbn. by destruct (m_out (EvI2c a d) (device (hw w))) as [-> ->].
Qed.

(** driving a row *)
Lemma write_row_run r b w :
  0 <= r < 4 -> write_row keypad r b w = emit (EvPinState puerto_fila r b) w.
Proof.
  intros Hr. assert (Hp : 0 = r \/ 1 = r \/ 2 = r \/ 3 = r) by lia.
  by destruct Hp as [<-|[<-|[<-|<-]]].
Qed.

(** the matrix after it *)
Definition fila_puesta (b : bool) (x : list bool * nat) (r : Z) : list bool * nat :=
  (<[Z.to_nat r := b]> x.1, if empieza x.1 (EvPinState puerto_fila r b) then S x.2 else x.2).
Lemma tri_write_row x r b :
  0 <= r < 4 -> tri matriz x (write_row keypad r b) (fun _ y => y = fila_puesta b x r).
Proof.
  intros Hr w a w' <- H. rewrite write_row_run in H by done.
  injection H as _ <-. unfold matriz, fila_puesta. cbn [hw set_hw device].
  destruct (m_out (EvPinState puerto_fila r b) (device (hw w))) as [-> ->].
  rewrite Z.eqb_refl, (proj2 (Z.leb_le 0 r)), (proj2 (Z.ltb_lt r 4)) by lia. done.
Qed.

(** looking at a column *)
Lemma read_col_run c w :
  0 <= c < 3 ->
  (p ← col_pin keypad c; gpioRead p) w =
  Chip_GPIO_GetPinState (fst (pata_columna c)) (snd (pata_columna c)) w.
Proof.
  intros Hc. assert (Hp : 0 = c \/ 1 = c \/ 2 = c) by lia. by destruct Hp as [<-|[<-|<-]].
Qed.

Lemma tri_read_col l n c :
  0 <= c < 3 ->
  tri matriz (l, n) (p ← col_pin keypad c; gpioRead p)
    (fun level x => x = (l, n) /\ level = negb (baja l (m_tecla n) c)).
Proof.
  intros Hc w a w' Hw H. rewrite read_col_run in H by done.
  injection Hw as <- <-. pose proof (m_columna c (device (hw w)) Hc) as Hcol.
  unfold Chip_GPIO_GetPinState in H. apply bind_Ret in H as (v & w1 & H1 & H). injection H as <- <-.
  pose proof (keeps_inp _ _ _ _ H1) as Hk. rewrite Hk. split; [done|]. f_equal. rewrite <- Hcol.
  unfold inp in H1. by destruct (dev_in _ _) as [v' d]; injection H1 as -> _.
Qed.

(** ... in the shape in which the code does it *)
Lemma tri_col_then {A} l n c (f : bool -> M A) Q :
  0 <= c < 3 -> tri matriz (l, n) (f (negb (baja l (m_tecla n) c))) Q ->
  tri matriz (l, n) (p ← col_pin keypad c; level ← gpioRead p; f level) Q.
Proof.
  intros Hc Hf w a w' Hw H. apply bind_Ret in H as (p & w1 & H1 & H).
  apply bind_Ret in H as (lv & w2 & H2 & H).
  destruct (tri_read_col l n c Hc w lv w2 Hw) as [Hx ->]; [apply bind_Ret; eauto|].
  exact (Hf w2 a w' Hx H).
Qed.

Definition solo (r : Z) : list bool := (fun q => negb (r =? q)) <$> [0; 1; 2; 3].

(** one row of the search: the key, if it is there *)
Lemma tri_keypad_row n c r :
  0 <= c < 3 -> 0 <= r < 4 ->
  tri matriz (solo (if r =? 0 then 0 else r - 1), n) (keypad_row keypad c r) (fun o x =>
    x = (solo r, n) /\ o = if baja (solo r) (m_tecla n) c then Some (r * 3 + c) else None).
Proof.
  intros Hc Hr. assert (Hp : 0 = r \/ 1 = r \/ 2 = r \/ 3 = r) by lia.
  unfold keypad_row. apply tri_bind.
  eapply (tri_conseq _ _ _ _ (fun _ x => x = (if r =? 0 then solo 0 else replicate 4 true, n))).
  { destruct (Z.eqb_spec r 0) as [->|Hr0]; [by apply tri_ret|].
    apply tri_when; [intros _|intros H; lia].
    eapply tri_conseq; [apply tri_write_row; lia|]. intros _ x ->.
    by destruct Hp as [<-|[<-|[<-|<-]]]. }
  intros _ x ->. apply tri_bind. eapply tri_conseq; [by apply tri_write_row|]. intros _ x ->.
  assert (Hq : fila_puesta false (if r =? 0 then solo 0 else replicate 4 true, n) r = (solo r, n))
    by (by destruct Hp as [<-|[<-|[<-|<-]]]). rewrite Hq.
  apply tri_col_then; [done|]. apply tri_ret. split; [done|]. rewrite negb_involutive.
  destruct (baja _ _ _); [|done]. f_equal. apply u16_small. unfold keypad, KEYPAD_COLS. simpl. lia.
Qed.

(** the key that the matrix holds, as an index of the keypad's map *)
Definition indice_tecla (t : option (Z * Z)) : option Z := (fun '(r, c) => r * 3 + c) <$> t.
Definition en_rango (t : option (Z * Z)) : Prop :=
  match t with Some (r, c) => 0 <= r < 4 /\ 0 <= c < 3 | None => True end.

(** the search among the rows of the column that is low *)
Lemma tri_filas n r c :
  m_tecla n = Some (r, c) -> 0 <= r < 4 -> 0 <= c < 3 ->
  tri matriz (solo 0, n) (first_some [0; 1; 2; 3] (fun q => keypad_row keypad c q))
    (fun o x => o = Some (r * 3 + c) /\ x.2 = n).
Proof.
  intros Ht Hr Hc.
  assert (Hb : forall q, 0 <= q < 4 -> baja (solo q) (m_tecla n) c = (q =? r)).
  { intros q Hq. rewrite Ht. unfold baja. rewrite Z.eqb_refl. simpl.
    assert (Hp : 0 = r \/ 1 = r \/ 2 = r \/ 3 = r) by lia.
    destruct Hp as [<-|[<-|[<-|<-]]]; simpl; by rewrite negb_involutive. }
  cbn [first_some].
  apply tri_bind. eapply tri_conseq; [apply (tri_keypad_row n c 0); lia|].
  intros o x [-> ->]. rewrite Hb by lia. destruct (Z.eqb_spec 0 r) as [<-|]; [by apply tri_ret|].
  apply tri_bind. eapply tri_conseq; [apply (tri_keypad_row n c 1); lia|].
  intros o x [-> ->]. rewrite Hb by lia. destruct (Z.eqb_spec 1 r) as [<-|]; [by apply tri_ret|].
  apply tri_bind. eapply tri_conseq; [apply (tri_keypad_row n c 2); lia|].
  intros o x [-> ->]. rewrite Hb by lia. destruct (Z.eqb_spec 2 r) as [<-|]; [by apply tri_ret|].
  apply tri_bind. eapply tri_conseq; [apply (tri_keypad_row n c 3); lia|].
  intros o x [-> ->]. rewrite Hb by lia. destruct (Z.eqb_spec 3 r) as [<-|]; [by apply tri_ret|lia].
Qed.

(** driving several rows *)
Lemma tri_write_rows x rs b :
  Forall (fun r => 0 <= r < 4) rs ->
  tri matriz x (for_each rs (fun r => write_row keypad r b)) (fun _ y =>
    y = fold_left (fila_puesta b) rs x).
Proof.
  intros Hrs. revert x. induction Hrs as [|r rs Hr _ IH]; intros x; simpl; [by apply tri_ret|].
  apply tri_bind. eapply tri_conseq; [by apply tri_write_row|]. intros _ y ->. apply IH.
Qed.

(** the search in one column, with every row low *)
Lemma tri_columna n c :
  0 <= c < 3 -> en_rango (m_tecla n) ->
  tri matriz (replicate 4 false, n)
    (p ← col_pin keypad c; level ← gpioRead p;
     if negb level then delay 50 ;; for_each [1; 2; 3] (fun r => write_row keypad r true) ;;
                        first_some [0; 1; 2; 3] (fun r => keypad_row keypad c r)
     else mret None)
    (fun o x => if bool_decide (snd <$> m_tecla n = Some c) then o = indice_tecla (m_tecla n) /\ x.2 = n
                else o = None /\ x = (replicate 4 false, n)).
Proof.
  intros Hc Ht. apply (tri_col_then _ _ _ (fun level : bool => if negb level then _ else _)); [done|].
  rewrite negb_involutive. destruct (m_tecla n) as [[r c']|] eqn:He; [|by apply tri_ret]. destruct Ht as [Hr Hc'].
  assert (Hb : baja (replicate 4 false) (Some (r, c')) c = bool_decide (snd <$> Some (r, c') = Some c)).
  { simpl. assert (Hp : 0 = r \/ 1 = r \/ 2 = r \/ 3 = r) by lia.
    destruct (Z.eqb_spec c c') as [->|Hne].
    - rewrite bool_decide_eq_true_2 by done. by destruct Hp as [<-|[<-|[<-|<-]]].
    - rewrite bool_decide_eq_false_2 by congruence. done. }
  rewrite Hb. destruct (bool_decide_reflect (snd <$> Some (r, c') = Some c)) as [Heq|]; [|by apply tri_ret].
  injection Heq as ->. apply tri_bind, tri_keep; [apply _|intros _].
  apply tri_bind. eapply tri_conseq; [apply tri_write_rows; repeat (apply Forall_cons; split; [lia|]); by constructor|]. intros _ x ->.
  by apply (tri_filas n r c).
Qed.

(** a reading: the key held during it *)
Lemma tri_keypadRead l n :
  length l = 4%nat -> en_rango (m_tecla (S n)) ->
  tri matriz (l, n) (keypadRead keypad) (fun o x => o = indice_tecla (m_tecla (S n)) /\ x.2 = S n).
Proof.
  intros Hl Ht. unfold keypadRead.
  change (seqZ 0 (keypadRowSize keypad)) with [0; 1; 2; 3].
  change (seqZ 0 (keypadColSize keypad)) with [0; 1; 2].
  change (seqZ 1 (keypadRowSize keypad - 1)) with [1; 2; 3].
  apply tri_bind. eapply tri_conseq; [apply tri_write_rows; repeat (apply Forall_cons; split; [lia|]); by constructor|]. intros _ x ->.
  destruct l as [|l0 [|l1 [|l2 [|l3 [|]]]]]; try discriminate Hl. clear Hl.
  change (fold_left _ [0; 1; 2; 3] ([l0; l1; l2; l3], n)) with (replicate 4 false, S n).
  cbn [first_some]. set (t := m_tecla (S n)) in *.
  assert (Hres : forall o, (if bool_decide (snd <$> t = Some 0) || bool_decide (snd <$> t = Some 1) ||
      bool_decide (snd <$> t = Some 2) then o = indice_tecla t else o = None) -> o = indice_tecla t).
  { intros o. destruct t as [[r c]|]; [|done]. destruct Ht as [_ Hc]. simpl.
    assert (Hp : 0 = c \/ 1 = c \/ 2 = c) by lia. by destruct Hp as [<-|[<-|<-]]. }
  apply tri_bind. eapply tri_conseq; [apply (tri_columna (S n) 0); done|]. intros o x Ho. fold t in Ho.
  destruct (bool_decide (snd <$> t = Some 0)) eqn:H0.
  { destruct Ho as [-> Hx], t as [[r c]|]; [|done]. by apply tri_ret. }
  destruct Ho as [-> ->].
  apply tri_bind. eapply tri_conseq; [apply (tri_columna (S n) 1); done|]. intros o x Ho. fold t in Ho.
  destruct (bool_decide (snd <$> t = Some 1)) eqn:H1.
  { destruct Ho as [-> Hx], t as [[r c]|]; [|done]. by apply tri_ret. }
  destruct Ho as [-> ->].
  apply tri_bind. eapply tri_conseq; [apply (tri_columna (S n) 2); done|]. intros o x Ho. fold t in Ho.
  destruct (bool_decide (snd <$> t = Some 2)) eqn:H2.
  { destruct Ho as [-> Hx], t as [[r c]|]; [|done]. by apply tri_ret. }
  destruct Ho as [-> ->]. apply tri_ret. split; [by apply Hres|done].
Qed.

Lemma durp_keypadRead {V : Vivo} l n :
  length l = 4%nat -> en_rango (m_tecla (S n)) ->
  durp matriz (l, n) true LEER_TECLA_MS (keypadRead keypad) (fun o x =>
    o = indice_tecla (m_tecla (S n)) /\ x.2 = S n).
Proof. intros Hl Ht. apply durp_tri; [apply _|by apply tri_keypadRead]. Qed.

(** C28: on a live board, with at most one key of the matrix held down, a reading of the
    keypad returns within its bound with the index of that key, row times three plus
    column, or with no key when none is down. *)
Theorem keypadRead_tecla {V : Vivo} w (Hw : listo true w)
    (Ht : en_rango (m_tecla (S (m_turno (device (hw w)))))) :
  exists w', keypadRead keypad w = Ret (indice_tecla (m_tecla (m_turno (device (hw w'))))) w' /\
    m_turno (device (hw w')) = S (m_turno (device (hw w))) /\ avanza LEER_TECLA_MS w w'.
Proof.
  destruct (durp_keypadRead _ _ (m_len (device (hw w))) Ht) as [_ H].
  destruct (H w Hw eq_refl) as (o & w' & H1 & _ & H2 & -> & Hn). simpl in Hn. exists w'. by rewrite Hn.
Qed.
End Lectura.

(** ** A keyboard with one key held *)

Record filas_st : Type := mkFilas { fila0 : bool; fila1 : bool; fila2 : bool; fila3 : bool; turno : nat }.
Definition niveles (d : filas_st) : list bool := [fila0 d; fila1 d; fila2 d; fila3 d].
Definition pone (q : Z) (b : bool) (d : filas_st) : filas_st :=
  if q =? 0 then mkFilas b (fila1 d) (fila2 d) (fila3 d) (turno d)
  else if q =? 1 then mkFilas (fila0 d) b (fila2 d) (fila3 d) (turno d)
  else if q =? 2 then mkFilas (fila0 d) (fila1 d) b (fila3 d) (turno d)
  else if q =? 3 then
    mkFilas (fila0 d) (fila1 d) (fila2 d) b
      (if negb b && forallb negb [fila0 d; fila1 d; fila2 d] then S (turno d) else turno d)
  else d.
Definition columna_de (p q : Z) : option Z :=
  if (p =? 1) && (q =? 8) then Some 0 else if (p =? 3) && (q =? 12) then Some 1
  else if (p =? 3) && (q =? 13) then Some 2 else None.

Definition columna_in (t : option (Z * Z)) (p q : Z) (d : filas_st) : Z :=
  match columna_de p q with Some c => if baja (niveles d) t c then 0 else 1 | None => 1 end.
Definition tecla_in (t : nat -> option (Z * Z)) (i : input) (d : filas_st) : Z * filas_st :=
  (match i with InTick => 1 | InLsr _ => 32 | InPin p q => columna_in (t (turno d)) p q d | _ => 0 end, d).
Definition tecla_out (e : event) (d : filas_st) : filas_st :=
  match e with EvPinState p q b => if p =? puerto_fila then pone q b d else d | _ => d end.

(** what the rows and the columns do *)
Lemma tecla_out_turno e d :
  turno (tecla_out e d) = if empieza (niveles d) e then S (turno d) else turno d.
Proof.
  destruct e as [p q b| | | | | | |]; try done. simpl. destruct (p =? puerto_fila); [|done]. unfold pone.
  destruct (Z.eqb_spec q 3) as [->|H3]; [done|]. by destruct (q =? 0), (q =? 1), (q =? 2).
Qed.
Lemma tecla_out_niveles e d :
  niveles (tecla_out e d) = match e with
    | EvPinState p q b => if (p =? puerto_fila) && (0 <=? q) && (q <? 4)
                          then <[Z.to_nat q := b]> (niveles d) else niveles d
    | _ => niveles d
    end.
Proof.
  destruct e as [p q b| | | | | | |]; try done. simpl.
  destruct (p =? puerto_fila); [|done]. unfold pone.
  destruct (Z.leb_spec 0 q) as [H0|H0], (Z.ltb_spec q 4) as [H4|H4]; simpl.
  - assert (Hp : 0 = q \/ 1 = q \/ 2 = q \/ 3 = q) by lia. by destruct Hp as [<-|[<-|[<-|<-]]].
  - by rewrite !(proj2 (Z.eqb_neq q _)) by lia.
  - by rewrite !(proj2 (Z.eqb_neq q _)) by lia.
  - lia.
Qed.
Lemma columna_in_baja t c d : 0 <= c < 3 ->
  (columna_in t (fst (pata_columna c)) (snd (pata_columna c)) d =? 0) = baja (niveles d) t c.
Proof.
  intros Hc. assert (Hp : 0 = c \/ 1 = c \/ 2 = c) by lia.
  destruct Hp as [<-|[<-|<-]]; unfold columna_in; simpl; by destruct (baja _ _ _).
Qed.

Definition env_tecla (t : nat -> option (Z * Z)) : Env :=
  {| dev := filas_st; dev_in := tecla_in t; dev_out := tecla_out; env_fuel := Z.to_nat 100003 |}.

#[refine] Instance vivo_tecla t : @Vivo (env_tecla t) :=
  {| v_max := O; v_salto := 1; v_pot := fun _ => O; v_tx := fun _ _ => O |}.
Proof.
  - lia.
  - done.
  - done.
  - intros d. simpl. lia.
  - done.
  - done.
  - intros u d. by left.
  - simpl. lia.
Defined.

#[refine] Instance matriz_tecla t : @Matriz (env_tecla t) :=
  {| m_filas := niveles : @dev (env_tecla t) -> list bool; m_turno := turno : @dev (env_tecla t) -> nat;
     m_tecla := t |}.
Proof.
  - done.
  - intros e d. split; [apply tecla_out_turno|apply tecla_out_niveles].
  - done.
  - intros c d Hc. by apply columna_in_baja.
Defined.

(** the key in row 1, column 1: the digit 5 *)
Definition mundo_tecla (t : option (Z * Z)) : @world (env_tecla (fun _ => t)) :=
  @mkWorld (env_tecla _) (@mkHw (env_tecla _) (mkFilas true true true true 0) 0 true [])
    (mkDisplay (replicate 1024 0) 0 0) (mkTeclado [] 0 false 65535) [] false
    (mkScan ST_IDLE 0 0 [] 0 0 0) (mkMef REPOSO [] 0 0 (SpecFloat.S754_zero false) [] 0 false false).

Lemma keypadRead_tecla_witness :
  exists w', keypadRead keypad (mundo_tecla (Some (1, 1))) = Ret (Some 4) w'.
Proof.
  destruct (keypadRead_tecla (mundo_tecla (Some (1, 1)))) as (w' & H & _);
    [by split|split; lia|]. exists w'. exact H.
Defined.
