(* ===== verification/Terminacion.v ===== *)
(** * How long the lock takes

    The bounds of [Duracion] carried to the states of [mefUpdate]: what always
    returns and when, what overruns its memory, and what the width of the time
    stamps does to a lock that stays on for weeks. The only waits without a bound
    are those for a person or for an interrupt. *)

From Stdlib Require Import ZArith Lia Bool Ascii String.
From Stdlib Require Import SpecFloat.
From stdpp Require Import base list strings numbers sets.
From stdpp Require Import options.
From S2P Require Import Prelude Machine Effects Triples Banco Sapi Display Plazos Cerrojo Teclado.
From S2P Require Import Usuarios Json Dobles EspAT As608 Rc522 Sincronizacion Mef Cerradura.
From S2P Require Import Refinamiento Seguridad Duracion.

Section Estados.
Context {E : Env} {V : Vivo}.

(** ** validacion.c, MEF.c *)
#[global] Instance sincronizar_dur : Dur true (33530 + 70 * v_salto) sincronizarConServidor.
Proof.
  unfold sincronizarConServidor. pose proof v_salto_rango. do 3 dur_paso.
  eapply (dur_bind_result _ _ _ _ _ (fun us => (length us <= MAX_PINS)%nat)); [apply _| | |lia].
  { intros w us w' Hr. exact (proj1 (espHTTPGetPins_ok _ _ _ _ Hr)). }
  intros us Hus. unfold MAX_PINS in Hus.
  assert (Hd : (length (fmt_d (s32 (Z.of_nat (length us)))) <= 3)%nat).
  { rewrite s32_small by lia. apply fmt_d_corto. lia. }
  assert (Hl : (length ($"USUARIOS: " ++ fmt_d (s32 (Z.of_nat (length us)))) < 20)%nat).
  { rewrite length_app. change (length ($"USUARIOS: ")) with 10%nat. lia. }
  assert (CabeEn 20 ($"USUARIOS: " ++ fmt_d (s32 (Z.of_nat (length us))))) by exact Hl.
  assert (Linea ($"USUARIOS: " ++ fmt_d (s32 (Z.of_nat (length us)))) 40).
  { unfold Linea, strlen. lia. }
  dur_run.
Qed.

#[global] Instance mod_mef_dur s f : Dur s 0 (mod_mef f).
Proof. unfold mod_mef. apply _. Qed.
#[global] Instance mod_db_dur s f : Dur s 0 (mod_db f).
Proof. unfold mod_db. apply _. Qed.
#[global] Instance ir_a_dur s e : Dur s 0 (ir_a e).
Proof. unfold ir_a. apply _. Qed.
#[global] Instance registrarPresencia_dur : Dur true v_salto registrarPresencia.
Proof. unfold registrarPresencia. dur_run. Qed.
#[global] Instance leerReloj_dur : Dur true v_salto leerReloj.
Proof. unfold leerReloj. dur_run. Qed.
#[global] Instance transcurrido_dur x : Dur true v_salto (transcurrido x).
Proof. unfold transcurrido. dur_run. Qed.

(** lines of text that fit *)
Class Lineas (l : list (list ascii * Z)) : Prop := lineas : Forall (fun '(str, y) => Linea str y) l.
#[global] Instance mensaje_dur s l : Lineas l -> Dur s 0 (mensaje l).
Proof.
  intros Hl. unfold mensaje. pose proof v_salto_rango. dur_paso.
  eapply (dur_bind _ _ 0); [|intros _; dur_run|lia].
  apply (dur_for_each _ _ 0); [|lia|lia]. intros [str y] Hin.
  pose proof (proj1 (Forall_forall _ _) Hl _ Hin) as Hxy. simpl in Hxy. apply _.
Qed.
#[global] Instance mensaje_dibujo {X} (p : world -> X) l : Dibujo p -> Keeps p (mensaje l).
Proof. intros Hp. unfold mensaje. keeps_run. Qed.
End Estados.
#[export] Hint Extern 1 (Lineas _) =>
  (repeat (apply Forall_cons; split; [solve [apply _]|]); apply Forall_nil_2)
  : typeclass_instances.

(** ** The decisions *)

(** the greeting fits its 30 bytes *)
Definition etiquetas_cortas (l : list PinUsuario_t) : Prop :=
  Forall (fun u => (length (tag u) <= 17)%nat) l.

Lemma etiqueta_find l (P : PinUsuario_t -> Prop) `{!forall u, Decision (P u)} i u :
  etiquetas_cortas l -> list_find P l = Some (i, u) -> (length (tag u) <= 17)%nat.
Proof.
  intros Hl (Hi & _)%list_find_Some. exact (Forall_lookup_1 _ _ _ _ Hl Hi).
Qed.
Lemma etiqueta_pin l p t :
  etiquetas_cortas l -> obtenerTagPorPin l p = Some t -> (length t <= 17)%nat.
Proof.
  intros Hl. unfold obtenerTagPorPin. destruct (list_find _ l) as [[i u]|] eqn:Hf; [|done].
  pose proof (etiqueta_find _ _ _ _ Hl Hf).
  destruct (0 <? strlen (tag u)); intros [= <-]; [done|simpl; lia].
Qed.
Lemma etiqueta_rfid l r t :
  etiquetas_cortas l -> obtenerTagPorRFID l r = Some t -> (length t <= 17)%nat.
Proof.
  intros Hl. unfold obtenerTagPorRFID. destruct (list_find _ l) as [[i u]|] eqn:Hf; [|done].
  pose proof (etiqueta_find _ _ _ _ Hl Hf).
  destruct (0 <? strlen (tag u)); [intros [= <-]; done|done].
Qed.
Lemma etiqueta_huella l h t :
  etiquetas_cortas l -> obtenerTagPorHuella l h = Some t -> (length t <= 17)%nat.
Proof.
  intros Hl. unfold obtenerTagPorHuella. destruct h as [h|]; [|done].
  destruct (list_find _ l) as [[i u]|] eqn:Hf; [|done].
  pose proof (etiqueta_find _ _ _ _ Hl Hf).
  destruct (0 <? strlen (tag u)); intros [= <-]; [done|simpl; lia].
Qed.

Section Datos.
Context {E : Env} {V : Vivo}.
#[local] Set Default Proof Using "Type".

(** the variables of MEF.c and the user table *)
Definition datos (w : world) : mef_st * list PinUsuario_t := (mef w, listaPins w).

#[global] Instance keeps_datos {A} (m : M A) :
  Eff [CDisp; CTec; CScan; CWifi] (motor_kinds ++ quietos) m -> Keeps datos m.
Proof.
  intros Hm w a w' H. unfold datos.
  pose proof (eff_frame _ _ _ _ (Hm _ _ _ H) CMef) as H1.
  pose proof (eff_frame _ _ _ _ (Hm _ _ _ H) CDb) as H2.
  simpl in H1, H2. rewrite H1, H2; [done|..]; apply (proj1 (bool_decide_eq_true _)); reflexivity.
Qed.

Lemma durp_mod_mef m l s b {B} f (g : unit -> M B) Q :
  durp datos (f m, l) s b (g tt) Q -> 0 <= b -> durp datos (m, l) s b (mod_mef f ≫= g) Q.
Proof.
  intros [_ H] Hb. split; [done|]. intros w Hw [= Hm Hl].
  destruct (H (set_mef (f (mef w)) w) Hw) as (a & w' & H1 & H2 & H3 & H4).
  { unfold datos. simpl. by rewrite Hm, Hl. }
  exists a, w'. done.
Qed.

Lemma durp_gets_mef m l s b {B} (g : mef_st -> M B) Q :
  durp datos (m, l) s b (g m) Q -> durp datos (m, l) s b (gets mef ≫= g) Q.
Proof. intros H. apply durp_gets; [intros w [= -> _]; exact H|apply H]. Qed.
Lemma durp_gets_db m l s b {B} (g : list PinUsuario_t -> M B) Q :
  durp datos (m, l) s b (g l) Q -> durp datos (m, l) s b (gets listaPins ≫= g) Q.
Proof. intros H. apply durp_gets; [intros w [= _ ->]; exact H|apply H]. Qed.
Lemma durp_mod_db m l s b {B} f (g : unit -> M B) Q :
  durp datos (m, f l) s b (g tt) Q -> 0 <= b -> durp datos (m, l) s b (mod_db f ≫= g) Q.
Proof.
  intros [_ H] Hb. split; [done|]. intros w Hw [= Hm Hl].
  destruct (H (set_db (f (listaPins w)) w) Hw) as (a & w' & H1 & H2 & H3 & H4).
  { unfold datos. simpl. by rewrite Hm, Hl. }
  exists a, w'. done.
Qed.
End Datos.

Ltac datos_paso :=
  lazymatch goal with
  | |- durp _ _ _ _ (mbind _ (mbind _ _)) _ => apply durp_assoc
  | |- durp _ _ _ _ (mbind _ (mret _)) _ => apply durp_ret_bind
  | |- durp _ _ _ _ (mbind _ (gets mef)) _ => apply durp_gets_mef
  | |- durp _ _ _ _ (mbind _ (gets listaPins)) _ => apply durp_gets_db
  | |- durp _ _ _ _ (mbind _ (mod_mef _)) _ => apply durp_mod_mef; [|lia]
  | |- durp _ _ _ _ (mbind _ (mod_db _)) _ => apply durp_mod_db; [|lia]
  | |- durp _ _ _ _ (mbind _ (sprintf ?n ?str)) _ =>
      rewrite (sprintf_run n str) by (solve [apply _]); apply durp_ret_bind
  | |- durp _ _ _ _ (mbind _ _) _ => eapply durp_keep; [solve [apply _]|solve [apply _]|intros|lia]
  end.

Section Decisiones.
Context {E : Env} {V : Vivo}.
#[local] Set Default Proof Using "Type".

(** the greeting of a short tag, on a page where it may run over *)
Lemma saludo_corto t :
  (length t <= 17)%nat -> saludo t = mret ($"BIENVENIDO, " ++ t) /\
  forall y, 0 <= y < 48 -> Linea ($"BIENVENIDO, " ++ t) y.
Proof.
  intros Ht. assert (Hl : (length ($"BIENVENIDO, " ++ t) < 30)%nat).
  { rewrite length_app. change (length ($"BIENVENIDO, ")) with 12%nat. lia. }
  split; [by apply sprintf_run|]. intros y Hy. unfold Linea, strlen. lia.
Qed.

#[global] Instance tecladoReset_dur s : Dur s 0 tecladoReset.
Proof. unfold tecladoReset. apply _. Qed.

Lemma pin_denegado_durp m l :
  0 <= intentosFallidos m < 3 ->
  durp datos (m, l) true (3100 + 20 * v_salto) pin_denegado (fun _ _ => True).
Proof.
  intros Hi. unfold pin_denegado. pose proof v_salto_rango. do 4 datos_paso.
  cbn [intentosFallidos set_intentos]. rewrite s32_small by lia.
  assert (Hn : intentosFallidos m + 1 = 1 \/ intentosFallidos m + 1 = 2 \/
               intentosFallidos m + 1 = 3) by lia.
  destruct Hn as [->|[->| ->]]; apply durp_resto; dur_run.
Qed.

Lemma validar_durp m l :
  0 <= intentosFallidos m < 3 -> etiquetas_cortas l ->
  durp datos (m, l) true (3100 + 20 * v_salto) validar (fun _ _ => True).
Proof.
  intros Hi Ht. unfold validar. pose proof v_salto_rango. do 3 datos_paso.
  destruct (validarPin l (pinIngresado m)).
  - destruct (obtenerTagPorPin l (pinIngresado m)) as [t|] eqn:Hp.
    + destruct (saludo_corto t (etiqueta_pin _ _ _ Ht Hp)) as [-> Hl].
      pose proof (Hl 35 ltac:(lia)). apply durp_resto. dur_run.
    + apply durp_resto. dur_run.
  - eapply durp_conseq; [by apply pin_denegado_durp|lia|done].
Qed.

Lemma validar_rfid_durp m l :
  etiquetas_cortas l ->
  durp datos (m, l) true (2600 + 20 * v_salto) validar_rfid (fun _ _ => True).
Proof.
  intros Ht. unfold validar_rfid. pose proof v_salto_rango. do 2 datos_paso.
  destruct (obtenerTagPorRFID l (rfid m)) as [t|] eqn:Hp; [|apply durp_resto; dur_run].
  destruct (saludo_corto t (etiqueta_rfid _ _ _ Ht Hp)) as [-> Hl].
  pose proof (Hl 10 ltac:(lia)). apply durp_resto. dur_run.
Qed.

Lemma sensor_cierre_dur : Dur true (600 + 20 * v_salto) sensor_cierre.
Proof. unfold sensor_cierre. cbn [OMITIR_SENSOR_CIERRE OMITIR_MOTOR]. dur_run. Qed.

Lemma huella_etiqueta l h :
  validarHuella l h = true -> exists t, obtenerTagPorHuella l h = Some t.
Proof.
  unfold validarHuella, obtenerTagPorHuella. destruct h as [h|]; [|done].
  destruct (list_find _ l) as [[i u]|]; [|done]. destruct (0 <? strlen (tag u)); eauto.
Qed.

Lemma leer_huella_durp m l :
  etiquetas_cortas l ->
  durp datos (m, l) true (2600 + 30 * v_salto) leer_y_validar_huella (fun _ _ => True).
Proof.
  intros Ht. unfold leer_y_validar_huella. pose proof v_salto_rango. datos_paso.
  destruct a as [[status id] sc]. destruct status; try (apply durp_resto; solve [dur_run]).
  cbv zeta. do 2 datos_paso. destruct (validarHuella l (Some (idStr_de id))) eqn:Hv.
  - destruct (huella_etiqueta _ _ Hv) as [t Hp]. rewrite Hp.
    destruct (saludo_corto t (etiqueta_huella _ _ _ Ht Hp)) as [Hs Hl].
    pose proof (Hl 35 ltac:(lia)). apply durp_resto. cbn [access]. do 4 dur_paso.
    rewrite Hs. dur_run.
  - apply durp_resto. dur_run.
Qed.

(** the states that only decide: nothing in them waits for anybody *)
Definition decide_sola (e : EstadoMEF_t) : Prop :=
  e = VALIDAR \/ e = VALIDAR_RFID \/ e = LEER_Y_VALIDAR_HUELLA \/ e = SENSOR_CIERRE \/ e = BLOQUEADO.

Lemma mefUpdate_durp m l :
  decide_sola (estadoActual m) -> 0 <= intentosFallidos m < 3 -> etiquetas_cortas l ->
  durp datos (m, l) true (3100 + 30 * v_salto) mefUpdate (fun _ _ => True).
Proof.
  intros He Hi Ht. unfold mefUpdate. pose proof v_salto_rango. datos_paso.
  destruct He as [->|[->|[->|[->| ->]]]].
  - eapply durp_conseq; [by apply validar_durp|lia|done].
  - eapply durp_conseq; [by apply validar_rfid_durp|lia|done].
  - eapply durp_conseq; [by apply leer_huella_durp|lia|done].
  - apply durp_resto. eapply dur_mono; [apply sensor_cierre_dur|lia].
  - apply durp_resto. dur_run.
Qed.
(** the door sensor sees the door shut *)
Definition puerta_cerrada : Prop :=
  forall d, fst (dev_in (InPin SENSORHALL_GPIO_PORT SENSORHALL_GPIO_PIN) d) = 0.

Lemma sensor_cierra m l :
  puerta_cerrada ->
  durp datos (m, l) true (600 + 20 * v_salto) sensor_cierre
    (fun _ c => estadoActual c.1 = ESPERANDO_ACCION).
Proof.
  intros Hp. unfold sensor_cierre, registrarPresencia. cbn [OMITIR_SENSOR_CIERRE OMITIR_MOTOR negb].
  pose proof v_salto_rango. do 3 datos_paso.
  apply (durp_step _ _ _ _ 0 _ _ (fun v c => v = false /\ c = (m, l))); [apply _| | |lia].
  { intros w v w' Hw H1. unfold Chip_GPIO_GetPinState, inp, mbind, M_bind in H1.
    specialize (Hp (device (hw w))). destruct (dev_in _ (device (hw w))) as [x d].
    injection H1 as <- <-. simpl in Hp. by rewrite Hp. }
  intros v c [-> ->]. cbn [negb when]. repeat datos_paso. unfold ir_a. repeat datos_paso.
  eapply durp_conseq; [eapply durp_tri with (Q := fun _ c => estadoActual c.1 = ESPERANDO_ACCION);
    [apply _|apply tri_keep; [apply _|done]]|lia|done].
Qed.


(** a greeting that does not fit *)
Lemma saludo_largo t w : (18 <= length t)%nat -> saludo t w = Undef.
Proof.
  intros Ht. unfold saludo, sprintf. rewrite (proj2 (Nat.ltb_ge _ _)); [done|].
  rewrite length_app. change (length ($"BIENVENIDO, ")) with 12%nat. lia.
Qed.

Lemma cae_tras s b {A B} (m : M A) (f : A -> M B) w :
  Dur s b m -> Keeps datos m -> listo s w ->
  (forall a w1, listo s w1 -> datos w1 = datos w -> f a w1 = Undef) -> (m ≫= f) w = Undef.
Proof using V.
  intros [_ Hm] Hk Hl Hf. destruct (Hm w Hl) as (a & w1 & H1 & Hl1 & _).
  unfold mbind, M_bind. rewrite H1. apply Hf; [done|exact (Hk _ _ _ H1)].
Qed.

Lemma validar_cae w t :
  listo true w -> validarPin (listaPins w) (pinIngresado (mef w)) = true ->
  obtenerTagPorPin (listaPins w) (pinIngresado (mef w)) = Some t -> (18 <= length t)%nat ->
  validar w = Undef.
Proof using V.
  intros Hl Hv Ht H18. unfold validar. eapply cae_tras; [apply _|apply _|done|].
  intros _ w1 Hl1 [= Hm1 Hd1]. unfold mbind at 1 2, M_bind at 1 2, gets. rewrite Hm1, Hd1, Hv, Ht.
  unfold mbind at 1, M_bind at 1.
  rewrite (cae_tras true 0 (display_println $"ACCESO CONCEDIDO" 20) _ w1 _ _ Hl1); [done|].
  intros _ w2 _ _. unfold mbind, M_bind. by rewrite saludo_largo.
Qed.

Lemma validar_rfid_cae w t :
  listo true w -> obtenerTagPorRFID (listaPins w) (rfid (mef w)) = Some t -> (18 <= length t)%nat ->
  validar_rfid w = Undef.
Proof using V.
  intros Hl Ht H18. unfold validar_rfid. unfold mbind at 1 2, M_bind at 1 2, gets. rewrite Ht.
  eapply cae_tras; [apply _|apply _|done|]. intros _ w1 Hl1 _.
  eapply cae_tras; [apply _|apply _|done|]. intros _ w2 Hl2 _.
  unfold mbind, M_bind. by rewrite saludo_largo.
Qed.
End Decisiones.

(** ** A turn with nobody about *)
Section Turno.
Context {E : Env} {V : Vivo}.

(** no key down *)
Definition sin_teclas : Prop := forall p q d, fst (dev_in (InPin p q) d) <> 0.
(** and no card near the reader (which then reads as zeros) *)
Definition nadie : Prop := sin_teclas /\ (forall d, u8 (fst (dev_in InSsp d)) = 0).

#[global] Instance rc522_write_dur s r v : Dur s 0 (rc522_write_reg r v).
Proof. unfold rc522_write_reg, rc522_cs_low, rc522_cs_high, spi_write. dur_run. Qed.
#[global] Instance rc522_read_dur s r : Dur s 0 (rc522_read_reg r).
Proof. unfold rc522_read_reg, rc522_cs_low, rc522_cs_high, spi_write. dur_run. Qed.
#[global] Instance rc522_set_bits_dur s r v : Dur s 0 (rc522_set_bits r v).
Proof. unfold rc522_set_bits. dur_run. Qed.
#[global] Instance rc522_clr_bits_dur s r v : Dur s 0 (rc522_clr_bits r v).
Proof. unfold rc522_clr_bits. dur_run. Qed.
#[global] Instance transceive_wait_dur : Dur true (50 + 3 * v_salto) transceive_wait.
Proof.
  unfold transceive_wait. pose proof v_salto_rango. dur_paso. dur_loop a 50 0. dur_run.
Qed.

(** a register of the silent reader, whatever else happens *)
Lemma lectura_cero r w v w' : nadie -> rc522_read_reg r w = Ret v w' -> v = 0.
Proof.
  intros [_ Hn]. unfold rc522_read_reg.
  intros (a & w1 & _ & (b & w2 & _ & (c & w3 & Hr & (d & w4 & _ & [= <- _])%bind_Ret)%bind_Ret)%bind_Ret)%bind_Ret.
  unfold spiRead1, inp, mbind, M_bind in Hr. specialize (Hn (device (hw w2))).
  destruct (dev_in InSsp (device (hw w2))) as [x dd]. by injection Hr as <- _.
Qed.

(** bound and result of a function, together *)
Definition durr (s : bool) (b : Z) {A} (m : M A) (Q : A -> Prop) : Prop :=
  durp nada tt s b m (fun a _ => Q a).

Ltac mudo_paso :=
  lazymatch goal with
  | |- durp _ _ _ _ (mbind _ (mbind _ _)) _ => apply durp_assoc
  | |- durp _ _ _ _ (mbind _ (mret _)) _ => apply durp_ret_bind
  | |- durp _ _ _ _ (mbind _ _) _ => eapply durp_keep; [solve [apply _]|apply _|intros|lia]
  | |- durp _ _ _ _ (mret _) _ => apply durp_ret; [lia|]
  end.

Lemma durr_bind s b b1 {A B} (m : M A) (f : A -> M B) Q1 Q :
  durr s b1 m Q1 -> (forall a, Q1 a -> durr s (b - b1) (f a) Q) -> 0 <= b -> durr s b (m ≫= f) Q.
Proof. intros Hm Hf. apply (durp_bind _ _ _ _ _ _ _ _ _ Hm). intros a [] Ha. by apply Hf. Qed.
Lemma durr_dur s b {A} (m : M A) Q : durr s b m Q -> Dur s b m.
Proof. intros H. eapply (durp_dur nada); [apply H|by intros []; exact H]. Qed.

Lemma leer_cero r : nadie -> durr true 0 (rc522_read_reg r) (fun v => v = 0).
Proof.
  intros Hn. apply durp_tri; [apply _|]. intros w v w' _ H. by eapply lectura_cero.
Qed.

Lemma transceive_mudo send cap :
  nadie -> durr true (60 + 5 * v_salto) (transceive send cap) (fun r => r.1.1 = false).
Proof.
  intros Hn. unfold transceive, durr. pose proof v_salto_rango. do 3 mudo_paso.
  eapply durp_keep; [apply (dur_for_each _ 0 0); [intros; apply _|lia|lia]|apply _|intros|lia].
  do 5 mudo_paso. match goal with |- context [Z.land ?v 27] => destruct (Z.land v 27 =? 0) end;
    cbn [negb]; [|by mudo_paso].
  apply (durr_bind _ _ _ _ _ _ _ (leer_cero _ Hn)); [|lia]. intros fifo ->. unfold durr. mudo_paso.
  cbv zeta. change (seqZ 0 0) with (@nil Z). cbn [read_fifo]. do 2 mudo_paso. done.
Qed.

Lemma leer_rfid_mudo n : nadie -> durr true (70 + 6 * v_salto) (leer_rfid_str n) (fun o => o = None).
Proof.
  intros Hn. pose proof v_salto_rango. unfold leer_rfid_str, rc522_requestA, durr. do 5 mudo_paso.
  apply (durr_bind _ _ _ _ _ _ _ (transceive_mudo _ _ Hn)); [|lia].
  intros [[ok stored] bits] Hok. simpl in Hok. subst ok. unfold durr. cbn [negb orb]. repeat mudo_paso. done.
Qed.

(** *** The keypad, for a projection that sees neither its rows nor its columns *)
Section Teclas.
Context {X : Type} (p : world -> X) (Hn : sin_teclas).
Hypothesis Hfila : forall r b, 0 <= r < 4 -> Keeps p (write_row keypad r b).
Hypothesis Hpata : forall q i, Keeps p (inp (InPin q i)).
#[local] Set Default Proof Using "All".

Lemma durp_first_none c s {A B} (l : list A) (f : A -> M (option B)) :
  (forall a, a ∈ l -> durp p c s 0 (f a) (fun o x => o = None /\ x = c)) ->
  durp p c s 0 (first_some l f) (fun o x => o = None /\ x = c).
Proof.
  induction l as [|a l IH]; intros Hf; simpl; [by apply durp_ret|].
  apply (durp_bind _ _ _ _ 0 _ _ _ _ (Hf a (list_elem_of_here _ _))); [|lia]. intros o x [-> ->].
  change (0 - 0) with 0. apply IH. intros b Hb. apply Hf. by apply list_elem_of_further.
Qed.

Lemma nivel_alto c s q : Pata q -> durp p c s 0 (gpioRead q) (fun level x => level = true /\ x = c).
Proof.
  intros Hp. apply durp_tri; [apply _|]. intros w v w' <- H. unfold gpioRead in H.
  destruct (q =? VCC); [by injection H as <- <-|]. destruct (q =? GND) eqn:Hg.
  { apply Z.eqb_eq in Hg. subst q. exfalso. apply Hp. reflexivity. }
  apply bind_Ret in H as (i & w1 & Hw1 & H). unfold gpioObtainPinInit in Hw1.
  assert (w1 = w) as ->. { destruct (q <? 0); [done|]. by destruct (gpioPinsInit !! _); [injection Hw1 as _ <-|]. }
  unfold Chip_GPIO_GetPinState in H. apply bind_Ret in H as (v1 & w2 & Hi & [= <- <-]).
  split; [|exact (Hpata _ _ _ _ _ Hi)].
  specialize (Hn (gpioPort i) (gpioPin i) (device (hw w))). unfold inp in Hi.
  destruct (dev_in _ (device (hw w))) as [y d]. injection Hi as <- _. simpl in Hn.
  by rewrite (proj2 (Z.eqb_neq _ _) Hn).
Qed.

Lemma sin_tecla c : durp p c true 0 (keypadRead keypad) (fun k x => k = None /\ x = c).
Proof.
  unfold keypadRead.
  eapply (durp_keep _ _ _ _ 0); [apply (dur_for_each _ 0 0); [|lia|lia]| |intros _|lia].
  { intros r Hr%elem_of_seqZ. apply write_row_dur. exact Hr. }
  { apply keeps_for_each. intros r Hr%elem_of_seqZ. by apply Hfila. }
  apply durp_first_none. intros q Hq%elem_of_seqZ.
  destruct (col_pin_teclado q Hq) as (i & -> & Hi). apply durp_ret_bind.
  apply (durp_bind _ _ _ _ 0 _ _ _ _ (nivel_alto _ _ _ Hi)); [|lia]. intros level x [-> ->].
  cbn [negb]. by apply durp_ret.
Qed.

Lemma leerPin_nadie (Hk : forall h i, Keeps p (set_edge h i)) c pin t :
  durp p c true 0 (leerPin pin t) (fun r x => r = (0, pin, s32 t) /\ x = c).
Proof.
  unfold leerPin, tecladoLeerPin. apply durp_assoc.
  apply (durp_bind _ _ _ _ 0 _ _ _ _ (sin_tecla c)); [|lia]. intros k x [-> ->]. apply durp_assoc.
  eapply (durp_keep _ _ _ _ 0); [unfold set_edge; apply _|apply _|intros _|lia]. cbn. by apply durp_ret.
Qed.
End Teclas.

#[global] Instance set_edge_dur s h i : Dur s 0 (set_edge h i).
Proof. unfold set_edge. apply _. Qed.

Lemma leerPin_mudo pin t : nadie -> durr true 0 (leerPin pin t) (fun r => r.1.1 = 0).
Proof.
  intros [Hn _]. unfold durr. eapply durp_conseq; [apply (leerPin_nadie nada Hn)|lia|by intros a c [-> _]].
  all: intros; apply keeps_nada.
Qed.

Lemma dur_bind_durr s b b1 {A B} (m : M A) (f : A -> M B) Q :
  durr s b1 m Q -> (forall a, Q a -> Dur s (b - b1) (f a)) -> 0 <= b -> Dur s b (m ≫= f).
Proof.
  intros Hm Hf Hb. apply (durr_dur _ _ _ (fun _ => True)). apply (durr_bind _ _ _ _ _ _ _ Hm); [|done].
  intros a Ha. specialize (Hf a Ha). destruct Hf as [H0 Hf]. split; [done|]. intros w Hw _.
  destruct (Hf w Hw) as (x & w' & H1 & H2 & H3). exists x, w'. done.
Qed.

(** the idle state, with nobody about *)
Lemma esperando_dur : nadie -> Dur true (100 + 20 * v_salto) esperando_accion.
Proof.
  intros Hn. pose proof v_salto_rango. unfold esperando_accion, sondearSensores. do 2 dur_paso.
  all: repeat lazymatch goal with
    | |- Dur _ _ (mbind _ (leerPin _ _)) =>
        apply (dur_bind_durr _ _ _ _ _ _ (leerPin_mudo _ _ Hn)); [intros [[res p] u] Hr; simpl in Hr; subst res|lia]
    | |- Dur _ _ (mbind _ (leer_rfid_str _)) =>
        apply (dur_bind_durr _ _ _ _ _ _ (leer_rfid_mudo _ Hn)); [intros o ->|lia]
    | |- _ => dur_paso
    end.
  all: discriminate.
Qed.
End Turno.

(** ** The theorems *)
Section Plazos_mef.
Context {E : Env} {V : Vivo}.
#[local] Set Default Proof Using "All".

Lemma mefUpdate_en e m w :
  estadoActual (mef w) = e -> (e = ESPERANDO_ACCION -> m = esperando_accion) ->
  (e = REPOSO -> m = reposo) -> e = ESPERANDO_ACCION \/ e = REPOSO -> mefUpdate w = m w.
Proof.
  intros He H1 H2 Hc. unfold mefUpdate, mbind, M_bind, gets. rewrite He.
  destruct Hc as [->| ->]; [by rewrite H1|by rewrite H2].
Qed.

(** C8: a decision is always taken: from a state that validates a credential or
    watches the open door, with every tag short enough for the greeting, a call of
    [mefUpdate] returns, whatever the peripherals answer, by a transition of the abstract
    lock, and lasts at most 3100 + 30 v_salto ms: 3.1 s of delays and, thirty times, the longest
    stretch between two looks at the clock (computation, I2C transfers, the motor's
    pulses), which depends on the board. *)
Theorem mefUpdate_termina w
    (Hl : listo true w) (Hm : en_marcha w) (Hi : 0 <= intentosFallidos (mef w) < 3)
    (Ht : etiquetas_cortas (listaPins w)) (He : decide_sola (estadoActual (mef w))) :
  exists w', mefUpdate w = Ret tt w' /\ listo true w' /\ avanza (3100 + 30 * v_salto) w w' /\
             paso_de (abs w) (abs w').
Proof.
  destruct (mefUpdate_durp (mef w) (listaPins w) He Hi Ht) as [_ H].
  destruct (H w Hl eq_refl) as ([] & w' & H1 & H2 & H3 & _). exists w'.
  by destruct (mefUpdate_post w w' Hm H1).
Qed.

(** C30: the greeting is where memory is overrun: a user whose tag has 18 or 19
    characters, which the table and the server's JSON allow, overflows the 30-byte buffer
    of "BIENVENIDO, %s" when the PIN or the card is accepted; nothing is defined from
    then on. *)
Theorem etiqueta_desborda w t
    (Hl : listo true w) (H18 : (18 <= length t)%nat)
    (Hc : estadoActual (mef w) = VALIDAR /\ validarPin (listaPins w) (pinIngresado (mef w)) = true /\
            obtenerTagPorPin (listaPins w) (pinIngresado (mef w)) = Some t \/
          estadoActual (mef w) = VALIDAR_RFID /\ obtenerTagPorRFID (listaPins w) (rfid (mef w)) = Some t) :
  mefUpdate w = Undef.
Proof.
  unfold mefUpdate, mbind, M_bind, gets.
  destruct Hc as [(-> & Hv & Ht)|(-> & Ht)]; [by eapply validar_cae|by eapply validar_rfid_cae].
Qed.

(** the main loop does not hang: with nobody about, a call of [mefUpdate] in
    the idle state polls the keypad, the card reader and the fingerprint schedule
    and returns within 100 + 20 v_salto ms, without touching the bolt or the user table. *)
Theorem turno_libre w
    (Hn : nadie) (Hl : listo true w) (Hm : en_marcha w)
    (He : estadoActual (mef w) = ESPERANDO_ACCION) :
  exists w', mefUpdate w = Ret tt w' /\ listo true w' /\ avanza (100 + 20 * v_salto) w w' /\
             listaPins w' = listaPins w /\ c_drv (abs w') = c_drv (abs w).
Proof.
  destruct (esperando_dur Hn) as [_ H]. destruct (H w Hl) as ([] & w' & H1 & H2 & H3).
  exists w'. rewrite (mefUpdate_en _ esperando_accion w He); [|done|done|by left].
  split; [done|]. do 2 (split; [done|]).
  destruct (mefUpdate_post w w' Hm) as [Hp _].
  { rewrite (mefUpdate_en _ esperando_accion w He); [done|done|done|by left]. }
  change (listaPins w) with (c_db (abs w)). change (listaPins w') with (c_db (abs w')).
  change (mef w) with (c_mef (abs w)) in He. by destruct Hp; simpl in *; try congruence;
    repeat match goal with Hx : _ \/ _ |- _ => destruct Hx end; try congruence.
Qed.

(** ** From the PIN to the closed bolt *)

Lemma paso_pin c c' :
  paso_de c c' -> estadoActual (c_mef c) = VALIDAR -> validarPin (c_db c) (pinIngresado (c_mef c)) = true ->
  c' = mkC (set_estado SENSOR_CIERRE (set_intentos 0 (c_mef c))) (c_db c) (c_scan c) (mover true (c_drv c)).
Proof.
  intros Hp He Hv. by destruct Hp; try congruence;
    repeat match goal with Hx : _ \/ _ |- _ => destruct Hx end; try congruence.
Qed.
Lemma paso_cerrado c c' :
  paso_de c c' -> estadoActual (c_mef c) = SENSOR_CIERRE -> estadoActual (c_mef c') = ESPERANDO_ACCION ->
  c_drv c' = mover false (c_drv c) /\ intentosFallidos (c_mef c') = intentosFallidos (c_mef c).
Proof.
  intros Hp He He'. destruct Hp; simpl in *; try congruence;
    repeat match goal with Hx : _ \/ _ |- _ => destruct Hx end; try congruence; by split.
Qed.


(** ** Bounded exchanges *)

(** C25: no exchange with the sensor or the modem hangs: a command to the
    fingerprint sensor, a step of its scan, an enrolment and an AT command return
    within their time limits plus a number of times v_salto (the stretches between two
    looks at the clock), whatever arrives or fails to arrive. *)
Theorem intercambios_acotados w instr extra ms pre fl cmd n id
    (Hl : listo true w) (Hms : 0 <= ms <= 100000) (Hpre : 0 <= pre <= 100000) (Hfl : 0 <= fl <= 100000) :
  (exists r w', as608CmdAck instr extra ms pre fl w = Ret r w' /\
                avanza (ms + pre + fl + 10 * v_salto) w w') /\
  (exists r w', as608ScanStep 0 0 w = Ret r w' /\ avanza (4 + 5 * v_salto) w w') /\
  (exists r w', as608EnrollAtId id w = Ret r w' /\ avanza (71000 + 150 * v_salto) w w') /\
  (exists r w', enviarComandoAT cmd n ms w = Ret r w' /\ avanza (ms + 1 + 8 * v_salto) w w').
Proof.
  assert (Hd : forall A b (m : M A), Dur true b m -> exists r w', m w = Ret r w' /\ avanza b w w').
  { intros A b m [_ H]. destruct (H w Hl) as (r & w' & H1 & _ & H2). eauto. }
  repeat split; apply Hd; apply _.
Qed.

(** ** Time stamps of 32 bits *)

(** what a truncated time stamp is off by *)
Lemma s32_atraso t : 2 ^ 31 <= t -> s32 t <= t - 2 ^ 32.
Proof.
  intros Ht. unfold s32. pose proof (Z.mod_pos_bound (t + 2 ^ 31) (2 ^ 32) ltac:(lia)).
  pose proof (Z.div_mod (t + 2 ^ 31) (2 ^ 32) ltac:(lia)).
  assert (1 <= (t + 2 ^ 31) / 2 ^ 32) by (apply Z.div_le_lower_bound; lia). lia.
Qed.
Lemma u32_atraso t : 2 ^ 32 <= t -> u32 t <= t - 2 ^ 32.
Proof.
  intros Ht. unfold u32. pose proof (Z.div_mod t (2 ^ 32) ltac:(lia)).
  assert (1 <= t / 2 ^ 32) by (apply Z.div_le_lower_bound; lia). lia.
Qed.

(** The inactivity timer works for the first 2^31 ms only: the time that
    [mefUpdate] finds elapsed since a presence just recorded is the real one before, and
    beyond the forty seconds of [TIMEOUT_MS] from then (24.8 days of uptime) on, so
    that the lock goes back to sleep at once. *)
Lemma presencia_vencida w (Hl : listo true w) :
  exists dt w', (registrarPresencia ;; m ← gets mef; transcurrido (ultimaPresencia m)) w = Ret dt w' /\
    (tickCounter (hw w) + 2 * v_salto < 2 ^ 31 -> 0 <= dt <= 2 * v_salto) /\
    (2 ^ 31 <= tickCounter (hw w) < 2 ^ 62 -> TIMEOUT_MS < dt).
Proof.
  pose proof v_salto_rango as Hk. unfold registrarPresencia, transcurrido.
  destruct (tickRead_mira w Hl) as (n & w1 & H1 & Hl1 & Hn & Ht1 & _).
  set (w2 := set_mef (set_presencia (s32 (tickCounter (hw w1))) (mef w1)) w1).
  destruct (tickRead_mira w2 Hl1) as (n2 & w3 & H2 & _ & Hn2 & Ht2 & _).
  change (tickCounter (hw w2)) with (tickCounter (hw w1)) in Ht2.
  exists (u64 (tickCounter (hw w3) - s32 (tickCounter (hw w1)))), w3.
  split; [unfold mod_mef, modify, gets, mbind, M_bind, mret, M_ret; rewrite H1; fold w2; by rewrite H2|].
  destruct Hl as (_ & Hr & _). split; intros Ht.
  - rewrite Ht2, Ht1. rewrite !(u64_small (_ + _)), s32_small, u64_small by (rewrite ?u64_small; lia). lia.
  - rewrite u64_small in Ht1 by lia. rewrite u64_small in Ht2 by lia.
    pose proof (s32_atraso (tickCounter (hw w1)) ltac:(lia)).
    assert (- 2 ^ 31 <= s32 (tickCounter (hw w1))).
    { unfold s32. pose proof (Z.mod_pos_bound (tickCounter (hw w1) + 2 ^ 31) (2 ^ 32)). lia. }
    rewrite u64_small by lia. unfold TIMEOUT_MS. lia.
Qed.

(** a clock past 2^32 ms *)
Definition viejo (b : Z) (w : world) : Prop :=
  listo true w /\ 2 ^ 32 <= tickCounter (hw w) < 2 ^ 62 + b.

Lemma viejo_bind B b {X Y} (m : M X) (f : X -> M Y) (y : Y) w :
  viejo B w -> 0 <= B -> B + b <= 2 ^ 61 -> Dur true b m ->
  (forall a w1, viejo (B + b) w1 -> exists w', f a w1 = Ret y w') -> exists w', (m ≫= f) w = Ret y w'.
Proof.
  intros [Hl Ht] HB Hb [H0 H] Hf. destruct (H w Hl) as (a & w1 & H1 & Hl1 & (n & Hn & Ht1 & _)).
  rewrite u64_small in Ht1 by lia.
  destruct (Hf a w1) as [w' Hw']; [split; [done|lia]|]. exists w'. apply bind_Ret. eauto.
Qed.

(** a loop on such a clock ends at the first look *)
Lemma viejo_bucle B {S R} (body : S -> M (S + R)) ms t0 s w g x :
  viejo B w -> 0 <= B <= 2 ^ 61 -> 0 <= ms <= 100000 -> 2 ^ 32 <= t0 <= tickCounter (hw w) ->
  body s = (tickRead ≫= g) -> (forall t, ms <= u64 (t - u32 t0) -> g t = mret (inr x)) ->
  exists w', loop body s w = Ret x w'.
Proof.
  intros [Hl Ht] HB Hms Ht0 Hg Hx. pose proof v_salto_rango.
  destruct (tickRead_mira w Hl) as (n & w1 & H1 & Hl1 & Hn & Ht1 & _).
  rewrite u64_small in Ht1 by lia. pose proof (u32_atraso t0 ltac:(lia)).
  pose proof (u32_bound t0). exists w1.
  unfold loop. pose proof v_fuel. destruct env_fuel as [|k]; [lia|].
  rewrite loop_n_S, Hg. unfold mbind, M_bind. rewrite H1, Hx; [done|]. rewrite u64_small; lia.
Qed.

Lemma viejo_tick B {Y} (f : Z -> M Y) (y : Y) w :
  viejo B w -> 0 <= B <= 2 ^ 60 ->
  (forall t w1, viejo (B + v_salto) w1 -> t = tickCounter (hw w1) -> exists w', f t w1 = Ret y w') ->
  exists w', (tickRead ≫= f) w = Ret y w'.
Proof.
  intros [Hl Ht] HB Hf. pose proof v_salto_rango.
  destruct (tickRead_mira w Hl) as (n & w1 & H1 & Hl1 & Hn & Ht1 & _).
  rewrite u64_small in Ht1 by lia. destruct (Hf (tickCounter (hw w1)) w1) as [w' Hw']; [split; [done|lia]|done|].
  exists w'. apply bind_Ret. eauto.
Qed.

Lemma recv_sordo B n ms w :
  viejo B w -> 0 <= B <= 2 ^ 60 -> 0 <= ms <= 100000 -> exists w', as608Recv n ms w = Ret [] w'.
Proof.
  intros Hw HB Hms. pose proof v_salto_rango. unfold as608Recv. apply (viejo_tick B); [done|done|].
  intros t w1 Hw1 ->. pose proof Hw1 as [_ Hr].
  eapply (viejo_bucle _ _ ms _ _ w1); [exact Hw1|lia|done|split; [apply Hr|lia]|reflexivity|].
  intros t2 Ht2. cbv beta. by rewrite (proj2 (Z.ltb_ge _ _) Ht2).
Qed.

(** C31: from 2^32 ms (49.7 days) of uptime on, nothing is received any more: whatever
    the devices send, every command to the fingerprint sensor ends with the code of a
    missing answer and every AT command with an empty response. *)
Theorem sordo_a_los_49_dias w instr extra ms pre fl cmd n
    (Hl : listo true w) (Ht : 2 ^ 32 <= tickCounter (hw w) < 2 ^ 62)
    (Hms : 0 <= ms <= 100000) (Hpre : 0 <= pre <= 100000) (Hfl : 0 <= fl <= 100000) :
  (exists w', as608CmdAck instr extra ms pre fl w = Ret 255 w') /\
  (exists w', enviarComandoAT cmd n ms w = Ret [] w').
Proof.
  pose proof v_salto_rango. assert (Hw : viejo 0 w) by (split; [done|lia]).
  assert (Plazo pre /\ Plazo fl) as [Hp Hf] by done. split.
  - unfold as608CmdAck, as608GetAck.
    eapply (viejo_bind 0 (pre + 3 * v_salto)); [done|lia|lia| |].
    { destruct (negb (pre =? 0)); cbn [when]; [apply _|apply dur_ret; lia]. }
    intros _ w1 Hw1. eapply (viejo_bind _ (fl + 3 * v_salto)); [exact Hw1|lia|lia|apply _|].
    intros _ w2 Hw2. eapply (viejo_bind _ 0); [exact Hw2|lia|lia| |].
    { apply as608WritePacket_dur. rewrite length_cons, length_take. lia. }
    intros _ w3 Hw3. destruct (recv_sordo _ 32 ms w3 Hw3) as [w' Hr]; [lia|done|].
    exists w'. apply bind_Ret. eauto.
  - unfold enviarComandoAT. destruct (n =? 0); [by exists w|].
    eapply (viejo_bind 0 0); [done|lia|lia|apply _|]. intros _ w1 Hw1.
    eapply (viejo_bind _ 0); [exact Hw1|lia|lia|apply _|]. intros _ w2 Hw2.
    apply (viejo_tick _ _ _ _ Hw2); [lia|]. intros t w3 Hw3 ->. pose proof Hw3 as [_ Hr].
    cbv zeta. eapply (viejo_bucle _ _ ms _ _ w3); [exact Hw3|lia|done|split; [apply Hr|lia]|reflexivity|].
    intros t2 Ht2. cbv beta. by rewrite (proj2 (Z.ltb_ge _ _) Ht2).
Qed.
End Plazos_mef.

(** ** The board where nothing changes is live *)
#[refine] Instance vivo_fijo nivel : @Vivo (env_fijo nivel) :=
  {| v_max := 0; v_salto := 1; v_pot := fun _ => O; v_tx := fun _ _ => O |}.
Proof.
  all: cbn [env_fijo dev dev_in dev_out env_fuel fijo_in fst snd]; try (intros; lia).
  - intros _ _. left. discriminate.
Defined.

Lemma nadie_fijo : @nadie (env_fijo 1).
Proof. by split. Qed.
Lemma listo_fijo nivel t db g m : 0 <= t < 2 ^ 64 -> @listo (env_fijo nivel) true (mundo_fijo nivel t db g m).
Proof. intros Ht. by split. Qed.
Lemma en_marcha_fijo nivel t db g m : @en_marcha (env_fijo nivel) (mundo_fijo nivel t db g m).
Proof. split; [apply tec_ok_reset|by split]. Qed.

(** the table of the firmware has short tags *)
Lemma etiquetas_iniciales : etiquetas_cortas listaPins_inicial.
Proof.
  assert (H : forallb (fun u => (length (tag u) <=? 17)%nat) listaPins_inicial = true) by reflexivity.
  apply Forall_forall. intros u Hu. rewrite forallb_forall in H.
  apply Nat.leb_le, H, list_elem_of_In, Hu.
Qed.

Definition mef_en (e : EstadoMEF_t) : mef_st := set_estado e mef_inicial.

Lemma mefUpdate_termina_witness :
  exists w', mefUpdate (mundo_fijo 1 0 listaPins_inicial scan_zero (set_pin $"22222" (mef_en VALIDAR)))
             = Ret tt w' /\
             avanza 3130 (mundo_fijo 1 0 listaPins_inicial scan_zero (set_pin $"22222" (mef_en VALIDAR))) w'.
Proof.
  destruct (@mefUpdate_termina (env_fijo 1) (vivo_fijo 1)
    (mundo_fijo 1 0 listaPins_inicial scan_zero (set_pin $"22222" (mef_en VALIDAR)))
    (listo_fijo 1 0 _ _ _ ltac:(lia)) (en_marcha_fijo _ _ _ _ _) ltac:(simpl; lia) etiquetas_iniciales
    (or_introl eq_refl)) as (w' & H1 & _ & H2 & _).
  exists w'. split; [exact H1|exact H2].
Defined.

Lemma turno_libre_witness :
  exists w', mefUpdate (mundo_fijo 1 5000 listaPins_inicial scan_zero (mef_en ESPERANDO_ACCION))
             = Ret tt w' /\ listaPins w' = listaPins_inicial.
Proof.
  destruct (@turno_libre (env_fijo 1) (vivo_fijo 1)
    (mundo_fijo 1 5000 listaPins_inicial scan_zero (mef_en ESPERANDO_ACCION))
    nadie_fijo (listo_fijo 1 5000 _ _ _ ltac:(lia)) (en_marcha_fijo _ _ _ _ _) eq_refl)
    as (w' & H1 & _ & _ & H2 & _).
  exists w'. split; [exact H1|exact H2].
Defined.

(** a shut door *)
Lemma puerta_fija : @puerta_cerrada (env_fijo 0).
Proof. done. Qed.
Definition mundo_validar : @world (env_fijo 0) :=
  mundo_fijo 0 7 listaPins_inicial scan_zero (set_pin $"22222" (set_intentos 2 (mef_en VALIDAR))).


(** a user with the longest tag the table holds *)
Definition mundo_etiqueta : @world (env_fijo 1) :=
  mundo_fijo 1 7 [mkUsuario $"12345" true [] [] $"Laboratorio central"] scan_zero
    (set_pin $"12345" (mef_en VALIDAR)).

Lemma etiqueta_desborda_witness : mefUpdate mundo_etiqueta = Undef.
Proof.
  apply (@etiqueta_desborda (env_fijo 1) (vivo_fijo 1) mundo_etiqueta $"Laboratorio central");
    [apply listo_fijo; lia|simpl; lia|left; split; [reflexivity|split; reflexivity]].
Defined.

Lemma intercambios_acotados_witness :
  exists r w', as608CmdAck 1 [] 200 2 2 mundo_validar = Ret r w' /\ avanza 214 mundo_validar w'.
Proof.
  destruct (@intercambios_acotados (env_fijo 0) (vivo_fijo 0) mundo_validar 1 [] 200 2 2 [] 0 0
    (listo_fijo 0 7 _ _ _ ltac:(lia)) ltac:(lia) ltac:(lia) ltac:(lia)) as ((r & w' & H1 & H2) & _).
  exists r, w'. split; [exact H1|exact H2].
Defined.

(** the clock after twenty-five days, and after fifty *)
Lemma presencia_vencida_witness :
  exists dt w', (registrarPresencia ;; m ← gets mef; transcurrido (ultimaPresencia m))
    (mundo_fijo 1 2160000000 listaPins_inicial scan_zero mef_inicial) = Ret dt w' /\ 40000 < dt.
Proof.
  destruct (@presencia_vencida (env_fijo 1) (vivo_fijo 1)
    (mundo_fijo 1 2160000000 listaPins_inicial scan_zero mef_inicial)
    (listo_fijo 1 2160000000 _ _ _ ltac:(lia))) as (dt & w' & H1 & _ & H2).
  exists dt, w'. split; [exact H1|]. apply H2. simpl. lia.
Defined.
Lemma sordo_a_los_49_dias_witness :
  exists w', as608CmdAck 1 [] 200 2 2
    (mundo_fijo 1 4320000000 listaPins_inicial scan_zero mef_inicial) = Ret 255 w'.
Proof.
  destruct (@sordo_a_los_49_dias (env_fijo 1) (vivo_fijo 1)
    (mundo_fijo 1 4320000000 listaPins_inicial scan_zero mef_inicial) 1 [] 200 2 2 [] 0
    (listo_fijo 1 4320000000 _ _ _ ltac:(lia)) ltac:(simpl; lia) ltac:(lia) ltac:(lia) ltac:(lia))
    as ((w' & H) & _).
  exists w'. exact H.
Defined.

(** a wait of 250 ms, one tick per look *)
Lemma delay_250 :
  exists n w', delay 250 (mundo_fijo 1 0 [] scan_zero
      (mkMef REPOSO [] 0 0 (SpecFloat.S754_zero false) [] 0 false false)) = Ret tt w' /\
    tickCounter (hw w') = u64 (0 + n) /\ 250 <= n <= 253.
Proof.
  apply (@delay_exacto (env_fijo 1) (vivo_fijo 1) 250); [lia|]. apply listo_fijo. lia.
Defined.
