(* ===== verification/Sueno.v ===== *)
(** * Sleeping and waking up

    entrarModoSleep of MEF.c with the presence interrupt, which can come while it is
    enabled and the core still awake, or during the WFI.  [visitas]: what the interrupt
    does at each of those two points.  The lock wakes up exactly when somebody comes
    after the WFI began; who comes a moment before is served by the handler, and the
    lock sleeps on. *)

From Stdlib Require Import ZArith Lia Bool Ascii String.
From Stdlib Require Import SpecFloat.
From stdpp Require Import base list strings numbers sets.
From stdpp Require Import options.
From S2P Require Import Prelude Machine Effects Triples Banco Sapi Display Plazos Cerrojo Teclado.
From S2P Require Import Usuarios Json Dobles EspAT As608 Rc522 Sincronizacion Mef Cerradura.
From S2P Require Import Refinamiento Seguridad Duracion Matriz Terminacion.

(** ** Time, with the SysTick interrupts off meanwhile *)
Section Reposo.
Context {E : Env} {V : Vivo}.

(** the SysTick interrupts on or off before and after *)
Definition durs (s s' : bool) (b : Z) {A} (m : M A) : Prop :=
  0 <= b /\ forall w, listo s w -> exists a w', m w = Ret a w' /\ listo s' w' /\ avanza b w w'.

Lemma durs_dur s s' b b1 {A B} (m : M A) (f : A -> M B) :
  Dur s b1 m -> (forall a, durs s s' (b - b1) (f a)) -> 0 <= b -> durs s s' b (m ≫= f).
Proof.
  intros [H0 Hm] Hf Hb. split; [done|]. intros w Hw.
  destruct (Hm w Hw) as (a & w1 & H1 & Hw1 & Ha1).
  destruct (Hf a) as [_ Hfa]. destruct (Hfa w1 Hw1) as (c & w2 & H2 & Hw2 & Ha2).
  exists c, w2. split; [apply bind_Ret; eauto|]. split; [done|].
  replace b with (b1 + (b - b1)) by lia. eauto using avanza_trans.
Qed.
Lemma durs_systick s s' b {B} x (f : unit -> M B) :
  durs x s' b (f tt) -> durs s s' b (set_systick x ≫= f).
Proof.
  intros [Hb Hf]. split; [done|]. intros w (H1 & H2 & H3).
  destruct (Hf (set_hw (mkHw (device (hw w)) (tickCounter (hw w)) x (trace (hw w))) w))
    as (a & w' & Hr); [done|]. exists a, w'. exact Hr.
Qed.
Lemma durs_fin s b {A} (m : M A) : Dur s b m -> durs s s b m.
Proof. done. Qed.
Lemma dur_de_durs s b {A} (m : M A) : durs s s b m -> Dur s b m.
Proof. done. Qed.

#[global] Instance pinint_dur s c : Dur s 0 (Chip_PININT_ClearIntStatus c).
Proof. unfold Chip_PININT_ClearIntStatus. apply _. Qed.
#[global] Instance handler_dur s : Dur s 0 GPIO0_IRQHandler.
Proof. unfold GPIO0_IRQHandler. dur_run. Qed.
#[global] Instance irq_point_dur s : Dur s 0 irq_point.
Proof. unfold irq_point. dur_run. Qed.

#[global] Instance consultarVersion_dur : Dur true (108100 + 230 * v_salto) consultarVersion.
Proof. unfold consultarVersion. dur_run. Qed.
#[global] Instance actualizarVersion_dur v : Dur true (36000 + 90 * v_salto) (actualizarVersion v).
Proof. unfold actualizarVersion. dur_run. Qed.


Ltac durs_run :=
  repeat lazymatch goal with
  | |- durs _ _ _ (mbind _ (set_systick _)) => apply durs_systick
  | |- durs _ _ _ (mbind _ _) => eapply durs_dur; [solve [apply _]|intros|lia]
  end;
  apply durs_fin; eapply dur_mono; [apply _|lia].

Lemma adormecer_durs : durs true false (100 + 5 * v_salto) adormecer.
Proof. pose proof v_salto_rango. unfold adormecer. durs_run. Qed.
Lemma despertar_durs : durs false true (500 + 5 * v_salto) despertar.
Proof. pose proof v_salto_rango. unfold despertar. durs_run. Qed.
End Reposo.

(** ** The presence interrupt

    What the interrupt controller answers each time the model looks at it: 0 nobody, 1 the
    interrupt, any other value a wake-up of another cause. Nothing else the firmware reads
    or writes changes who comes. *)
Class Visita {E : Env} : Type := {
  visitas : dev -> list Z;
  visita_mira d : fst (dev_in InWake d) = hd 0 (visitas d) /\
                  visitas (snd (dev_in InWake d)) = tl (visitas d);
  visita_in i d : i <> InWake -> visitas (snd (dev_in i d)) = visitas d;
  visita_out e d : visitas (dev_out e d) = visitas d
}.

Section Visitas.
Context {E : Env} {Vi : Visita}.

(** who is still to come, and the flag of the handler *)
Definition espera (w : world) : list Z * bool := (visitas (device (hw w)), eventoPresencia (mef w)).

#[local] Instance espera_set_tick t : Keeps espera (set_tick t).
Proof. by intros w b w' [= _ <-]. Qed.
#[local] Instance espera_set_systick x : Keeps espera (set_systick x).
Proof. by intros w b w' [= _ <-]. Qed.
#[local] Instance espera_disp (f : world -> display_st) : Keeps espera (modify (fun w => set_disp (f w) w)).
Proof. by intros w b w' [= _ <-]. Qed.
#[local] Instance espera_emit e : Keeps espera (emit e).
Proof. intros w b w' [= _ <-]. unfold espera. cbn. by rewrite visita_out. Qed.
Lemma espera_inp i : i <> InWake -> Keeps espera (inp i).
Proof.
  intros Hi w b w' H. unfold inp in H. pose proof (visita_in i (device (hw w)) Hi) as Hv.
  destruct (dev_in i (device (hw w))) as [v d]. injection H as _ <-. unfold espera. simpl in *. by rewrite Hv.
Qed.
#[local] Hint Extern 1 (Keeps espera (inp _)) => (apply espera_inp; discriminate) : typeclass_instances.

#[local] Instance espera_reloj : Reloj espera.
Proof. split; apply _. Qed.
#[local] Instance espera_dibujo : Dibujo espera.
Proof. split; apply _. Qed.

(** a look at the interrupt *)
Lemma tri_wake v e : tri espera (v, e) (inp InWake) (fun x c => x = hd 0 v /\ c = (tl v, e)).
Proof.
  intros w x w' Hw H. unfold inp in H. pose proof (visita_mira (device (hw w))) as [H1 H2].
  destruct (dev_in InWake (device (hw w))) as [y d]. injection H as <- <-. injection Hw as <- <-.
  unfold espera. simpl in *. by rewrite H1, H2.
Qed.

Lemma tri_evento v e b : tri espera (v, e) (mod_mef (set_evento b)) (fun _ c => c = (v, b)).
Proof. intros w x w' [= <- <-] [= _ <-]. done. Qed.

Lemma tri_handler v e : tri espera (v, e) GPIO0_IRQHandler (fun _ c => c = (v, true)).
Proof.
  unfold GPIO0_IRQHandler, Chip_PININT_ClearIntStatus. apply tri_bind, tri_keep; [apply _|intros _].
  apply tri_evento.
Qed.

Lemma tri_irq_point v e :
  tri espera (v, e) irq_point (fun _ c => c = (tl v, negb (hd 0 v =? 0) || e)).
Proof.
  unfold irq_point. apply tri_bind. eapply tri_conseq; [apply tri_wake|]. intros x c [-> ->].
  apply tri_when; intros Hx; [|by rewrite Hx]. eapply tri_conseq; [apply tri_handler|]. intros _ c ->.
  by rewrite Hx.
Qed.

(** at the WFI one look has been spent, and the flag says whether it found somebody *)
Lemma tri_adormecer v e :
  tri espera (v, e) adormecer (fun _ c => c = (tl v, negb (hd 0 v =? 0))).
Proof.
  unfold adormecer. do 2 (apply tri_bind, tri_keep; [apply _|intros _]).
  apply tri_bind. eapply tri_conseq; [apply tri_evento|]. intros _ c ->.
  unfold Chip_PININT_ClearIntStatus. do 3 (apply tri_bind, tri_keep; [apply _|intros _]).
  apply tri_bind. eapply tri_conseq; [apply tri_irq_point|]. intros _ c ->. rewrite orb_false_r.
  do 3 (apply tri_bind, tri_keep; [apply _|intros _]). by apply tri_keep; [apply _|].
Qed.

(** the WFI returns exactly when something comes *)
Lemma WFI_duerme w : hd 0 (visitas (device (hw w))) = 0 -> WFI w = Diverge.
Proof.
  intros H0. unfold WFI, mbind, M_bind, emit, modify, inp. cbn.
  destruct (visita_mira (dev_out EvWfi (device (hw w)))) as [H1 _]. rewrite visita_out, H0 in H1.
  destruct (dev_in InWake _) as [v d]. simpl in H1. by subst v.
Qed.
End Visitas.

Section Sueno.
Context {E : Env} {V : Vivo} {Vi : Visita}.

Lemma WFI_despierta w :
  listo false w -> hd 0 (visitas (device (hw w))) <> 0 ->
  exists w', WFI w = Ret tt w' /\ listo false w' /\ avanza 0 w w'.
Proof.
  intros Hl H0. unfold WFI. destruct (dur_emit false 0 EvWfi ltac:(lia)) as [_ He].
  destruct (He w Hl) as ([] & w1 & E1 & Hl1 & Ha1).
  assert (H1 : hd 0 (visitas (device (hw w1))) <> 0).
  { injection E1 as <-. cbn. by rewrite visita_out. }
  destruct (dur_inp false 0 InWake ltac:(lia) ltac:(done)) as [_ Hi].
  destruct (Hi w1 Hl1) as (v & w2 & E2 & Hl2 & Ha2).
  destruct (tri_wake (visitas (device (hw w1))) (eventoPresencia (mef w1)) w1 v w2 eq_refl E2) as [-> _].
  assert (Hd : Dur false 0 (when (hd 0 (visitas (device (hw w1))) =? 1) GPIO0_IRQHandler)) by dur_run.
  destruct Hd as [_ Hd]. destruct (Hd w2 Hl2) as ([] & w3 & E3 & Hl3 & Ha3).
  exists w3. split.
  - apply bind_Ret. exists tt, w1. split; [done|]. apply bind_Ret. eexists _, w2. split; [exact E2|].
    by rewrite (proj2 (Z.eqb_neq _ _) H1).
  - split; [done|]. exact (avanza_trans 0 0 _ _ _ Ha1 (avanza_trans 0 0 _ _ _ Ha2 Ha3)).
Qed.

Lemma version_dur : Dur true (144100 + 330 * v_salto)
  (versionServer ← consultarVersion; actualizarVersion versionServer).
Proof. pose proof v_salto_rango. dur_run. Qed.
Lemma salida_dur : Dur true (10 + 10 * v_salto) (display_clear ;; ir_a ESPERANDO_ACCION).
Proof. pose proof v_salto_rango. unfold ir_a. dur_run. Qed.

(** the state it is left for *)
Lemma reposo_sale w w' :
  en_marcha w -> estadoActual (mef w) = REPOSO -> mefUpdate w = Ret tt w' ->
  estadoActual (mef w') = ESPERANDO_ACCION.
Proof.
  intros Hm He H. destruct (mefUpdate_post w w' Hm H) as [Hp _].
  change (mef w') with (c_mef (abs w')). change (mef w) with (c_mef (abs w)) in He.
  by destruct Hp; simpl in *; try congruence;
    repeat match goal with Hx : _ \/ _ |- _ => destruct Hx end; try congruence.
Qed.

(** C12: who wakes the lock: a call of [mefUpdate] in [REPOSO] always reaches the WFI.  If the
    interrupt comes after it, the call leaves the sleep, asks the server for its version
    (with one attempt to reconnect, each wait limited) and ends in [ESPERANDO_ACCION] with
    the SysTick running again, at most 150000 + 400 v_salto ticks later (v_salto: the most
    between two looks at the clock), whatever the modem answers.  If
    nobody comes after it the call does not return, and so it is for whoever came
    between the enabling of the interrupt and the WFI: the handler has run and noted the
    presence, and the lock sleeps all the same. *)
Theorem reposo_despierta w
    (Hl : listo true w) (Hm : en_marcha w) (He : estadoActual (mef w) = REPOSO) :
  let antes := nth 0 (visitas (device (hw w))) 0 in
  let despues := nth 1 (visitas (device (hw w))) 0 in
  (exists w1, adormecer w = Ret tt w1 /\ avanza (100 + 5 * v_salto) w w1 /\
     eventoPresencia (mef w1) = negb (antes =? 0)) /\
  (despues <> 0 ->
     exists w', mefUpdate w = Ret tt w' /\ listo true w' /\ avanza (150000 + 400 * v_salto) w w' /\
                estadoActual (mef w') = ESPERANDO_ACCION) /\
  (despues = 0 -> mefUpdate w = Diverge).
Proof.
  intros antes despues.
  assert (Hu : mefUpdate w = reposo w) by (apply (mefUpdate_en _ _ _ He); auto; discriminate).
  destruct adormecer_durs as [_ Ha]. destruct (Ha w Hl) as ([] & w1 & E1 & Hl1 & Ha1).
  pose proof (tri_adormecer _ _ w tt w1 eq_refl E1) as Hc. injection Hc as Hv Hf.
  assert (Hd : hd 0 (visitas (device (hw w1))) = despues).
  { unfold despues. rewrite Hv. by destruct (visitas (device (hw w))) as [|x [|y l]]. }
  split; [|split].
  - exists w1. split; [done|]. split; [done|]. rewrite Hf. unfold antes.
    by destruct (visitas (device (hw w))).
  - intros H0. destruct (WFI_despierta w1 Hl1) as (w2 & E2 & Hl2 & Ha2); [by rewrite Hd|].
    destruct despertar_durs as [_ Hp]. destruct (Hp w2 Hl2) as ([] & w3 & E3 & Hl3 & Ha3).
    destruct version_dur as [_ Hr]. destruct (Hr w3 Hl3) as ([] & w4 & E4 & Hl4 & Ha4).
    destruct salida_dur as [_ Hs]. destruct (Hs w4 Hl4) as ([] & w5 & E5 & Hl5 & Ha5).
    assert (Er : reposo w = Ret tt w5).
    { unfold reposo, entrarModoSleep, dormir. apply bind_Ret. exists tt, w4. split; [|exact E5].
      apply bind_Ret. exists tt, w3. split; [|exact E4]. apply bind_Ret. exists tt, w1. split; [done|].
      apply bind_Ret. by exists tt, w2. }
    exists w5. rewrite Hu. split; [done|]. split; [done|]. split.
    + pose proof v_salto_rango. eapply (avanza_mono (100 + 5 * v_salto + (0 + (500 + 5 * v_salto + (144100 + 330 * v_salto + (10 + 10 * v_salto))))));
        [|lia].
      eapply avanza_trans; [exact Ha1|]. eapply avanza_trans; [exact Ha2|].
      eapply avanza_trans; [exact Ha3|]. eapply avanza_trans; [exact Ha4|exact Ha5].
    + apply (reposo_sale w w5 Hm He). by rewrite Hu.
  - intros H0. rewrite Hu. unfold reposo, entrarModoSleep, dormir, mbind, M_bind.
    rewrite E1, WFI_duerme; [done|]. by rewrite Hd.
Qed.
End Sueno.

(** ** A board that is visited in turn *)

(** the presence interrupt is a list of answers, a pin reads 1, and the clock ticks *)
Definition env_visitas : Env :=
  {| dev := list Z;
     dev_in := fun i d => match i with InWake => (hd 0 d, tl d) | _ => (fst (fijo_in 1 i tt), d) end;
     dev_out := fun _ d => d; env_fuel := Z.to_nat 100003 |}.

#[refine] Instance vivo_visitas : @Vivo env_visitas :=
  {| v_max := 0; v_salto := 1; v_pot := fun _ => O; v_tx := fun _ _ => O |}.
Proof.
  all: cbn [env_visitas dev dev_in dev_out env_fuel fijo_in fst snd]; try (intros; lia).
  - intros _ _. left. discriminate.
Defined.

#[refine] Instance visita_visitas : @Visita env_visitas := {| visitas := fun d : @dev env_visitas => d |}.
Proof.
  - done.
  - by intros [].
  - done.
Defined.

Definition mundo_visitas (l : list Z) : @world env_visitas :=
  @mkWorld env_visitas (@mkHw env_visitas l 5000 true [])
    (mkDisplay (replicate 1024 0) 0 0) (mkTeclado [] 0 false 65535) listaPins_inicial false scan_zero
    (mef_en REPOSO).

(** a visitor during the sleep, and one just before it *)
Lemma reposo_despierta_witness :
  (exists w', mefUpdate (mundo_visitas [0; 1]) = Ret tt w' /\ estadoActual (mef w') = ESPERANDO_ACCION) /\
  mefUpdate (mundo_visitas [1; 0]) = Diverge.
Proof.
  assert (Hl : forall l, @listo env_visitas true (mundo_visitas l)) by (intros l; by split).
  assert (Hm : forall l, @en_marcha env_visitas (mundo_visitas l)).
  { intros l. split; [apply tec_ok_reset|by split]. }
  split.
  - destruct (@reposo_despierta env_visitas vivo_visitas visita_visitas (mundo_visitas [0; 1])
      (Hl _) (Hm _) eq_refl) as (_ & H & _).
    destruct H as (w' & H1 & _ & _ & H2); [done|]. exists w'. split; [exact H1|exact H2].
  - apply (@reposo_despierta env_visitas vivo_visitas visita_visitas (mundo_visitas [1; 0])
      (Hl _) (Hm _) eq_refl). reflexivity.
Defined.
