(* ===== verification/Tarjeta.v ===== *)
(** * A card near the reader

    The MFRC522 on the SPI bus with one card of ISO 14443-A in its field, as the class
    [Tarjeta]: its registers as far as rc522_drv.c uses them, the answer of the card that
    comes some milliseconds after it was asked for.  With it the reads of [Rc522] are
    total: what the string of the UID is, and that a registered card opens the lock. *)

From Stdlib Require Import ZArith Lia Bool Ascii String.
From Stdlib Require Import SpecFloat.
From stdpp Require Import base list strings numbers sets.
From stdpp Require Import options.
From S2P Require Import Prelude Machine Effects Triples Banco Sapi Display Plazos Cerrojo Teclado.
From S2P Require Import Usuarios Json Dobles EspAT As608 Rc522 Sincronizacion Mef Cerradura.
From S2P Require Import Refinamiento Seguridad Duracion Matriz Terminacion.

(** ** The chip *)
Record lector : Type := mkLector {
  l_cmd : Z;                         (* CommandReg *)
  l_marco : Z;                       (* BitFramingReg, without the bit that starts *)
  l_fifo : list Z;
  l_viaje : option (list Z * Z);     (* an answer, and the ms until it is in the FIFO *)
  l_visto : bool;                    (* the clock was looked at since it set off *)
  l_irq : bool;                      (* an answer was received *)
  l_lista : bool                     (* the card has answered a request: it is READY *)
}.

(** [m] milliseconds *)
Definition pasa (m : Z) (c : lector) : lector :=
  match l_viaje c with
  | Some (r, k) =>
      if (0 <? m) && (k <=? m) then mkLector (l_cmd c) (l_marco c) r None (l_visto c) true (l_lista c)
      else mkLector (l_cmd c) (l_marco c) (l_fifo c) (Some (r, k - m)) (l_visto c) (l_irq c) (l_lista c)
  | None => c
  end.
Definition mira (c : lector) : lector :=
  mkLector (l_cmd c) (l_marco c) (l_fifo c) (l_viaje c) true (l_irq c) (l_lista c).

(** the four bytes that the first anticollision gives and their check byte: the UID, or the
    cascade tag and the first three bytes of a longer one *)
Definition cl1 (uid : list Z) : list Z :=
  let n := if (length uid =? 4)%nat then uid else 136 :: take 3 uid in n ++ [foldr Z.lxor 0 n].

(** what the card answers to the bytes [datos], the last of [bits] bits, and its state
    after it: a request wakes it when it waits, and an anticollision is for one that was
    requested; anything else sends it back to wait *)
Definition responde (uid atqa : list Z) (lista : bool) (bits : Z) (datos : list Z) : option (list Z) * bool :=
  if bool_decide (datos = [PICC_REQIDL]) && (bits =? 7) && negb lista then (Some atqa, true)
  else if bool_decide (datos = [147; 32]) && (bits =? 0) && lista then (Some (cl1 uid), true)
  else (None, false).

(** a write of a register; the answer, when there is one, comes after [k] ms *)
Definition escrito (uid atqa : list Z) (k r v : Z) (c : lector) : lector :=
  if r =? CommandReg then
    mkLector v (l_marco c) (l_fifo c) (if v =? PCD_Idle then None else l_viaje c) (l_visto c) (l_irq c) (l_lista c)
  else if r =? CommIrqReg then
    mkLector (l_cmd c) (l_marco c) (l_fifo c) (l_viaje c) (l_visto c)
      (l_irq c && negb (negb (Z.testbit v 7) && Z.testbit v 5)) (l_lista c)
  else if r =? FIFOLevelReg then
    mkLector (l_cmd c) (l_marco c) (if Z.testbit v 7 then [] else l_fifo c) (l_viaje c) (l_visto c) (l_irq c) (l_lista c)
  else if r =? FIFODataReg then
    mkLector (l_cmd c) (l_marco c) (l_fifo c ++ [v]) (l_viaje c) (l_visto c) (l_irq c) (l_lista c)
  else if r =? BitFramingReg then
    if Z.testbit v 7 && (l_cmd c =? PCD_Transceive) then
      let '(resp, lista) := responde uid atqa (l_lista c) (Z.land v 7) (l_fifo c) in
      mkLector (l_cmd c) (Z.land v 127) [] (option_map (fun x => (x, k)) resp) false (l_irq c) lista
    else mkLector (l_cmd c) (Z.land v 127) (l_fifo c) (l_viaje c) (l_visto c) (l_irq c) (l_lista c)
  else c.

(** a read of a register gives [v]; of those not listed anything *)
Definition leido (r : Z) (c : lector) (v : Z) (c' : lector) : Prop :=
  if r =? FIFODataReg then
    v = u8 (hd 0 (l_fifo c)) /\
    c' = mkLector (l_cmd c) (l_marco c) (tl (l_fifo c)) (l_viaje c) (l_visto c) (l_irq c) (l_lista c)
  else c' = c /\
    if r =? FIFOLevelReg then v = u8 (Z.of_nat (length (l_fifo c)))
    else if r =? BitFramingReg then Z.land v 127 = Z.land (l_marco c) 127
    else if r =? CommIrqReg then (Z.land v 48 =? 0) = negb (l_irq c)
    else if r =? DivIrqReg then Z.land v 1 = 0
    else if r =? ErrorReg then Z.land v 27 = 0
    else if r =? ControlReg then Z.land v 7 = 0
    else True.

(** the transfers of [rc522_write_reg] and [rc522_read_reg], as the device sees them *)
Definition cs_bajo : event := EvPinState 3 6 false.
Definition cs_alto : event := EvPinState 3 6 true.
Definition escritura {E : Env} (r v : Z) (d : dev) : dev :=
  dev_out cs_alto (dev_out (EvSpiTx [v]) (dev_out (EvSpiTx [write_addr r]) (dev_out cs_bajo d))).
Definition lectura {E : Env} (r : Z) (d : dev) : Z * dev :=
  let '(v, d) := dev_in InSsp (dev_out (EvSpiTx [read_addr r]) (dev_out cs_bajo d)) in (u8 v, dev_out cs_alto d).

(** an event that the reader does not see *)
Definition ajeno (e : event) : Prop :=
  match e with EvPinState p q _ => (p, q) <> (3, 6) | EvSpiTx _ => False | _ => True end.

(** The reader with a card.  A look at the clock that finds [n] ticks lets at least [n] ms
    pass, once it was looked at after the card was asked; the card answers within 50 ms. *)
Class Tarjeta {E : Env} : Type := {
  t_uid : list Z;
  t_atqa : list Z;
  t_uid_largo : (4 <= length t_uid)%nat;
  t_uid_bytes : Forall (fun b => 0 <= b < 256) t_uid;
  t_atqa_largo : length t_atqa = 2%nat;
  lee : dev -> lector;
  t_escribe r v d : 0 <= r < 64 -> exists m k, 0 <= m /\ 1 <= k <= 50 /\
    lee (escritura r v d) = escrito t_uid t_atqa k r v (pasa m (lee d));
  t_lee r d : 0 <= r < 64 -> exists m, 0 <= m /\
    leido r (pasa m (lee d)) (fst (lectura r d)) (lee (snd (lectura r d)));
  t_tic d : exists m, 0 <= m /\ (l_visto (lee d) = true -> fst (dev_in InTick d) <= m) /\
    lee (snd (dev_in InTick d)) = mira (pasa m (lee d));
  t_in i d : i <> InSsp -> l_lista (lee (snd (dev_in i d))) = l_lista (lee d);
  t_out e d : ajeno e -> l_lista (lee (dev_out e d)) = l_lista (lee d)
}.

(** a register of the chip *)
Class Registro (r : Z) : Prop := registro : 0 <= r < 64.
#[local] Hint Extern 1 (Registro _) => (vm_compute; split; [discriminate|reflexivity]) : typeclass_instances.

Lemma pasa_lista m c : l_lista (pasa m c) = l_lista c.
Proof. unfold pasa. destruct (l_viaje c) as [[r k]|]; [|done]. by destruct (_ && _). Qed.
Lemma pasa_marco m c : l_marco (pasa m c) = l_marco c.
Proof. unfold pasa. destruct (l_viaje c) as [[r k]|]; [|done]. by destruct (_ && _). Qed.
Lemma pasa_0 c : pasa 0 c = c.
Proof. unfold pasa. destruct c as [? ? ? [[r k]|] ? ? ?]; [|done]. cbn. by rewrite Z.sub_0_r. Qed.
(** an answer on its way arrives, or is nearer *)
Lemma pasa_viaje m c r k : l_viaje c = Some (r, k) -> 1 <= k -> 0 <= m ->
  pasa m c = if k <=? m then mkLector (l_cmd c) (l_marco c) r None (l_visto c) true (l_lista c)
             else mkLector (l_cmd c) (l_marco c) (l_fifo c) (Some (r, k - m)) (l_visto c) (l_irq c) (l_lista c).
Proof.
  unfold pasa. intros -> Hk Hm. destruct (Z.leb_spec k m); [|by rewrite andb_false_r].
  by rewrite (proj2 (Z.ltb_lt 0 m)) by lia.
Qed.
Lemma pasa_quieto m c : l_viaje c = None -> pasa m c = c.
Proof. unfold pasa. by intros ->. Qed.

Section Registros.
Context {E : Env} {V : Vivo} {T : Tarjeta}.

Definition chip (w : world) : lector := lee (device (hw w)).

Lemma cs_low_run w : rc522_cs_low w = emit cs_bajo w.
Proof. reflexivity. Qed.
Lemma cs_high_run w : rc522_cs_high w = emit cs_alto w.
Proof. reflexivity. Qed.

Lemma tri_escribe c r v `{!Registro r} : tri chip c (rc522_write_reg r v) (fun _ c' =>
  exists m k, 0 <= m /\ 1 <= k <= 50 /\ c' = escrito t_uid t_atqa k r v (pasa m c)).
Proof.
  intros w a w' <- H. unfold rc522_write_reg, spi_write, spiWrite, mbind, M_bind in H.
  rewrite cs_low_run in H. cbn -[rc522_cs_high] in H. rewrite cs_high_run in H.
  injection H as _ <-. by apply (t_escribe r v (device (hw w))).
Qed.

Lemma tri_lee c r `{Hr : !Registro r} : tri chip c (rc522_read_reg r) (fun v c' =>
  0 <= v < 256 /\ exists m, 0 <= m /\ leido r (pasa m c) v c').
Proof.
  intros w a w' <- H. pose proof (t_lee r (device (hw w)) Hr) as Hl. unfold lectura in Hl.
  unfold rc522_read_reg, spi_write, spiWrite, spiRead1, inp, mbind, M_bind in H.
  rewrite cs_low_run in H. cbn -[rc522_cs_high u8] in H.
  destruct (dev_in InSsp _) as [v d]. cbn -[rc522_cs_high u8] in H. rewrite cs_high_run in H. injection H as <- <-. split; [apply u8_bound|exact Hl].
Qed.

(** *** With no answer on its way *)
Lemma tri_escribe_quieto c r v `{!Registro r} :
  l_viaje c = None -> r <> BitFramingReg ->
  tri chip c (rc522_write_reg r v) (fun _ c' => c' = escrito t_uid t_atqa 1 r v c).
Proof.
  intros Hc Hr. eapply tri_conseq; [by apply tri_escribe|]. intros _ c' (m & k & _ & _ & ->).
  rewrite pasa_quieto by done. unfold escrito. by rewrite (proj2 (Z.eqb_neq _ _) Hr).
Qed.
Lemma tri_lee_quieto c r `{!Registro r} :
  l_viaje c = None -> tri chip c (rc522_read_reg r) (fun v c' => 0 <= v < 256 /\ leido r c v c').
Proof.
  intros Hc. eapply tri_conseq; [by apply tri_lee|]. intros v c' (Hv & m & _ & H).
  by rewrite pasa_quieto in H.
Qed.

(** the bits of a byte that set and clear bit 7 *)
Lemma bit7 v : 0 <= v < 256 ->
  Z.testbit (u8 (Z.lor v 128)) 7 = true /\ Z.land (u8 (Z.lor v 128)) 127 = Z.land v 127 /\
  Z.land (u8 (Z.lor v 128)) 7 = Z.land (Z.land v 127) 7 /\
  Z.testbit (u8 (Z.land v (Z.lnot 128))) 7 = false /\ Z.land (u8 (Z.land v (Z.lnot 128))) 127 = Z.land v 127.
Proof.
  intros Hv. assert (H : forallb (fun v => Z.testbit (u8 (Z.lor v 128)) 7 &&
    (Z.land (u8 (Z.lor v 128)) 127 =? Z.land v 127) && (Z.land (u8 (Z.lor v 128)) 7 =? Z.land (Z.land v 127) 7) &&
    negb (Z.testbit (u8 (Z.land v (Z.lnot 128))) 7) && (Z.land (u8 (Z.land v (Z.lnot 128))) 127 =? Z.land v 127))
    (seqZ 0 256) = true) by (vm_compute; reflexivity).
  rewrite forallb_forall in H. specialize (H v ltac:(apply list_elem_of_In, elem_of_seqZ; lia)).
  rewrite !andb_true_iff, negb_true_iff, !Z.eqb_eq in H. tauto.
Qed.

(** *** The wait for the answer *)
Definition reloj (w : world) : Z * bool := (tickCounter (hw w), systick (hw w)).
Definition chip_reloj (w : world) : lector * (Z * bool) := (chip w, reloj w).

#[local] Instance reloj_emit e : Keeps reloj (emit e).
Proof. by intros w a w' [= _ <-]. Qed.
#[local] Instance reloj_inp i : Keeps reloj (inp i).
Proof. intros w a w' H. unfold inp in H. destruct (dev_in i _). by injection H as _ <-. Qed.
#[local] Instance reloj_lee r : Keeps reloj (rc522_read_reg r).
Proof.
  unfold rc522_read_reg, rc522_cs_low, rc522_cs_high, spi_write, spiWrite, spiRead1, gpioWrite,
    gpioObtainPinInit, Chip_GPIO_SetPinState. keeps_run.
Qed.

Lemma tri_lee_reloj c e r `{!Registro r} : tri chip_reloj (c, e) (rc522_read_reg r) (fun v x =>
  x.2 = e /\ 0 <= v < 256 /\ exists m, 0 <= m /\ leido r (pasa m c) v x.1).
Proof.
  intros w v w' Hw H.
  destruct (tri_par _ reloj _ _ _ _ (tri_lee c r) (reloj_lee r) _ _ _ Hw H). done.
Qed.

Lemma tri_tic c t : 0 <= t < 2 ^ 64 -> tri chip_reloj (c, (t, true)) tickRead (fun v x =>
  exists n m, 0 <= n <= v_salto /\ 0 <= m /\ (l_visto c = true -> n <= m) /\
    v = u64 (t + n) /\ x = (mira (pasa m c), (v, true))).
Proof.
  intros Ht w a w' Hw H. injection Hw as <- Htk Hs.
  destruct (t_tic (device (hw w))) as (m & Hm & Hn & Hl). pose proof (v_tick (device (hw w))) as [Hv _].
  unfold tickRead, mbind, M_bind, inp, gets, when, set_tick, modify in H.
  destruct (dev_in InTick (device (hw w))) as [n d]. cbn in H, Hn, Hl, Hv. rewrite Hs in H. cbn in H.
  rewrite Htk, iter_ticker, Z2Nat.id in H by lia. injection H as <- <-.
  exists n, m. repeat (split; [done|]). unfold chip_reloj, chip, reloj. cbn. by rewrite Hl.
Qed.

(** the answer of [c] in the FIFO *)
Definition entregado (c : lector) : lector :=
  match l_viaje c with
  | Some (r, _) => mkLector (l_cmd c) (l_marco c) r None true true (l_lista c)
  | None => mira c
  end.
Definition pendiente (c : lector) : Prop :=
  l_irq c = false /\ match l_viaje c with Some (_, k) => 1 <= k <= 50 | None => True end.
(** delivered, or on its way when [e] ms have passed *)
Definition camino (c : lector) (e : Z) (c' : lector) : Prop :=
  c' = entregado c \/
  exists r k k', l_viaje c = Some (r, k) /\
    c' = mkLector (l_cmd c) (l_marco c) (l_fifo c) (Some (r, k')) true false (l_lista c) /\
    1 <= k' /\ k' + e <= 50.

Lemma entregado_quieto c : l_viaje (entregado c) = None.
Proof. unfold entregado. destruct (l_viaje c) as [[r k]|] eqn:Hv; [done|]. by destruct c. Qed.
Lemma camino_pasa c e c' m : camino c e c' -> 0 <= m -> camino c e (pasa m c').
Proof.
  intros [->|(r & k & k' & Hv & -> & H1 & He)] Hm; [left; apply pasa_quieto, entregado_quieto|].
  erewrite pasa_viaje by done. cbn. destruct (Z.leb_spec k' m).
  - left. unfold entregado. by rewrite Hv.
  - right. exists r, k, (k' - m). repeat (split; [done|]). lia.
Qed.
Lemma camino_tic c e c' m n : camino c e c' -> 0 <= n <= m -> camino c (e + n) (mira (pasa m c')).
Proof.
  intros [->|(r & k & k' & Hv & -> & H1 & He)] Hm.
  - left. rewrite pasa_quieto by apply entregado_quieto. unfold entregado. by destruct (l_viaje c) as [[]|].
  - erewrite pasa_viaje by (done || lia). cbn. destruct (Z.leb_spec k' m).
    + left. unfold entregado. by rewrite Hv.
    + right. exists r, k, (k' - m). repeat (split; [done|]). lia.
Qed.
Lemma camino_inicio c m : pendiente c -> 0 <= m -> camino c 0 (mira (pasa m c)).
Proof.
  intros [Hi Hk] Hm. destruct (l_viaje c) as [[r k]|] eqn:Hv.
  - rewrite (pasa_viaje _ _ _ _ Hv) by lia. destruct (Z.leb_spec k m); [left; unfold entregado; by rewrite Hv|].
    right. exists r, k, (k - m). split; [done|]. unfold mira. cbn. rewrite Hi. split; [done|]. lia.
  - left. unfold entregado. by rewrite pasa_quieto, Hv.
Qed.
Lemma camino_irq c e c' : camino c e c' -> l_irq c' = true -> c' = entregado c.
Proof. by intros [->|(r & k & k' & _ & -> & _)]. Qed.
Lemma camino_fin c e c' : camino c e c' -> 50 <= e -> c' = entregado c.
Proof. intros [->|(r & k & k' & _ & _ & H1 & H2)] He; [done|lia]. Qed.
Lemma camino_visto c e c' : camino c e c' -> l_visto c' = true.
Proof. intros [->|(r & k & k' & _ & -> & _)]; [|done]. unfold entregado. by destruct (l_viaje c) as [[]|]. Qed.

Lemma tri_wait c t : pendiente c -> 0 <= t < 2 ^ 64 ->
  tri chip_reloj (c, (t, true)) transceive_wait (fun _ x => x.1 = entregado c).
Proof using V.
  intros Hp Ht. pose proof v_salto_rango as Hvs. unfold transceive_wait.
  apply tri_bind. eapply tri_conseq; [by apply tri_tic|]. intros start x (n0 & m0 & _ & Hm0 & _ & Hst & ->).
  assert (Hs64 : 0 <= start < 2 ^ 64) by (rewrite Hst; apply u64_bound). clear Hst.
  apply (tri_loop _ (fun _ x => exists t', x.2 = (t', true) /\ 0 <= t' < 2 ^ 64 /\
    u64 (t' - start) < 50 /\ camino c (u64 (t' - start)) x.1)).
  { exists start. rewrite Z.sub_diag. do 3 (split; [done|]). by apply camino_inicio. }
  intros _ [c1 x2] (t' & Hx & Ht' & He & Hc). simpl in Hx, Hc. subst x2.
  apply tri_bind. eapply tri_conseq; [by apply tri_tic|].
  intros v x (n & m & Hn & Hm & Hnm & Hv & ->). specialize (Hnm (camino_visto _ _ _ Hc)).
  pose proof (u64_bound (t' - start)).
  assert (Hev : u64 (v - start) = u64 (t' - start) + n).
  { rewrite Hv. unfold u64 in *. rewrite Zminus_mod_idemp_l.
    replace (t' + n - start) with (t' - start + n) by lia. rewrite <- Zplus_mod_idemp_l.
    apply Z.mod_small. lia. }
  pose proof (camino_tic _ _ _ m n Hc ltac:(lia)) as Hc1. rewrite <- Hev in Hc1.
  assert (Hv64 : 0 <= v < 2 ^ 64) by (rewrite Hv; apply u64_bound).
  destruct (Z.ltb_spec (u64 (v - start)) 50) as [Hlt|Hge].
  2: { apply tri_ret. by eapply camino_fin. }
  set (c2 := mira (pasa m c1)) in *. clearbody c2.
  apply tri_bind. eapply tri_conseq; [apply tri_lee_reloj; apply _|].
  intros irq [c3 e3] (He3 & _ & m3 & Hm3 & [Hc3 Hirq]). cbn [fst snd] in *. subst e3 c3.
  pose proof (camino_pasa _ _ _ m3 Hc1 Hm3) as Hc3. cbn in Hirq. rewrite Hirq.
  destruct (l_irq (pasa m3 c2)) eqn:Hi; cbn [negb].
  { apply tri_ret. by eapply camino_irq. }
  apply tri_bind. eapply tri_conseq; [apply tri_lee_reloj; apply _|].
  intros div [c4 e4] (He4 & _ & m4 & Hm4 & [Hc4 Hdiv]). cbn [fst snd] in *. subst e4 c4. cbn in Hdiv. rewrite Hdiv.
  apply tri_ret. cbn. exists v. split; [done|]. split; [done|]. split; [done|]. by apply camino_pasa.
Qed.

Lemma durp_wait c : pendiente c ->
  durp chip c true (50 + 3 * v_salto) transceive_wait (fun _ c' => c' = entregado c).
Proof.
  intros Hp. destruct transceive_wait_dur as [H0 H]. split; [done|]. intros w Hw Hc.
  destruct (H w Hw) as (a & w' & H1 & H2 & H3). exists a, w'. repeat (split; [done|]).
  destruct Hw as (Hs & Ht & _). refine (tri_wait c _ Hp Ht w a w' _ H1).
  unfold chip_reloj, reloj. by rewrite Hc, Hs.
Qed.

(** *** An exchange with the card *)

(** the reader between two exchanges *)
Definition en_calma (fifo : list Z) (irq lista : bool) (c : lector) : Prop :=
  l_fifo c = fifo /\ l_viaje c = None /\ l_irq c = irq /\ l_lista c = lista.

Lemma durp_escribe c s b {B} r v (f : unit -> M B) Q `{!Registro r} :
  (forall m k, 0 <= m -> 1 <= k <= 50 -> durp chip (escrito t_uid t_atqa k r v (pasa m c)) s b (f tt) Q) ->
  0 <= b -> durp chip c s b (rc522_write_reg r v ≫= f) Q.
Proof.
  intros Hf Hb. eapply (durp_step _ _ _ _ 0); [apply _|by apply tri_escribe| |done].
  intros [] c' (m & k & Hm & Hk & ->). rewrite Z.sub_0_r. by apply Hf.
Qed.
Lemma durp_lee c s b {B} r (f : Z -> M B) Q `{!Registro r} :
  l_viaje c = None ->
  (forall v c', 0 <= v < 256 -> leido r c v c' -> durp chip c' s b (f v) Q) ->
  0 <= b -> durp chip c s b (rc522_read_reg r ≫= f) Q.
Proof.
  intros Hc Hf Hb. eapply (durp_step _ _ _ _ 0); [apply _|by apply tri_lee_quieto| |done].
  intros v c' [Hv Hl]. rewrite Z.sub_0_r. by apply Hf.
Qed.

(** a register that the model does not keep *)
Lemma escrito_otro k r v c :
  forallb (fun x => negb (r =? x)) [CommandReg; CommIrqReg; FIFOLevelReg; FIFODataReg; BitFramingReg] = true ->
  escrito t_uid t_atqa k r v c = c.
Proof.
  cbn. rewrite !andb_true_iff, !negb_true_iff. intros (H1 & H2 & H3 & H4 & H5 & _).
  unfold escrito. by rewrite H1, H2, H3, H4, H5.
Qed.
Lemma escrito_cmd k v c : escrito t_uid t_atqa k CommandReg v c =
  mkLector v (l_marco c) (l_fifo c) (if v =? PCD_Idle then None else l_viaje c) (l_visto c) (l_irq c) (l_lista c).
Proof. done. Qed.
Lemma escrito_irq k c : escrito t_uid t_atqa k CommIrqReg 127 c =
  mkLector (l_cmd c) (l_marco c) (l_fifo c) (l_viaje c) (l_visto c) false (l_lista c).
Proof. cbn. by rewrite andb_false_r. Qed.
Lemma escrito_vacia k c : escrito t_uid t_atqa k FIFOLevelReg 128 c =
  mkLector (l_cmd c) (l_marco c) [] (l_viaje c) (l_visto c) (l_irq c) (l_lista c).
Proof. done. Qed.
(** a new frame, without starting *)
Lemma escrito_marco k v c :
  Z.testbit v 7 = false -> escrito t_uid t_atqa k BitFramingReg v c =
  mkLector (l_cmd c) (Z.land v 127) (l_fifo c) (l_viaje c) (l_visto c) (l_irq c) (l_lista c).
Proof. intros H. cbn -[Z.testbit Z.land]. by rewrite H. Qed.

Lemma tri_manda send c : l_viaje c = None ->
  tri chip c (for_each send (fun b => rc522_write_reg FIFODataReg b)) (fun _ c' =>
    c' = mkLector (l_cmd c) (l_marco c) (l_fifo c ++ send) None (l_visto c) (l_irq c) (l_lista c)).
Proof.
  revert c. induction send as [|b send IH]; intros c Hc; cbn [for_each].
  { apply tri_ret. rewrite app_nil_r, <- Hc. by destruct c. }
  apply tri_bind. eapply tri_conseq; [by apply tri_escribe_quieto|]. intros _ c' ->.
  eapply tri_conseq; [by apply IH|]. intros _ c' ->. cbn. by rewrite <- app_assoc.
Qed.

(** StartSend: the card is asked *)
Lemma durp_arranca marco send visto lista s b {B} (f : unit -> M B) Q :
  (forall k resp lista', 1 <= k <= 50 -> responde t_uid t_atqa lista (Z.land marco 7) send = (resp, lista') ->
     durp chip (mkLector PCD_Transceive (Z.land marco 127) [] (option_map (fun x => (x, k)) resp) false false lista')
       s b (f tt) Q) ->
  0 <= b ->
  durp chip (mkLector PCD_Transceive marco send None visto false lista) s b
    (rc522_set_bits BitFramingReg 128 ≫= f) Q.
Proof.
  intros Hf Hb. unfold rc522_set_bits. apply durp_assoc, durp_lee; [apply _|done| |done].
  intros v c' Hv [-> Hm]. cbn -[Z.land] in Hm. destruct (bit7 v Hv) as (H1 & H2 & H3 & _ & _).
  apply durp_escribe; [apply _| |done]. intros m k _ Hk. rewrite pasa_quieto by done. cbn -[Z.land Z.testbit u8 responde].
  rewrite H1, H2, H3, Hm, <- Z.land_assoc. change (Z.land 127 7) with 7. cbn [andb]. destruct (responde _ _ _ _ _) as [resp lista'] eqn:Hr. by apply Hf.
Qed.

Lemma durp_para fifo c s b {B} (f : unit -> M B) Q irq lista :
  en_calma fifo irq lista c ->
  (forall c', en_calma fifo irq lista c' -> durp chip c' s b (f tt) Q) -> 0 <= b ->
  durp chip c s b (rc522_clr_bits BitFramingReg 128 ≫= f) Q.
Proof.
  intros (H2 & H3 & H4 & H5) Hf Hb. unfold rc522_clr_bits. apply durp_assoc, durp_lee; [apply _|done| |done].
  intros v c' Hv [-> Hm]. destruct (bit7 v Hv) as (_ & _ & _ & B1 & B2).
  apply durp_escribe; [apply _| |done]. intros m k _ Hk. rewrite pasa_quieto, escrito_marco by done.
  by apply Hf.
Qed.

Lemma durp_read_fifo cap l : forall i c s, l_viaje c = None -> l_fifo c = l -> i + Z.of_nat (length l) <= cap ->
  durp chip c s 0 (read_fifo cap (seqZ i (Z.of_nat (length l)))) (fun back c' =>
    back = u8 <$> l /\ l_viaje c' = None /\ l_lista c' = l_lista c).
Proof.
  induction l as [|x l IH]; intros i c s Hc Hl Hi; [by apply durp_ret|].
  rewrite length_cons in *. replace (seqZ i _) with (i :: seqZ (i + 1) (Z.of_nat (length l))).
  2: { rewrite (seqZ_cons i) by lia. f_equal. f_equal; lia. }
  cbn [read_fifo]. apply durp_lee; [apply _|done| |lia]. intros v c' _ [-> ->].
  rewrite (proj2 (Z.ltb_lt _ _)), Hl by lia. cbn [hd tl].
  eapply durp_bind; [apply (IH (i + 1)); [done|done|lia]| |lia].
  intros r c' (-> & H1 & H2). apply durp_ret; [lia|]. done.
Qed.

Lemma durp_transceive send cap c resp lista' :
  responde t_uid t_atqa (l_lista c) (Z.land (l_marco c) 7) send = (resp, lista') ->
  Z.of_nat (length (default [] resp)) <= cap -> cap <= 64 ->
  durp chip c true (60 + 5 * v_salto) (transceive send cap) (fun r c' =>
    r = (0 <? Z.of_nat (length (default [] resp)), u8 <$> default [] resp,
         Some (u8 (Z.of_nat (length (default [] resp)) * 8))) /\
    l_viaje c' = None /\ l_lista c' = lista').
Proof.
  intros Hr Hcap Hcap64. pose proof v_salto_rango. unfold transceive.
  apply durp_escribe; [apply _| |lia]. intros m k _ _. rewrite escrito_cmd, pasa_marco, pasa_lista.
  apply durp_escribe; [apply _| |lia]. intros ? ? _ _. rewrite pasa_quieto, escrito_irq by done.
  apply durp_escribe; [apply _| |lia]. intros ? ? _ _. rewrite pasa_quieto, escrito_vacia by done.
  cbn [l_cmd l_marco l_fifo l_viaje l_visto l_irq l_lista].
  eapply (durp_step _ _ _ _ 0);
    [apply (dur_for_each _ 0 0); [intros; apply _|lia|lia]|by apply tri_manda| |lia].
  intros _ c2 ->. apply durp_escribe; [apply _| |lia]. intros ? ? _ _. rewrite pasa_quieto, escrito_cmd by done.
  cbn [l_cmd l_marco l_fifo l_viaje l_visto l_irq l_lista app Z.eqb Pos.eqb PCD_Transceive PCD_Idle].
  apply durp_arranca; [|lia]. intros kk resp2 lista2 Hkk Hr2. rewrite Hr in Hr2.
  injection Hr2 as <- <-.
  eapply durp_bind; [apply durp_wait| |lia].
  { split; [done|]. by destruct resp. }
  intros _ c3 ->. set (n := default [] resp) in *.
  eapply (durp_para n _ _ _ _ _ (bool_decide (is_Some resp)) lista').
  { unfold entregado, n. by destruct resp. }
  2: lia.
  intros c4 (Hf4 & Hv4 & _ & Hl4). apply durp_lee; [apply _|done| |lia]. intros err c5 _ [-> He].
  change (Z.land err 27 = 0) in He. rewrite He. cbn [negb Z.eqb].
  apply durp_lee; [apply _|done| |lia]. intros fifo c5 _ [-> Hn]. change (fifo = u8 (Z.of_nat (length (l_fifo c4)))) in Hn.
  apply durp_lee; [apply _|done| |lia]. intros ctl c5 _ [-> Hc]. change (Z.land ctl 7 = 0) in Hc.
  cbv zeta. rewrite Hc, Hn, Hf4, (u8_small (Z.of_nat _)) by lia. unfold rx_bits. cbn [negb Z.eqb].
  eapply durp_bind; [by apply durp_read_fifo|intros back c6 (-> & Hv6 & Hl6)|lia].
  apply durp_ret; [lia|]. by rewrite Hl6, Hl4.
Qed.

(** *** rc522_drv.c with the card *)
Lemma length_cl1 : length (cl1 t_uid) = 5%nat.
Proof.
  pose proof t_uid_largo. unfold cl1. rewrite length_app. cbn [length].
  destruct (Nat.eqb_spec (length t_uid) 4) as [->|]; [done|]. cbn [length]. rewrite length_take. lia.
Qed.

Lemma bytes_cl1 : take 4 (u8 <$> cl1 t_uid) = take 4 (cl1 t_uid).
Proof.
  pose proof t_uid_bytes as Hb. pose proof t_uid_largo as Hl. unfold cl1. rewrite fmap_app.
  assert (Hn : forall l : list Z, length l = 4%nat -> Forall (fun b => 0 <= b < 256) l ->
    forall x y : list Z, take 4 ((u8 <$> l) ++ x) = take 4 (l ++ y)).
  { intros l Hl4 Hf x y. rewrite !take_app_length' by (rewrite ?length_fmap; lia).
    rewrite <- (list_fmap_id l) at 2. apply list_fmap_ext. intros i b Hi.
    apply u8_small. exact (Forall_lookup_1 _ _ _ _ Hf Hi). }
  destruct (Nat.eqb_spec (length t_uid) 4); apply Hn; try done.
  - cbn [length]. rewrite length_take. lia.
  - constructor; [lia|]. by apply Forall_take.
Qed.

(** the UID string of the card *)
Definition leida : list ascii := concat (hex_byte <$> take 4 (cl1 t_uid)).

(** a new frame before an exchange *)
Lemma durp_marco c s b {B} v (f : unit -> M B) Q :
  Z.testbit v 7 = false ->
  (forall c', l_marco c' = Z.land v 127 -> l_lista c' = l_lista c -> durp chip c' s b (f tt) Q) -> 0 <= b ->
  durp chip c s b (rc522_write_reg BitFramingReg v ≫= f) Q.
Proof.
  intros Hv Hf Hb. apply durp_escribe; [apply _| |done]. intros m k _ _. rewrite escrito_marco by done.
  apply Hf; [done|]. apply pasa_lista.
Qed.

Lemma durp_requestA c :
  durp chip c true (60 + 5 * v_salto) rc522_requestA (fun o c' =>
    (if l_lista c then o = None else is_Some o) /\ l_lista c' = negb (l_lista c)).
Proof.
  pose proof v_salto_rango. unfold rc522_requestA.
  apply durp_escribe; [apply _| |lia]. intros m k _ _. rewrite escrito_otro by done.
  apply durp_marco; [done| |lia]. intros c1 Hm Hl. rewrite pasa_lista in Hl.
  pose proof t_atqa_largo as Ha.
  destruct (responde t_uid t_atqa (l_lista c1) (Z.land (l_marco c1) 7) [PICC_REQIDL]) as [resp lista] eqn:Hr.
  pose proof Hr as Hr'. rewrite Hm, Hl in Hr'. unfold responde in Hr'. cbn in Hr'.
  eapply durp_bind; [apply (durp_transceive _ _ _ _ _ Hr); [|lia]|..|lia].
  { destruct (l_lista c); injection Hr' as <- <-; cbn; [|rewrite Ha]; lia. }
  intros [[ok stored] bits] c2 ([= -> -> ->] & _ & Hl2).
  apply durp_marco; [done| |lia]. intros c3 _ Hl3. rewrite Hl2 in Hl3.
  destruct (l_lista c); injection Hr' as <- <-.
  - cbn. apply durp_ret; [lia|]. by split.
  - cbn [default]. unfold default, id. rewrite Ha. cbn. apply durp_ret; [lia|]. split; [by eexists|done].
Qed.

Lemma durp_anticoll c :
  l_lista c = true ->
  durp chip c true (60 + 5 * v_salto) rc522_anticoll_cl1 (fun o c' => o = Some (u8 <$> cl1 t_uid) /\ l_lista c' = true).
Proof.
  intros Hl. pose proof v_salto_rango. unfold rc522_anticoll_cl1.
  apply durp_marco; [done| |lia]. intros c1 Hm Hl1. rewrite Hl in Hl1.
  pose proof length_cl1 as Ha.
  assert (Hr : responde t_uid t_atqa (l_lista c1) (Z.land (l_marco c1) 7) [147; 32] = (Some (cl1 t_uid), true)).
  { by rewrite Hm, Hl1. }
  eapply durp_bind; [apply (durp_transceive _ _ _ _ _ Hr); [|lia]|..|lia].
  { cbn. rewrite Ha. lia. }
  intros [[ok back] bits] c2 ([= -> -> ->] & _ & Hl2). unfold default, id. rewrite length_fmap, Ha. cbn -[take].
  apply durp_ret; [lia|]. split; [|done]. f_equal. apply take_ge. rewrite length_fmap. lia.
Qed.

(** a card that waits is read; one that was requested before goes back to waiting *)
Lemma durp_leer_rfid c :
  durp chip c true (120 + 10 * v_salto) (leer_rfid_str 10) (fun o c' =>
    o = (if l_lista c then None else Some leida) /\ l_lista c' = negb (l_lista c)).
Proof.
  pose proof v_salto_rango. unfold leer_rfid_str.
  eapply durp_bind; [apply durp_requestA| |lia]. intros o c1 [Ho Hl].
  destruct (l_lista c); [subst o; apply durp_ret; [lia|by split]|]. destruct Ho as [atqa ->].
  eapply durp_bind; [by apply durp_anticoll|..|lia]. intros o c2 [-> Hl2]. cbn -[take]. rewrite bytes_cl1.
  apply durp_ret; [lia|]. by split.
Qed.

(** *** The idle state *)

(** the variables of MEF.c and the state of the card *)
Definition puesto (w : world) : mef_st * bool := (mef w, l_lista (chip w)).

Lemma puesto_emit e : ajeno e -> Keeps puesto (emit e).
Proof.
  intros He w a w' [= _ <-]. pose proof (t_out e (device (hw w)) He) as H. unfold puesto, chip. cbn. by rewrite H.
Qed.
Lemma puesto_inp i : i <> InSsp -> Keeps puesto (inp i).
Proof.
  intros Hi w a w' H. pose proof (t_in i (device (hw w)) Hi) as Hl. unfold inp in H.
  destruct (dev_in i (device (hw w))) as [v d]. injection H as _ <-. unfold puesto, chip. cbn in *. by rewrite Hl.
Qed.
#[global] Instance puesto_dibujo : Dibujo puesto.
Proof. split; [by intros g w a w' [= _ <-]|by intros a d; apply puesto_emit|by apply puesto_inp]. Qed.
#[global] Instance puesto_reloj : Reloj puesto.
Proof. split; [by apply puesto_inp|by intros t w a w' [= _ <-]]. Qed.
#[local] Instance puesto_edge h i : Keeps puesto (set_edge h i).
Proof. by intros w b w' [= _ <-]. Qed.
Lemma puesto_fila r b : 0 <= r < 4 -> Keeps puesto (write_row keypad r b).
Proof.
  intros Hr w a w' H. rewrite write_row_run in H by done. refine (puesto_emit _ _ w a w' H). by intros [=].
Qed.

(** ... beside the clock *)
Definition escena : world -> mef_st * bool * Z := con_reloj puesto.

Lemma durp_mod_escena m l t s b {B} f (g : unit -> M B) Q :
  durp escena ((f m, l), t) s b (g tt) Q -> 0 <= b -> durp escena ((m, l), t) s b (mod_mef f ≫= g) Q.
Proof. intros H Hb. by eapply (durp_modify puesto (fun x => (f x.1, x.2))); [apply _|..]. Qed.
Lemma durp_mef_escena m l t s b {B} (g : mef_st -> M B) Q :
  durp escena ((m, l), t) s b (g m) Q -> durp escena ((m, l), t) s b (gets mef ≫= g) Q.
Proof. intros H. apply durp_gets; [intros w [= -> _]; exact H|apply H]. Qed.

(** the card is read, and the lock goes to look it up *)
Definition tarjeta_leida (m : mef_st) : Prop := estadoActual m = VALIDAR_RFID /\ rfid m = leida.

#[local] Instance leer_rfid_mef : Keeps mef (leer_rfid_str 10).
Proof.
  intros w a w' H. pose proof (leer_rfid_str_eff [] rfid_kinds 10 _) as He.
  apply (eff_frame _ _ _ _ (He _ _ _ H) CMef). set_solver.
Qed.

Lemma sondear_tarjeta m t :
  durp escena ((m, false), t) true (130 + 20 * v_salto) sondearSensores (fun _ x => tarjeta_leida x.1.1).
Proof.
  pose proof v_salto_rango. unfold sondearSensores.
  eapply (durp_bind _ _ _ _ (120 + 10 * v_salto) _ _ (fun o x => o = Some leida)); [| |lia].
  { eapply (durp_otra _ chip _ _ _ _ _ (fun o _ => o = Some leida)); [lia| |done]. intros w Hw.
    eapply durp_conseq; [apply durp_leer_rfid|lia|]. intros o c [-> _].
    change (l_lista (chip w)) with ((escena w).1.2). by rewrite Hw. }
  intros o [[m1 l1] t1] ->.
  eapply (durp_otra _ datos _ _ _ _ _ (fun _ c => tarjeta_leida c.1)); [lia| |done]. intros w _.
  change (datos w) with (mef w, listaPins w).
  apply durp_mod_mef; [|lia]. unfold registrarPresencia.
  apply durp_assoc. eapply durp_keep; [apply _|apply _|intros v|lia]. apply durp_mod_mef; [|lia].
  eapply durp_keep; [apply _|apply _|intros []|lia]. unfold ir_a.
  eapply durp_tri; [apply dur_mono with 0; [apply _|lia]|].
  apply tri_modify. intros w1 [= Hm _]. unfold tarjeta_leida, datos. cbn. by rewrite Hm.
Qed.

(** the lock stays awake during this turn: the interrupt has just noted somebody, or the
    last presence is recent; and the clock is short of the 24.8 days of a [long int] *)
Definition despierta (m : mef_st) (t : Z) : Prop :=
  t + 3 * v_salto < 2 ^ 31 /\ 3 * v_salto <= TIMEOUT_MS /\
  (eventoPresencia m = true \/ 0 <= ultimaPresencia m <= t /\ t + 3 * v_salto - ultimaPresencia m <= TIMEOUT_MS).

Lemma durp_presencia m t :
  0 <= t -> despierta m t ->
  durp escena ((m, false), t) true v_salto
    (when (eventoPresencia m) (mod_mef (set_evento false) ;; registrarPresencia))
    (fun _ x => exists m1 t1, x = ((m1, false), t1) /\ 0 <= ultimaPresencia m1 <= t1 /\
       t1 + v_salto - ultimaPresencia m1 <= TIMEOUT_MS /\ t1 + v_salto < 2 ^ 31).
Proof.
  intros Ht (H1 & H2 & H3). pose proof v_salto_rango.
  destruct (eventoPresencia m) eqn:He; cbn [when].
  - apply durp_mod_escena; [|lia]. unfold registrarPresencia.
    apply durp_tic; [apply _|intros v Hv|lia|lia].
    eapply durp_tri; [apply dur_mono with 0; [apply _|lia]|].
    apply tri_modify. intros w [= Hm Hl Htk]. eexists _, v. unfold escena, con_reloj, puesto in *. cbn.
    rewrite Htk, Hm. change (chip (set_mef _ w)) with (chip w). rewrite Hl. split; [reflexivity|].
    cbn. rewrite s32_small; lia.
  - apply durp_ret; [lia|]. exists m, t. split; [done|]. destruct H3 as [|[H3 H4]]; [congruence|]. lia.
Qed.

(** nobody at the keypad and a card at the reader: the turn ends with the card read *)
Lemma esperando_tarjeta m t :
  sin_teclas -> 0 <= t -> despierta m t ->
  durp escena ((m, false), t) true (130 + 25 * v_salto) esperando_accion (fun _ x => tarjeta_leida x.1.1).
Proof.
  intros Hn Ht Hd. pose proof v_salto_rango. unfold esperando_accion. apply durp_mef_escena.
  eapply durp_bind; [by apply durp_presencia| |lia]. intros _ x (m1 & t1 & -> & Hu & Hto & Ht1).
  do 3 (apply durp_sin_reloj; [apply _|apply _|intros []|lia]). apply durp_mef_escena.
  eapply (durp_reloj _ _ _ _ _ 0); [apply (leerPin_nadie puesto Hn puesto_fila)|..|lia|lia].
  { intros q i. by apply puesto_inp. }
  { apply _. }
  intros r x t' [-> ->] Ht'. replace t' with t1 by lia. apply durp_mod_escena; [|lia]. cbn [Z.eqb Z.opp Pos.eqb].
  unfold transcurrido. rewrite s32_small by lia. apply durp_assoc.
  apply durp_tic; [apply _|intros v Hv|lia|lia]. apply durp_ret_bind.
  rewrite u64_small, (proj2 (Z.ltb_ge _ _)) by lia.
  eapply durp_conseq; [apply sondear_tarjeta|lia|done].
Qed.
End Registros.

(** ** From the card to the open bolt *)
Lemma paso_a_rfid c c' :
  paso_de c c' -> estadoActual (c_mef c) = ESPERANDO_ACCION -> estadoActual (c_mef c') = VALIDAR_RFID ->
  c_db c' = c_db c /\ c_drv c' = c_drv c /\ intentosFallidos (c_mef c') = intentosFallidos (c_mef c).
Proof.
  intros Hp He He'. destruct Hp; simpl in *; try congruence;
    repeat match goal with Hx : _ \/ _ |- _ => destruct Hx end; try congruence; by repeat split.
Qed.
Lemma paso_rfid c c' :
  paso_de c c' -> estadoActual (c_mef c) = VALIDAR_RFID ->
  match obtenerTagPorRFID (c_db c) (rfid (c_mef c)) with
  | Some _ => estadoActual (c_mef c') = SENSOR_CIERRE /\ c_drv c' = mover true (c_drv c)
  | None => estadoActual (c_mef c') = ESPERANDO_ACCION /\ c_drv c' = c_drv c
  end.
Proof.
  intros Hp He. destruct Hp; simpl in *; try congruence;
    repeat match goal with
    | Hx : _ \/ _ |- _ => destruct Hx
    | Hx : obtenerTagPorRFID _ _ = _ |- _ => rewrite Hx
    end; try congruence; by split.
Qed.

Section Acceso.
Context {E : Env} {V : Vivo} {T : Tarjeta}.

Lemma leida_corta : length t_uid = 4%nat -> leida = concat (hex_byte <$> t_uid).
Proof.
  intros H. unfold leida, cl1. rewrite H. cbn [Nat.eqb]. by rewrite take_app_length'.
Qed.
Lemma leida_larga : (4 < length t_uid)%nat -> leida = $"88" ++ concat (hex_byte <$> take 3 t_uid).
Proof.
  intros H. unfold leida, cl1. rewrite (proj2 (Nat.eqb_neq _ _)) by lia.
  rewrite take_app_length' by (cbn; rewrite length_take; lia). by rewrite fmap_cons.
Qed.

End Acceso.

(** ** A board with a card *)

(** the reader, and the register that the transfer under way has addressed: being written,
    or read with the value latched *)
Inductive trans : Type := TReposo | TEscribe (r : Z) | TLee (v : Z).

Definition valor (r : Z) (c : lector) : Z :=
  if r =? FIFODataReg then hd 0 (l_fifo c)
  else if r =? FIFOLevelReg then Z.of_nat (length (l_fifo c))
  else if r =? BitFramingReg then Z.land (l_marco c) 127
  else if r =? CommIrqReg then (if l_irq c then 32 else 0)
  else 0.
Definition tras_leer (r : Z) (c : lector) : lector :=
  if r =? FIFODataReg
  then mkLector (l_cmd c) (l_marco c) (tl (l_fifo c)) (l_viaje c) (l_visto c) (l_irq c) (l_lista c) else c.

Definition tarjeta_out (uid : list Z) (e : event) (d : lector * trans) : lector * trans :=
  match e with
  | EvPinState 3 6 _ => (fst d, TReposo)
  | EvSpiTx [b] =>
      let r := Z.shiftr (Z.land b 126) 1 in
      match snd d with
      | TEscribe r => (escrito uid [4; 0] 5 r b (fst d), TReposo)
      | _ => if b <? 128 then (fst d, TEscribe r) else (tras_leer r (fst d), TLee (valor r (fst d)))
      end
  | _ => d
  end.
Definition tarjeta_in (i : input) (d : lector * trans) : Z * (lector * trans) :=
  match i with
  | InSsp => (match snd d with TLee v => v | _ => 0 end, d)
  | InTick => (1, (mira (pasa 1 (fst d)), snd d))
  | InLsr _ => (32, d)
  | _ => (1, d)
  end.
Definition env_tarjeta (uid : list Z) : Env :=
  {| dev := lector * trans; dev_in := tarjeta_in; dev_out := tarjeta_out uid; env_fuel := Z.to_nat 100003 |}.

#[refine] Instance vivo_tarjeta uid : @Vivo (env_tarjeta uid) :=
  {| v_max := 0; v_salto := 1; v_pot := fun _ => O; v_tx := fun _ _ => O |}.
Proof.
  all: cbn [env_tarjeta dev dev_in dev_out env_fuel tarjeta_in fst snd]; try (intros; lia).
  - intros _ _. left. discriminate.
Defined.

(** the address byte names its register *)
Lemma direccion_escrita r : 0 <= r < 64 ->
  (write_addr r <? 128) = true /\ Z.shiftr (Z.land (write_addr r) 126) 1 = r /\
  (read_addr r <? 128) = false /\ Z.shiftr (Z.land (read_addr r) 126) 1 = r.
Proof.
  intros Hr. assert (H : forallb (fun r => (write_addr r <? 128) &&
    (Z.shiftr (Z.land (write_addr r) 126) 1 =? r) && negb (read_addr r <? 128) &&
    (Z.shiftr (Z.land (read_addr r) 126) 1 =? r)) (seqZ 0 64) = true) by (vm_compute; reflexivity).
  rewrite forallb_forall in H. specialize (H r ltac:(apply list_elem_of_In, elem_of_seqZ; lia)).
  rewrite !andb_true_iff, negb_true_iff, !Z.eqb_eq in H. tauto.
Qed.

Lemma leido_valor r c : leido r c (u8 (valor r c)) (tras_leer r c).
Proof.
  unfold leido, valor, tras_leer. destruct (r =? FIFODataReg); [done|]. split; [done|].
  destruct (r =? FIFOLevelReg); [done|]. destruct (r =? BitFramingReg).
  { unfold u8. change (2 ^ 8) with 256. rewrite Z.mod_small; [by rewrite <- Z.land_assoc|].
    change 127 with (Z.ones 7). rewrite Z.land_ones by lia. pose proof (Z.mod_pos_bound (l_marco c) (2 ^ 7)). lia. }
  destruct (r =? CommIrqReg); [by destruct (l_irq c)|].
  by destruct (r =? DivIrqReg), (r =? ErrorReg), (r =? ControlReg).
Qed.

#[refine] Instance tarjeta_ejemplo : @Tarjeta (env_tarjeta [222; 173; 190; 239]) :=
  {| t_uid := [222; 173; 190; 239]; t_atqa := [4; 0]; lee := fun d : @dev (env_tarjeta _) => fst d |}.
Proof.
  - done.
  - by repeat constructor.
  - done.
  - intros r v [c t] Hr. destruct (direccion_escrita r Hr) as (H1 & H2 & _). exists 0, 5.
    split; [lia|]. split; [lia|]. unfold escritura, cs_bajo, cs_alto.
    cbn -[write_addr Z.land Z.shiftr Z.ltb escrito]. rewrite H1. cbn -[write_addr Z.land Z.shiftr escrito].
    by rewrite H2, pasa_0.
  - intros r [c t] Hr. destruct (direccion_escrita r Hr) as (_ & _ & H1 & H2). exists 0. split; [lia|].
    unfold lectura, cs_bajo, cs_alto. cbn -[read_addr Z.land Z.shiftr Z.ltb u8 valor tras_leer leido].
    rewrite H1. cbn -[read_addr Z.land Z.shiftr u8 valor tras_leer leido]. rewrite H2, pasa_0. apply leido_valor.
  - intros [c t]. exists 1. by split; [lia|].
  - intros i [c t] Hi. destruct i; try done. cbn. apply pasa_lista.
  - intros e [c t] He. destruct e as [p q b| |? ?|data| | | |]; try done. unfold ajeno in He.
    cbn. repeat case_match; subst; done.
Defined.

(** a registered card, and one that is not *)
Definition mundo_tarjeta (db : list PinUsuario_t) : @world (env_tarjeta [222; 173; 190; 239]) :=
  @mkWorld (env_tarjeta _) (@mkHw (env_tarjeta _) (mkLector 0 0 [] None true false false, TReposo) 5000 true [])
    (mkDisplay (replicate 1024 0) 0 0) (mkTeclado [] 0 false 65535) db false scan_zero
    (set_evento true (mef_en ESPERANDO_ACCION)).

