(* ===== verification/Registro.v ===== *)
(** * A person who registers a card

    Somebody at the keypad, who types a PIN, and a card at the reader: how long the waits
    of the registration last and that the card ends up in the table under that PIN. *)

From Stdlib Require Import ZArith Lia Bool Ascii String.
From Stdlib Require Import SpecFloat.
From stdpp Require Import base list strings numbers sets.
From stdpp Require Import options.
From S2P Require Import Prelude Machine Effects Triples Banco Sapi Display Plazos Cerrojo Teclado.
From S2P Require Import Usuarios Json Dobles EspAT As608 Rc522 Sincronizacion Mef Cerradura.
From S2P Require Import Refinamiento Seguridad Duracion Matriz Terminacion Tarjeta.

(** ** What is typed, in time *)

(** a reading that counts as a new key *)
Definition nueva (t : teclado_st) (k : option Z) : bool :=
  match k with Some i => negb (t_keyHeld t) || negb (i =? t_lastIndex t) | None => false end.

(** The PIN that the samples [ks] complete, a new key arriving always within [limite] ms;
    [e]: the ms since the last one, [D]: from a sample to the next. *)
Fixpoint escribe (limite D e : Z) (t : teclado_st) (ks : list (option Z)) : option (list ascii) :=
  match ks with
  | [] => None
  | k :: ks =>
      let e := if nueva t k then 0 else e in
      match muestra t k with
      | (Completo p, _) => Some p
      | (_, t') => if e + D <=? limite then escribe limite D (e + D) t' ks else None
      end
  end.

Lemma escribe_ok limite D ks : forall e t p, tec_ok t -> escribe limite D e t ks = Some p -> pin_ok p.
Proof.
  induction ks as [|k ks IH]; intros e t p Ht H; [done|]. cbn in H. destruct (muestra t k) as [en t'] eqn:Hm.
  destruct (muestra_ok _ _ _ _ Ht Hm) as [Ht' Hp].
  destruct en as [| |q]; [..|injection H as <-; by apply Hp];
    (destruct (_ <=? _); [by eapply IH|done]).
Qed.

(** nothing new for [n] samples *)
Lemma escribe_espera limite D n : forall e t k ks,
  nueva t k = false -> muestra t k = (EnCurso, t) -> 0 <= D -> e + Z.of_nat n * D <= limite ->
  escribe limite D e t (replicate n k ++ ks) = escribe limite D (e + Z.of_nat n * D) t ks.
Proof.
  induction n as [|n IH]; intros e t k ks Hn Hm HD He; [by rewrite Z.add_0_r|].
  cbn [replicate app escribe]. rewrite Hn, Hm, (proj2 (Z.leb_le _ _)) by nia.
  rewrite IH by (done || lia). f_equal. lia.
Qed.

(** a digit key held for some samples and released for others *)
Lemma escribe_pulsacion limite D e ds l j i n m ks :
  is_digit (tecla i) = true -> 0 <= D -> Z.of_nat (S n + S m) * D <= limite ->
  escribe limite D e (mkTeclado ds l false j) (pulsacion (i, n, m) ++ ks) =
  if (length ds =? 4)%nat then Some (ds ++ [tecla i])
  else escribe limite D (Z.of_nat (S n + S m) * D)
         (mkTeclado (ds ++ [tecla i]) (Z.of_nat (length (ds ++ [tecla i]))) false 65535) ks.
Proof.
  intros Hd HD Hl. assert (Hstar : (ord (tecla i) =? 42) = false) by (unfold is_digit in Hd; lia).
  unfold pulsacion. rewrite <- app_assoc. cbn [replicate app].
  cbn [escribe nueva muestra t_keyHeld t_pin negb orb andb]. unfold teclear. rewrite Hstar, Hd.
  destruct (length ds =? 4)%nat; [done|]. cbn [fst]. rewrite (proj2 (Z.leb_le _ _)) by nia.
  rewrite escribe_espera; [|cbn; by rewrite Z.eqb_refl|cbn; by rewrite Z.eqb_refl|done|nia].
  cbn [escribe nueva muestra t_pin t_pos]. rewrite (proj2 (Z.leb_le _ _)) by nia.
  rewrite escribe_espera; [|done|done|done|nia]. f_equal. nia.
Qed.

(** five digits, one after another, are a PIN *)
Lemma escribe_pin limite D ks : forall e ds l j,
  0 <= D -> Forall (fun k => is_digit (tecla (indice k)) = true /\
                             Z.of_nat (length (pulsacion k)) * D <= limite) ks ->
  ks <> [] -> (length ds + length ks = 5)%nat ->
  escribe limite D e (mkTeclado ds l false j) (concat (pulsacion <$> ks)) = Some (ds ++ (tecla ∘ indice <$> ks)).
Proof.
  induction ks as [|[[i n] m] ks IH]; intros e ds l j HD Hk Hne Hl; [done|].
  apply Forall_cons in Hk as [[Hd Hlim] Hk]. rewrite fmap_cons. cbn [concat].
  unfold pulsacion in Hlim. rewrite length_app, !length_replicate in Hlim.
  rewrite escribe_pulsacion by done. cbn [length] in Hl. destruct ks as [|k ks].
  - cbn [length] in Hl. by rewrite (proj2 (Nat.eqb_eq _ _)) by lia.
  - rewrite (proj2 (Nat.eqb_neq _ _)) by (cbn [length] in Hl; lia).
    rewrite IH; [by rewrite <- app_assoc|done|done|done|rewrite length_app; cbn [length] in *; lia].
Qed.

Section Persona.
Context {E : Env} {V : Vivo} {K : Matriz}.

(** the samples of the [n] readings after the first [m] *)
Definition muestras (m n : nat) : list (option Z) := (fun i => indice_tecla (m_tecla i)) <$> seq (S m) n.

Definition LEER_PIN_MS : Z := LEER_TECLA_MS + v_salto.
(** a turn of a loop that polls the keypad *)
Definition MUESTRA_MS : Z := LEER_PIN_MS + v_salto + (50 + 3 * v_salto).

(** *** What the registration looks at *)
Definition turno_de (w : world) : nat := m_turno (device (hw w)).
#[global] Instance turno_dibujo : Dibujo turno_de.
Proof.
  split; [by intros g w a w' [= _ <-]|intros a d w b w' [= _ <-]|intros w a w' H].
  - apply (m_out (EvI2c a d)).
  - by injection (keeps_inp _ _ _ _ H).
Qed.
#[global] Instance turno_reloj : Reloj turno_de.
Proof. split; [intros w a w' H; by injection (keeps_inp _ _ _ _ H)|by intros t w a w' [= _ <-]]. Qed.

#[global] Instance tec_dibujo : Dibujo tec.
Proof. split; [by intros g w a w' [= _ <-]|by intros a d w b w' [= _ <-]|]. intros w a w' H. unfold inp in H. destruct (dev_in _ _). by injection H as _ <-. Qed.
#[global] Instance tec_reloj : Reloj tec.
Proof. split; [|by intros t w a w' [= _ <-]]. intros w a w' H. unfold inp in H. destruct (dev_in _ _). by injection H as _ <-. Qed.
#[global] Instance db_dibujo : Dibujo listaPins.
Proof. split; [by intros g w a w' [= _ <-]|by intros a d w b w' [= _ <-]|]. intros w a w' H. unfold inp in H. destruct (dev_in _ _). by injection H as _ <-. Qed.
#[global] Instance db_reloj : Reloj listaPins.
Proof. split; [|by intros t w a w' [= _ <-]]. intros w a w' H. unfold inp in H. destruct (dev_in _ _). by injection H as _ <-. Qed.

(** What else is followed while somebody types: what the keypad does not touch, and that holds
    the table. *)
Class Mesa {X : Type} (p : world -> X) : Type := {
  mesa_dibujo :: Dibujo p;
  mesa_reloj :: Reloj p;
  mesa_keypad : Keeps p (keypadRead keypad);
  mesa_tec k w : p (set_tec k w) = p w;
  mesa_db : X -> list PinUsuario_t;
  mesa_db_ok w : mesa_db (p w) = listaPins w
}.
Context {X : Type} (mesa : world -> X) {HM : Mesa mesa}.
#[local] Set Default Proof Using "Type*".

(** with the keypad *)
Definition sala (w : world) : teclado_st * nat * X := ((tec w, turno_de w), mesa w).
#[global] Instance sala_dibujo : Dibujo sala.
Proof. apply (dibujo_par (fun w => (tec w, turno_de w)) mesa); [apply dibujo_par|]; apply _. Qed.
#[global] Instance sala_reloj : Reloj sala.
Proof. apply (reloj_par (fun w => (tec w, turno_de w)) mesa); [apply reloj_par|]; apply _. Qed.

(** *** One reading *)
Lemma durp_keypad tk n r :
  en_rango (m_tecla (S n)) ->
  durp sala ((tk, n), r) true LEER_TECLA_MS (keypadRead keypad) (fun k x =>
    k = indice_tecla (m_tecla (S n)) /\ x = ((tk, S n), r)).
Proof.
  intros Ht. destruct keypadRead_dur as [H0 Hd]. split; [done|]. intros w Hw [= Htk Hn Hr].
  unfold turno_de in Hn. subst n. destruct (Hd w Hw) as (k & w' & H1 & H2 & H3). exists k, w'. do 3 (split; [done|]).
  destruct (tri_keypadRead _ _ (m_len (device (hw w))) Ht w k w' eq_refl H1) as [-> Hn'].
  unfold sala. rewrite ((mesa_keypad : Keeps mesa _) _ _ _ H1). destruct (keypadRead_tec _ _ _ _ eq_refl H1) as [-> _].
  unfold turno_de. cbn in Hn'. by rewrite Hn', Htk, Hr.
Qed.

Lemma indice_rango t i : en_rango t -> indice_tecla t = Some i -> 0 <= i < 12.
Proof. destruct t as [[r c]|]; [|done]. intros [Hr Hc] [= <-]. lia. Qed.

Lemma durp_mod_tec g tk n r t s b {B} (h : world -> world) (f : unit -> M B) Q :
  Dur s 0 (modify h) -> (forall w, h w = set_tec (g (tec w)) w) ->
  durp (con_reloj sala) ((g tk, n, r), t) s b (f tt) Q -> 0 <= b ->
  durp (con_reloj sala) ((tk, n, r), t) s b (modify h ≫= f) Q.
Proof.
  intros Hd Hh Hf Hb. apply (durp_modify sala (fun x => ((g x.1.1, x.1.2), x.2))); [done|intros w; unfold sala; by rewrite Hh, (mesa_tec (p := mesa))|exact Hf|done].
Qed.
Lemma durp_tec {A} tk n r t s b {B} (g : teclado_st -> A) (f : A -> M B) Q :
  durp (con_reloj sala) ((tk, n, r), t) s b (f (g tk)) Q ->
  durp (con_reloj sala) ((tk, n, r), t) s b (gets (fun w => g (tec w)) ≫= f) Q.
Proof using Type. intros H. apply durp_gets; [intros w [= -> _ _ _]; exact H|apply H]. Qed.
End Persona.
Arguments mesa_db {_ _} _ {_} _.

Ltac sala_paso :=
  lazymatch goal with
  | |- durp _ _ _ _ (mbind _ (mbind _ _)) _ => apply durp_assoc
  | |- durp _ _ _ _ (mbind _ (mret _)) _ => apply durp_ret_bind
  | |- durp _ _ _ _ (mbind _ (gets tec)) _ => apply (durp_tec _ _ _ _ _ _ _ id); unfold id
  | |- durp _ _ _ _ (mbind _ tickRead) _ => apply durp_tic; [apply _|intros|lia|lia]
  | |- durp _ _ _ _ (mbind _ _) _ =>
      first [apply durp_sin_reloj; [solve [apply _]|solve [apply _]|intros|lia]
            |eapply durp_pasa; [solve [apply _]|solve [apply _]|intros|lia|lia]]
  end.

(** the end of a reading, at the time [v] *)
Ltac lectura_fin v :=
  apply durp_ret; [lia|]; exists v; split; [lia|];
  split; [|split; [done|cbn; rewrite ?u32_small, ?s32_small by lia; lia]].

Section Lecturas.
Context {E : Env} {V : Vivo} {K : Matriz} {X : Type} (mesa : world -> X) {HM : Mesa mesa}.
#[local] Set Default Proof Using "Type*".
Abbreviation sala := (sala mesa).

Lemma durp_leerPin tk n r t pin x :
  tec_ok tk -> en_rango (m_tecla (S n)) -> 0 <= t -> t + LEER_PIN_MS < 2 ^ 31 -> 0 <= x < 2 ^ 31 ->
  let k := indice_tecla (m_tecla (S n)) in
  durp (con_reloj sala) ((tk, n, r), t) true LEER_PIN_MS (leerPin pin x) (fun a y =>
    exists t', t <= t' <= t + LEER_PIN_MS /\ y = ((snd (muestra tk k), S n, r), t') /\
      a.1 = resultado (fst (muestra tk k)) pin /\ if nueva tk k then t <= a.2 <= t' else a.2 = x).
Proof.
  intros (Hpos & Hlen & Hd) Hr Ht0 Ht Hx k. pose proof v_salto_rango. subst k.
  unfold LEER_PIN_MS in *. assert (0 <= LEER_TECLA_MS) by (unfold LEER_TECLA_MS; lia).
  unfold leerPin, tecladoLeerPin. apply durp_assoc.
  eapply durp_reloj; [by apply durp_keypad|intros k y t1 [-> ->] Ht1|lia|lia].
  destruct (indice_tecla (m_tecla (S n))) as [i|] eqn:Hi.
  2: { apply durp_assoc. apply (durp_mod_tec mesa (fun k => mkTeclado (t_pin k) (t_pos k) false 65535)); [apply _|done| |lia].
       by lectura_fin t1. }
  pose proof (indice_rango _ _ Hr Hi) as Hir. sala_paso. sala_paso.
  assert (Hs : muestra tk (Some i) =
    if nueva tk (Some i) then let '(e, ds) := teclear (t_pin tk) (tecla i) in
         (e, mkTeclado ds (Z.of_nat (length ds)) true i)
    else (EnCurso, tk)) by (unfold muestra, nueva; by destruct (t_keyHeld tk), (i =? t_lastIndex tk)).
  rewrite Hs. change (negb (t_keyHeld tk) || negb (i =? t_lastIndex tk)) with (nueva tk (Some i)).
  destruct (nueva tk (Some i)).
  2: by lectura_fin t1.
  sala_paso. apply (durp_mod_tec mesa (fun k => mkTeclado (t_pin k) (t_pos k) true i)); [apply _|done| |lia].
  sala_paso. rewrite keypadChar_run by done. do 3 sala_paso. sala_paso. rename v into now.
  unfold teclear. destruct (ord (tecla i) =? 42) eqn:Hstar.
  { repeat sala_paso. apply (durp_mod_tec mesa (fun k => mkTeclado [] 0 (t_keyHeld k) (t_lastIndex k))); [apply _|done| |lia].
    by lectura_fin now. }
  repeat sala_paso. cbn [t_pos]. rewrite (proj2 (Z.ltb_lt (t_pos tk) PIN_LENGTH)) by (unfold PIN_LENGTH; lia).
  destruct (is_digit (tecla i)) eqn:Hdig; cbn [andb when].
  2: { repeat sala_paso. cbn [t_pos].
       rewrite (proj2 (Z.eqb_neq (t_pos tk) PIN_LENGTH)) by (unfold PIN_LENGTH; lia).
       lectura_fin now. by rewrite Hpos. }
  repeat sala_paso. apply (durp_mod_tec mesa (fun k => mkTeclado (t_pin k ++ [tecla i]) (u8 (t_pos k + 1))
    (t_keyHeld k) (t_lastIndex k))); [apply _|done| |lia].
  repeat sala_paso. apply durp_tec. cbn [t_pin t_pos].
  assert (Linea (t_pin tk ++ [tecla i]) 35).
  { unfold Linea, strlen. rewrite length_app. cbn. lia. }
  repeat sala_paso. cbn [t_pos t_pin t_keyHeld t_lastIndex]. rewrite u8_small by lia.
  destruct (Nat.eqb_spec (length (t_pin tk)) 4) as [H4|H4].
  - rewrite (proj2 (Z.eqb_eq (t_pos tk + 1) PIN_LENGTH)) by (unfold PIN_LENGTH; lia).
    repeat sala_paso. apply (durp_mod_tec mesa (fun k => mkTeclado [] 0 (t_keyHeld k) (t_lastIndex k))); [apply _|done| |lia].
    by lectura_fin now.
  - rewrite (proj2 (Z.eqb_neq (t_pos tk + 1) PIN_LENGTH)) by (unfold PIN_LENGTH; lia).
    lectura_fin now. rewrite length_app. cbn. do 4 f_equal. lia.
Qed.

(** *** A PIN *)
Definition teclearPin_paso (st : list ascii * Z) : M (list ascii * Z + list ascii * Z) :=
  let '(pin, timer) := st in
  r ← leerPin pin timer;
  let '(res, pin, timer) := r in
  if res =? 1 then mret (inr (pin, timer))
  else
    dt ← transcurrido timer;
    if 15000 <? dt then abandonar ;; mret (inr (pin, timer))
    else delay 50 ;; mret (inl (pin, timer)).

(** the PIN, before the time runs out *)
Lemma durp_teclear ks : forall fuel tk n r t e pin x p,
  (length ks <= fuel)%nat -> ks = muestras n (length ks) -> (forall i, en_rango (m_tecla i)) ->
  tec_ok tk -> escribe 15000 MUESTRA_MS e tk ks = Some p -> 0 <= x <= t -> t - x <= e ->
  t + Z.of_nat (length ks) * MUESTRA_MS < 2 ^ 31 ->
  durp (con_reloj sala) ((tk, n, r), t) true (Z.of_nat (length ks) * MUESTRA_MS)
    (loop_n fuel teclearPin_paso (pin, x)) (fun y z => y.1 = p /\
      exists tk' n' t', z = ((tk', n', r), t') /\ t <= t' <= t + Z.of_nat (length ks) * MUESTRA_MS).
Proof.
  induction ks as [|k ks IH]; intros fuel tk n r t e pin x p Hf Hm Hr Htk He Hx Hex Ht; [done|].
  pose proof v_salto_rango. assert (HL : 0 <= LEER_PIN_MS) by (unfold LEER_PIN_MS, LEER_TECLA_MS; lia).
  assert (HM1 : MUESTRA_MS = LEER_PIN_MS + v_salto + (50 + 3 * v_salto)) by done.
  cbn [length] in Hf, Hm, Ht. rewrite Nat2Z.inj_succ in Ht. cbn [length]. rewrite Nat2Z.inj_succ.
  assert (HN : 0 <= Z.of_nat (length ks) * MUESTRA_MS) by lia.
  destruct fuel as [|fuel]; [lia|]. unfold muestras in Hm. cbn [seq] in Hm. rewrite fmap_cons in Hm.
  injection Hm as Hk Hm.
  apply durp_loop_n. unfold teclearPin_paso at 1. apply durp_assoc.
  eapply durp_bind; [apply durp_leerPin; [done|done|lia|lia|lia]| |lia].
  intros [[res pin'] x'] c (t1 & Ht1 & -> & Ha & Hxt). cbn in Ha, Hxt. rewrite <- Hk in *.
  cbn [escribe] in He.
  destruct (muestra tk k) as [en tk'] eqn:Hmu. cbn [fst snd] in *.
  destruct (muestra_ok _ _ _ _ Htk Hmu) as [Htk' _].
  set (e' := if nueva tk k then 0 else e) in *. cbv zeta in He.
  assert (Hc : (res = 1 /\ pin' = p) \/
    res <> 1 /\ pin' = pin /\ e' + MUESTRA_MS <= 15000 /\ escribe 15000 MUESTRA_MS (e' + MUESTRA_MS) tk' ks = Some p).
  { destruct (Z.leb_spec (e' + MUESTRA_MS) 15000), en; injection Ha as -> ->; try discriminate He;
      try (injection He as ->); auto. }
  destruct Hc as [[-> ->]|(Hres & -> & Hlim & He')].
  { apply durp_ret; [lia|]. split; [done|]. exists tk', (S n), t1. split; [done|]. lia. }
  rewrite (proj2 (Z.eqb_neq res 1) Hres). unfold transcurrido. do 2 apply durp_assoc.
  apply durp_tic; [apply _|intros v Hv|lia|lia]. apply durp_ret_bind.
  assert (Hx' : 0 <= x' <= t1 /\ v - x' <= e' + LEER_PIN_MS + v_salto).
  { subst e'. destruct (nueva tk k); lia. }
  rewrite u64_small, (proj2 (Z.ltb_ge _ _)) by lia. apply durp_assoc.
  eapply durp_pasa; [apply _|apply _|intros _ t2 Ht2|lia|lia]. apply durp_ret_bind.
  eapply durp_conseq; [eapply (IH fuel tk' (S n) r t2 (e' + MUESTRA_MS)); [lia|exact Hm|done|done|exact He'|lia|lia|lia]|lia|].
  intros y c (Hy & tk2 & n2 & t3 & -> & Ht3). split; [done|]. exists tk2, n2, t3. split; [done|]. lia.
Qed.

Lemma durp_sala_db k x t s b {B} (f : list PinUsuario_t -> M B) Q :
  durp (con_reloj sala) ((k, x), t) s b (f (mesa_db mesa x)) Q ->
  durp (con_reloj sala) ((k, x), t) s b (gets listaPins ≫= f) Q.
Proof.
  intros H. apply durp_gets; [|apply H]. intros w [= _ Hx _]. by rewrite <- (mesa_db_ok (p := mesa) w), Hx.
Qed.

Lemma durp_reloj_leido k t b {B} (f : Z -> M B) Q :
  (forall v, t <= v <= t + v_salto -> durp (con_reloj sala) (k, v) true (b - v_salto) (f v) Q) ->
  0 <= b -> 0 <= t -> t + v_salto < 2 ^ 31 -> durp (con_reloj sala) (k, t) true b (leerReloj ≫= f) Q.
Proof.
  intros Hf Hb H0 Ht. pose proof v_salto_rango. unfold leerReloj. apply durp_assoc.
  apply durp_tic; [apply _|intros v Hv|lia|lia]. apply durp_ret_bind. rewrite s32_small by lia. by apply Hf.
Qed.

(** the PIN of a user, asked for once *)
Lemma durp_pedirPin N tk n x t p :
  Z.of_nat N < 90000 -> (forall i, en_rango (m_tecla i)) -> tec_ok tk ->
  escribe 15000 MUESTRA_MS 0 tk (muestras n N) = Some p -> validarPin (mesa_db mesa x) p = true ->
  0 <= t -> t + v_salto + Z.of_nat N * MUESTRA_MS < 2 ^ 31 ->
  durp (con_reloj sala) ((tk, n, x), t) true (v_salto + Z.of_nat N * MUESTRA_MS) pedirPinUsuario
    (fun y z => y = p /\ z.1.2 = x /\ t <= z.2 <= t + v_salto + Z.of_nat N * MUESTRA_MS).
Proof.
  intros HN Hr Htk He Hv Ht0 Ht. pose proof v_salto_rango.
  assert (HD : 0 <= Z.of_nat N * MUESTRA_MS) by (unfold MUESTRA_MS, LEER_PIN_MS, LEER_TECLA_MS; lia).
  unfold pedirPinUsuario. apply durp_reloj_leido; [intros x0 Hx|lia|lia|lia].
  destruct combustible as (fuel & Hfuel & Hfu). unfold loop at 1. rewrite Hfuel. apply durp_loop_n.
  apply durp_assoc. sala_paso. apply durp_assoc. unfold teclearPin, loop. rewrite Hfuel.
  assert (Hlen : length (muestras n N) = N) by (unfold muestras; by rewrite length_fmap, length_seq).
  eapply durp_bind; [eapply (durp_teclear (muestras n N) _ tk n _ x0 0 [] x0 p)| |lia]; rewrite ?Hlen; try done; try lia.
  intros [p' tm] c (Hp & tk' & n' & t' & -> & Ht'). cbn in Hp. subst p'.
  apply durp_assoc, durp_sala_db. rewrite Hv. apply durp_ret_bind, durp_ret; [lia|]. cbn. split; [done|]. split; [done|]. lia.
Qed.
End Lecturas.

Section Carta.
Context {E : Env} {V : Vivo} {K : Matriz} {T : Tarjeta}.

(** the table, the variables of MEF.c and the card *)
Definition mesa (w : world) : mef_st * bool * list PinUsuario_t := (puesto w, listaPins w).
Lemma mesa_teclado : Keeps mesa (keypadRead keypad).
Proof.
  apply keeps_par.
  - assert (Hf : forall r b, 0 <= r < 4 -> Keeps puesto (write_row keypad r b)) by apply puesto_fila.
    assert (Hp : forall c, Keeps puesto (col_pin keypad c)) by (intros c; unfold col_pin; keeps_run).
    assert (Hg : forall q, Keeps puesto (gpioRead q)).
    { intros q. assert (forall i j, Keeps puesto (inp (InPin i j))) by (intros; by apply puesto_inp).
      unfold gpioRead, gpioObtainPinInit, Chip_GPIO_GetPinState. keeps_run. }
    unfold keypadRead. apply keeps_bind; [apply keeps_for_each; intros r Hr%elem_of_seqZ; by apply Hf|intros _].
    apply keeps_first_some. intros c _. keeps_step; [apply Hp|intros q]. keeps_step; [apply Hg|intros lv].
    destruct (negb lv); [|apply keeps_ret]. keeps_step; [apply _|intros _].
    keeps_step; [apply keeps_for_each; intros r Hr%elem_of_seqZ; apply Hf; cbn in Hr; unfold KEYPAD_ROWS in Hr; lia|intros _].
    apply keeps_first_some. intros r Hr%elem_of_seqZ. unfold keypad_row.
    keeps_step; [|intros _; keeps_step; [by apply Hf|intros _]; keeps_run].
    destruct (Z.ltb_spec 0 r); cbn [when]; [|apply keeps_ret]. apply Hf. cbn in Hr. unfold KEYPAD_ROWS in Hr. lia.
  - intros w a w' H. pose proof (keypadRead_keypad_eff [] row_kinds _) as He.
    apply (eff_frame _ _ _ _ (He _ _ _ H) CDb). set_solver.
Qed.
#[global] Instance mesa_mesa : Mesa mesa.
Proof.
  refine {| mesa_db := snd |}; try done.
  - apply dibujo_par; apply _.
  - apply reloj_par; apply _.
  - apply mesa_teclado.
Defined.

(** the state of the reader and of the table in [mesa] *)
Lemma durp_mesa_db m li l t s b {B} (f : list PinUsuario_t -> M B) Q :
  durp (con_reloj mesa) ((m, li, l), t) s b (f l) Q ->
  durp (con_reloj mesa) ((m, li, l), t) s b (gets listaPins ≫= f) Q.
Proof. intros H. apply durp_gets; [intros w [= _ _ -> _]; exact H|apply H]. Qed.
Lemma durp_mesa_mef m li l t s b {B} (f : mef_st -> M B) Q :
  durp (con_reloj mesa) ((m, li, l), t) s b (f m) Q ->
  durp (con_reloj mesa) ((m, li, l), t) s b (gets mef ≫= f) Q.
Proof. intros H. apply durp_gets; [intros w [= -> _ _ _]; exact H|apply H]. Qed.

(** *** The card *)
Lemma durp_tarjeta m li l :
  durp mesa (m, li, l) true (120 + 10 * v_salto) (leer_rfid_str 10) (fun o x =>
    o = (if li then None else Some leida) /\ x = (m, negb li, l)).
Proof.
  pose proof v_salto_rango. apply (durp_otra _ chip _ _ _ _ _ (fun o c =>
    o = (if li then None else Some leida) /\ l_lista c = negb li)); [lia|intros w [= _ <- _]; apply durp_leer_rfid|].
  intros w o w' [= Hm Hli Hl] H1 [-> Hc]. split; [done|]. unfold mesa, puesto.
  pose proof (leer_rfid_str_eff [] rfid_kinds 10 _) as He.
  pose proof (eff_frame _ _ _ _ (He _ _ _ H1) CMef) as H2. pose proof (eff_frame _ _ _ _ (He _ _ _ H1) CDb) as H3.
  cbn in H2, H3. rewrite H2, H3 by set_solver. by rewrite Hm, Hc, Hl.
Qed.

(** a look for the card finds it, if it was not the one before that had asked it *)
Lemma durp_mira_tarjeta m li l t b {B} (f : option (list ascii) -> M B) Q :
  (forall t', t <= t' <= t + (120 + 10 * v_salto) ->
    durp (con_reloj mesa) ((m, negb li, l), t') true (b - (120 + 10 * v_salto))
      (f (if li then None else Some leida)) Q) ->
  0 <= b -> t + (120 + 10 * v_salto) < 2 ^ 64 ->
  durp (con_reloj mesa) ((m, li, l), t) true b (leer_rfid_str 10 ≫= f) Q.
Proof.
  intros Hf Hb Ht. eapply durp_reloj; [apply durp_tarjeta|intros o x t' [-> ->] Ht'; by apply Hf|done|done].
Qed.

Definition TARJETA_MS : Z := 300 + 30 * v_salto.

Lemma durp_esperarTarjeta m li l t :
  0 <= t -> t + TARJETA_MS < 2 ^ 31 -> TARJETA_MS <= 15000 ->
  durp (con_reloj mesa) ((m, li, l), t) true TARJETA_MS esperarTarjeta (fun _ z =>
    z.1.1.1 = set_leido leida m /\ z.1.2 = l).
Proof.
  intros Ht0 Ht Hlim. pose proof v_salto_rango. unfold TARJETA_MS in *. unfold esperarTarjeta, leerReloj. apply durp_assoc.
  apply durp_tic; [apply _|intros x Hx|lia|lia]. apply durp_ret_bind. rewrite s32_small by lia.
  do 2 sala_paso.
  destruct combustible as (fuel & Hfuel & Hfu). unfold loop. rewrite Hfuel.
  assert (Hhay : forall t' li' b n, li' = false -> 120 + 10 * v_salto <= b -> t' + (120 + 10 * v_salto) < 2 ^ 31 ->
    durp (con_reloj mesa) ((m, li', l), t') true b (loop_n (S n) (fun _ : unit =>
      uid ← leer_rfid_str 10;
      match uid with
      | Some s => mod_mef (set_leido s) ;; mret (inr tt)
      | None =>
          dt ← transcurrido x;
          if 15000 <? dt then abandonar ;; mret (inr tt)
          else delay 50 ;; mret (inl tt)
      end) tt) (fun _ z => z.1.1.1 = set_leido leida m /\ z.1.2 = l)).
  { intros t' li' b n -> Hb Ht'. apply durp_loop_n. apply durp_assoc.
    apply durp_mira_tarjeta; [intros t1 Ht1|lia|lia]. unfold mod_mef. apply durp_assoc.
    eapply (durp_modify mesa (fun y => (set_leido leida y.1.1, y.1.2, y.2))); [apply _|done| |lia].
    apply durp_ret_bind, durp_ret; [lia|done]. }
  destruct li; [|apply Hhay; [done|lia|lia]].
  apply durp_loop_n. apply durp_assoc. apply durp_mira_tarjeta; [intros t1 Ht1|lia|lia].
  unfold transcurrido. do 2 apply durp_assoc. apply durp_tic; [apply _|intros v Hv|lia|lia]. apply durp_ret_bind.
  rewrite u64_small, (proj2 (Z.ltb_ge _ _)) by lia. apply durp_assoc.
  eapply durp_pasa; [apply _|apply _|intros _ t2 Ht2|lia|lia]. apply durp_ret_bind.
  apply Hhay; [done|lia|lia].
Qed.
(** *** The whole registration *)
#[local] Instance espEnviarNuevoRFID_dur p r :
  CabeEn 200 ($"/update-rfid?pin=" ++ p ++ $"&rfid=" ++ r) -> Dur true (32520 + 60 * v_salto) (espEnviarNuevoRFID p r).
Proof. intros Hp. unfold espEnviarNuevoRFID. dur_run. Qed.

(** from the card on *)
Lemma leida_larga_8 : length leida = 8%nat.
Proof.
  unfold leida. rewrite (proj1 (hex_string_ok _)), length_take, length_cl1. done.
Qed.

Lemma durp_guardar m l l' p :
  length p = 5%nat -> estadoActual m = REGISTRAR_RFID -> rfid m = leida -> asociarRFIDaPin l p leida = Some (true, l') ->
  durp datos (m, l) true (34900 + 80 * v_salto) (
    fin ← abandonado;
    if fin : bool then mret tt
    else
      alertaExito ;;
      m ← gets mef;
      l ← gets listaPins;
      r ← access (asociarRFIDaPin l p (rfid m));
      mod_db (fun _ => snd r) ;;
      mensaje [($"TARJETA GUARDADA", 20); ($"Sincronizando servidor", 40)] ;;
      nube ← espEnviarNuevoRFID p (rfid m);
      display_clear ;;
      display_println (if nube : bool then $"NUBE: OK" else $"NUBE: ERROR") 40 ;;
      display_update ;;
      delay 2000 ;;
      abandonar) (fun _ c => estadoActual c.1 = ESPERANDO_ACCION /\ c.2 = l').
Proof.
  intros Hp He Hr Hl. pose proof v_salto_rango. unfold abandonado. repeat datos_paso.
  rewrite bool_decide_eq_false_2 by congruence. repeat datos_paso. rewrite Hr, Hl.
  apply durp_ret_bind. repeat datos_paso.
  assert (CabeEn 200 ($"/update-rfid?pin=" ++ p ++ $"&rfid=" ++ leida)).
  { unfold CabeEn. rewrite !length_app, Hp, leida_larga_8. apply Nat.ltb_lt. reflexivity. }
  datos_paso. rename a1 into nube. assert (Linea (if nube : bool then $"NUBE: OK" else $"NUBE: ERROR") 40) by (destruct nube; apply _).
  repeat datos_paso. unfold abandonar, registrarPresencia, ir_a. repeat datos_paso.
  eapply durp_tri; [apply dur_mono with 0; [apply _|lia]|].
  apply tri_modify. intros w [= Hm Hdb]. cbn. by rewrite Hdb.
Qed.
Definition REGISTRO_MS (N : nat) : Z := 37000 + 120 * v_salto + Z.of_nat N * MUESTRA_MS.

Lemma durp_registrar_rfid N tk n m li l l' t p :
  Z.of_nat N < 90000 -> (forall i, en_rango (m_tecla i)) -> tec_ok tk ->
  escribe 15000 MUESTRA_MS 0 tk (muestras n N) = Some p -> validarPin l p = true ->
  estadoActual m = REGISTRAR_RFID -> asociarRFIDaPin l p leida = Some (true, l') ->
  0 <= t -> t + REGISTRO_MS N < 2 ^ 31 -> TARJETA_MS <= 15000 ->
  durp (con_reloj (sala mesa)) ((tk, n, (m, li, l)), t) true (REGISTRO_MS N) registrar_rfid
    (fun _ z => estadoActual z.1.2.1.1 = ESPERANDO_ACCION /\ z.1.2.2 = l').
Proof.
  intros HN Hr Htk He Hv Hm Hl Ht0 Ht Hlim. pose proof v_salto_rango. unfold REGISTRO_MS, TARJETA_MS in *.
  assert (HD : 0 <= Z.of_nat N * MUESTRA_MS) by (unfold MUESTRA_MS, LEER_PIN_MS, LEER_TECLA_MS; lia).
  unfold registrar_rfid. sala_paso. eapply durp_pasa; [apply _|apply _|intros _ t1 Ht1|lia|lia].
  eapply durp_bind; [by apply (durp_pedirPin mesa N tk n (m, li, l) t1 p); try lia| |lia].
  intros p' [[k r] t2] (-> & Hz & Ht2). cbn in Hz, Ht2. subst r.
  apply (durp_otra _ (con_reloj mesa) _ _ _ _ _ (fun _ z => estadoActual z.1.1.1 = ESPERANDO_ACCION /\ z.1.2 = l'));
    [lia| |done]. intros w [= _ Hm0 Hli Hdb Htk2].
  unfold con_reloj at 2, mesa, puesto. rewrite Hm0, Hli, Hdb, Htk2.
  unfold abandonado at 1. apply durp_assoc, durp_mesa_mef, durp_ret_bind.
  rewrite bool_decide_eq_false_2 by congruence.
  eapply durp_bind; [apply durp_esperarTarjeta; unfold TARJETA_MS; lia| |unfold TARJETA_MS; lia].
  intros _ [[[m2 li2] l2] t3] [Hm2 Hl2]. cbn in Hm2, Hl2. subst m2 l2.
  apply (durp_otra _ datos _ _ _ _ _ (fun _ c => estadoActual c.1 = ESPERANDO_ACCION /\ c.2 = l'));
    [unfold TARJETA_MS; lia| |done]. intros w2 [= Hm3 _ Hl3 _]. unfold datos at 2. rewrite Hm3, Hl3.
  eapply durp_conseq; [apply durp_guardar; [eapply escribe_ok; eauto|done|done|done]|unfold TARJETA_MS; lia|done].
Qed.

(** C6: registering a card, from beginning to end: somebody at the keypad types the PIN of an
    active user, whatever is pressed and cancelled before, and never lets 15 s pass without a
    new key, and a card is at the reader; then the call of [mefUpdate] in the
    registration state returns to the idle state with the card in the table under that PIN:
    it validates from then on, with the tag of its user if it was nobody's before, and no PIN
    and no fingerprint gains or loses validity. *)
Theorem registro_tarjeta w N p i u
    (Hl : listo true w) (Htk : tec_ok (tec w)) (Hr : forall j, en_rango (m_tecla j))
    (He : estadoActual (mef w) = REGISTRAR_RFID) (HN : Z.of_nat N < 90000)
    (Hp : escribe 15000 MUESTRA_MS 0 (tec w) (muestras (turno_de w) N) = Some p)
    (Hu : list_find (tiene_pin p) (listaPins w) = Some (i, u))
    (Ht : tickCounter (hw w) + REGISTRO_MS N < 2 ^ 31) (Hs : TARJETA_MS <= 15000) :
  exists w', mefUpdate w = Ret tt w' /\ estadoActual (mef w') = ESPERANDO_ACCION /\
    avanza (REGISTRO_MS N) w w' /\
    asociarRFIDaPin (listaPins w) p leida = Some (true, listaPins w') /\
    validarRFID (listaPins w') leida = true /\
    (validarRFID (listaPins w) leida = false -> 0 < strlen (tag u) ->
     obtenerTagPorRFID (listaPins w') leida = Some (tag u)) /\
    (forall q, validarPin (listaPins w') q = validarPin (listaPins w) q) /\
    (forall h, validarHuella (listaPins w') h = validarHuella (listaPins w) h).
Proof.
  destruct (asociarRFID_guarda (listaPins w) p leida i u Hu) as (l' & H1 & H2).
  { unfold strlen. rewrite leida_larga_8. lia. }
  assert (Hv : validarPin (listaPins w) p = true) by (unfold validarPin; by rewrite Hu).
  destruct (durp_registrar_rfid N (tec w) (turno_de w) (mef w) (l_lista (chip w)) (listaPins w) l'
    (tickCounter (hw w)) p) as [_ H]; [done|done|done|done|done|done|done|apply Hl|done|done|].
  destruct (H w Hl eq_refl) as ([] & w' & Hw & _ & Ha & Hst & Hdb). cbn in Hst, Hdb. rewrite <- Hdb in *.
  exists w'. split; [unfold mefUpdate, mbind, M_bind, gets; by rewrite He|]. done.
Qed.
End Carta.

(** ** A board with a keypad and a card *)
Definition sala_in (t : nat -> option (Z * Z)) (i : input) (d : filas_st * (lector * trans)) :
    Z * (filas_st * (lector * trans)) :=
  match i with
  | InPin p q => (columna_in (t (turno (fst d))) p q (fst d), d)
  | _ => let '(v, c) := tarjeta_in i (snd d) in (v, (fst d, c))
  end.
Definition env_sala (t : nat -> option (Z * Z)) (uid : list Z) : Env :=
  {| dev := filas_st * (lector * trans); dev_in := sala_in t;
     dev_out := fun e d => (tecla_out e (fst d), tarjeta_out uid e (snd d)); env_fuel := Z.to_nat 100003 |}.

#[refine] Instance vivo_sala t uid : @Vivo (env_sala t uid) :=
  {| v_max := 0; v_salto := 1; v_pot := fun _ => O; v_tx := fun _ _ => O |}.
Proof.
  all: cbn [env_sala dev dev_in dev_out env_fuel sala_in tarjeta_in fst snd]; try (intros; lia).
  - intros _ _. left. discriminate.
Defined.
#[refine] Instance matriz_sala t uid : @Matriz (env_sala t uid) :=
  {| m_filas := fun d : @dev (env_sala t uid) => niveles (fst d); m_turno := fun d => turno (fst d); m_tecla := t |}.
Proof.
  - intros i [f c]. by destruct i.
  - intros e [f c]. split; [apply tecla_out_turno|apply tecla_out_niveles].
  - done.
  - intros c [f x] Hc. by apply columna_in_baja.
Defined.
#[refine] Instance tarjeta_sala t : @Tarjeta (env_sala t [222; 173; 190; 239]) :=
  {| t_uid := [222; 173; 190; 239]; t_atqa := [4; 0]; lee := fun d : @dev (env_sala t _) => fst (snd d) |}.
Proof.
  - done.
  - by repeat constructor.
  - done.
  - intros r v [f c] Hr. exact (@t_escribe (env_tarjeta _) tarjeta_ejemplo r v c Hr).
  - intros r [f c] Hr. destruct (@t_lee (env_tarjeta _) tarjeta_ejemplo r c Hr) as (m & Hm & H).
    exists m. split; [exact Hm|]. exact H.
  - intros [f c]. exact (@t_tic (env_tarjeta _) tarjeta_ejemplo c).
  - intros i [f c] Hi. pose proof (@t_in (env_tarjeta _) tarjeta_ejemplo i c Hi) as H. destruct i; exact H || done.
  - intros e [f c] He. exact (@t_out (env_tarjeta _) tarjeta_ejemplo e c He).
Defined.

(** the guest types the PIN 55555, a key held for a reading and released for the next *)
Definition teclea_55555 (n : nat) : option (Z * Z) :=
  nth n (None :: concat (replicate 5 [Some (1, 1); None])) None.
Definition mundo_sala : @world (env_sala teclea_55555 [222; 173; 190; 239]) :=
  @mkWorld (env_sala _ _) (@mkHw (env_sala _ _) (mkFilas true true true true 0, (mkLector 0 0 [] None true false false, TReposo)) 5000 true [])
    (mkDisplay (replicate 1024 0) 0 0) (mkTeclado [] 0 false 65535) listaPins_inicial false scan_zero
    (mef_en REGISTRAR_RFID).

Lemma registro_tarjeta_witness :
  exists w', mefUpdate mundo_sala = Ret tt w' /\ obtenerTagPorRFID (listaPins w') $"DEADBEEF" = Some $"invitado".
Proof.
  destruct (@registro_tarjeta (env_sala _ _) (vivo_sala _ _) (matriz_sala _ _) (tarjeta_sala _) mundo_sala 9
    $"55555" 4 (mkUsuario $"55555" true [] $"0004" $"invitado")) as (w' & H1 & _ & _ & _ & _ & H2 & _).
  - by split.
  - apply tec_ok_reset.
  - intros j. do 11 (destruct j as [|j]; [by vm_compute; repeat split|]). by destruct j.
  - done.
  - lia.
  - vm_compute. reflexivity.
  - vm_compute. reflexivity.
  - by vm_compute.
  - by vm_compute.
  - exists w'. split; [exact H1|]. apply H2; vm_compute; reflexivity.
Defined.
