(* ===== verification/Huella.v ===== *)
(** * A finger on the sensor

    The AS608 on its serial line, as the class [Sensor]: it takes packets, answers each with
    an acknowledgement some milliseconds later, byte by byte.  With it the commands of
    as608.c are total, and so is the enrolment of a finger that comes to the sensor in time:
    the registration of a fingerprint, from the PIN to the table. *)

From Stdlib Require Import ZArith Lia Bool Ascii String.
From stdpp Require Import base list strings numbers sets.
From stdpp Require Import options.
From S2P Require Import Prelude Machine Effects Triples Banco Sapi Serie Display Plazos Cerrojo Teclado.
From S2P Require Import Usuarios Json Dobles EspAT As608 Rc522 Sincronizacion Mef Cerradura.
From S2P Require Import Refinamiento Seguridad Duracion Matriz Terminacion Tarjeta Registro.

(** ** The sensor *)
Record sensor : Type := mkSensor {
  z_rec : list Z;      (* what has arrived of a packet *)
  z_cola : list Z;     (* what it has still to send *)
  z_num : nat;         (* commands taken *)
  z_espera : Z;        (* ms until the first byte of [z_cola] is there, at most *)
  z_ligero : bool      (* since the last look at the clock only its line was used *)
}.

(** the same but for the time *)
Definition igual (c c' : sensor) : Prop := z_rec c' = z_rec c /\ z_cola c' = z_cola c /\ z_num c' = z_num c.

(** a byte arrives; with the last of a command's packet the sensor sets out to answer
    [cod], and the answer is there after [demora] ms *)
Definition oye (cod : nat -> list Z -> Z) (demora b : Z) (c c' : sensor) : Prop :=
  z_ligero c' = z_ligero c /\
  match recibir (z_rec c ++ [b]) with
  | Some (ty, payload) =>
      z_rec c' = [] /\
      if ty =? 1 then
        z_cola c' = z_cola c ++ as608Frame 7 [cod (z_num c) payload] /\ z_num c' = S (z_num c) /\ z_espera c' <= demora
      else z_cola c' = z_cola c /\ z_num c' = z_num c
  | None => z_rec c' = z_rec c ++ [b] /\ z_cola c' = z_cola c /\ z_num c' = z_num c
  end.

(** The sensor answers [z_cod n p] to its n-th command, of payload [p]; the answer begins
    within [z_demora] ms, a byte follows another within [z_hueco], and at most [z_vuelta] ms
    pass between two looks at the clock that only use the line. *)
Class Sensor {E : Env} : Type := {
  z_de : dev -> sensor;
  z_cod : nat -> list Z -> Z;
  z_demora : Z;
  z_hueco : Z;
  z_vuelta : Z;
  z_rangos : 0 <= z_demora /\ 0 <= z_hueco /\ 0 <= z_vuelta /\ z_hueco + z_vuelta <= 30 /\
             z_demora + 2 * z_vuelta + 11 * (2 * z_vuelta + z_hueco) < 200;
  z_cod_byte n p : es_byte (z_cod n p);
  z_tic d : let '(n, d') := dev_in InTick d in
    igual (z_de d) (z_de d') /\ z_ligero (z_de d') = true /\
    z_espera (z_de d') <= Z.max 0 (z_espera (z_de d) - n) /\ (z_ligero (z_de d) = true -> n <= z_vuelta);
  z_lsr d : let '(v, d') := dev_in (InLsr AS608_UART) d in
    igual (z_de d) (z_de d') /\ z_ligero (z_de d') = z_ligero (z_de d) /\ z_espera (z_de d') <= z_espera (z_de d) /\
    (Z.land v UART_LSR_RDR <> 0 -> z_cola (z_de d) <> []) /\
    (z_cola (z_de d) <> [] -> z_espera (z_de d) <= 0 -> Z.land v UART_LSR_RDR <> 0);
  z_rbr d b r : z_cola (z_de d) = b :: r -> let '(v, d') := dev_in (InRbr AS608_UART) d in
    u8 v = b /\ z_rec (z_de d') = z_rec (z_de d) /\ z_cola (z_de d') = r /\ z_num (z_de d') = z_num (z_de d) /\
    z_espera (z_de d') <= z_hueco /\ z_ligero (z_de d') = z_ligero (z_de d);
  z_in i d : i <> InRbr AS608_UART -> igual (z_de d) (z_de (snd (dev_in i d)));
  z_tx b d : oye z_cod z_demora b (z_de d) (z_de (dev_out (EvUartTx AS608_UART b) d));
  z_out e d : (forall b, e <> EvUartTx AS608_UART b) -> igual (z_de d) (z_de (dev_out e d))
}.

(** a loop that ends, with what it keeps *)
Lemma durp_bucle {E : Env} {V : Vivo} {X S R} (p : world -> X) c b (body : S -> M (S + R)) s
    (I : S -> X -> Prop) (Q : R -> X -> Prop) :
  Dur true b (loop body s) -> I s c ->
  (forall st c', I st c' -> exists b', durp p c' true b' (body st)
    (fun r c'' => match r with inl st' => I st' c'' | inr x => Q x c'' end)) ->
  durp p c true b (loop body s) Q.
Proof.
  intros [Hb Hd] HI Hbody. split; [done|]. intros w Hw <-. destruct (Hd w Hw) as (x & w' & Hx & Hw' & Ha).
  exists x, w'. do 3 (split; [done|]). unfold loop in Hx.
  refine (proj2 (loop_n_inv (fun s w => listo true w /\ I s (p w)) (fun x w => listo true w /\ Q x (p w)) _ _ _ _ _ _ _ _ _ Hx));
    [| |by split].
  - intros s1 w1 s2 w2 [Hl1 HI1] H. destruct (Hbody s1 _ HI1) as (b' & _ & H2).
    destruct (H2 w1 Hl1 eq_refl) as (r & w3 & Hr & Hl3 & _ & HQ). rewrite H in Hr. by injection Hr as <- <-.
  - intros s1 w1 y w2 [Hl1 HI1] H. destruct (Hbody s1 _ HI1) as (b' & _ & H2).
    destruct (H2 w1 Hl1 eq_refl) as (r & w3 & Hr & Hl3 & _ & HQ). rewrite H in Hr. by injection Hr as <- <-.
Qed.

Section Linea.
Context {E : Env} {V : Vivo} {D : Sensor}.

Definition sen (w : world) : sensor := z_de (device (hw w)).
(** what the sensor keeps while nobody uses its line *)
Definition enlace (w : world) : list Z * list Z * nat := (z_rec (sen w), z_cola (sen w), z_num (sen w)).
(** with its time *)
Definition linea (w : world) : sensor * Z := (sen w, tickCounter (hw w)).

Lemma igual_enlace w w' : igual (sen w) (sen w') -> enlace w' = enlace w.
Proof. unfold enlace. by intros (-> & -> & ->). Qed.

(** *** What leaves it as it was *)
Lemma enlace_inp i : i <> InRbr AS608_UART -> Keeps enlace (inp i).
Proof.
  intros Hi w a w' H. apply igual_enlace. unfold inp in H. pose proof (z_in i (device (hw w)) Hi) as Hz.
  destruct (dev_in i (device (hw w))) as [v d]. by injection H as _ <-.
Qed.
Lemma enlace_emit e : (forall b, e <> EvUartTx AS608_UART b) -> Keeps enlace (emit e).
Proof. intros He w a w' [= _ <-]. apply igual_enlace. by apply z_out. Qed.
#[global] Instance enlace_dibujo : Dibujo enlace.
Proof. split; [by intros g w a w' [= _ <-]|intros a d; by apply enlace_emit|by apply enlace_inp]. Qed.
#[global] Instance enlace_reloj : Reloj enlace.
Proof. split; [by apply enlace_inp|by intros t w a w' [= _ <-]]. Qed.

(** *** A look at the clock *)
Lemma durp_linea_tic z t {B} b (f : Z -> M B) Q :
  (forall z' v, t <= v <= t + v_salto -> (z_ligero z = true -> v <= t + z_vuelta) -> igual z z' ->
     z_ligero z' = true -> z_espera z' <= Z.max 0 (z_espera z - (v - t)) ->
     durp linea (z', v) true (b - v_salto) (f v) Q) ->
  0 <= b -> t + v_salto < 2 ^ 64 -> durp linea (z, t) true b (tickRead ≫= f) Q.
Proof.
  intros Hf Hb Ht. pose proof v_salto_rango. split; [done|]. intros w Hw [= Hz Htk].
  destruct (tickRead_mira w Hw) as (n & w' & H1 & H2 & H3 & H4 & Hn).
  pose proof Hw as (Hsys & Hr & _). rewrite Htk, u64_small in H4 by lia.
  assert (Hd : exists m, m = tickCounter (hw w') - t /\ igual z (sen w') /\ z_ligero (sen w') = true /\
    z_espera (sen w') <= Z.max 0 (z_espera z - m) /\ (z_ligero z = true -> m <= z_vuelta)).
  { pose proof (z_tic (device (hw w))) as Hz1. pose proof (v_tick (device (hw w))) as [Hv _].
    unfold tickRead, mbind, M_bind, inp in H1.
    destruct (dev_in InTick (device (hw w))) as [m d] eqn:Hdi. cbn in H1, Hv. rewrite Hsys in H1. cbn in H1.
    injection H1 as _ H1. subst w'. cbn in H4 |- *. fold (sen w) in Hz1. rewrite Hz in Hz1. unfold sen. cbn.
    rewrite iter_ticker, Z2Nat.id, Htk, u64_small in H4 |- * by lia. exists m. split; [lia|]. done. }
  destruct Hd as (m & Hm & Hig & Hli & Hes & Hvu).
  destruct (Hf (sen w') (t + n)) as [_ Hx]; [lia|intros Hl; specialize (Hvu Hl); lia|done|done| |].
  { rewrite H4 in Hm. by replace (t + n - t) with m by lia. }
  destruct (Hx w' H2) as (x & w2 & H5 & H6 & H7 & H8); [unfold linea; by rewrite H4|].
  exists x, w2. split; [apply bind_Ret; rewrite H4 in H1; eauto|]. split; [done|]. split; [|exact H8].
  replace b with (v_salto + (b - v_salto)) by lia. eapply avanza_trans; [|exact H7].
  exists n. split; [done|]. split; [rewrite H4, u64_small by lia; congruence|intros H0; specialize (Hn H0); lia].
Qed.

(** *** A byte *)
Definition leido_byte (z : sensor) (o : option Z) (z' : sensor) : Prop :=
  z_rec z' = z_rec z /\ z_num z' = z_num z /\ z_ligero z' = z_ligero z /\
  match o with
  | None => z_cola z' = z_cola z /\ z_espera z' <= z_espera z /\ (z_cola z <> [] -> 0 < z_espera z)
  | Some b => z_cola z = b :: z_cola z' /\ z_espera z' <= z_hueco
  end.

Lemma uartReadByte_sensor w o w' : uartReadByte AS608_UART w = Ret o w' ->
  leido_byte (sen w) o (sen w') /\ tickCounter (hw w') = tickCounter (hw w).
Proof.
  unfold uartReadByte, uartRxReady. intros H. unfold mbind, M_bind, inp in H.
  pose proof (z_lsr (device (hw w))) as Hz. fold (sen w) in Hz.
  destruct (dev_in (InLsr AS608_UART) (device (hw w))) as [v d]. destruct Hz as ((I1 & I2 & I3) & Hli & Hes & Hr1 & Hr2).
  cbn in H. destruct (Z.eqb_spec (Z.land v UART_LSR_RDR) 0) as [He|Hne]; cbn in H.
  - injection H as <- <-. split; [|done]. unfold leido_byte. set (z' := sen _).
    change z' with (z_de d). do 3 (split; [done|]). split; [done|]. split; [done|]. intros Hc.
    destruct (Z.lt_ge_cases 0 (z_espera (sen w))); [done|]. by destruct (Hr2 Hc).
  - specialize (Hr1 Hne). destruct (z_cola (sen w)) as [|b r] eqn:Hc; [done|].
    pose proof (z_rbr d b r I2) as Hz. unfold uartRxRead, mbind, M_bind, inp in H. cbn in H.
    destruct (dev_in (InRbr AS608_UART) d) as [v2 d2]. destruct Hz as (Hb & J1 & J2 & J3 & J4 & J5).
    cbn in H. injection H as <- <-. split; [|done]. unfold leido_byte. set (z' := sen _). change z' with (z_de d2).
    rewrite Hc, Hb, J2. repeat split; congruence || done.
Qed.

Lemma durp_linea_byte z t b {B} (f : option Z -> M B) Q :
  (forall o z', leido_byte z o z' -> durp linea (z', t) true b (f o) Q) -> 0 <= b ->
  durp linea (z, t) true b (uartReadByte AS608_UART ≫= f) Q.
Proof.
  intros Hf Hb. replace b with (0 + (b - 0)) by lia.
  eapply (durp_bind _ _ _ _ 0 _ _ (fun o x => leido_byte z o x.1 /\ x.2 = t)); [| |lia].
  - apply durp_tri; [apply _|]. intros w o w' [= Hz Ht] H. destruct (uartReadByte_sensor _ _ _ H) as [H1 H2].
    cbn. rewrite Hz in H1. by rewrite H2.
  - intros o [z' t'] [H1 H2]. cbn in H2. subst t'. replace (0 + (b - 0) - 0) with b by lia. by apply Hf.
Qed.

(** *** An answer *)

(** in the middle of an answer [R] that began to be waited for at [start]: the next byte is
    there at [A] *)
Definition a_tiempo (start ms last : Z) (buf : list Z) (z : sensor) (t : Z) : Prop :=
  exists A, t <= A + z_vuelta /\ (z_espera z <= 0 \/ t + z_espera z <= A) /\ (buf <> [] -> A <= last + z_hueco) /\
    A + 2 * z_vuelta + (Z.of_nat (length (z_cola z)) - 1) * (2 * z_vuelta + z_hueco) < start + ms.
Definition recibiendo (R : list Z) (z0 : sensor) (start ms : Z) (s : list Z * Z) (x : sensor * Z) : Prop :=
  let '(buf, last) := s in let '(z, t) := x in
  z_rec z = z_rec z0 /\ z_num z = z_num z0 /\ z_ligero z = true /\ R = buf ++ z_cola z /\
  start <= t <= start + ms + v_salto /\ 0 <= last <= t /\ (z_cola z <> [] -> a_tiempo start ms last buf z t).

Lemma a_tiempo_tic start ms last buf z t z' t' :
  a_tiempo start ms last buf z t -> t <= t' <= t + z_vuelta -> z_cola z' = z_cola z ->
  z_espera z' <= Z.max 0 (z_espera z - (t' - t)) ->
  exists A, t' <= A + 2 * z_vuelta /\ (z_espera z' <= 0 \/ t' + z_espera z' <= A) /\ (buf <> [] -> A <= last + z_hueco) /\
    A + 2 * z_vuelta + (Z.of_nat (length (z_cola z')) - 1) * (2 * z_vuelta + z_hueco) < start + ms.
Proof. intros (A & H1 & H2 & H3 & H4) Ht Hc He. exists A. rewrite Hc. split; [lia|]. split; [lia|done]. Qed.

Definition recibe_paso (start ms : Z) (s : list Z * Z) : M (list Z * Z + list Z) :=
  let '(buf, lastByte) := s in
  t ← tickRead;
  if u64 (t - start) <? ms then
    b ← uartReadByte AS608_UART;
    match b with
    | Some b =>
        if Z.of_nat (length buf) <? 32 then t ← tickRead; mret (inl (buf ++ [b], u32 t)) else mret (inr buf)
    | None =>
        idle ← (if 0 <? Z.of_nat (length buf) then t ← tickRead; mret (30 <? u64 (t - lastByte)) else mret false);
        mret (if idle : bool then inr buf else inl (buf, lastByte))
    end
  else mret (inr buf).

Lemma recibe_paso_ok R z0 start ms s x :
  length R = 12%nat -> 0 <= start -> start + ms + 3 * v_salto < 2 ^ 31 -> recibiendo R z0 start ms s x ->
  durp linea x true (2 * v_salto) (recibe_paso start ms s) (fun r x' =>
    match r with
    | inl s' => recibiendo R z0 start ms s' x'
    | inr buf => buf = R /\ z_rec x'.1 = z_rec z0 /\ z_cola x'.1 = [] /\ z_num x'.1 = z_num z0
    end).
Proof.
  intros HR Hst Hms. destruct s as [buf last], x as [z t]. intros (Hrec & Hnum & Hlig & HRb & Ht & Hla & Hat).
  pose proof v_salto_rango. pose proof z_rangos as (G1 & G2 & G3 & G4 & G5). cbn [recibe_paso].
  apply durp_linea_tic; [intros z1 t1 Ht1 Hlim (I1 & I2 & I3) Hlig1 Hes|lia|lia]. specialize (Hlim Hlig).
  assert (Hat1 : z_cola z1 <> [] -> _) by (intros Hc; rewrite I2 in Hc;
    exact (a_tiempo_tic _ _ _ _ _ _ _ _ (Hat Hc) (conj (proj1 Ht1) Hlim) I2 Hes)).
  rewrite u64_small by lia. clear Hat Hes.
  assert (Hfin : z_cola z1 = [] -> buf = R /\ z_rec z1 = z_rec z0 /\ z_cola z1 = [] /\ z_num z1 = z_num z0).
  { intros Hc. rewrite I2 in Hc. rewrite HRb, Hc, app_nil_r. repeat split; congruence. }
  destruct (Z.ltb_spec (t1 - start) ms) as [Hlt|Hge].
  2: { apply durp_ret; [lia|]. apply Hfin. destruct (z_cola z1) as [|b r] eqn:Hc; [done|].
       destruct Hat1 as (A & A1 & A2 & A3 & A4); [done|]. cbn [length] in A4. nia. }
  apply durp_linea_byte; [intros o z2 (J1 & J2 & J3 & J4)|lia].
  assert (Hlen : Z.of_nat (length buf) + Z.of_nat (length (z_cola z1)) = 12).
  { rewrite I2, <- Nat2Z.inj_add, <- length_app, <- HRb, HR. done. }
  destruct o as [b|].
  - destruct J4 as [J4 J5]. destruct Hat1 as (A & A1 & A2 & A3 & A4); [by rewrite J4|].
    rewrite (proj2 (Z.ltb_lt _ _)) by lia.
    apply durp_linea_tic; [intros z3 t3 Ht3 Hlim3 (K1 & K2 & K3) Hlig3 Hes3|lia|lia]. specialize (Hlim3 ltac:(congruence)).
    apply durp_ret; [lia|]. rewrite u32_small by lia. rewrite J4 in A4. cbn [length] in A4.
    split; [congruence|]. split; [congruence|]. split; [done|]. split.
    { by rewrite HRb, <- I2, J4, K2, <- app_assoc. }
    split; [lia|]. split; [lia|]. intros _. exists (t1 + z_hueco). rewrite K2.
    split; [lia|]. split; [lia|]. split; [intros _; lia|]. nia.
  - destruct J4 as (J4 & J5 & J6).
    destruct (Z.ltb_spec 0 (Z.of_nat (length buf))) as [Hb|Hb].
    + apply durp_assoc.
      apply durp_linea_tic; [intros z3 t3 Ht3 Hlim3 (K1 & K2 & K3) Hlig3 Hes3|lia|lia]. specialize (Hlim3 ltac:(congruence)).
      apply durp_ret_bind, durp_ret; [lia|]. rewrite u64_small by lia.
      destruct (z_cola z1) as [|b r] eqn:Hc.
      * destruct (30 <? t3 - last); [cbn; rewrite K1, K2, K3, J1, J2, J4; by apply Hfin|].
        split; [congruence|]. split; [congruence|]. split; [done|]. split; [congruence|]. split; [lia|]. split; [lia|].
        intros Hx. exfalso. apply Hx. congruence.
      * destruct Hat1 as (A & A1 & A2 & A3 & A4); [done|]. specialize (J6 ltac:(done)).
        specialize (A3 ltac:(by intros ->)). rewrite (proj2 (Z.ltb_ge _ _)) by lia.
        split; [congruence|]. split; [congruence|]. split; [done|]. split; [congruence|]. split; [lia|]. split; [lia|].
        intros _. exists A. rewrite K2, J4. split; [lia|]. split; [lia|]. split; [done|done].
    + apply durp_ret_bind, durp_ret; [lia|].
      split; [congruence|]. split; [congruence|]. split; [congruence|]. split; [congruence|]. split; [lia|]. split; [lia|].
      rewrite J4. intros Hc. destruct (Hat1 Hc) as (A & A1 & A2 & A3 & A4). specialize (J6 Hc).
      exists A. rewrite J4. split; [lia|]. split; [lia|]. done.
Qed.

Lemma durp_recibe z t ms :
  length (z_cola z) = 12%nat -> z_ligero z = true -> z_espera z <= z_demora -> Plazo ms -> 200 <= ms ->
  0 <= t -> t + ms + 4 * v_salto < 2 ^ 31 ->
  durp linea (z, t) true (ms + 4 * v_salto) (as608Recv 32 ms) (fun buf x =>
    buf = z_cola z /\ z_rec x.1 = z_rec z /\ z_cola x.1 = [] /\ z_num x.1 = z_num z).
Proof.
  intros HR Hlig Hes Hpl Hms Ht0 Ht. pose proof v_salto_rango. unfold Plazo in Hpl. unfold as608Recv.
  pose proof z_rangos as (G1 & G2 & G3 & G4 & G5).
  apply durp_linea_tic; [intros z1 t1 Ht1 Hlim (I1 & I2 & I3) Hlig1 Hes1|lia|lia]. specialize (Hlim Hlig).
  cbv zeta. rewrite u32_small by lia.
  apply (durp_bucle _ _ _ _ _ (recibiendo (z_cola z) z t1 ms)).
  - dur_loop t1 ms v_salto. dur_run.
  - cbn. split; [done|]. split; [done|]. split; [done|]. split; [done|]. split; [lia|]. split; [lia|]. intros _.
    exists (t + z_demora). rewrite I2, HR. split; [lia|]. split; [lia|]. split; [done|lia].
  - intros [buf last] x HI. exists (2 * v_salto). apply (recibe_paso_ok _ _ _ _ (buf, last)); [done|lia|lia|done].
Qed.

(** *** What is sent *)
Lemma tri_sen_tic c : tri sen c tickRead (fun _ c' => igual c c' /\ z_ligero c' = true).
Proof.
  intros w a w' <- H. unfold tickRead in H. apply bind_Ret in H as (n & w1 & Hn & H).
  assert (H1 : igual (sen w) (sen w1) /\ z_ligero (sen w1) = true).
  { unfold inp in Hn. pose proof (z_tic (device (hw w))) as Hz. destruct (dev_in _ _). injection Hn as _ <-.
    destruct Hz as (Hz1 & Hz2 & _). split; [exact Hz1|exact Hz2]. }
  assert (H2 : sen w' = sen w1); [|by rewrite H2].
  apply bind_Ret in H as (b & w2 & [= <- <-] & H). apply bind_Ret in H as (t & w3 & [= <- <-] & H).
  apply bind_Ret in H as (u & w4 & H3 & [= _ <-]). destruct (systick _); cbn in H3.
  - by injection H3 as _ <-.
  - by injection H3 as _ <-.
Qed.
Lemma tri_sen_lsr c : tri sen c (inp (InLsr AS608_UART)) (fun _ c' => igual c c' /\ z_ligero c' = z_ligero c).
Proof.
  intros w v w' <- H. unfold inp in H. pose proof (z_lsr (device (hw w))) as Hz. destruct (dev_in _ _).
  injection H as _ <-. destruct Hz as (Hz1 & Hz2 & _). split; [exact Hz1|exact Hz2].
Qed.
Lemma igual_trans a b c : igual a b -> igual b c -> igual a c.
Proof. unfold igual. intuition congruence. Qed.
Lemma igual_refl a : igual a a.
Proof. done. Qed.

Lemma tri_sen_flush c ms : z_cola c = [] ->
  tri sen c (as608FlushRx ms) (fun _ c' => igual c c' /\ z_ligero c' = true).
Proof.
  intros Hc. unfold as608FlushRx. apply tri_bind. eapply tri_conseq; [apply tri_sen_tic|]. intros v c1 [H1 _].
  apply (tri_loop _ (fun _ c1 => igual c c1)); [done|]. intros [] c2 H2. apply tri_bind.
  eapply tri_conseq; [apply tri_sen_tic|]. intros t c3 [H3 Hl]. pose proof (igual_trans _ _ _ H2 H3) as H4.
  destruct (_ <? ms); [|by apply tri_ret]. apply tri_bind. intros w o w' Hw Ho.
  destruct (uartReadByte_sensor _ _ _ Ho) as [(J1 & J2 & J3 & J4) _]. rewrite Hw in *.
  apply tri_ret. destruct o as [b|].
  - destruct J4 as [J4 _]. destruct H4 as (_ & H4 & _). congruence.
  - destruct J4 as [J4 _]. eapply igual_trans; [exact H4|]. done.
Qed.

Lemma tri_sen_byte c b : tri sen c (uartWriteByte AS608_UART b) (fun _ c' =>
  exists c1, igual c c1 /\ z_ligero c1 = z_ligero c /\ oye z_cod z_demora b c1 c').
Proof.
  unfold uartWriteByte. apply tri_bind.
  apply (tri_loop _ (fun _ c1 => igual c c1 /\ z_ligero c1 = z_ligero c)); [done|].
  - intros [] c1 [H1 H2]. unfold uartTxReady. do 2 apply tri_bind. eapply tri_conseq; [apply tri_sen_lsr|].
    intros v c2 [H3 H4]. apply tri_ret. apply tri_ret. destruct (negb _).
    + intros w a w' <- [= _ <-]. exists (sen w). split; [by eapply igual_trans|]. split; [congruence|]. apply z_tx.
    + split; [by eapply igual_trans|congruence].
Qed.

(** a packet cut short is not a packet *)
Lemma recibir_prefijo ty payload pre x resto :
  (length payload <= 256)%nat -> as608Frame ty payload = pre ++ x :: resto -> recibir pre = None.
Proof.
  intros Hlen Hf. unfold as608Frame in Hf. cbv zeta in Hf. unfold as608Header in Hf. cbv zeta in Hf.
  set (len := u16 (Z.of_nat (length payload) + 2)) in *.
  assert (Hl : len = Z.of_nat (length payload) + 2) by (unfold len; rewrite u16_small; lia).
  destruct (hi_lo len) as (_ & _ & Hhl); [lia|].
  do 9 (destruct pre as [|? pre]; [done|]). cbn [app] in Hf.
  injection Hf as <- <- <- <- <- <- <- <- <- Hf. cbn [recibir]. rewrite Hhl. cbn [Z.eqb Pos.eqb negb andb].
  assert (Hlp : (length pre < length payload + 2)%nat).
  { apply (f_equal length) in Hf. rewrite !length_app in Hf. cbn [length] in Hf. lia. }
  rewrite (proj2 (Z.eqb_neq _ _)) by lia. done.
Qed.

Lemma tri_sen_envia payload : forall rest pre c,
  (length payload <= 256)%nat -> Forall es_byte payload -> as608Frame 1 payload = pre ++ rest -> rest <> [] ->
  z_rec c = pre -> z_cola c = [] ->
  tri sen c (for_each rest (uartWriteByte AS608_UART)) (fun _ c' =>
    z_rec c' = [] /\ z_cola c' = as608Frame 7 [z_cod (z_num c) payload] /\ z_num c' = S (z_num c) /\
    z_espera c' <= z_demora /\ z_ligero c' = z_ligero c).
Proof.
  induction rest as [|b rest IH]; intros pre c Hlen Hby Hf Hne Hpre Hc; [done|]. cbn [for_each]. apply tri_bind.
  eapply tri_conseq; [apply tri_sen_byte|]. intros _ c' (c1 & (I1 & I2 & I3) & Il & Hl & Ho).
  rewrite I1, I2, I3, Hpre, Hc in Ho. destruct rest as [|b' rest].
  - rewrite <- Hf in Ho. destruct (trama_recibida 1 payload) as [Hr _]; [done..|]. rewrite Hr in Ho.
    cbn [Z.eqb Pos.eqb app] in Ho. apply tri_ret. destruct Ho as (O1 & O2 & O3 & O4). repeat split; congruence || done.
  - rewrite (recibir_prefijo 1 payload (pre ++ [b]) b' rest) in Ho; [|done|by rewrite Hf, <- app_assoc].
    destruct Ho as (O1 & O2 & O3). eapply tri_conseq; [apply (IH (pre ++ [b])); [done|done|by rewrite Hf, <- app_assoc|done|done|done]|].
    intros _ c2 (Q1 & Q2 & Q3 & Q4 & Q5). rewrite O3 in *. repeat split; congruence || done.
Qed.

(** the time that has passed at the end *)
Lemma durp_tiempo {X} (p : world -> X) c t s b {A} (m : M A) Q :
  t + b < 2 ^ 64 -> durp (con_reloj p) (c, t) s b m Q ->
  durp (con_reloj p) (c, t) s b m (fun a x => Q a x /\ t <= x.2 <= t + b).
Proof.
  intros Ht [Hb H]. split; [done|]. intros w Hw Hc. destruct (H w Hw Hc) as (a & w' & H1 & H2 & H3 & H4).
  exists a, w'. do 4 (split; [done|]). injection Hc as _ <-. destruct Hw as (_ & Hr & _). apply avanza_reloj; [done|lia|done].
Qed.

(** *** A command *)
Lemma largo_ack c : length (as608Frame 7 [c]) = 12%nat.
Proof. done. Qed.

Lemma durp_orden_linea z n t instr extra ms fl :
  Forall es_byte (instr :: take 7 extra) -> Plazo ms -> 200 <= ms -> Plazo fl ->
  z_rec z = [] -> z_cola z = [] -> z_num z = n ->
  0 <= t -> t + (ms + fl + 7 * v_salto) < 2 ^ 31 ->
  durp linea (z, t) true (ms + fl + 7 * v_salto)
    (as608FlushRx fl ;; as608WritePacket 1 (instr :: take 7 extra) ;; as608GetAck 32 ms) (fun r x =>
    r = z_cod n (instr :: take 7 extra) /\ z_rec x.1 = [] /\ z_cola x.1 = [] /\ z_num x.1 = S n).
Proof.
  intros Hby Hms Hms2 Hfl Hr Hc Hn Ht0 Ht. pose proof v_salto_rango. pose proof Hms as Hms'. pose proof Hfl as Hfl'.
  unfold Plazo in Hms', Hfl'. change linea with (con_reloj sen).
  eapply (durp_reloj sen); [apply durp_tri; [apply _|by apply tri_sen_flush]|intros _ z1 t1 [(I1 & I2 & I3) Il] Ht1|lia|lia].
  assert (Hlen : (length (instr :: take 7 extra) <= 256)%nat) by (cbn [length]; rewrite length_take; lia).
  assert (Hcod : es_byte (z_cod n (instr :: take 7 extra))) by apply z_cod_byte.
  set (payload := instr :: take 7 extra) in *.
  eapply (durp_reloj sen z1 t1 _ _ 0).
  { apply durp_tri; [by apply as608WritePacket_dur|]. unfold as608WritePacket.
    rewrite (proj2 (Nat.ltb_ge _ _)) by done. apply (tri_sen_envia payload _ []); [done|done|done|done|congruence|congruence]. }
  2, 3: lia.
  intros _ z2 t2 (J1 & J2 & J3 & J4 & J5) Ht2. unfold as608GetAck. change (con_reloj sen) with linea.
  eapply durp_bind; [apply durp_recibe; [by rewrite J2, largo_ack|congruence|done|done|done|lia|lia]| |lia].
  intros buf [z3 t3] (-> & K1 & K2 & K3). cbn [fst] in *. apply durp_ret; [lia|].
  rewrite J2. replace (z_num z1) with n by congruence.
  destruct (ack_de_trama (z_cod n payload) [] Hcod (Forall_nil_2 _)) as [Hack _]; [cbn; lia|].
  split; [exact Hack|]. cbn [fst]. repeat split; congruence.
Qed.

Lemma durp_orden n t instr extra ms pre fl :
  Forall es_byte (instr :: take 7 extra) -> Plazo ms -> 200 <= ms -> Plazo pre -> Plazo fl ->
  0 <= t -> t + (ms + pre + fl + 10 * v_salto) < 2 ^ 31 ->
  durp (con_reloj enlace) (([], [], n), t) true (ms + pre + fl + 10 * v_salto) (as608CmdAck instr extra ms pre fl)
    (fun r x => r = z_cod n (instr :: take 7 extra) /\ x.1 = ([], [], S n)).
Proof.
  intros Hby Hms Hms2 Hpre Hfl Ht0 Ht. pose proof v_salto_rango. pose proof Hms as Hms'. pose proof Hfl as Hfl'.
  pose proof Hpre as Hpre'. unfold Plazo in Hms', Hfl', Hpre'. unfold as608CmdAck. cbv zeta.
  assert (Hrest : forall t' b, t <= t' <= t + (pre + 3 * v_salto) -> ms + fl + 7 * v_salto <= b ->
    durp (con_reloj enlace) (([], [], n), t') true b
      (as608FlushRx fl ;; as608WritePacket 1 (instr :: take 7 extra) ;; as608GetAck 32 ms)
      (fun r x => r = z_cod n (instr :: take 7 extra) /\ x.1 = ([], [], S n))).
  { intros t' b Ht' Hb. eapply (durp_otra _ linea); [lia| |].
    - intros w [= Hr Hc Hn Htk]. unfold linea. rewrite Htk.
      eapply durp_conseq; [apply (durp_orden_linea (sen w) n); try done; lia|lia|]. intros a c' Hq. exact Hq.
    - intros w a w' _ _ (Hr & H1 & H2 & H3). cbn in *. split; [exact Hr|]. unfold enlace. congruence. }
  destruct (negb (pre =? 0)); cbn [when].
  - eapply durp_pasa; [apply _|apply _|intros _ t1 Ht1; apply Hrest; lia|lia|lia].
  - apply durp_ret_bind. apply Hrest; lia.
Qed.

(** a flush and a pause *)
Lemma durp_pausa n t a b {B} c (f : unit -> M B) Q :
  Plazo a -> Plazo b ->
  (forall t', t <= t' <= t + (a + b + 6 * v_salto) ->
     durp (con_reloj enlace) (([], [], n), t') true (c - (a + b + 6 * v_salto)) (f tt) Q) ->
  0 <= c -> t + (a + b + 6 * v_salto) < 2 ^ 64 ->
  durp (con_reloj enlace) (([], [], n), t) true c (as608FlushAndDelay a b ≫= f) Q.
Proof.
  intros Ha Hb Hf Hc Ht. eapply (durp_reloj _ _ _ _ _ _ _ _ (fun _ x => x = ([], [], n)));
    [|intros [] x t' -> Ht'; apply (Hf t' Ht')|done|done].
  apply durp_tri; [apply _|]. unfold as608FlushAndDelay. apply tri_bind.
  intros w [] w' Hw H. pose proof Hw as [= Hr Hcl Hn].
  destruct (tri_sen_flush (sen w) a Hcl w tt w' eq_refl H) as [Hig _]. rewrite (igual_enlace _ _ Hig), Hw.
  apply tri_when; [intros _|done]. by apply tri_keep; [apply _|].
Qed.

(** ** The enrolment *)

(** at most [N] looks for a finger from command [n] on: the first that finds one, and its
    image, good for the buffer [slot]; the command that comes next *)
Fixpoint captura (cod : nat -> list Z -> Z) (slot : Z) (N n : nat) : option nat :=
  match N with
  | O => None
  | S N =>
      if cod n [1] =? 0 then if cod (S n) [2; slot] =? 0 then Some (S (S n)) else None
      else captura cod slot N (S n)
  end.
(** two images, a model of them and its place; with [N] looks for each *)
Definition inscribe (cod : nat -> list Z -> Z) (N : nat) (id : Z) (n : nat) : option nat :=
  n1 ← captura cod 1 N n;
  n2 ← captura cod 2 N n1;
  if (cod n2 [5] =? 0) && (cod (S n2) [6; 1; u8 (Z.shiftr id 8); u8 (Z.land id 255)] =? 0)
  then Some (S (S n2)) else None.

(** from one look for the finger to the next *)
Definition MIRADA_MS : Z := 600 + 30 * v_salto.
Definition buscando (slot : Z) (n' : nat) (start : Z) (last : Z) (x : list Z * list Z * nat * Z) : Prop :=
  exists N n P, x.1 = ([], [], n) /\ captura z_cod slot N n = Some n' /\ 0 <= last <= x.2 /\ start <= x.2 <= P /\
    last + 310 + 6 * v_salto <= P /\ P + Z.of_nat N * MIRADA_MS < start + 30000.

Definition captura_paso (slot start lastAttempt : Z) : M (Z + bool) :=
  t ← tickRead;
  if u64 (t - start) <? 30000 then
    t ← tickRead;
    if u64 (t - lastAttempt) <? AS608_ENROLL_ATTEMPT_INTERVAL_MS then delay 10 ;; mret (inl lastAttempt)
    else
      t ← tickRead;
      let lastAttempt := u32 t in
      as608FlushAndDelay 10 50 ;;
      r ← as608CmdGetImageLong;
      if r =? 0 then
        as608FlushAndDelay 20 200 ;;
        tz ← as608CmdImage2Tz slot;
        mret (inr (tz =? 0))
      else if r =? 2 then delay AS608_ENROLL_NOFINGER_DELAY_MS ;; mret (inl lastAttempt)
      else delay AS608_ENROLL_ERROR_DELAY_MS ;; mret (inl lastAttempt)
  else mret (inr false).

(** an order, then the rest *)
Lemma durp_orden_bind n t instr extra ms pre fl {B} b (f : Z -> M B) Q :
  Forall es_byte (instr :: take 7 extra) -> Plazo ms -> 200 <= ms -> Plazo pre -> Plazo fl ->
  0 <= t -> t + (ms + pre + fl + 10 * v_salto) < 2 ^ 31 -> 0 <= b ->
  (forall t', t <= t' <= t + (ms + pre + fl + 10 * v_salto) ->
     durp (con_reloj enlace) (([], [], S n), t') true (b - (ms + pre + fl + 10 * v_salto))
       (f (z_cod n (instr :: take 7 extra))) Q) ->
  durp (con_reloj enlace) (([], [], n), t) true b (as608CmdAck instr extra ms pre fl ≫= f) Q.
Proof.
  intros Hby Hms Hms2 Hpre Hfl Ht0 Ht Hb Hf. eapply durp_bind; [| |done].
  - apply (durp_tiempo _ _ _ _ (ms + pre + fl + 10 * v_salto)); [lia|by apply (durp_orden n)].
  - cbv beta. intros r [x t'] [[-> Hx] Ht']. cbn in Hx, Ht'. subst x. by apply Hf.
Qed.

Lemma captura_paso_ok slot n' start last x :
  es_byte slot -> 0 <= start -> start + 40000 + 60 * v_salto < 2 ^ 31 -> buscando slot n' start last x ->
  durp (con_reloj enlace) x true (1200 + 45 * v_salto) (captura_paso slot start last) (fun r x' =>
    match r with inl last' => buscando slot n' start last' x' | inr ok => ok = true /\ x'.1 = ([], [], n') end).
Proof.
  intros Hslot Hst Hmax (N & n & P & Hx & Hcap & Hla & Hs & HP & HN). destruct x as [c t]. cbn in Hx, Hla, Hs. subst c.
  pose proof v_salto_rango. unfold MIRADA_MS in HN. unfold captura_paso.
  destruct N as [|N]; [done|]. rewrite Nat2Z.inj_succ in HN.
  assert (HN0 : 0 <= Z.of_nat N * (600 + 30 * v_salto)) by nia.
  apply durp_tic; [apply _|intros t1 Ht1|lia|lia]. rewrite u64_small, (proj2 (Z.ltb_lt _ _)) by lia.
  apply durp_tic; [apply _|intros t2 Ht2|lia|lia]. rewrite u64_small by lia. unfold AS608_ENROLL_ATTEMPT_INTERVAL_MS.
  destruct (Z.ltb_spec (t2 - last) 300) as [Hw|Hw].
  { eapply durp_pasa; [apply _|apply _|intros _ t3 Ht3|lia|lia]. apply durp_ret; [lia|].
    exists (S N), n, P. cbn [fst snd]. split; [done|]. split; [done|]. split; [lia|]. split; [lia|]. split; [lia|].
    rewrite Nat2Z.inj_succ. unfold MIRADA_MS. lia. }
  apply durp_tic; [apply _|intros t3 Ht3|lia|lia]. rewrite u32_small by lia.
  apply durp_pausa; [apply _|apply _|intros t4 Ht4|lia|lia].
  unfold as608CmdGetImageLong, AS608_GETIMAGE_LONG_TIMEOUT_MS, AS608_DELAY_BEFORE_SEND_MS, AS608_FLUSH_MS_SHORT.
  apply durp_orden_bind; [by apply Forall_singleton|apply _|lia|apply _|apply _|lia|lia|lia|intros t5 Ht5]. cbn [take]. cbn [captura] in Hcap.
  assert (Hotra : forall b t6, captura z_cod slot N (S n) = Some n' -> t5 <= t6 <= t5 + (300 + 3 * v_salto) -> 0 <= b ->
    durp (con_reloj enlace) (([], [], S n), t6) true b (mret (inl t3)) (fun r x' =>
      match r with inl last' => buscando slot n' start last' x' | inr ok => ok = true /\ x'.1 = ([], [], n') end)).
  { intros b t6 Hc Ht6 Hb. apply durp_ret; [done|]. exists N, (S n), (P + (600 + 30 * v_salto)). cbn [fst snd].
    split; [done|]. split; [done|]. split; [lia|]. split; [lia|]. split; [lia|]. unfold MIRADA_MS. lia. }
  destruct (Z.eqb_spec (z_cod n [1]) 0) as [Hz|Hz].
  - apply durp_pausa; [apply _|apply _|intros t6 Ht6|lia|lia].
    unfold as608CmdImage2Tz, AS608_IMAGE2TZ_TIMEOUT_MS, AS608_IMAGE2TZ_PRE_DELAY_MS, AS608_FLUSH_MS_SHORT.
    apply durp_orden_bind; [by apply Forall_cons; split; [|apply Forall_singleton]|apply _|lia|apply _|apply _|lia|lia|lia|intros t7 Ht7]. cbn [take].
    apply durp_ret; [lia|]. destruct (_ =? 0); [|done]. by injection Hcap as ->.
  - destruct (_ =? 2); unfold AS608_ENROLL_NOFINGER_DELAY_MS, AS608_ENROLL_ERROR_DELAY_MS;
      (eapply durp_pasa; [apply _|apply _|intros _ t6 Ht6; apply Hotra; [exact Hcap|lia|lia]|lia|lia]).
Qed.

Lemma durp_captura N n n' t slot :
  es_byte slot -> captura z_cod slot N n = Some n' -> 310 + 8 * v_salto + Z.of_nat N * MIRADA_MS < 30000 ->
  0 <= t -> t + 72000 + 150 * v_salto < 2 ^ 31 ->
  durp (con_reloj enlace) (([], [], n), t) true (32000 + 50 * v_salto) (as608EnrollCapture slot) (fun r x =>
    r = true /\ x.1 = ([], [], n')).
Proof.
  intros Hslot Hcap HN Ht0 Ht. pose proof v_salto_rango. unfold as608EnrollCapture.
  apply durp_pausa; [apply _|apply _|intros t1 Ht1|lia|lia].
  apply durp_tic; [apply _|intros t2 Ht2|lia|lia]. cbv zeta. rewrite u32_small by lia.
  apply (durp_bucle _ _ _ _ _ (buscando slot n' t2)).
  - unfold as608CmdGetImageLong, as608CmdImage2Tz,
      AS608_ENROLL_ATTEMPT_INTERVAL_MS, AS608_ENROLL_NOFINGER_DELAY_MS,
      AS608_ENROLL_ERROR_DELAY_MS, AS608_GETIMAGE_LONG_TIMEOUT_MS, AS608_DELAY_BEFORE_SEND_MS,
      AS608_FLUSH_MS_SHORT, AS608_IMAGE2TZ_TIMEOUT_MS, AS608_IMAGE2TZ_PRE_DELAY_MS.
    dur_loop t2 30000 (1200 + 40 * v_salto). dur_run.
  - exists N, n, (t2 + 310 + 6 * v_salto). cbn [fst snd]. split; [done|]. split; [done|]. split; [lia|].
    split; [lia|]. split; [lia|lia].
  - intros last x HI. exists (1200 + 45 * v_salto). apply captura_paso_ok; [done|lia|lia|done].
Qed.

Lemma durp_flush n t a {B} c (f : unit -> M B) Q :
  Plazo a ->
  (forall t', t <= t' <= t + (a + 3 * v_salto) ->
     durp (con_reloj enlace) (([], [], n), t') true (c - (a + 3 * v_salto)) (f tt) Q) ->
  0 <= c -> t + (a + 3 * v_salto) < 2 ^ 64 ->
  durp (con_reloj enlace) (([], [], n), t) true c (as608FlushRx a ≫= f) Q.
Proof.
  intros Ha Hf Hc Ht. eapply (durp_reloj _ _ _ _ _ _ _ _ (fun _ x => x = ([], [], n)));
    [|intros [] x t' -> Ht'; apply (Hf t' Ht')|done|done].
  apply durp_tri; [apply _|]. intros w [] w' Hw H. pose proof Hw as [= Hr Hcl Hn].
  destruct (tri_sen_flush (sen w) a Hcl w tt w' eq_refl H) as [Hig _]. by rewrite (igual_enlace _ _ Hig).
Qed.
Lemma durp_captura_bind N n n' t slot {B} b (f : bool -> M B) Q :
  es_byte slot -> captura z_cod slot N n = Some n' -> 310 + 8 * v_salto + Z.of_nat N * MIRADA_MS < 30000 ->
  0 <= t -> t + 72000 + 150 * v_salto < 2 ^ 31 -> 0 <= b ->
  (forall t', t <= t' <= t + (32000 + 50 * v_salto) ->
     durp (con_reloj enlace) (([], [], n'), t') true (b - (32000 + 50 * v_salto)) (f true) Q) ->
  durp (con_reloj enlace) (([], [], n), t) true b (as608EnrollCapture slot ≫= f) Q.
Proof.
  intros Hs Hc HN Ht0 Ht Hb Hf. pose proof v_salto_rango. eapply durp_bind; [| |done].
  - apply (durp_tiempo _ _ _ _ (32000 + 50 * v_salto)); [lia|by apply (durp_captura N n n')].
  - cbv beta. intros r [x t'] [[-> Hx] Ht']. cbn in Hx, Ht'. subst x. by apply Hf.
Qed.
End Linea.

(** a step that the sensor does not see *)
Ltac enlace_paso := eapply durp_pasa; [solve [apply _]|solve [apply _]|intros|lia|lia].

Section Inscripcion.
Context {E : Env} {V : Vivo} {D : Sensor}.

Lemma durp_inscribe N n n' id t :
  0 <= id <= 163 -> inscribe z_cod N id n = Some n' -> 310 + 8 * v_salto + Z.of_nat N * MIRADA_MS < 30000 ->
  0 <= t -> t + 150000 + 350 * v_salto < 2 ^ 31 ->
  durp (con_reloj enlace) (([], [], n), t) true (71000 + 150 * v_salto) (as608EnrollAtId id) (fun r _ =>
    r = (true, snprintf 5 (fmt_0 4 id))).
Proof.
  intros Hid Hin HN Ht0 Ht. pose proof v_salto_rango. unfold inscribe in Hin.
  destruct (captura z_cod 1 N n) as [n1|] eqn:H1; [|done]. cbn in Hin.
  destruct (captura z_cod 2 N n1) as [n2|] eqn:H2; [|done]. cbn in Hin.
  destruct ((z_cod n2 [5] =? 0) && _) eqn:Hc; [|done]. apply andb_prop in Hc as [Hc1 Hc2].
  unfold as608EnrollAtId. do 3 enlace_paso. apply durp_pausa; [apply _|apply _|intros|lia|lia]. do 5 enlace_paso.
  apply (durp_captura_bind N n n1); [done|done|done|lia|lia|lia|intros]. cbn [negb].
  apply durp_flush; [apply _|intros|lia|lia]. do 3 enlace_paso.
  apply (durp_captura_bind N n1 n2); [done|done|done|lia|lia|lia|intros]. cbn [negb].
  unfold as608CmdRegModel, AS608_REGMODEL_TIMEOUT_MS, AS608_FLUSH_MS_TINY.
  apply durp_orden_bind; [by apply Forall_singleton|apply _|lia|apply _|apply _|lia|lia|lia|intros]. cbn [take].
  rewrite Hc1. cbn [negb]. rewrite (proj2 (Z.ltb_ge 163 id)) by lia.
  unfold as608CmdStore, AS608_STORE_TIMEOUT_MS, AS608_FLUSH_MS_TINY.
  apply durp_orden_bind; [|apply _|lia|apply _|apply _|lia|lia|lia|intros].
  { cbn [take]. repeat (apply Forall_cons; split; [first [done|apply u8_bound]|]). done. }
  cbn [take]. rewrite Hc2. cbn [negb]. do 4 enlace_paso. by apply durp_ret; [lia|].
Qed.
End Inscripcion.

(** ** The registration *)
Lemma id_texto k : 1 <= k <= 100 ->
  s16 (u16 (atoi (fmt_0 4 k))) = k /\ snprintf 5 (fmt_0 4 k) = fmt_0 4 k /\ length (fmt_0 4 k) = 4%nat.
Proof.
  intros Hk. assert (H : forallb (fun k => (s16 (u16 (atoi (fmt_0 4 k))) =? k) &&
    bool_decide (snprintf 5 (fmt_0 4 k) = fmt_0 4 k) && (length (fmt_0 4 k) =? 4)%nat) (seqZ 1 100) = true) by (vm_compute; reflexivity).
  rewrite forallb_forall in H. specialize (H k ltac:(apply list_elem_of_In, elem_of_seqZ; lia)).
  rewrite !andb_true_iff, bool_decide_eq_true, Nat.eqb_eq in H. destruct H as [[H1 H2] H3]. split; [lia|done].
Qed.

Section Huella.
Context {E : Env} {V : Vivo} {K : Matriz} {D : Sensor}.

(** the table, the variables of MEF.c and the sensor *)
Definition mostrador (w : world) : mef_st * list PinUsuario_t * (list Z * list Z * nat) := (datos w, enlace w).

Lemma keypadRead_enlace : Keeps enlace (keypadRead keypad).
Proof.
  assert (Hi : forall p q, Keeps enlace (inp (InPin p q))) by (intros; by apply enlace_inp).
  assert (He : forall p q b, Keeps enlace (emit (EvPinState p q b))) by (intros; by apply enlace_emit).
  assert (Hw : forall p v, Keeps enlace (gpioWrite p v)).
  { intros p v. unfold gpioWrite, gpioObtainPinInit, Chip_GPIO_SetPinState. keeps_run. }
  assert (Hr : forall p, Keeps enlace (gpioRead p)).
  { intros p. unfold gpioRead, gpioObtainPinInit, Chip_GPIO_GetPinState. keeps_run. }
  unfold keypadRead, keypad_row, write_row, row_pin, col_pin. keeps_run.
Qed.
#[global] Instance mesa_mostrador : Mesa mostrador.
Proof.
  refine {| mesa_db := fun x => x.1.2 |}; try done.
  - apply dibujo_par; [|apply _]. split; intros; apply _.
  - apply reloj_par; [|apply _]. split; intros; apply _.
  - apply keeps_par; [|apply keypadRead_enlace]. apply _.
Defined.

#[local] Instance espEnviarNuevaHuella_dur p h :
  CabeEn 200 ($"/update-huella?pin=" ++ p ++ $"&huella=" ++ h) -> Dur true (32520 + 60 * v_salto) (espEnviarNuevaHuella p h).
Proof. intros Hp. unfold espEnviarNuevaHuella. dur_run. Qed.

(** the enrolment succeeds at the first attempt *)
Lemma durp_enrolar N n n' id c t :
  1 <= id <= 100 -> inscribe z_cod N id n = Some n' -> 310 + 8 * v_salto + Z.of_nat N * MIRADA_MS < 30000 ->
  0 <= t -> t + 150000 + 350 * v_salto < 2 ^ 31 ->
  durp (con_reloj mostrador) ((c, ([], [], n)), t) true (71000 + 150 * v_salto) (enrolar id) (fun o x =>
    o = Some (fmt_0 4 id) /\ x.1.1 = c).
Proof.
  intros Hid Hin HN Ht0 Ht. pose proof v_salto_rango.
  apply (durp_otra _ (con_reloj enlace) _ _ _ _ _ (fun o _ => o = Some (fmt_0 4 id))); [lia| |].
  - intros w [= _ Hr Hc Hn Htk]. unfold con_reloj, enlace. rewrite Hr, Hc, Hn, Htk.
    unfold enrolar. destruct combustible as (fuel & Hfuel & Hfu). unfold loop. rewrite Hfuel. apply durp_loop_n.
    cbn [Z.ltb Z.compare]. apply durp_assoc. rewrite u16_small by lia.
    eapply durp_bind; [apply (durp_inscribe N n n' id); done || lia| |lia].
    intros r x ->. cbv iota. apply durp_ret_bind, durp_ret; [lia|]. by rewrite (proj1 (proj2 (id_texto id Hid))).
  - intros w o w' [= Hd _ _ _ _] Hrun ->. split; [done|]. cbn. rewrite <- Hd.
    exact ((_ : Keeps datos (enrolar id)) _ _ _ Hrun).
Qed.

(** ... and what follows it *)
Lemma durp_subir m l p h :
  length p = 5%nat -> length h = 4%nat ->
  durp datos (m, l) true (36000 + 90 * v_salto) (
    mod_db (fun l => snd (asociarHuellaaPin l p h)) ;;
    mensaje [($"HUELLA GUARDADA", 10); ($"SUBIENDO...", 30)] ;;
    alertaExito ;;
    delay 1500 ;;
    nube ← espEnviarNuevaHuella p h;
    display_println (if nube : bool then $"NUBE: OK" else $"NUBE: ERROR") 50 ;;
    display_update ;;
    ir_a ESPERANDO_ACCION ;;
    delay 1500 ;;
    display_clear ;;
    registrarPresencia) (fun _ c => estadoActual c.1 = ESPERANDO_ACCION /\ c.2 = snd (asociarHuellaaPin l p h)).
Proof.
  intros Hp Hh. pose proof v_salto_rango.
  assert (CabeEn 200 ($"/update-huella?pin=" ++ p ++ $"&huella=" ++ h)).
  { unfold CabeEn. rewrite !length_app, Hp, Hh. apply Nat.ltb_lt. reflexivity. }
  do 5 datos_paso. rename a2 into nube. assert (Linea (if nube : bool then $"NUBE: OK" else $"NUBE: ERROR") 50) by (destruct nube; apply _).
  unfold ir_a, registrarPresencia. repeat datos_paso.
  eapply durp_tri; [apply dur_mono with 0; [apply _|lia]|].
  apply tri_modify. intros w [= Hm Hdb]. cbn. by rewrite Hm, Hdb.
Qed.

Lemma durp_registrar_en N n n' m l t p k :
  1 <= k <= 100 -> length p = 5%nat -> inscribe z_cod N k n = Some n' ->
  310 + 8 * v_salto + Z.of_nat N * MIRADA_MS < 30000 -> 0 <= t -> t + 160000 + 360 * v_salto < 2 ^ 31 ->
  durp (con_reloj mostrador) (((m, l), ([], [], n)), t) true (110000 + 250 * v_salto) (registrar_en p (fmt_0 4 k))
    (fun _ z => estadoActual z.1.1.1 = ESPERANDO_ACCION /\ z.1.1.2 = snd (asociarHuellaaPin l p (fmt_0 4 k))).
Proof.
  intros Hk Hp Hin HN Ht0 Ht. pose proof v_salto_rango. destruct (id_texto k Hk) as (Ha & _ & Hlen).
  unfold registrar_en. rewrite Ha. cbv zeta.
  assert (Hid : (length ($"ID ASIGNADO: " ++ fmt_d k) <= 16)%nat).
  { rewrite length_app. change (length ($"ID ASIGNADO: ")) with 13%nat. pose proof (fmt_d_corto k ltac:(lia)). lia. }
  assert (CabeEn 20 ($"ID ASIGNADO: " ++ fmt_d k)) by (unfold CabeEn; lia).
  assert (Linea ($"ID ASIGNADO: " ++ fmt_d k) 50) by (unfold Linea, strlen; lia).
  do 3 enlace_paso. rewrite sprintf_run by apply _. apply durp_ret_bind. do 3 enlace_paso.
  eapply durp_bind; [apply (durp_enrolar N n n' k); done || lia| |lia].
  intros o [[c e] t5] [-> Hc]. cbn in Hc. subst c.
  apply (durp_otra _ datos _ _ _ _ _ (fun _ c => estadoActual c.1 = ESPERANDO_ACCION /\ c.2 = snd (asociarHuellaaPin l p (fmt_0 4 k))));
    [lia| |done].
  intros w [= Hm Hl _ _]. unfold datos at 2. rewrite Hm, Hl.
  eapply durp_conseq; [by apply durp_subir|lia|done].
Qed.

Definition HUELLA_MS (N : nat) : Z := 110000 + 260 * v_salto + Z.of_nat N * MUESTRA_MS.

Lemma durp_registrar_huella N M tk n m l k i i' t p :
  Z.of_nat N < 90000 -> (forall j, en_rango (m_tecla j)) -> tec_ok tk ->
  escribe 15000 MUESTRA_MS 0 tk (muestras n N) = Some p -> validarPin l p = true ->
  estadoActual m = REGISTRAR_HUELLA -> obtenerHuellaAsignadaPorPin l p = Some (true, fmt_0 4 k) ->
  1 <= k <= 100 -> inscribe z_cod M k i = Some i' -> 310 + 8 * v_salto + Z.of_nat M * MIRADA_MS < 30000 ->
  0 <= t -> t + 60000 + HUELLA_MS N + 200 * v_salto < 2 ^ 31 ->
  durp (con_reloj (sala mostrador)) ((tk, n, ((m, l), ([], [], i))), t) true (HUELLA_MS N) registrar_huella
    (fun _ z => estadoActual z.1.2.1.1 = ESPERANDO_ACCION /\ z.1.2.1.2 = snd (asociarHuellaaPin l p (fmt_0 4 k))).
Proof.
  intros HN Hr Htk He Hv Hm Ho Hk Hin HM Ht0 Ht. pose proof v_salto_rango. unfold HUELLA_MS in *.
  assert (HD : 0 <= Z.of_nat N * MUESTRA_MS) by (unfold MUESTRA_MS, LEER_PIN_MS, LEER_TECLA_MS; lia).
  unfold registrar_huella. sala_paso.
  eapply durp_bind; [by apply (durp_pedirPin mostrador N tk n ((m, l), ([], [], i)) _ p); try lia| |lia].
  intros p' [[k' r] t2] (-> & Hz & Ht2). cbn in Hz, Ht2. subst r.
  apply (durp_otra _ (con_reloj mostrador) _ _ _ _ _ (fun _ z => estadoActual z.1.1.1 = ESPERANDO_ACCION /\
    z.1.1.2 = snd (asociarHuellaaPin l p (fmt_0 4 k)))); [lia| |done].
  intros w [= _ Hmw Hlw Hrec Hcol Hnum Htk2].
  assert (Hw : con_reloj mostrador w = (((m, l), ([], [], i)), t2)).
  { unfold con_reloj, mostrador, datos, enlace. congruence. }
  rewrite Hw. clear w Hmw Hlw Hrec Hcol Hnum Htk2 Hw.
  unfold abandonado. apply durp_assoc, durp_gets; [|lia]. intros w [= -> _ _ _ _ _]. apply durp_ret_bind.
  rewrite bool_decide_eq_false_2 by congruence.
  apply durp_gets; [|lia]. intros w2 [= _ -> _ _ _ _]. rewrite Ho. apply durp_ret_bind.
  eapply durp_conseq; [apply (durp_registrar_en M i i'); [done|by eapply escribe_ok|exact Hin|exact HM|lia|lia]|lia|done].
Qed.

(** C7: registering a fingerprint, from beginning to end: somebody at the keypad types the PIN of an
    active user who has none, never letting 15 s pass without a new key, and lays a finger on
    the sensor before the 30 s of each capture run out (the sensor sees it at one of its first
    M looks, twice, and can make a model of the two images and keep it); then
    the call of [mefUpdate] in the registration state returns to the idle state, and the
    fingerprint is in the table under that user, with the lowest number that was free, which
    is the page of the sensor where the model is; no other user has that number, and
    no PIN gains or loses validity. *)
Theorem registro_dedo w N M p i u k c c'
    (Hl : listo true w) (Htk : tec_ok (tec w)) (Hr : forall j, en_rango (m_tecla j))
    (He : estadoActual (mef w) = REGISTRAR_HUELLA) (HN : Z.of_nat N < 90000)
    (Hp : escribe 15000 MUESTRA_MS 0 (tec w) (muestras (turno_de w) N) = Some p)
    (Htab : tabla_ok (listaPins w)) (Hs : sin_repetidas (listaPins w))
    (Hu : list_find (tiene_pin p) (listaPins w) = Some (i, u)) (Hh : huella u = [])
    (Hk : buscarIdLibre (S (length (listaPins w))) (listaPins w) 1 = Some k)
    (Hz : enlace w = ([], [], c)) (Hin : inscribe z_cod M k c = Some c')
    (HM : 310 + 8 * v_salto + Z.of_nat M * MIRADA_MS < 30000)
    (Ht : tickCounter (hw w) + 60000 + HUELLA_MS N + 200 * v_salto < 2 ^ 31) :
  exists w', mefUpdate w = Ret tt w' /\ estadoActual (mef w') = ESPERANDO_ACCION /\
    avanza (HUELLA_MS N) w w' /\
    listaPins w' = snd (asociarHuellaaPin (listaPins w) p (fmt_0 4 k)) /\
    list_find (tiene_huella (fmt_0 4 k)) (listaPins w') = Some (i, set_huella (fmt_0 4 k) u) /\
    validarHuella (listaPins w') (Some (fmt_0 4 k)) = true /\ sin_repetidas (listaPins w') /\
    forall q, validarPin (listaPins w') q = validarPin (listaPins w) q.
Proof.
  destruct (buscar_Some _ _ _ _ Hk) as (Hk1 & _). rewrite (proj1 Htab) in Hk1. change (Z.of_nat (S MAX_PINS)) with 100 in Hk1.
  assert (Hk' : 1 <= k <= 100) by lia.
  assert (Hob : obtenerHuellaAsignadaPorPin (listaPins w) p = Some (true, fmt_0 4 k)).
  { unfold obtenerHuellaAsignadaPorPin. rewrite Hu, Hh. change (0 <? strlen []) with false. cbv iota. rewrite Hk.
    unfold strcpy. cbn [mbind option_bind]. by rewrite id_corto by lia. }
  assert (Hv : validarPin (listaPins w) p = true) by (unfold validarPin; by rewrite Hu).
  destruct (durp_registrar_huella N M (tec w) (turno_de w) (mef w) (listaPins w) k c c' (tickCounter (hw w)) p) as [_ H];
    [done|done|done|done|done|done|done|done|exact Hin|exact HM|apply Hl|done|].
  destruct (H w Hl) as ([] & w' & Hw & _ & Ha & Hst & Hdb).
  { unfold con_reloj, sala, mostrador. by rewrite Hz. }
  cbn in Hst, Hdb. destruct (huella_guardada (listaPins w) p (fmt_0 4 k) i u Htab Hs Hu Hob) as (H1 & H2 & H3 & H4).
  exists w'. rewrite Hdb. split; [unfold mefUpdate, mbind, M_bind, gets; by rewrite He|]. done.
Qed.
End Huella.

(** ** A board with a keypad and a finger *)

(** the sensor sees no finger at its first look *)
Definition sin_dedo_al_principio (n : nat) (p : list Z) : Z := if bool_decide (p = [1]) && (n =? 0)%nat then 2 else 0.

Definition oido (cod : nat -> list Z -> Z) (demora b : Z) (c : sensor) : sensor :=
  match recibir (z_rec c ++ [b]) with
  | Some (ty, payload) =>
      if ty =? 1
      then mkSensor [] (z_cola c ++ as608Frame 7 [cod (z_num c) payload]) (S (z_num c)) demora (z_ligero c)
      else mkSensor [] (z_cola c) (z_num c) (z_espera c) (z_ligero c)
  | None => mkSensor (z_rec c ++ [b]) (z_cola c) (z_num c) (z_espera c) (z_ligero c)
  end.
(** its queue, as bytes *)
Definition en_bytes (c : sensor) : sensor := mkSensor (z_rec c) (u8 <$> z_cola c) (z_num c) (z_espera c) (z_ligero c).
Lemma oido_oye cod demora b c : (forall n p, es_byte (cod n p)) ->
  oye cod demora b (en_bytes c) (en_bytes (oido cod demora b c)).
Proof.
  intros Hcod. unfold oye, oido. cbn [en_bytes z_rec z_ligero z_cola z_num].
  destruct (recibir _) as [[ty payload]|]; [|done]. destruct (ty =? 1); [|done].
  destruct (trama_recibida 7 [cod (z_num c) payload]) as (_ & Hb & _); [by vm_compute|by apply Forall_singleton|cbn; lia|].
  assert (Hu : forall l, Forall es_byte l -> u8 <$> l = l).
  { induction 1 as [|x l Hx _ IH]; [done|]. cbn. rewrite IH, u8_small; done. }
  split; [done|]. split; [done|]. cbn [z_cola z_num z_espera]. by rewrite fmap_app, (Hu _ Hb).
Qed.
Lemma sin_dedo_byte n p : es_byte (sin_dedo_al_principio n p).
Proof. unfold sin_dedo_al_principio, es_byte. destruct (_ && _); lia. Qed.

Definition dedo_in (t : nat -> option (Z * Z)) (i : input) (d : filas_st * sensor) : Z * (filas_st * sensor) :=
  let '(f, c) := d in
  match i with
  | InPin p q => (columna_in (t (turno f)) p q f, d)
  | InTick => (1, (f, mkSensor (z_rec c) (z_cola c) (z_num c) (Z.max 0 (z_espera c - 1)) true))
  | InLsr u =>
      (if (u =? AS608_UART) && negb (bool_decide (z_cola c = [])) && (z_espera c <=? 0) then 33 else 32, d)
  | InRbr u =>
      if u =? AS608_UART then (hd 0 (z_cola c), (f, mkSensor (z_rec c) (tl (z_cola c)) (z_num c) 2 (z_ligero c))) else (0, d)
  | _ => (0, d)
  end.
Definition dedo_out (e : event) (d : filas_st * sensor) : filas_st * sensor :=
  (tecla_out e (fst d),
   match e with EvUartTx u b => if u =? AS608_UART then oido sin_dedo_al_principio 20 b (snd d) else snd d | _ => snd d end).
Definition env_dedo (t : nat -> option (Z * Z)) : Env :=
  {| dev := filas_st * sensor; dev_in := dedo_in t; dev_out := dedo_out; env_fuel := Z.to_nat 100003 |}.

#[refine] Instance vivo_dedo t : @Vivo (env_dedo t) :=
  {| v_max := 0; v_salto := 1; v_pot := fun _ => O; v_tx := fun _ _ => O |}.
Proof.
  all: cbn [env_dedo dev dev_in dev_out env_fuel]; try (intros; lia).
  - intros [f c]. cbn. lia.
  - intros u [f c]. left. cbn. by destruct (_ && _).
Defined.
#[refine] Instance matriz_dedo t : @Matriz (env_dedo t) :=
  {| m_filas := fun d : @dev (env_dedo t) => niveles (fst d); m_turno := fun d => turno (fst d); m_tecla := t |}.
Proof.
  - intros i [f c]. destruct i as [|u|u|p q| | |]; try done. cbn. by destruct (u =? AS608_UART).
  - intros e [f c]. split; [apply tecla_out_turno|apply tecla_out_niveles].
  - done.
  - intros c [f x] Hc. by apply columna_in_baja.
Defined.
#[refine] Instance sensor_dedo t : @Sensor (env_dedo t) :=
  {| z_de := fun d : @dev (env_dedo t) => en_bytes (snd d); z_cod := sin_dedo_al_principio;
     z_demora := 20; z_hueco := 2; z_vuelta := 1 |}.
Proof.
  - lia.
  - apply sin_dedo_byte.
  - intros [f c]. cbn. split; [done|]. split; [done|]. split; [lia|done].
  - intros [f c]. cbn. split; [done|]. split; [done|]. split; [done|]. destruct (z_cola c) as [|b r]; cbn.
    + split; [by intros []|]. by intros [].
    + destruct (Z.leb_spec (z_espera c) 0); cbn; [by split|]. split; [by intros []|]. lia.
  - intros [f c] b r Hc. cbn in *. destruct (z_cola c) as [|b' r']; [done|]. injection Hc as <- <-. cbn. by repeat split.
  - intros i [f c] Hi. destruct i as [|u|u|p q| | |]; try done. cbn. destruct (Z.eqb_spec u AS608_UART) as [->|]; [|done].
    by destruct Hi.
  - intros b [f c]. exact (oido_oye _ 20 b c sin_dedo_byte).
  - intros e [f c] He. destruct e as [|u b| | | | | |]; try done. cbn. destruct (Z.eqb_spec u AS608_UART) as [->|]; [|done].
    by destruct (He b).
Defined.

(** a user without a fingerprint types the PIN 66666 *)
Definition teclea_66666 (n : nat) : option (Z * Z) :=
  nth n (None :: concat (replicate 5 [Some (1, 2); None])) None.
Definition mundo_dedo : @world (env_dedo teclea_66666) :=
  @mkWorld (env_dedo _) (@mkHw (env_dedo _) (mkFilas true true true true 0, mkSensor [] [] 0 0 true) 5000 true [])
    (mkDisplay (replicate 1024 0) 0 0) (mkTeclado [] 0 false 65535) listaPins_inicial false scan_zero
    (mef_en REGISTRAR_HUELLA).

Lemma registro_dedo_witness :
  exists w', mefUpdate mundo_dedo = Ret tt w' /\ estadoActual (mef w') = ESPERANDO_ACCION /\
    validarHuella (listaPins w') (Some $"0005") = true.
Proof.
  destruct (@registro_dedo (env_dedo _) (vivo_dedo _) (matriz_dedo _) (sensor_dedo _) mundo_dedo 9 40
    $"66666" 5 (mkUsuario $"66666" true [] [] $"usuario6") 5 0 7) as (w' & H1 & H2 & _ & _ & _ & H3 & _).
  - by split.
  - apply tec_ok_reset.
  - intros j. do 11 (destruct j as [|j]; [by vm_compute; repeat split|]). by destruct j.
  - done.
  - lia.
  - vm_compute. reflexivity.
  - apply tabla_inicial.
  - apply sin_repetidas_sound. vm_compute. reflexivity.
  - vm_compute. reflexivity.
  - reflexivity.
  - vm_compute. reflexivity.
  - reflexivity.
  - vm_compute. reflexivity.
  - by vm_compute.
  - by vm_compute.
  - exists w'. split; [exact H1|]. split; [exact H2|exact H3].
Defined.
