(* ===== verification/Autorizacion.v ===== *)
(** * Who changes the table: the PINs typed

    What the functions that read the keypad do with the keys that the matrix shows them, in
    any order, as a history; and with it what PIN was typed, and when, before the menu opens
    or the table changes. *)

From Stdlib Require Import ZArith Lia Bool Ascii String.
From stdpp Require Import base list strings numbers sets relations.
From stdpp Require Import options.
From S2P Require Import Prelude Machine Effects Triples Banco Sapi Display Plazos Cerrojo Teclado.
From S2P Require Import Usuarios Json Dobles EspAT As608 Rc522 Sincronizacion Mef Cerradura.
From S2P Require Import Refinamiento Seguridad Duracion Matriz Terminacion Tarjeta Registro Huella.

(** ** A history of the keypad *)

(** what [tecladoLeerTecla] leaves of a sample: the edge alone *)
Definition flanco (t : teclado_st) (k : option Z) : teclado_st :=
  match k with
  | None => mkTeclado (t_pin t) (t_pos t) false 65535
  | Some i => if t_keyHeld t && (i =? t_lastIndex t) then t
              else mkTeclado (t_pin t) (t_pos t) true i
  end.

(** the PIN that a sample completes *)
Definition pin_de (e : entrada) : list (list ascii) :=
  match e with Completo p => [p] | _ => [] end.

Section Historia.
Context {E : Env} {K : Matriz}.

(** the key that the matrix shows in reading [n] *)
Definition tecla_en (n : nat) : option Z := indice_tecla (m_tecla n).

(** From the variables of teclado.c and the readings begun [x0], calls of [tecladoLeerPin],
    of [tecladoLeerTecla] and of [tecladoReset] in any order, each with the key of its own
    reading: the PINs that they complete, in order. *)
Inductive uso (x0 : teclado_st * nat) : list (list ascii) -> teclado_st * nat -> Prop :=
  | uso_nada : uso x0 [] x0
  | uso_pin ps t n : uso x0 ps (t, n) ->
      uso x0 (ps ++ pin_de (fst (muestra t (tecla_en (S n))))) (snd (muestra t (tecla_en (S n))), S n)
  | uso_tecla ps t n : uso x0 ps (t, n) -> uso x0 ps (flanco t (tecla_en (S n)), S n)
  | uso_borra ps t n : uso x0 ps (t, n) ->
      uso x0 ps (mkTeclado [] 0 (t_keyHeld t) (t_lastIndex t), n).

Definition teclas (w : world) : teclado_st * nat := (tec w, turno_de w).

(** [p] was completed, key by key, between [w] and [w'] *)
Definition tecleado (w w' : world) (p : list ascii) : Prop :=
  exists ps, uso (teclas w) ps (teclas w') /\ p ∈ ps.

(** the characters on the keys shown in [k] readings from number [n] on *)
Definition mostradas (n k : nat) : list ascii := omap (fmap tecla) (muestras n k).

Lemma mostradas_S n k : mostradas n (S k) = mostradas n k ++ omap (fmap tecla) [tecla_en (S (n + k))].
Proof.
  unfold mostradas, muestras. by rewrite seq_S, fmap_app, omap_app.
Qed.

Lemma muestra_buffer t k :
  t_pin (snd (muestra t k)) `sublist_of` t_pin t ++ omap (fmap tecla) [k] /\
  forall p, p ∈ pin_de (fst (muestra t k)) -> p `sublist_of` t_pin t ++ omap (fmap tecla) [k].
Proof.
  assert (H0 : forall l l' : list ascii, l `sublist_of` l ++ l') by (intros; by apply sublist_inserts_r).
  destruct k as [i|]; [|split; [apply H0|by intros p ?%elem_of_nil]].
  cbn [muestra omap list_omap fmap option_fmap option_map].
  destruct (t_keyHeld t && (i =? t_lastIndex t)); [split; [apply H0|by intros p ?%elem_of_nil]|].
  unfold teclear. destruct (ord (tecla i) =? 42); [split; [apply sublist_nil_l|by intros p ?%elem_of_nil]|].
  destruct (is_digit (tecla i)); [|split; [apply H0|by intros p ?%elem_of_nil]].
  destruct (length (t_pin t) =? 4)%nat; cbn.
  - split; [apply sublist_nil_l|]. by intros p ->%list_elem_of_singleton.
  - split; [done|by intros p ?%elem_of_nil].
Qed.

(** the digits of a PIN completed were there or were shown, in that order *)
Lemma uso_sublista x0 ps x :
  uso x0 ps x -> (x0.2 <= x.2)%nat /\
  t_pin x.1 `sublist_of` t_pin x0.1 ++ mostradas x0.2 (x.2 - x0.2) /\
  forall p, p ∈ ps -> p `sublist_of` t_pin x0.1 ++ mostradas x0.2 (x.2 - x0.2).
Proof.
  assert (H0 : forall l l' : list ascii, l `sublist_of` l ++ l') by (intros; by apply sublist_inserts_r).
  induction 1 as [|ps t n _ (Hn & Ht & Hp)|ps t n _ (Hn & Ht & Hp)|ps t n _ (Hn & Ht & Hp)];
    cbn [fst snd t_pin] in *.
  - split; [done|]. split; [apply H0|by intros p ?%elem_of_nil].
  - replace (S n - x0.2)%nat with (S (n - x0.2)) by lia. rewrite mostradas_S.
    replace (x0.2 + (n - x0.2))%nat with n by lia. rewrite app_assoc.
    destruct (muestra_buffer t (tecla_en (S n))) as [H1 H2]. split; [lia|]. split.
    + etrans; [exact H1|by apply sublist_app].
    + intros p [Hin|Hin]%elem_of_app; [etrans; [by apply Hp|apply H0]|].
      etrans; [by apply H2|by apply sublist_app].
  - replace (S n - x0.2)%nat with (S (n - x0.2)) by lia. rewrite mostradas_S, app_assoc. split; [lia|].
    assert (Hf : t_pin (flanco t (tecla_en (S n))) = t_pin t)
      by (destruct (tecla_en (S n)); [cbn; by destruct (_ && _)|done]).
    rewrite Hf. split; [etrans; [exact Ht|apply H0]|]. intros p Hin. etrans; [by apply Hp|apply H0].
  - split; [done|]. split; [apply sublist_nil_l|exact Hp].
Qed.

Lemma uso_ok x0 ps x : uso x0 ps x -> tec_ok x0.1 -> tec_ok x.1 /\ Forall pin_ok ps.
Proof.
  intros Hu H0. induction Hu as [|ps t n _ [Ht Hp]|ps t n _ [Ht Hp]|ps t n _ [Ht Hp]]; cbn [fst] in *.
  - split; [done|constructor].
  - destruct (muestra t (tecla_en (S n))) as [e t'] eqn:Hm. destruct (muestra_ok _ _ _ _ Ht Hm) as [Ht' He].
    split; [done|]. apply Forall_app. split; [done|]. destruct e as [| |p]; [constructor..|].
    constructor; [by apply He|constructor].
  - split; [|done]. destruct (tecla_en (S n)); [cbn; by destruct (_ && _)|done].
  - split; [apply tec_ok_reset|done].
Qed.
End Historia.

(** ** What keeps the readings *)

(** the writes that touch no row of the matrix *)
Definition calladas : list kind :=
  [KI2c; KUart AS608_UART; KUart ESP_UART; KSpi; KConf; KSleep; buzzer_kind;
   pin_kind RC522_CS_GPIO; pin_kind RC522_RST_GPIO] ++ motor_kinds.

Section Lecturas.
Context {E : Env} {K : Matriz}.
#[local] Existing Instance keeps_tec.

Lemma contacto_turno d d' : contacto calladas d d' -> m_turno d' = m_turno d.
Proof.
  intros [i d1|e d1 He]; [apply m_in|]. destruct (m_out e d1) as [-> _].
  destruct e as [p q b| | | | | | |]; try done. unfold empieza.
  destruct (Z.eqb_spec p puerto_fila) as [->|]; [|done]. destruct (Z.eqb_spec q 3) as [->|]; [|done].
  exfalso. revert He. apply (proj1 (bool_decide_eq_true (KPin puerto_fila 3 ∉ calladas))). reflexivity.
Qed.

Lemma turno_eff F {A} (m : M A) : Eff F calladas m -> Keeps turno_de m.
Proof.
  intros Hm w a w' H. unfold turno_de. pose proof (eff_dev _ _ _ _ (Hm _ _ _ H)) as Hd.
  induction Hd as [|d1 d2 d3 Hd _ IH]; [done|]. by rewrite IH, (contacto_turno _ _ Hd).
Qed.

(** what is followed: the variables of MEF.c, the table and the keypad *)
Definition seguido (w : world) : mef_st * list PinUsuario_t * (teclado_st * nat) :=
  (mef w, listaPins w, teclas w).

#[export] Instance keeps_seguido {A} (m : M A) :
  Eff [CDisp; CWifi; CScan; CSys] calladas m -> Keeps seguido m.
Proof.
  intros Hm w a w' H. unfold seguido, teclas. rewrite (turno_eff _ _ Hm _ _ _ H).
  pose proof (eff_frame _ _ _ _ (Hm _ _ _ H)) as Hf.
  pose proof (Hf CMef) as H1. pose proof (Hf CDb) as H2. pose proof (Hf CTec) as H3. simpl in H1, H2, H3.
  rewrite H1, H2, H3; [done|apply (proj1 (bool_decide_eq_true _)); reflexivity ..].
Qed.

(** at most one key is held at a time *)
Hypothesis una : forall n, en_rango (m_tecla n).

Lemma lectura_turno w k w' :
  keypadRead keypad w = Ret k w' -> k = tecla_en (S (turno_de w)) /\ turno_de w' = S (turno_de w).
Proof using una.
  intros H. destruct (tri_keypadRead _ _ (m_len (device (hw w))) (una _) w k w' eq_refl H) as [-> Hn].
  done.
Qed.

(** a call of [tecladoLeerPin]: the sample of the next reading *)
Lemma tri_tecladoLeerPin t n pin u :
  tec_ok t -> tri teclas (t, n) (tecladoLeerPin pin u) (fun r x =>
    let '(e, t') := muestra t (tecla_en (S n)) in
    x = (t', S n) /\ (r.1.1, r.1.2) = resultado e pin).
Proof using una.
  intros Ht w [[r p] u'] w' [= <- <-] H.
  destruct (tecladoLeerPin_muestra _ _ _ _ _ _ _ Ht H) as (k & w1 & e & Hk & _ & Hm & Hr & _).
  destruct (lectura_turno _ _ _ Hk) as [-> Hn]. rewrite Hm. split; [|done].
  unfold tecladoLeerPin in H. apply bind_Ret in H as (k2 & w2 & Hk2 & H).
  rewrite Hk in Hk2. injection Hk2 as <- <-. unfold teclas. f_equal. rewrite <- Hn.
  refine (turno_eff [CTec; CDisp] _ _ w1 _ w' H). eff_solve.
Qed.

Lemma tri_tecladoLeerTecla t n :
  tri teclas (t, n) tecladoLeerTecla (fun _ x => x = (flanco t (tecla_en (S n)), S n)).
Proof using una.
  intros w a w' [= <- <-] H. unfold tecladoLeerTecla in H. apply bind_Ret in H as (k & w1 & Hk & H).
  destruct (lectura_turno _ _ _ Hk) as [-> Hn]. destruct (keypadRead_tec _ _ _ _ eq_refl Hk) as [Htec _].
  assert (Hn' : turno_de w' = turno_de w1).
  { refine (turno_eff [CTec] _ _ w1 _ w' H). eff_solve. }
  unfold teclas. f_equal; [|congruence]. clear Hn Hn' Hk.
  refine ((_ : tri tec (tec w) _ (fun _ t => t = flanco (tec w) (tecla_en (S (turno_de w))))) w1 a w' Htec H).
  destruct (tecla_en (S (turno_de w))) as [i|]; cbn [flanco].
  - tri_step. apply gets_tec_spec. destruct (t_keyHeld (tec w)), (i =? t_lastIndex (tec w)); cbn [negb orb andb];
      try (by tri_step); tri_step; apply set_edge_spec; repeat tri_step; done.
  - tri_step. apply set_edge_spec. by tri_step.
Qed.
End Lecturas.

(** ** A PIN on the keypad *)

(** calls of [tecladoLeerPin] one after another, with the same buffer and time stamp: the
    results and what the buffer holds after each *)
Section Lector.
Context {E : Env}.
Fixpoint leerPines (n : nat) (pin : list ascii) (u : option Z) : M (list (Z * list ascii)) :=
  match n with
  | O => mret []
  | S n =>
      r ← tecladoLeerPin pin u;
      let '(res, pin, u) := r in
      rs ← leerPines n pin u;
      mret ((res, pin) :: rs)
  end.
End Lector.

(** the results and the buffer, for a stream of decisions *)
Fixpoint resultados (pin : list ascii) (es : list entrada) : list (Z * list ascii) :=
  match es with
  | [] => []
  | e :: es => resultado e pin :: resultados (resultado e pin).2 es
  end.

Definition decide_algo (r : Z * list ascii) : Prop := r.1 <> 0.
#[export] Instance decide_algo_dec r : Decision (decide_algo r).
Proof. unfold decide_algo. apply _. Defined.

Lemma resultados_nada es pin : filter decisiva es = [] -> filter decide_algo (resultados pin es) = [].
Proof.
  revert pin. induction es as [|e es IH]; intros pin; [done|]. cbn [resultados].
  destruct e; [|rewrite filter_cons_True by done; done ..].
  rewrite filter_cons_False by (intros H; by apply H). intros H.
  rewrite filter_cons_False by (intros Hx; by apply Hx). by apply IH.
Qed.
Lemma resultados_uno es pin p :
  filter decisiva es = [Completo p] -> filter decide_algo (resultados pin es) = [(1, p)].
Proof.
  revert pin. induction es as [|e es IH]; intros pin; [done|]. cbn [resultados]. destruct e as [| |q].
  - rewrite filter_cons_False by (intros H; by apply H). intros H.
    rewrite filter_cons_False by (intros Hx; by apply Hx). by apply IH.
  - by rewrite filter_cons_True.
  - rewrite filter_cons_True by done. intros [= -> He]. rewrite filter_cons_True by done.
    by rewrite resultados_nada.
Qed.

Section Tecleo.
Context {E : Env} {V : Vivo} {K : Matriz}.
Hypothesis una : forall n, en_rango (m_tecla n).

#[local] Instance keeps_teclas {A} (m : M A) : Eff [CDisp] calladas m -> Keeps teclas m.
Proof.
  intros Hm w a w' H. unfold teclas. rewrite (turno_eff _ _ Hm _ _ _ H).
  pose proof (eff_frame _ _ _ _ (Hm _ _ _ H) CTec) as Hf. simpl in Hf.
  rewrite Hf; [done|]. by intros ?%list_elem_of_singleton.
Qed.

Lemma durp_set_tec t n g s b {A} (h : world -> world) (f : unit -> M A) Q :
  Dur s 0 (modify h) -> (forall w, h w = set_tec (g (tec w)) w) ->
  durp teclas (g t, n) s b (f tt) Q -> 0 <= b -> durp teclas (t, n) s b (modify h ≫= f) Q.
Proof using Type.
  intros Hd Hh Hf Hb. eapply (durp_step _ _ _ _ 0 _ _ (fun _ x => x = (g t, n))); [exact Hd| |intros [] x ->|done].
  - apply tri_modify. intros w [= <- <-]. by rewrite Hh.
  - by rewrite Z.sub_0_r.
Qed.

(** a call returns, whatever the keypad shows *)
Lemma durp_llamada t n pin u :
  tec_ok t -> durp teclas (t, n) true LEER_PIN_MS (tecladoLeerPin pin u) (fun _ _ => True).
Proof using una.
  intros (Hpos & Hlen & _). pose proof v_salto_rango. unfold LEER_PIN_MS, tecladoLeerPin.
  assert (0 <= LEER_TECLA_MS) by (unfold LEER_TECLA_MS; lia).
  eapply (durp_step _ _ _ _ _ _ _ (fun k x => indice_ok k /\ x = (t, S n))); [apply _| | |lia].
  { intros w k w' [= <- <-] H1. destruct (keypadRead_tec _ _ _ _ eq_refl H1) as [Htec Hk].
    destruct (lectura_turno una _ _ _ H1) as [_ Hn]. split; [done|]. unfold teclas. by rewrite Htec, Hn. }
  intros k x [Hk ->]. destruct k as [i|]; [|apply durp_resto; dur_run].
  specialize (Hk i eq_refl). apply durp_gets; [intros w [= -> _]|lia].
  destruct (_ || _); [|apply durp_ret; [lia|done]].
  apply (durp_set_tec _ _ (fun k => mkTeclado (t_pin k) (t_pos k) true i)); [apply _|done| |lia].
  rewrite keypadChar_run by done. apply durp_ret_bind.
  eapply (durp_keep _ _ _ _ v_salto); [destruct u; dur_run|destruct u; apply _|intros ult|lia].
  destruct (ord (tecla i) =? 42); [apply durp_resto; dur_run|].
  apply durp_gets; [intros w2 [= -> _]|lia]. cbn [t_pos].
  apply (durp_bind _ _ _ _ 0 _ _ (fun _ _ => True)); [|intros; apply durp_resto; dur_run|lia].
  destruct (_ && _); cbn [when]; [|apply durp_ret; [lia|done]].
  apply (durp_set_tec _ _ (fun k => mkTeclado (t_pin k ++ [tecla i]) (u8 (t_pos k + 1))
    (t_keyHeld k) (t_lastIndex k))); [apply _|done| |lia].
  apply durp_gets; [intros w3 [= -> _]|lia]. cbn [t_pin].
  assert (Linea (t_pin t ++ [tecla i]) 35).
  { unfold Linea, strlen. rewrite length_app. cbn. lia. }
  apply durp_resto. dur_run.
Qed.

Lemma durp_leerPines N : forall t n pin u,
  tec_ok t -> durp teclas (t, n) true (Z.of_nat N * LEER_PIN_MS) (leerPines N pin u) (fun rs x =>
    let '(es, t') := flujo t (muestras n N) in rs = resultados pin es /\ x = (t', (n + N)%nat)).
Proof using una.
  pose proof v_salto_rango. assert (0 <= LEER_PIN_MS) by (unfold LEER_PIN_MS, LEER_TECLA_MS; lia).
  induction N as [|N IH]; intros t n pin u Ht; [by apply durp_ret; [|rewrite Nat.add_0_r]|].
  cbn [leerPines]. rewrite Nat2Z.inj_succ.
  eapply (durp_bind _ _ _ _ LEER_PIN_MS _ _ (fun r x => let '(e, t') := muestra t (tecla_en (S n)) in
    x = (t', S n) /\ (r.1.1, r.1.2) = resultado e pin)); [| |lia].
  { destruct (durp_llamada t n pin u Ht) as [Hb Hd]. split; [done|]. intros w Hw Hc.
    destruct (Hd w Hw Hc) as (r & w' & H1 & H2 & H3 & _). exists r, w'. do 3 (split; [done|]).
    by apply (tri_tecladoLeerPin una t n pin u Ht w). }
  change (muestras n (S N)) with (tecla_en (S n) :: muestras (S n) N). cbn [flujo].
  intros [[res p] u'] x Hm. destruct (muestra t (tecla_en (S n))) as [e t'] eqn:Hmu.
  destruct Hm as [-> Hr]. cbn [fst snd] in Hr. destruct (muestra_ok _ _ _ _ Ht Hmu) as [Ht' _].
  eapply durp_bind; [apply (IH t' (S n) p u' Ht')| |lia].
  intros rs x. destruct (flujo t' (muestras (S n) N)) as [es t2]. intros [-> ->].
  apply durp_ret; [lia|]. cbn [resultados]. rewrite <- Hr. cbn [snd]. split; [done|]. by rewrite Nat.add_succ_r.
Qed.

(** C14: what somebody types is what [tecladoLeerPin] returns.  On a live board, with five digit
    keys pressed one after another, each held and released for any number of readings of the
    matrix, as many calls of [tecladoLeerPin] as readings: each returns in time, one of
    them returns 1 with the PIN of those five characters in that order in the buffer, all
    the others 0, and the entry is left empty. *)
Theorem pin_tecleado w N ks j pin u
    (Hw : listo true w) (Hlen : length ks = 5%nat)
    (Hdig : Forall (fun k => is_digit (tecla (indice k)) = true) ks)
    (Ht : tec w = mkTeclado [] 0 false j)
    (Hk : muestras (turno_de w) N = concat (pulsacion <$> ks)) :
  exists rs w', leerPines N pin u w = Ret rs w' /\ length rs = N /\
    filter decide_algo rs = [(1, tecla ∘ indice <$> ks)] /\
    tec w' = mkTeclado [] 0 false 65535 /\ avanza (Z.of_nat N * LEER_PIN_MS) w w'.
Proof using una.
  assert (Hok : tec_ok (tec w)) by (rewrite Ht; apply tec_ok_reset).
  destruct (durp_leerPines N (tec w) (turno_de w) pin u Hok) as [_ H].
  destruct (H w Hw eq_refl) as (rs & w' & H1 & _ & H2 & H3). rewrite Hk, Ht in H3.
  destruct (flujo_pin ks 0 j Hlen Hdig) as (es & Hf & He). rewrite Hf in H3. destruct H3 as [-> Hx].
  exists (resultados pin es), w'. split; [exact H1|]. split; [|split; [by apply resultados_uno|]].
  - assert (Hr : forall pin es, length (resultados pin es) = length es)
      by (intros p es'; revert p; induction es' as [|e es' IH]; intros p; [done|]; cbn; by rewrite IH).
    assert (Hlf : forall t ks, length (flujo t ks).1 = length ks).
    { intros t ks'. revert t. induction ks' as [|k ks' IH]; intros t; [done|]. cbn.
      destruct (muestra t k) as [e t1]. specialize (IH t1). destruct (flujo t1 ks'). cbn in *. by rewrite IH. }
    rewrite Hr. specialize (Hlf (mkTeclado [] 0 false j) (concat (pulsacion <$> ks))). rewrite Hf in Hlf. cbn [fst] in Hlf.
    rewrite Hlf, <- Hk. unfold muestras. by rewrite length_fmap, length_seq.
  - unfold teclas in Hx. by injection Hx as -> _.
Qed.
End Tecleo.

(** ** The functions that ask for a PIN *)
Section Reglas.
Context {E : Env} {K : Matriz}.
Variables (m : mef_st) (l : list PinUsuario_t) (t : teclado_st) (n : nat).
Abbreviation C := (m, l, (t, n)).

Lemma seg_mod_mef f Q : Q tt (f m, l, (t, n)) -> tri seguido C (mod_mef f) Q.
Proof. intros H. apply tri_modify. intros w [= <- <- <- <-]. exact H. Qed.
Lemma seg_mod_db f Q : Q tt (m, f l, (t, n)) -> tri seguido C (mod_db f) Q.
Proof. intros H. apply tri_modify. intros w [= <- <- <- <-]. exact H. Qed.
Lemma seg_gets_mef (Q : mef_st -> _ -> Prop) : Q m C -> tri seguido C (gets mef) Q.
Proof. intros H. apply tri_gets. intros w [= <- <- <- <-]. exact H. Qed.
Lemma seg_gets_db (Q : list PinUsuario_t -> _ -> Prop) : Q l C -> tri seguido C (gets listaPins) Q.
Proof. intros H. apply tri_gets. intros w [= <- <- <- <-]. exact H. Qed.
Lemma seg_presencia Q :
  (forall x, Q tt (set_presencia x m, l, (t, n))) -> tri seguido C registrarPresencia Q.
Proof. intros H. unfold registrarPresencia. tri_step. tri_step. apply seg_mod_mef, H. Qed.
Lemma seg_reset Q :
  Q tt (m, l, (mkTeclado [] 0 (t_keyHeld t) (t_lastIndex t), n)) -> tri seguido C tecladoReset Q.
Proof. intros H. apply tri_modify. intros w [= <- <- <- <-]. exact H. Qed.
End Reglas.

Ltac seg_step :=
  lazymatch goal with
  | |- tri _ _ (mbind _ _) _ => apply tri_bind
  | |- tri _ _ (mret _) _ => apply tri_ret
  | |- tri _ _ (gets mef) _ => apply seg_gets_mef
  | |- tri _ _ (gets listaPins) _ => apply seg_gets_db
  | |- tri _ _ (mod_mef _) _ => apply seg_mod_mef
  | |- tri _ _ (mod_db _) _ => apply seg_mod_db
  | |- tri _ _ (ir_a _) _ => apply seg_mod_mef
  | |- tri _ _ registrarPresencia _ => apply seg_presencia; intros
  | |- tri _ _ tecladoReset _ => apply seg_reset
  | |- tri _ _ (access _) _ => apply tri_access; intros
  | |- tri _ _ (let '(_, _) := ?x in _) _ => destruct x
  | |- tri _ _ (match ?x with _ => _ end) _ => let H := fresh "Hb" in destruct x eqn:H
  | |- tri _ _ _ _ => apply tri_keep; [solve [apply _]|intros]
  end.
Ltac seg_run := repeat seg_step.

Section Piden.
Context {E : Env} {K : Matriz}.
#[local] Set Default Proof Using "Type*".
Hypothesis una : forall n, en_rango (m_tecla n).
(** the keypad when the call began *)
Variable (x0 : teclado_st * nat).

(** since then the PINs [ps] were completed *)
Definition van (ps : list (list ascii)) (x : teclado_st * nat) : Prop := uso x0 ps x /\ tec_ok x.1.
(** ... and now, the rest of the state as it was, maybe some more, of which [Q] holds *)
Definition sigue (m : mef_st) (l : list PinUsuario_t) (ps : list (list ascii))
    (Q : list (list ascii) -> Prop) (c : mef_st * list PinUsuario_t * (teclado_st * nat)) : Prop :=
  exists t n ps', c = (m, l, (t, n)) /\ van ps' (t, n) /\ ps ⊆ ps' /\ Q ps'.

Lemma van_borra ps t n :
  van ps (t, n) -> van ps (mkTeclado [] 0 (t_keyHeld t) (t_lastIndex t), n).
Proof using Type. intros [Hu _]. split; [by apply uso_borra|apply tec_ok_reset]. Qed.

Lemma seg_leerPin m l t n ps pin u :
  van ps (t, n) -> tri seguido (m, l, (t, n)) (leerPin pin u) (fun r =>
    sigue m l ps (fun ps' => r.1.1 = 1 /\ r.1.2 ∈ ps' \/ r.1.1 <> 1 /\ r.1.2 = pin)).
Proof.
  intros [Hu Ht]. unfold leerPin. apply tri_bind. intros w [[r p] u'] w' [= Hm Hl Ht1 Hn] H.
  assert (Hk : (mef w', listaPins w') = (m, l)).
  { pose proof (eff_frame _ _ _ _ (tecladoLeerPin_eff [CTec; CDisp] (KI2c :: row_kinds) pin (Some u)
      _ _ w _ w' H)) as Hf. pose proof (Hf CMef) as H1. pose proof (Hf CDb) as H2. simpl in H1, H2.
    rewrite H1, H2, Hm, Hl; [done|apply (proj1 (bool_decide_eq_true _)); reflexivity ..]. }
  pose proof (tri_tecladoLeerPin una t n pin (Some u) Ht w (r, p, u') w') as Hs.
  specialize (Hs ltac:(unfold teclas; by rewrite Ht1, Hn) H).
  destruct (muestra t (tecla_en (S n))) as [e t'] eqn:Hmu. destruct Hs as [Hx Hr]. cbn [fst snd] in Hr.
  destruct (muestra_ok _ _ _ _ Ht Hmu) as [Ht' _].
  pose proof (uso_pin x0 ps t n Hu) as Hu'. rewrite Hmu in Hu'. cbn [fst snd] in Hu'.
  apply tri_ret. exists t', (S n), (ps ++ pin_de e). unfold seguido. rewrite Hk, Hx.
  do 2 (split; [done|]). split; [intros q; rewrite elem_of_app; by left|].
  destruct e as [| |q]; injection Hr as -> ->; [by right..|]. left. split; [done|].
  apply elem_of_app. right. by apply list_elem_of_singleton.
Qed.

Lemma seg_tecla m l t n ps :
  van ps (t, n) -> tri seguido (m, l, (t, n)) tecladoLeerTecla (fun _ => sigue m l ps (fun _ => True)).
Proof.
  intros [Hu Ht] w a w' [= Hm Hl Ht1 Hn] H.
  pose proof (eff_frame _ _ _ _ (tecladoLeerTecla_eff [CTec] row_kinds _ _ w _ w' H)) as Hf.
  pose proof (Hf CMef) as H1. pose proof (Hf CDb) as H2. simpl in H1, H2.
  pose proof (tri_tecladoLeerTecla una t n w a w') as Hs.
  specialize (Hs ltac:(unfold teclas; by rewrite Ht1, Hn) H). unfold seguido.
  rewrite H1, H2, Hm, Hl, Hs by (apply (proj1 (bool_decide_eq_true _)); reflexivity).
  assert (Hok : tec_ok (tec w')) by (eapply tecladoLeerTecla_ok; [|exact H]; by rewrite Ht1).
  unfold teclas in Hs. injection Hs as Hs _. rewrite Hs in Hok.
  eexists _, _, ps. do 2 (split; [done || (split; [by apply uso_tecla|done])|]). done.
Qed.

Lemma sigue_van m l ps (Q : list (list ascii) -> Prop) t n :
  van ps (t, n) -> Q ps -> sigue m l ps Q (m, l, (t, n)).
Proof using Type. intros. by exists t, n, ps. Qed.
Lemma sigue_mas m l ps ps' (Q Q' : list (list ascii) -> Prop) c :
  ps ⊆ ps' -> (forall ps, Q' ps -> Q ps) -> sigue m l ps' Q' c -> sigue m l ps Q c.
Proof using Type.
  intros Hs HQ (t & n & ps1 & -> & Hv & Hs1 & H). exists t, n, ps1. split; [done|].
  split; [done|]. split; [by etrans|by apply HQ].
Qed.

(** *** The menu *)
Lemma seg_leerOpcion m l t n ps :
  van ps (t, n) -> tri seguido (m, l, (t, n)) leerOpcion (fun _ => sigue m l ps (fun _ => True)).
Proof.
  intros Hv. unfold leerOpcion.
  apply (tri_loop _ (fun _ => sigue m l ps (fun _ => True))); [by apply sigue_van|].
  intros _ c (t1 & n1 & ps1 & -> & Hv1 & Hs & _). seg_step. eapply tri_conseq; [by apply seg_tecla|].
  intros k c (t2 & n2 & ps2 & -> & Hv2 & Hs2 & _). seg_step. seg_step. seg_step.
  destruct k as [c|]; [destruct (ord c =? 0)|]; exists t2, n2, ps2;
    (split; [done|]; split; [done|]; split; [by etrans|done]).
Qed.

Lemma seg_leerSubOpcion m l t n ps :
  van ps (t, n) -> tri seguido (m, l, (t, n)) leerSubOpcion (fun _ => sigue m l ps (fun _ => True)).
Proof.
  intros Hv. unfold leerSubOpcion. seg_step. seg_step.
  apply (tri_loop _ (fun _ => sigue m l ps (fun _ => True))); [by apply sigue_van|].
  intros _ c (t1 & n1 & ps1 & -> & Hv1 & Hs & _). seg_step. seg_step. seg_step; [|seg_step; by exists t1, n1, ps1].
  seg_step. eapply tri_conseq; [by apply seg_tecla|].
  intros k c (t2 & n2 & ps2 & -> & Hv2 & Hs2 & _). seg_step. seg_step. seg_step.
  destruct k as [c|]; [destruct (_ || _)|]; exists t2, n2, ps2;
    (split; [done|]; split; [done|]; split; [by etrans|done]).
Qed.

(** one more reading in a loop that asks for a PIN *)
Lemma seg_leerPin_mas m l t n ps0 ps pin u :
  van ps (t, n) -> ps0 ⊆ ps -> tri seguido (m, l, (t, n)) (leerPin pin u) (fun r =>
    sigue m l ps0 (fun ps' => r.1.1 = 1 /\ r.1.2 ∈ ps' \/ r.1.1 <> 1 /\ r.1.2 = pin)).
Proof.
  intros Hv Hs. eapply tri_conseq; [by apply (seg_leerPin m l t n ps)|].
  intros r c. by apply sigue_mas.
Qed.

Lemma seg_pedirPinEn m l t n ps lim :
  van ps (t, n) -> tri seguido (m, l, (t, n)) (pedirPinEn lim) (fun r =>
    sigue m l ps (fun ps' => r.1 = true -> r.2 ∈ ps')).
Proof.
  intros Hv. unfold pedirPinEn. seg_step. seg_step.
  apply (tri_loop _ (fun _ => sigue m l ps (fun _ => True))); [by apply sigue_van|].
  intros [pin x] c (t1 & n1 & ps1 & -> & Hv1 & Hs & _). seg_step.
  eapply tri_conseq; [by apply (seg_leerPin_mas m l t1 n1 ps ps1)|].
  intros [[res p] u] c (t2 & n2 & ps2 & -> & Hv2 & Hs2 & Hr). cbn in Hr. destruct Hr as [[-> Hp]|[Hne _]].
  - change (1 =? 1) with true. cbv iota. seg_step. by exists t2, n2, ps2.
  - rewrite (proj2 (Z.eqb_neq res 1) Hne). seg_run; by exists t2, n2, ps2.
Qed.

Lemma seg_pedirPinAdmin m l t n ps :
  van ps (t, n) -> tri seguido (m, l, (t, n)) pedirPinAdmin (fun ok =>
    sigue m l ps (fun ps' => ok = true -> exists p, p ∈ ps' /\ esPinMaster l p = true)).
Proof.
  intros Hv. unfold pedirPinAdmin. seg_step. seg_step. seg_step. seg_step.
  apply (tri_loop _ (fun _ => sigue m l ps (fun _ => True))); [by apply sigue_van; [apply van_borra|]|].
  intros [pin x] c (t1 & n1 & ps1 & -> & Hv1 & Hs & _). seg_step. seg_step. seg_step; [|seg_step; by exists t1, n1, ps1].
  seg_step. eapply tri_conseq; [by apply (seg_leerPin_mas m l t1 n1 ps ps1)|].
  intros [[res p] u] c (t2 & n2 & ps2 & -> & Hv2 & Hs2 & Hr). cbn in Hr. destruct Hr as [[-> Hp]|[Hne _]].
  - change (1 =? 1) with true. cbv iota. seg_run. exists t2, n2, ps2. eauto 6.
  - rewrite (proj2 (Z.eqb_neq res 1) Hne). seg_run; by exists t2, n2, ps2.
Qed.

(** *** A whole call *)
Definition fin (Q : mef_st -> list PinUsuario_t -> list (list ascii) -> Prop)
    (c : mef_st * list PinUsuario_t * (teclado_st * nat)) : Prop :=
  exists m l t n ps, c = (m, l, (t, n)) /\ van ps (t, n) /\ Q m l ps.

Lemma fin_intro (Q : mef_st -> list PinUsuario_t -> list (list ascii) -> Prop) m l t n ps :
  van ps (t, n) -> Q m l ps -> fin Q (m, l, (t, n)).
Proof using Type. intros. by exists m, l, t, n, ps. Qed.

(** a master PIN is among those typed *)
Definition master_tecleado (l : list PinUsuario_t) (ps : list (list ascii)) : Prop :=
  exists p, p ∈ ps /\ esPinMaster l p = true.

(** the menu opens to a master PIN *)
Definition abre_menu (l : list PinUsuario_t) (m' : mef_st) (_ : list PinUsuario_t)
    (ps : list (list ascii)) : Prop :=
  estadoActual m' = MENU_ADMIN -> master_tecleado l ps.

Lemma seg_accesoAdmin m l t n ps :
  estadoActual m = ESPERANDO_ACCION -> van ps (t, n) ->
  tri seguido (m, l, (t, n)) accesoAdmin (fun _ => fin (abre_menu l)).
Proof.
  intros He Hv. unfold accesoAdmin. seg_step. seg_step. seg_step.
  eapply tri_conseq; [by apply (seg_pedirPinAdmin m l t n ps)|].
  intros ok c (t1 & n1 & ps1 & -> & Hv1 & _ & Hm). destruct ok; seg_run; apply (fin_intro _ _ _ _ _ ps1).
  - done.
  - intros _. by apply Hm.
  - by apply van_borra.
  - unfold abre_menu. by rewrite He.
Qed.

Lemma seg_sondear m l t n ps :
  estadoActual m = ESPERANDO_ACCION -> van ps (t, n) ->
  tri seguido (m, l, (t, n)) sondearSensores (fun _ => fin (abre_menu l)).
Proof using Type.
  intros He Hv. unfold sondearSensores. seg_step. seg_step. seg_step.
  - seg_run. by apply (fin_intro _ _ _ _ _ ps).
  - seg_step. seg_step. seg_step.
    apply (tri_conseq _ _ _ _ (fun _ c => c = (m, l, (t, n)))); [seg_run; done|].
    intros toca c ->. seg_step. apply (tri_conseq _ _ _ _ (fun _ c => exists m', c = (m', l, (t, n)) /\
      estadoActual m' = ESPERANDO_ACCION)).
    { destruct toca; cbn [when]; [|seg_step; eauto]. unfold as608ScanReset, mod_scan.
      seg_run; eauto. }
    intros _ c (m' & -> & He'). seg_step. seg_step. destruct (escaneoActivo m'); cbn [when]; seg_run;
      apply (fin_intro _ _ _ _ _ ps); try done; intros Hx; cbn in Hx; congruence.
Qed.

Lemma seg_esperando m l t n ps :
  estadoActual m = ESPERANDO_ACCION -> van ps (t, n) ->
  tri seguido (m, l, (t, n)) esperando_accion (fun _ => fin (abre_menu l)).
Proof.
  intros He Hv. unfold esperando_accion. seg_step. seg_step. seg_step.
  apply (tri_conseq _ _ _ _ (fun _ c => exists m', c = (m', l, (t, n)) /\
    estadoActual m' = ESPERANDO_ACCION)).
  { destruct (eventoPresencia m); cbn [when]; seg_run; eauto. }
  intros _ c (m' & -> & He'). do 6 seg_step. do 3 seg_step.
  eapply tri_conseq; [by apply (seg_leerPin m' l t n ps)|].
  intros [[res p] u] c (t1 & n1 & ps1 & -> & Hv1 & _ & _). seg_step. seg_step.
  destruct (res =? 1); [seg_run; by apply (fin_intro _ _ _ _ _ ps1)|].
  destruct (res =? -1); [by apply (seg_accesoAdmin _ _ _ _ ps1)|].
  seg_step. seg_step. seg_step; [seg_run; by apply (fin_intro _ _ _ _ _ ps1)|by apply (seg_sondear _ _ _ _ ps1)].
Qed.

(** *** Deletions and synchronisation *)
Definition cambia_menu (l : list PinUsuario_t) (_ : mef_st) (l' : list PinUsuario_t)
    (ps : list (list ascii)) : Prop :=
  l' = l \/ sincronizada l' \/ master_tecleado l ps.

Lemma seg_sincronizar m l t n :
  tri seguido (m, l, (t, n)) sincronizarConServidor (fun _ c =>
    exists l', c = (m, l', (t, n)) /\ (l' = l \/ sincronizada l')).
Proof using Type.
  intros w v w' [= Hm Hl Ht Hn] H. exists (listaPins w'). split.
  - assert (He : Eff [CDb; CDisp; CWifi] calladas sincronizarConServidor)
      by (unfold sincronizarConServidor; eff_solve).
    pose proof (turno_eff _ _ He _ _ _ H) as H0. pose proof (eff_frame _ _ _ _ (He _ _ _ H)) as Hf.
    pose proof (Hf CMef) as H1. pose proof (Hf CTec) as H2. simpl in H1, H2. unfold seguido, teclas.
    rewrite H0, H1, H2, Hm, Ht, Hn; [done|apply (proj1 (bool_decide_eq_true _)); reflexivity ..].
  - destruct (tri_sincronizar (mef w) (listaPins w) (g_scan w) (driver drv0 (trace (hw w))) (tec w)
      w v w' eq_refl H) as [[_ (db' & Hs & Hc)]|[_ Hc]]; injection Hc as _ -> _ _ _; [by right|by left].
Qed.

Lemma seg_borrarTodas m l t n :
  tri seguido (m, l, (t, n)) borrarTodas (fun _ c => exists l', c = (m, l', (t, n))).
Proof using Type. unfold borrarTodas. seg_run; eauto. Qed.

Lemma seg_borrarUna m l t n ps :
  van ps (t, n) -> tri seguido (m, l, (t, n)) borrarUna (fun _ c => exists l' t' n' ps',
    c = (m, l', (t', n')) /\ van ps' (t', n') /\ ps ⊆ ps').
Proof.
  intros Hv. unfold borrarUna, huellaABorrar. seg_step. seg_step. seg_step.
  eapply tri_conseq; [by apply (seg_pedirPinEn m l t n ps)|].
  intros [b p] c (t1 & n1 & ps1 & -> & Hv1 & Hs & _). do 2 seg_step.
  apply (tri_conseq _ _ _ _ (fun _ c => c = (m, l, (t1, n1)))); [seg_run; done|].
  intros o c ->. seg_run; eexists _, t1, n1, ps1; (split; [reflexivity|done]).
Qed.

Lemma seg_opcion_borrar m l t n ps :
  van ps (t, n) -> tri seguido (m, l, (t, n)) opcion_borrar (fun _ => fin (cambia_menu l)).
Proof.
  intros Hv. unfold opcion_borrar. seg_step. seg_step. seg_step.
  eapply tri_conseq; [by apply (seg_pedirPinEn m l t n ps)|].
  intros [b p] c (t1 & n1 & ps1 & -> & Hv1 & _ & Hp). cbn in Hp. seg_step. seg_step.
  destruct (negb b || negb (esPinMaster l p)) eqn:Hor.
  { seg_run. apply (fin_intro _ _ _ _ _ ps1); [done|by left]. }
  apply orb_false_elim in Hor as [Hb%negb_false_iff Hm%negb_false_iff]. specialize (Hp Hb).
  seg_step. seg_step. seg_step. eapply tri_conseq; [by apply (seg_leerSubOpcion m l t1 n1 ps1)|].
  intros o c (t2 & n2 & ps2 & -> & Hv2 & Hs2 & _). seg_step.
  apply (tri_conseq _ _ _ _ (fun _ c => exists l' t' n' ps',
    c = (m, l', (t', n')) /\ van ps' (t', n') /\ ps2 ⊆ ps')).
  - destruct o as [k|]; [destruct (ord k =? 49)|seg_step; eauto 8].
    + eapply tri_conseq; [apply seg_borrarTodas|]. intros _ c [l' ->]. by exists l', t2, n2, ps2.
    + by apply seg_borrarUna.
  - intros _ c (l' & t3 & n3 & ps3 & -> & Hv3 & Hs3). seg_run. apply (fin_intro _ _ _ _ _ ps3); [done|].
    right. right. exists p. split; [by apply Hs3, Hs2|done].
Qed.

Lemma seg_menu m l t n ps :
  van ps (t, n) -> tri seguido (m, l, (t, n)) menu_admin (fun _ => fin (cambia_menu l)).
Proof.
  intros Hv. unfold menu_admin. seg_step. seg_step. seg_step.
  eapply tri_conseq; [by apply (seg_leerOpcion m l t n ps)|].
  intros o c (t1 & n1 & ps1 & -> & Hv1 & _).
  assert (Hq : forall m', fin (cambia_menu l) (m', l, (t1, n1)))
    by (intros m'; apply (fin_intro _ _ _ _ _ ps1); [done|by left]).
  destruct (ord o =? 49); [seg_run; apply Hq|]. destruct (ord o =? 50); [seg_run; apply Hq|].
  destruct (ord o =? 51); [unfold opcion_wifi; seg_run; apply Hq|].
  destruct (ord o =? 52); [by apply (seg_opcion_borrar _ _ _ _ ps1)|].
  destruct (ord o =? 53); [|seg_run; apply Hq].
  seg_step. eapply tri_conseq; [apply seg_sincronizar|]. intros _ c (l' & -> & Hl).
  seg_run. apply (fin_intro _ _ _ _ _ ps1); [done|]. destruct Hl; [by left|by right; left].
Qed.

(** *** Registrations *)

(** given up, or [Q] *)
Definition o_deja (l0 : list PinUsuario_t) (Q : list (list ascii) -> Prop)
    (m : mef_st) (l : list PinUsuario_t) (ps : list (list ascii)) : Prop :=
  l = l0 /\ (estadoActual m = ESPERANDO_ACCION \/ Q ps).

Lemma seg_teclearPin m l t n ps pin x :
  van ps (t, n) -> tri seguido (m, l, (t, n)) (teclearPin pin x) (fun r =>
    fin (o_deja l (fun ps => r.1 ∈ ps))).
Proof.
  intros Hv. unfold teclearPin.
  apply (tri_loop _ (fun _ => fin (fun _ l' _ => l' = l))); [by apply (fin_intro _ _ _ _ _ ps)|].
  intros [p u] c (m1 & l1 & t1 & n1 & ps1 & -> & Hv1 & ->). seg_step.
  eapply tri_conseq; [by apply (seg_leerPin m1 l t1 n1 ps1)|].
  intros [[res p'] u'] c (t2 & n2 & ps2 & -> & Hv2 & Hs2 & Hr). cbn in Hr. destruct Hr as [[-> Hp]|[Hne _]].
  - change (1 =? 1) with true. cbv iota. seg_step. apply (fin_intro _ _ _ _ _ ps2); [done|]. split; [done|by right].
  - rewrite (proj2 (Z.eqb_neq res 1) Hne). unfold abandonar. seg_run; apply (fin_intro _ _ _ _ _ ps2); try done.
    split; [done|by left].
Qed.

Lemma seg_pedirPinUsuario m l t n ps :
  van ps (t, n) -> tri seguido (m, l, (t, n)) pedirPinUsuario (fun p =>
    fin (o_deja l (fun ps => p ∈ ps /\ validarPin l p = true))).
Proof.
  intros Hv. unfold pedirPinUsuario. seg_step. seg_step.
  apply (tri_loop _ (fun _ => fin (fun _ l' _ => l' = l))); [by apply (fin_intro _ _ _ _ _ ps)|].
  intros [[k p] u] c (m1 & l1 & t1 & n1 & ps1 & -> & Hv1 & ->). do 3 seg_step.
  eapply tri_conseq; [by apply (seg_teclearPin m1 l t1 n1 ps1)|].
  intros [p' u'] c (m2 & l2 & t2 & n2 & ps2 & -> & Hv2 & -> & Hp). cbn in Hp. seg_step. seg_step.
  destruct (validarPin l p') eqn:Hval.
  - seg_step. apply (fin_intro _ _ _ _ _ ps2); [done|]. split; [done|]. destruct Hp; [by left|by right].
  - unfold abandonar. seg_run; apply (fin_intro _ _ _ _ _ ps2); try done. split; [done|by left].
Qed.

Lemma seg_esperarTarjeta m l t n :
  tri seguido (m, l, (t, n)) esperarTarjeta (fun _ c => exists m', c = (m', l, (t, n)) /\
    (estadoActual m' = ESPERANDO_ACCION \/ uid_ok (rfid m'))).
Proof using Type.
  unfold esperarTarjeta. do 6 seg_step.
  apply (tri_loop _ (fun _ c => c = (m, l, (t, n)))); [done|]. intros _ c ->.
  seg_step. apply (result_tri _ _ _ _ _ (leer_rfid_str_result 10)). seg_step.
  unfold abandonar. seg_run; try done; eexists; (split; [reflexivity|]); [right|by left]. eauto.
Qed.

(** the card, or the fingerprint ID, of the user whose PIN was typed *)
Definition registra_rfid (l : list PinUsuario_t) (_ : mef_st) (l' : list PinUsuario_t)
    (ps : list (list ascii)) : Prop :=
  l' = l \/ exists p r, p ∈ ps /\ validarPin l p = true /\ uid_ok r /\
              asociarRFIDaPin l p r = Some (true, l').
Definition registra_huella (l : list PinUsuario_t) (_ : mef_st) (l' : list PinUsuario_t)
    (ps : list (list ascii)) : Prop :=
  l' = l \/ exists p id, p ∈ ps /\ validarPin l p = true /\ l' = snd (asociarHuellaaPin l p id).

Lemma seg_registrar_rfid m l t n ps :
  van ps (t, n) -> tri seguido (m, l, (t, n)) registrar_rfid (fun _ => fin (registra_rfid l)).
Proof.
  intros Hv. unfold registrar_rfid, abandonado. do 5 seg_step.
  eapply tri_conseq; [by apply (seg_pedirPinUsuario m l t n ps)|].
  intros p c (m1 & l1 & t1 & n1 & ps1 & -> & Hv1 & -> & Hp). seg_run.
  { apply (fin_intro _ _ _ _ _ ps1); [done|by left]. }
  apply bool_decide_eq_false in Hb. destruct Hp as [|[Hp Hval]]; [done|].
  eapply tri_conseq; [apply seg_esperarTarjeta|]. intros _ c (m2 & -> & Hr).
  unfold abandonar. seg_run.
  { apply (fin_intro _ _ _ _ _ ps1); [done|by left]. }
  all: apply bool_decide_eq_false in Hb0; destruct Hr as [|Hr]; [done|];
    apply (fin_intro _ _ _ _ _ ps1); [done|]; right; exists p, (rfid m2);
    match goal with Ha : asociarRFIDaPin _ _ _ = Some ?x |- _ =>
      destruct x as [b db']; pose proof (asociarRFID_true _ _ _ _ _ Hval Ha) as -> end; done.
Qed.

Lemma seg_registrar_huella m l t n ps :
  van ps (t, n) -> tri seguido (m, l, (t, n)) registrar_huella (fun _ => fin (registra_huella l)).
Proof.
  intros Hv. unfold registrar_huella, registrar_en, abandonado, abandonar. cbv zeta. do 3 seg_step.
  eapply tri_conseq; [by apply (seg_pedirPinUsuario m l t n ps)|].
  intros p c (m1 & l1 & t1 & n1 & ps1 & -> & Hv1 & -> & Hp).
  assert (Hq : forall m', fin (registra_huella l) (m', l, (t1, n1)))
    by (intros m'; apply (fin_intro _ _ _ _ _ ps1); [done|by left]).
  seg_run; try apply Hq; apply bool_decide_eq_false in Hb; destruct Hp as [|[Hp Hval]]; try done;
    (apply (fin_intro _ _ _ _ _ ps1); [done|]); right; eauto.
Qed.
End Piden.

(** ** The theorem *)
Section Teoremas.
Context {E : Env} {K : Matriz}.

(** what was typed in a call whose history is followed *)
Lemma fin_run {A} (f : M A) (Q : mef_st -> list PinUsuario_t -> list (list ascii) -> Prop) w a w' :
  tec_ok (tec w) ->
  (van (teclas w) [] (teclas w) -> tri seguido (mef w, listaPins w, teclas w) f (fun _ => fin (teclas w) Q)) ->
  f w = Ret a w' -> exists ps, uso (teclas w) ps (teclas w') /\ Q (mef w') (listaPins w') ps.
Proof.
  intros Ht Hf H. destruct (Hf ltac:(split; [constructor|done]) w a w' eq_refl H)
    as (m & l & t & n & ps & Hc & [Hu _] & HQ).
  exists ps. pose proof (f_equal snd Hc) as Hx. pose proof (f_equal fst Hc) as Hy. cbn in Hx, Hy.
  injection Hy as -> ->. by rewrite Hx.
Qed.

Lemma mefUpdate_estado w : mefUpdate w =
  match estadoActual (mef w) with
  | REPOSO => reposo w
  | ESPERANDO_ACCION => esperando_accion w
  | LEER_Y_VALIDAR_HUELLA => leer_y_validar_huella w
  | VALIDAR_RFID => validar_rfid w
  | VALIDAR => validar w
  | SENSOR_CIERRE => sensor_cierre w
  | BLOQUEADO => Ret tt w
  | MENU_ADMIN => menu_admin w
  | REGISTRAR_RFID => registrar_rfid w
  | REGISTRAR_HUELLA => registrar_huella w
  end.
Proof. unfold mefUpdate, mbind, M_bind, gets. by destruct (estadoActual (mef w)). Qed.

(** the changes of the table that the transitions allow *)
Lemma paso_tabla c c' :
  paso_de c c' ->
  c_db c' = c_db c \/
  estadoActual (c_mef c) = REPOSO /\ sincronizada (c_db c') /\
    dbl_gtb (ultimaVersionConocida (c_mef c')) (ultimaVersionConocida (c_mef c)) = true \/
  estadoActual (c_mef c) = MENU_ADMIN /\ (borrado (c_db c) (c_db c') \/ sincronizada (c_db c')) \/
  estadoActual (c_mef c) = REGISTRAR_RFID \/ estadoActual (c_mef c) = REGISTRAR_HUELLA.
Proof. destruct c as [m db g d]. intros Hp. unfold paso_de in Hp. simpl in *. destruct Hp; simpl; auto 10. Qed.

Lemma paso_menu_desde c c' :
  paso_de c c' -> estadoActual (c_mef c') = MENU_ADMIN ->
  estadoActual (c_mef c) = MENU_ADMIN \/ estadoActual (c_mef c) = ESPERANDO_ACCION.
Proof.
  intros Hp%paso_arco He. rewrite He in Hp. inversion Hp; subst; auto;
    match goal with H : _ \/ _ |- _ => destruct H; congruence end.
Qed.

Hypothesis una : forall n, en_rango (m_tecla n).

(** C11: nothing reaches the user table without the PIN it takes.  With at most one key of
    the keypad held down at a time, whatever else the environment does: the administrator's
    menu opens only in a call in which a master PIN was typed, and the table
    changes only when waking up with a newer version on the server (it becomes
    the list received), in the menu (a synchronisation, or a deletion in a call in which a
    master PIN was typed again), and in the two registration states (the card or the
    fingerprint ID of the user whose valid PIN was typed in that call).  A PIN typed has
    five digits, which the keys read in the call showed in that order after those that the
    entry held when it began. *)
Theorem tabla_protegida w w'
    (Hw : en_marcha w) (H : mefUpdate w = Ret tt w') :
  (estadoActual (mef w) <> MENU_ADMIN -> estadoActual (mef w') = MENU_ADMIN ->
     exists p, tecleado w w' p /\ esPinMaster (listaPins w) p = true) /\
  (listaPins w' = listaPins w \/
   estadoActual (mef w) = REPOSO /\ sincronizada (listaPins w') /\
     dbl_gtb (ultimaVersionConocida (mef w')) (ultimaVersionConocida (mef w)) = true \/
   estadoActual (mef w) = MENU_ADMIN /\
     (sincronizada (listaPins w') \/
      borrado (listaPins w) (listaPins w') /\
      exists p, tecleado w w' p /\ esPinMaster (listaPins w) p = true) \/
   exists p, tecleado w w' p /\ validarPin (listaPins w) p = true /\
     (estadoActual (mef w) = REGISTRAR_RFID /\
        (exists r, uid_ok r /\ asociarRFIDaPin (listaPins w) p r = Some (true, listaPins w')) \/
      estadoActual (mef w) = REGISTRAR_HUELLA /\
        (exists id, listaPins w' = snd (asociarHuellaaPin (listaPins w) p id)))) /\
  (forall p, tecleado w w' p -> pin_ok p /\
     p `sublist_of` t_pin (tec w) ++ mostradas (turno_de w) (turno_de w' - turno_de w)).
Proof using una.
  destruct (mefUpdate_post _ _ Hw H) as [Hp _]. destruct Hw as [Ht _]. rewrite mefUpdate_estado in H.
  split; [|split].
  - intros He He'. destruct (paso_menu_desde _ _ Hp He') as [|He1]; [done|]. cbn in He1. rewrite He1 in H.
    destruct (fin_run _ _ _ _ _ Ht (seg_esperando una _ _ _ _ _ _ He1) H) as (ps & Hu & Hm).
    destruct (Hm He') as (p & Hps & Hmp). exists p. split; [by exists ps|done].
  - destruct (paso_tabla _ _ Hp) as [Hs|[Hs|[[He Hs]|[He|He]]]]; cbn in *; auto; rewrite He in H.
    + destruct (fin_run _ _ _ _ _ Ht (seg_menu una _ _ _ _ _ _) H) as (ps & Hu & [Hl|[Hl|(p & Hps & Hm)]]); [by left|..];
        right; right; left; (split; [done|]); [by left|].
      destruct Hs as [Hs|Hs]; [|by left]. right. split; [done|]. exists p. split; [by exists ps|done].
    + destruct (fin_run _ _ _ _ _ Ht (seg_registrar_rfid una _ _ _ _ _ _) H)
        as (ps & Hu & [Hl|(p & r & Hps & Hv & Hr & Hl)]); [by left|].
      right; right; right. exists p. split; [by exists ps|]. split; [done|]. left. eauto.
    + destruct (fin_run _ _ _ _ _ Ht (seg_registrar_huella una _ _ _ _ _ _) H)
        as (ps & Hu & [Hl|(p & id & Hps & Hv & Hl)]); [by left|].
      right; right; right. exists p. split; [by exists ps|]. split; [done|]. right. eauto.
  - intros p (ps & Hu & Hps). destruct (uso_ok _ _ _ Hu Ht) as [_ Hok].
    split; [by apply (proj1 (Forall_forall _ _) Hok)|]. by apply (uso_sublista _ _ _ Hu).
Qed.
End Teoremas.

(** ** A board with a keypad and a fingerprint sensor *)

(** somebody asks for the menu with [*] and types the PIN 11111 *)
Definition teclea_menu (n : nat) : option (Z * Z) :=
  nth n (None :: Some (3, 0) :: None :: concat (replicate 5 [Some (0, 0); None])) None.
(** ... chooses "4=Borrar Huellas", types it again and chooses "1=BORRAR TODAS" *)
Definition teclea_borrar (n : nat) : option (Z * Z) :=
  nth n (None :: Some (1, 0) :: None :: concat (replicate 6 [Some (0, 0); None])) None.
Definition mundo_admin (e : EstadoMEF_t) (t : nat -> option (Z * Z)) : @world (env_dedo t) :=
  @mkWorld (env_dedo _) (@mkHw (env_dedo _) (mkFilas true true true true 0, mkSensor [] [] 0 0 true) 5000 true [])
    (mkDisplay (replicate 1024 0) 0 0) (mkTeclado [] 0 false 65535) listaPins_inicial false scan_zero
    (set_presencia 5000 (mef_en e)).

Lemma tabla_protegida_witness :
  returns (mefUpdate (mundo_admin ESPERANDO_ACCION teclea_menu)) (fun _ w' =>
    estadoActual (mef w') = MENU_ADMIN /\
    exists p, tecleado (mundo_admin ESPERANDO_ACCION teclea_menu) w' p /\
      esPinMaster listaPins_inicial p = true) /\
  returns (mefUpdate (mundo_admin MENU_ADMIN teclea_borrar)) (fun _ w' =>
    validarHuella (listaPins w') (Some $"0001") = false /\
    (sincronizada (listaPins w') \/
     exists p, tecleado (mundo_admin MENU_ADMIN teclea_borrar) w' p /\
       esPinMaster listaPins_inicial p = true)).
Proof.
  split; run_as a w H; destruct a.
  - assert (He : returns (mefUpdate (mundo_admin ESPERANDO_ACCION teclea_menu))
      (fun _ w' => estadoActual (mef w') = MENU_ADMIN)) by (vm_compute; reflexivity).
    rewrite H in He. split; [exact He|].
    destruct (@tabla_protegida (env_dedo teclea_menu) (matriz_dedo _)
      ltac:(intros n; do 13 (destruct n as [|n]; [by vm_compute; repeat split|]); by destruct n)
      (mundo_admin ESPERANDO_ACCION teclea_menu) w
      (conj (tec_ok_reset false 65535) (conj eq_refl eq_refl)) H) as [Hp _].
    apply Hp; [discriminate|exact He].
  - assert (Hv : returns (mefUpdate (mundo_admin MENU_ADMIN teclea_borrar))
      (fun _ w' => validarHuella (listaPins w') (Some $"0001") = false)) by (vm_compute; reflexivity).
    rewrite H in Hv. cbn [returns] in Hv. split; [exact Hv|].
    destruct (@tabla_protegida (env_dedo teclea_borrar) (matriz_dedo _)
      ltac:(intros n; do 15 (destruct n as [|n]; [by vm_compute; repeat split|]); by destruct n)
      (mundo_admin MENU_ADMIN teclea_borrar) w
      (conj (tec_ok_reset false 65535) (conj eq_refl eq_refl)) H)
      as (_ & [Hl|[[He _]|[[_ [Hs|[_ Hp]]]|(p & _ & _ & [[He _]|[He _]])]]] & _);
      try discriminate He.
    + exfalso. rewrite Hl in Hv. vm_compute in Hv. discriminate Hv.
    + by left.
    + right. exact Hp.
Defined.

(** the keys 1, 1, 5, 0 and 9, held and released for a few readings each *)
Definition pulsaciones : list (Z * nat * nat) :=
  [(0, 3%nat, 0%nat); (0, 0%nat, 2%nat); (4, 1%nat, 0%nat); (10, 4%nat, 3%nat); (8, 0%nat, 0%nat)].
Definition teclea_11509 (n : nat) : option (Z * Z) :=
  (fun i => (i / 3, i mod 3)) <$> nth n (None :: concat (pulsacion <$> pulsaciones)) None.

Lemma pin_tecleado_witness :
  exists rs w', leerPines 23 $"" None (mundo_admin ESPERANDO_ACCION teclea_11509) = Ret rs w' /\
    filter decide_algo rs = [(1, $"11509")] /\ t_pin (tec w') = [].
Proof.
  destruct (@pin_tecleado (env_dedo teclea_11509) (vivo_dedo _) (matriz_dedo _)
    ltac:(intros n; do 25 (destruct n as [|n]; [by vm_compute; repeat split|]); by destruct n)
    (mundo_admin ESPERANDO_ACCION teclea_11509) 23 pulsaciones 65535 $"" None)
    as (rs & w' & H1 & _ & H2 & H3 & _).
  - by split.
  - reflexivity.
  - repeat constructor.
  - reflexivity.
  - vm_compute. reflexivity.
  - exists rs, w'. split; [exact H1|]. split; [rewrite H2; reflexivity|by rewrite H3].
Defined.
