(* ===== verification/Circular.v ===== *)
(** * sapi_circularBuffer.c: a ring of fixed-size elements

    The structure [circularBuffer_t] over its byte array, the two flags of the file that
    all buffers share, reading and writing with the callbacks of an empty and a full
    buffer.  The theorem: a buffer is the bounded queue it stands for. *)

From Stdlib Require Import ZArith Lia Bool.
From stdpp Require Import base list numbers.
From stdpp Require Import options.
From S2P Require Import Prelude.

Inductive circularBufferStatus_t : Type :=
  | CIRCULAR_BUFFER_NORMAL
  | CIRCULAR_BUFFER_EMPTY
  | CIRCULAR_BUFFER_FULL.

(** the flags of the file: whether some buffer has had its callback set *)
Record cb_flags : Type := mkFlags {
  isSetEmptyBufferCallback : bool;
  isSetFullBufferCallback : bool
}.

(** A callback is known by a number; [None] is a pointer that was never set. *)
Record circularBuffer_t : Type := mkCB {
  memoryAddress : list Z;
  amountOfElements : Z;
  elementSize : Z;
  readIndex : Z;
  writeIndex : Z;
  status : circularBufferStatus_t;
  emptyBufferCallback : option Z;
  fullBufferCalback : option Z
}.

(** the array of [circularBufferNew] *)
Definition circularBufferNew (elementSize amountOfElements : Z) : list Z :=
  replicate (Z.to_nat ((amountOfElements + 1) * elementSize)) 0.

Definition circularBuffer_Init (b : circularBuffer_t) (mem : list Z) (amount size : Z) : circularBuffer_t :=
  mkCB mem (u32 (amount + 1)) size 0 0 CIRCULAR_BUFFER_EMPTY
       (emptyBufferCallback b) (fullBufferCalback b).

(** a null function changes nothing *)
Definition circularBufferEmptyBufferCallbackSet (g : cb_flags) (b : circularBuffer_t) (f : option Z) :
    cb_flags * circularBuffer_t :=
  match f with
  | None => (g, b)
  | Some _ => (mkFlags true (isSetFullBufferCallback g),
               mkCB (memoryAddress b) (amountOfElements b) (elementSize b) (readIndex b)
                    (writeIndex b) (status b) f (fullBufferCalback b))
  end.
Definition circularBufferFullBufferCallbackSet (g : cb_flags) (b : circularBuffer_t) (f : option Z) :
    cb_flags * circularBuffer_t :=
  match f with
  | None => (g, b)
  | Some _ => (mkFlags (isSetEmptyBufferCallback g) true,
               mkCB (memoryAddress b) (amountOfElements b) (elementSize b) (readIndex b)
                    (writeIndex b) (status b) (emptyBufferCallback b) f)
  end.

(** calling a callback, when the file's flag says there is one *)
Definition llamar (flag : bool) (f : option Z) : res (list Z) :=
  if flag then match f with Some i => Bien [i] | None => Indef end else Bien [].

(** [for( i=0; i<elementSize; i++ ) dst[ d + i ] = src[ s + i ]], with [i] of eight bits *)
Fixpoint copiar (n : nat) (i : Z) (dst : list Z) (d : Z) (src : list Z) (s : Z) : res (list Z) :=
  match n with
  | O => Bien dst
  | S n =>
      v ← acceso (src !! Z.to_nat (u32 (s + i)));
      if u32 (d + i) <? Z.of_nat (length dst)
      then copiar n (i + 1) (<[Z.to_nat (u32 (d + i)) := v]> dst) d src s
      else Indef
  end.
Definition copiar_elemento (size : Z) (dst : list Z) (d : Z) (src : list Z) (s : Z) : res (list Z) :=
  if 255 <? size then Nunca else copiar (Z.to_nat size) 0 dst d src s.

Definition siguiente (b : circularBuffer_t) (i : Z) : Z :=
  u32 (i + elementSize b) mod u32 (amountOfElements b * elementSize b).

Definition con_estado (s : circularBufferStatus_t) (b : circularBuffer_t) : circularBuffer_t :=
  mkCB (memoryAddress b) (amountOfElements b) (elementSize b) (readIndex b) (writeIndex b) s
       (emptyBufferCallback b) (fullBufferCalback b).

(** the status returned, the callbacks called, [dataByte] and the buffer after the call *)
Definition circularBufferRead (g : cb_flags) (b : circularBuffer_t) (dataByte : list Z) :
    res (circularBufferStatus_t * list Z * list Z * circularBuffer_t) :=
  if readIndex b =? writeIndex b then
    let b := con_estado CIRCULAR_BUFFER_EMPTY b in
    calls ← llamar (isSetEmptyBufferCallback g) (emptyBufferCallback b);
    Bien (status b, calls, dataByte, b)
  else
    let b := con_estado CIRCULAR_BUFFER_NORMAL b in
    dataByte ← copiar_elemento (elementSize b) dataByte 0 (memoryAddress b) (readIndex b);
    if u32 (amountOfElements b * elementSize b) =? 0 then Indef
    else
      let b := mkCB (memoryAddress b) (amountOfElements b) (elementSize b)
                    (siguiente b (readIndex b)) (writeIndex b) (status b)
                    (emptyBufferCallback b) (fullBufferCalback b) in
      Bien (status b, [], dataByte, b).

Definition circularBufferWrite (g : cb_flags) (b : circularBuffer_t) (dataByte : list Z) :
    res (circularBufferStatus_t * list Z * circularBuffer_t) :=
  if u32 (amountOfElements b * elementSize b) =? 0 then Indef
  else if siguiente b (writeIndex b) =? readIndex b then
    let b := con_estado CIRCULAR_BUFFER_FULL b in
    calls ← llamar (isSetFullBufferCallback g) (fullBufferCalback b);
    Bien (status b, calls, b)
  else
    let b := con_estado CIRCULAR_BUFFER_NORMAL b in
    mem ← copiar_elemento (elementSize b) (memoryAddress b) (writeIndex b) dataByte 0;
    let b := mkCB mem (amountOfElements b) (elementSize b) (readIndex b)
                  (siguiente b (writeIndex b)) (status b)
                  (emptyBufferCallback b) (fullBufferCalback b) in
    Bien (status b, [], b).

(** ** The queue it stands for *)

(** one operation on a buffer, with the bytes it brings or the memory it fills *)
Inductive op : Type :=
  | OpRead (dataByte : list Z)
  | OpWrite (dataByte : list Z).

(** what the caller sees: the status, the callbacks called, the bytes of [dataByte] *)
Definition salida : Type := circularBufferStatus_t * list Z * list Z.

Definition opera (g : cb_flags) (b : circularBuffer_t) (o : op) : res (salida * circularBuffer_t) :=
  match o with
  | OpRead d => r ← circularBufferRead g b d; let '(s, c, d', b') := r in Bien ((s, c, d'), b')
  | OpWrite d => r ← circularBufferWrite g b d; let '(s, c, b') := r in Bien ((s, c, d), b')
  end.

Fixpoint operan (g : cb_flags) (b : circularBuffer_t) (os : list op) : res (list salida) :=
  match os with
  | [] => Bien []
  | o :: os =>
      r ← opera g b o;
      rs ← operan g (snd r) os;
      Bien (fst r :: rs)
  end.

Section Cola.
(** [amount] elements of [size] bytes, and the callbacks of this buffer *)
Context (amount size : Z) (vacia llena : list Z).

(** the bounded queue *)
Definition cola_opera (q : list (list Z)) (o : op) : salida * list (list Z) :=
  match o with
  | OpRead d =>
      match q with
      | [] => ((CIRCULAR_BUFFER_EMPTY, vacia, d), [])
      | x :: q' => ((CIRCULAR_BUFFER_NORMAL, [], x ++ drop (Z.to_nat size) d), q')
      end
  | OpWrite d =>
      if Z.of_nat (length q) <? amount
      then ((CIRCULAR_BUFFER_NORMAL, [], d), q ++ [take (Z.to_nat size) d])
      else ((CIRCULAR_BUFFER_FULL, llena, d), q)
  end.

Fixpoint cola_operan (q : list (list Z)) (os : list op) : list salida :=
  match os with
  | [] => []
  | o :: os => let '(s, q') := cola_opera q o in s :: cola_operan q' os
  end.
End Cola.

(** ** The invariant *)

Lemma copiar_run n : forall i dst d src s,
  0 <= i -> 0 <= d -> 0 <= s -> d + i + Z.of_nat n <= Z.of_nat (length dst) ->
  s + i + Z.of_nat n <= Z.of_nat (length src) ->
  Z.of_nat (length dst) < 2 ^ 32 -> Z.of_nat (length src) < 2 ^ 32 ->
  copiar n i dst d src s =
  Bien (take (Z.to_nat (d + i)) dst ++ take n (drop (Z.to_nat (s + i)) src) ++
        drop (Z.to_nat (d + i) + n) dst).
Proof.
  induction n as [|n IH]; intros i dst d src s Hi Hd Hs H1 H2 H3 H4; cbn [copiar].
  - rewrite take_0, Nat.add_0_r. simpl. by rewrite take_drop.
  - rewrite !u32_small by lia.
    destruct (lookup_lt_is_Some_2 src (Z.to_nat (s + i))) as [v Hv]; [lia|]. rewrite Hv. cbn [acceso mbind res_bind].
    rewrite (proj2 (Z.ltb_lt _ _)) by lia. rewrite IH by (rewrite ?length_insert; lia).
    f_equal. rewrite !Z.add_assoc, (Z2Nat.inj_add (d + i)), (Z2Nat.inj_add (s + i)) by lia. change (Z.to_nat 1) with 1%nat.
    rewrite (drop_S src v (Z.to_nat (s + i)) Hv). cbn [take]. rewrite !Nat.add_1_r.
    rewrite (take_S_r _ _ v) by (apply list_lookup_insert_eq; lia).
    rewrite take_insert_ge by lia. rewrite drop_insert_lt by lia.
    rewrite <- app_assoc. simpl. do 4 f_equal. lia.
Qed.

(** positions on the ring of [N] slots *)
Definition gira (N a : Z) : Z := if a <? N then a else a - N.

Lemma gira_mod N a : 0 <= a < 2 * N -> a mod N = gira N a.
Proof.
  intros H. unfold gira. destruct (Z.ltb_spec a N); [apply Z.mod_small; lia|].
  symmetry. apply (Z.mod_unique _ _ 1); lia.
Qed.

(** the bytes of slot [i] *)
Definition ranura (size : Z) (mem : list Z) (i : Z) : list Z :=
  take (Z.to_nat size) (drop (Z.to_nat (i * size)) mem).

Lemma length_ranura size mem i :
  0 <= i -> 0 <= size -> (i + 1) * size <= Z.of_nat (length mem) -> length (ranura size mem i) = Z.to_nat size.
Proof. intros. unfold ranura. rewrite length_take, length_drop. nia. Qed.

(** writing one slot *)
Definition pon_ranura (size : Z) (mem : list Z) (i : Z) (x : list Z) : list Z :=
  take (Z.to_nat (i * size)) mem ++ x ++ drop (Z.to_nat (i * size) + Z.to_nat size) mem.

Lemma length_pon size mem i x :
  0 <= i -> 0 <= size -> (i + 1) * size <= Z.of_nat (length mem) -> length x = Z.to_nat size ->
  length (pon_ranura size mem i x) = length mem.
Proof. intros. unfold pon_ranura. rewrite !length_app, length_take, length_drop. nia. Qed.

Lemma ranura_pon size mem i x j :
  0 <= i -> 0 <= j -> 0 <= size -> (i + 1) * size <= Z.of_nat (length mem) ->
  length x = Z.to_nat size ->
  ranura size (pon_ranura size mem i x) j = if i =? j then x else ranura size mem j.
Proof.
  intros Hi Hj Hs Hl Hx. unfold ranura, pon_ranura.
  assert (Hn : (Z.to_nat (i * size) <= length mem)%nat) by nia.
  assert (Ht : length (take (Z.to_nat (i * size)) mem) = Z.to_nat (i * size)) by (rewrite length_take; lia).
  destruct (Z.eqb_spec i j) as [<-|Hne].
  - rewrite drop_app_length' by lia. by rewrite take_app_length'.
  - apply list_eq. intros k. destruct (decide (k < Z.to_nat size)%nat) as [Hk|Hk].
    2: { rewrite !lookup_take_ge by lia. done. }
    rewrite !lookup_take_lt, !lookup_drop by done.
    destruct (Z.lt_ge_cases j i) as [Hji|Hij].
    + rewrite lookup_app_l by (rewrite Ht; nia). rewrite lookup_take_lt by nia. done.
    + rewrite lookup_app_r by (rewrite Ht; nia). rewrite lookup_app_r by (rewrite Ht, Hx; nia).
      rewrite lookup_drop, Ht, Hx. f_equal. nia.
Qed.

Section Invariante.
Context (amount size : Z) (g : cb_flags).
Hypothesis (Ha : 0 <= amount) (Hsz : 1 <= size <= 255) (Hmem : (amount + 1) * size < 2 ^ 32).
#[local] Set Default Proof Using "All".

(** [b] holds the queue [q], its oldest element in slot [r] *)
Record contiene (b : circularBuffer_t) (q : list (list Z)) (r : Z) : Prop := {
  c_amount : amountOfElements b = amount + 1;
  c_size : elementSize b = size;
  c_mem : Z.of_nat (length (memoryAddress b)) = (amount + 1) * size;
  c_r : 0 <= r < amount + 1;
  c_len : Z.of_nat (length q) <= amount;
  c_read : readIndex b = r * size;
  c_write : writeIndex b = gira (amount + 1) (r + Z.of_nat (length q)) * size;
  c_datos : forall k x, q !! k = Some x ->
    x = ranura size (memoryAddress b) (gira (amount + 1) (r + Z.of_nat k))
}.

Lemma gira_rango a : 0 <= a < 2 * (amount + 1) -> 0 <= gira (amount + 1) a < amount + 1.
Proof. intros H. unfold gira. destruct (Z.ltb_spec a (amount + 1)); lia. Qed.

Lemma ranura_dentro a (mem : list Z) :
  0 <= a < 2 * (amount + 1) -> Z.of_nat (length mem) = (amount + 1) * size ->
  (gira (amount + 1) a + 1) * size <= Z.of_nat (length mem).
Proof. intros H Hl. pose proof (gira_rango a H). nia. Qed.

Lemma siguiente_gira b i :
  amountOfElements b = amount + 1 -> elementSize b = size -> 0 <= i < amount + 1 ->
  siguiente b (i * size) = gira (amount + 1) (i + 1) * size.
Proof.
  intros Hn Hs Hi. unfold siguiente. rewrite Hn, Hs. rewrite !u32_small by nia.
  replace (i * size + size) with ((i + 1) * size) by lia.
  rewrite Z.mul_mod_distr_r by lia. by rewrite gira_mod by lia.
Qed.

#[local] Ltac giros :=
  unfold gira in *;
  repeat match goal with
         | |- context [?a <? amount + 1] => destruct (Z.ltb_spec a (amount + 1))
         | H : context [?a <? amount + 1] |- _ => destruct (Z.ltb_spec a (amount + 1))
         end; lia.

Lemma leer_cola b q r d :
  contiene b q r -> size <= Z.of_nat (length d) < 2 ^ 32 ->
  match q with
  | [] => circularBufferRead g b d =
          (c ← llamar (isSetEmptyBufferCallback g) (emptyBufferCallback b);
           Bien (CIRCULAR_BUFFER_EMPTY, c, d, con_estado CIRCULAR_BUFFER_EMPTY b))
  | x :: q' => exists b', circularBufferRead g b d =
      Bien (CIRCULAR_BUFFER_NORMAL, [], x ++ drop (Z.to_nat size) d, b') /\
      contiene b' q' (gira (amount + 1) (r + 1)) /\
      emptyBufferCallback b' = emptyBufferCallback b /\ fullBufferCalback b' = fullBufferCalback b
  end.
Proof.
  intros [Hn Hs Hm Hr Hq Hri Hwi Hd] Hdl. unfold circularBufferRead. rewrite Hri, Hwi.
  destruct q as [|x q'].
  - simpl. rewrite Z.add_0_r. unfold gira. rewrite (proj2 (Z.ltb_lt r (amount + 1))), Z.eqb_refl by lia. done.
  - cbn [length] in *. destruct (Z.eqb_spec (r * size) (gira (amount + 1) (r + Z.of_nat (S (length q'))) * size)) as [He|_].
    { exfalso. assert (r = gira (amount + 1) (r + Z.of_nat (S (length q')))) by nia.
      giros. }
    cbn [con_estado elementSize memoryAddress readIndex amountOfElements writeIndex status
         emptyBufferCallback fullBufferCalback].
    rewrite Hs, Hri. unfold copiar_elemento. rewrite (proj2 (Z.ltb_ge 255 size)) by lia.
    pose proof (ranura_dentro r (memoryAddress b) ltac:(lia) Hm) as Hin.
    unfold gira in Hin. rewrite (proj2 (Z.ltb_lt r (amount + 1))) in Hin by lia.
    rewrite copiar_run by lia. cbn [mbind res_bind]. rewrite Hn, u32_small by nia.
    rewrite (proj2 (Z.eqb_neq ((amount + 1) * size) 0)) by nia.
    specialize (Hd O x eq_refl) as Hx. rewrite Z.add_0_r in Hx. unfold gira in Hx.
    rewrite (proj2 (Z.ltb_lt r (amount + 1))) in Hx by lia.
    eexists. split; [|split].
    + rewrite !Z.add_0_r. fold (ranura size (memoryAddress b) r). rewrite <- Hx.
      change (Z.to_nat 0) with O. rewrite take_0. cbn [app Nat.add]. reflexivity.
    + constructor; cbn [amountOfElements elementSize memoryAddress readIndex writeIndex]; try done.
      * apply gira_rango. lia.
      * lia.
      * match goal with |- siguiente ?b' _ = _ => by apply (siguiente_gira b') end.
      * f_equal. giros.
      * intros k y Hy. rewrite (Hd (S k) y Hy). f_equal.
        apply lookup_lt_Some in Hy. clear Hd Hx. giros.
    + done.
Qed.

Lemma escribir_cola b q r d :
  contiene b q r -> size <= Z.of_nat (length d) < 2 ^ 32 ->
  if Z.of_nat (length q) <? amount then exists b',
      circularBufferWrite g b d = Bien (CIRCULAR_BUFFER_NORMAL, [], b') /\
      contiene b' (q ++ [take (Z.to_nat size) d]) r /\
      emptyBufferCallback b' = emptyBufferCallback b /\ fullBufferCalback b' = fullBufferCalback b
  else circularBufferWrite g b d =
       (c ← llamar (isSetFullBufferCallback g) (fullBufferCalback b);
        Bien (CIRCULAR_BUFFER_FULL, c, con_estado CIRCULAR_BUFFER_FULL b)).
Proof.
  intros [Hn Hs Hm Hr Hq Hri Hwi Hd] Hdl. unfold circularBufferWrite. rewrite Hn, Hs.
  rewrite u32_small by nia. rewrite (proj2 (Z.eqb_neq ((amount + 1) * size) 0)) by nia.
  set (w := gira (amount + 1) (r + Z.of_nat (length q))) in *.
  assert (Hw : 0 <= w < amount + 1) by (apply gira_rango; lia).
  rewrite Hwi, siguiente_gira by done. rewrite Hri.
  assert (Hfull : (gira (amount + 1) (w + 1) * size =? r * size) = negb (Z.of_nat (length q) <? amount)).
  { assert (Hiff : gira (amount + 1) (w + 1) = r <-> Z.of_nat (length q) = amount).
    { unfold w. giros. }
    destruct (Z.eqb_spec (gira (amount + 1) (w + 1) * size) (r * size)) as [He|He];
      destruct (Z.ltb_spec (Z.of_nat (length q)) amount); simpl; try done; exfalso.
    - assert (gira (amount + 1) (w + 1) = r) by nia. lia.
    - apply He. f_equal. apply Hiff. lia. }
  rewrite Hfull. destruct (Z.ltb_spec (Z.of_nat (length q)) amount) as [Hlt|Hge]; cbn [negb]; [|done].
  cbn [con_estado elementSize memoryAddress readIndex amountOfElements writeIndex status
       emptyBufferCallback fullBufferCalback].
  unfold copiar_elemento. rewrite Hs, Hwi, (proj2 (Z.ltb_ge 255 size)) by lia.
  pose proof (ranura_dentro (r + Z.of_nat (length q)) (memoryAddress b) ltac:(lia) Hm) as Hin. fold w in Hin.
  rewrite copiar_run by (try lia; nia). cbn [mbind res_bind]. rewrite !Z.add_0_r. cbn [Z.to_nat]. rewrite drop_0.
  set (x := take (Z.to_nat size) d).
  assert (Hx : length x = Z.to_nat size) by (unfold x; rewrite length_take; lia).
  fold (pon_ranura size (memoryAddress b) w x).
  eexists. split; [reflexivity|]. split; [|done].
  constructor; cbn [amountOfElements elementSize memoryAddress readIndex writeIndex]; try done.
  - rewrite length_pon by lia. done.
  - rewrite length_app. simpl. lia.
  - match goal with |- siguiente ?b' _ = _ => rewrite (siguiente_gira b') by done end. f_equal.
    rewrite length_app. simpl. unfold w. giros.
  - intros k y Hy. apply lookup_app_Some in Hy as [Hy|[Hk Hy]].
    + apply lookup_lt_Some in Hy as Hk. rewrite (Hd k y Hy).
      pose proof (gira_rango (r + Z.of_nat k) ltac:(lia)).
      rewrite ranura_pon by lia. rewrite (proj2 (Z.eqb_neq _ _)); [done|].
      unfold w. giros.
    + apply list_lookup_singleton_Some in Hy as [Hk0 <-].
      replace k with (length q) by lia. fold w. rewrite ranura_pon by lia. by rewrite Z.eqb_refl.
Qed.
End Invariante.

(** ** The buffer is the bounded queue *)

Definition datos_de (o : op) : list Z := match o with OpRead d | OpWrite d => d end.

(** the callbacks called, when every flag that is set has its pointer in this buffer *)
Definition llamadas (flag : bool) (f : option Z) : list Z := if flag then option_list f else [].
Definition puntero_ok (flag : bool) (f : option Z) : Prop := flag = true -> is_Some f.

Lemma llamar_ok flag f : puntero_ok flag f -> llamar flag f = Bien (llamadas flag f).
Proof. destruct flag; [|done]. intros H. by destruct (H eq_refl) as [i ->]. Qed.

Lemma contiene_estado amount size b q r s :
  contiene amount size b q r -> contiene amount size (con_estado s b) q r.
Proof. by intros []; constructor. Qed.

(** C35: a circular buffer for [amount] elements of [size] bytes, initialised over the array
    that circularBufferNew declares, gives to any sequence of reads and writes the answers
    of a first-in first-out queue of capacity [amount]: the same status codes, the same bytes
    in the caller's memory (and no byte after the element), the callbacks exactly at an empty
    read and a full write; no access leaves the array. *)
Theorem circularBuffer_refines g b0 amount size os
    (Ha : 0 <= amount) (Hs : 1 <= size <= 255) (Hm : (amount + 1) * size < 2 ^ 32)
    (He : puntero_ok (isSetEmptyBufferCallback g) (emptyBufferCallback b0))
    (Hf : puntero_ok (isSetFullBufferCallback g) (fullBufferCalback b0))
    (Hd : Forall (fun o => size <= Z.of_nat (length (datos_de o)) < 2 ^ 32) os) :
  operan g (circularBuffer_Init b0 (circularBufferNew size amount) amount size) os =
  Bien (cola_operan amount size (llamadas (isSetEmptyBufferCallback g) (emptyBufferCallback b0))
          (llamadas (isSetFullBufferCallback g) (fullBufferCalback b0)) [] os).
Proof.
  set (b := circularBuffer_Init b0 _ amount size).
  assert (Hc : contiene amount size b [] 0).
  { constructor; simpl; try done; try lia.
    - apply u32_small. nia.
    - unfold circularBufferNew. rewrite length_replicate. nia.
    - change (0 = gira (amount + 1) 0 * size). unfold gira.
      destruct (Z.ltb_spec 0 (amount + 1)); lia. }
  assert (Hb : emptyBufferCallback b = emptyBufferCallback b0 /\ fullBufferCalback b = fullBufferCalback b0) by done.
  revert Hc Hb. generalize b as b1. clear b. generalize (@nil (list Z)) as q, 0 as r.
  induction Hd as [|o os Ho Hos IH]; intros q r b1 Hc [Hb1 Hb2]; [done|]. cbn [operan cola_operan].
  destruct o as [d|d]; cbn [datos_de] in Ho; cbn [opera cola_opera].
  - pose proof (leer_cola amount size g Ha Hs Hm b1 q r d Hc Ho) as H. destruct q as [|x q'].
    + rewrite H, Hb1, llamar_ok by done. cbn [mbind res_bind fst snd].
      rewrite (IH [] r); [done|by apply contiene_estado|done].
    + destruct H as (b' & -> & Hc' & E1 & E2). cbn [mbind res_bind fst snd].
      rewrite (IH q' _ b' Hc'); [done|by rewrite E1, E2].
  - pose proof (escribir_cola amount size g Ha Hs Hm b1 q r d Hc Ho) as H.
    destruct (Z.of_nat (length q) <? amount).
    + destruct H as (b' & -> & Hc' & E1 & E2). cbn [mbind res_bind fst snd].
      rewrite (IH _ _ b' Hc'); [done|by rewrite E1, E2].
    + rewrite H, Hb2, llamar_ok by done. cbn [mbind res_bind fst snd].
      rewrite (IH q r); [done|by apply contiene_estado|done].
Qed.

(** two bytes per element, room for two, a callback when full *)
Definition buffer_ejemplo : cb_flags * circularBuffer_t :=
  circularBufferFullBufferCallbackSet (mkFlags false false)
    (mkCB [] 0 0 0 0 CIRCULAR_BUFFER_NORMAL None None) (Some 7).

Lemma circularBuffer_refines_witness :
  operan (fst buffer_ejemplo) (circularBuffer_Init (snd buffer_ejemplo) (circularBufferNew 2 2) 2 2)
    [OpWrite [1; 2]; OpRead [0; 0; 9]; OpWrite [3; 4]; OpWrite [5; 6]; OpWrite [7; 8];
     OpRead [0; 0]; OpRead [0; 0]; OpRead [0; 0]] =
  Bien [(CIRCULAR_BUFFER_NORMAL, [], [1; 2]); (CIRCULAR_BUFFER_NORMAL, [], [1; 2; 9]);
        (CIRCULAR_BUFFER_NORMAL, [], [3; 4]); (CIRCULAR_BUFFER_NORMAL, [], [5; 6]);
        (CIRCULAR_BUFFER_FULL, [7], [7; 8]); (CIRCULAR_BUFFER_NORMAL, [], [3; 4]);
        (CIRCULAR_BUFFER_NORMAL, [], [5; 6]); (CIRCULAR_BUFFER_EMPTY, [], [0; 0])].
Proof.
  rewrite circularBuffer_refines.
  - reflexivity.
  - lia.
  - lia.
  - lia.
  - discriminate.
  - intros _. by exists 7.
  - do 8 (constructor; [split; [discriminate|reflexivity]|]). constructor.
Defined.

(** ** Outside the contract *)

(** an element of more than 255 bytes: the eight-bit counter never reaches the size *)
Lemma elemento_grande g b d :
  255 < elementSize b -> readIndex b <> writeIndex b -> circularBufferRead g b d = Nunca.
Proof.
  intros Hs Hi. unfold circularBufferRead. rewrite (proj2 (Z.eqb_neq _ _)) by done.
  cbn [con_estado elementSize]. unfold copiar_elemento. by rewrite (proj2 (Z.ltb_lt _ _)).
Qed.

(** the flags belong to the file: once one buffer has an empty-buffer callback, an empty
    read of a buffer without one calls through a pointer that was never set *)
Lemma bandera_ajena g b f d :
  emptyBufferCallback b = None -> readIndex b = writeIndex b ->
  circularBufferRead (fst (circularBufferEmptyBufferCallbackSet g b (Some f))) b d = Indef.
Proof. intros Hb Hi. unfold circularBufferRead. by rewrite Hi, Z.eqb_refl; simpl; rewrite Hb. Qed.
