(* ===== verification/Convertir.v ===== *)
(** * sapi_convert.c: numbers to text and to bytes

    The conversions of integers to strings in any base, in hexadecimal, as hours and days,
    and to byte arrays.  A result array has its size as an argument ([cap]); a text that
    does not fit in it, with its terminator, is undefined.  floatToString and the float
    versions of the byte conversions are left out. *)

From Stdlib Require Import ZArith Lia Bool Ascii String.
From stdpp Require Import base list strings numbers list_numbers.
From stdpp Require Import options.
From S2P Require Import Prelude.

(** the digits, symmetric about zero *)
Definition TABLA : list ascii :=
  $"zyxwvutsrqponmlkjihgfedcba9876543210123456789abcdefghijklmnopqrstuvwxyz".

(** [TABLA[i]] *)
Definition cifra (i : Z) : res ascii := if i <? 0 then Indef else acceso (TABLA !! Z.to_nat i).

(** the loop that writes the digits, the last one first, and leaves in [tmp_value] the last
    value divided *)
Fixpoint cifras (n : nat) (value base : Z) : res (list ascii * Z) :=
  match n with
  | O => Nunca
  | S n =>
      let tmp_value := value in
      let value := Z.quot value base in
      c ← cifra (35 + (tmp_value - value * base));
      if value =? 0 then Bien ([c], tmp_value)
      else r ← cifras n value base; Bien (c :: fst r, snd r)
  end.

(** the loop that swaps the characters at both ends *)
Fixpoint invertir (n : nat) (s : list ascii) (ptr1 ptr : nat) : res (list ascii) :=
  if (ptr1 <? ptr)%nat then
    match n with
    | O => Nunca
    | S n =>
        a ← acceso (s !! ptr1);
        b ← acceso (s !! ptr);
        invertir n (<[ptr1 := b]> (<[ptr := a]> s)) (S ptr1) (ptr - 1)
    end
  else Bien s.

Definition cabe (cap : Z) (s : list ascii) : res unit :=
  if strlen s <? cap then Bien tt else Indef.

(** more digits than any 64-bit integer has in base two *)
Definition MAX_CIFRAS : nat := 64.

(** the value returned and the string left in [result] *)
Definition int64ToString (value base cap : Z) : res (bool * list ascii) :=
  if (base <? 2) || (36 <? base) then cabe cap [] ;; Bien (false, [])
  else
    r ← cifras MAX_CIFRAS value base;
    let '(s, tmp_value) := r in
    let s := if tmp_value <? 0 then s ++ $"-" else s in
    cabe cap s ;;
    s ← invertir (length s) s 0 (length s - 1);
    Bien (true, s).

(** the unsigned version: [tmp_value < 0] never holds *)
Definition uint64ToString (value base cap : Z) : res (bool * list ascii) :=
  if (base <? 2) || (36 <? base) then cabe cap [] ;; Bien (false, [])
  else
    r ← cifras MAX_CIFRAS value base;
    let '(s, tmp_value) := r in
    cabe cap s ;;
    s ← invertir (length s) s 0 (length s - 1);
    Bien (true, s).

Definition uint64ToString2Digits (value base cap : Z) : res (bool * list ascii) :=
  if value <? 10 then
    r ← uint64ToString value base (cap - 1);
    Bien (fst r, $"0" ++ snd r)
  else uint64ToString value base cap.

(** *** byte arrays: [memcpy] of the object's bytes, the lowest first *)
Definition int32ToByteArray (value : Z) : list Z := Z_to_little_endian 4 8 (u32 value).
Definition byteArrayToInt32 (byteArray : list Z) : res Z :=
  if (length byteArray <? 4)%nat then Indef
  else Bien (s32 (little_endian_to_Z 8 (take 4 byteArray))).
(** [var] as the bytes of the object *)
Definition variableToByteArray (var : list Z) (sizeOfVar : Z) (byteArray : list Z) : res (list Z) :=
  let n := Z.to_nat sizeOfVar in
  if (length var <? n)%nat || (length byteArray <? n)%nat then Indef
  else Bien (take n var ++ drop n byteArray).
Definition byteArrayToVariable (var : list Z) (sizeOfVar : Z) (byteArray : list Z) : res (list Z) :=
  let n := Z.to_nat sizeOfVar in
  if (length var <? n)%nat || (length byteArray <? n)%nat then Indef
  else Bien (take n byteArray ++ drop n var).

(** *** [globalStrConvertBuff[200]] *)
Definition intToStringGlobal (value : Z) : res (list ascii) :=
  if value =? 0 then Bien $"0" else r ← int64ToString value 10 200; Bien (snd r).

Definition vectorNumHex : list ascii := $"0123456789ABCDEF".

(** character [i] from the right: [(value & (0x0F << 4*i)) >> 4*i]; a shift by 64 or more
    is undefined *)
Definition nibble (value : Z) (i : nat) : res ascii :=
  let k := 4 * Z.of_nat i in
  if 64 <=? k then Indef
  else acceso (vectorNumHex !! Z.to_nat (u8 (Z.shiftr (Z.land value (u64 (Z.shiftl 15 k))) k))).

Fixpoint nibbles (value : Z) (n : nat) : res (list ascii) :=
  match n with
  | O => Bien []
  | S n => c ← nibble value n; r ← nibbles value n; Bien (c :: r)
  end.

(** the characters are written from the right, each at [bitSize/4 - i - 1] *)
Definition uintToAsciiHex (value bitSize cap : Z) : res (list ascii) :=
  let n := Z.to_nat (bitSize / 4) in
  if cap <=? Z.of_nat n then Indef else nibbles value n.
Definition uintToAsciiHexGlobal (value bitSize : Z) : res (list ascii) := uintToAsciiHex value bitSize 200.

(** [char uu[3]] *)
Definition hourMinSecToStringHHMMSS (hour min sec cap : Z) : res (list ascii) :=
  h ← uint64ToString2Digits hour 10 3;
  m ← uint64ToString2Digits min 10 3;
  s ← uint64ToString2Digits sec 10 3;
  let r := snd h ++ $":" ++ snd m ++ $":" ++ snd s in
  cabe cap r ;; Bien r.

(** [char buff[10]] *)
Definition dayHourToStringDH (day hour cap : Z) : res (list ascii) :=
  d ← uint64ToString day 10 10;
  h ← uint64ToString hour 10 10;
  let r := snd d ++ $"d " ++ snd h ++ $"h" in
  cabe cap r ;; Bien r.

Definition charIsDigit (c : ascii) : bool := (48 <=? ord c) && (ord c <=? 57).

Example hora : hourMinSecToStringHHMMSS 9 30 5 9 = Bien $"09:30:05".
Proof. vm_compute. reflexivity. Qed.
Example minimo : int64ToString (- 2 ^ 63) 10 21 = Bien (true, $"-9223372036854775808").
Proof. vm_compute. reflexivity. Qed.
Example hexa : uintToAsciiHex 48879 32 9 = Bien $"0000BEEF".
Proof. vm_compute. reflexivity. Qed.

(** ** Reading back *)

(** the value of a digit in the bases of the module *)
Definition valor_cifra (c : ascii) : Z := if charIsDigit c then ord c - 48 else ord c - 87.

Fixpoint leer_natural (base acc : Z) (s : list ascii) : Z :=
  match s with [] => acc | c :: s => leer_natural base (acc * base + valor_cifra c) s end.
Definition leer (base : Z) (s : list ascii) : Z :=
  match s with
  | c :: s' => if ord c =? 45 then - leer_natural base 0 s' else leer_natural base 0 s
  | [] => 0
  end.

(** the digit written for a remainder of either sign *)
Lemma cifra_ok r : -36 < r < 36 ->
  exists c, cifra (35 + r) = Bien c /\ valor_cifra c = Z.abs r /\ ord c <> 45.
Proof.
  intros Hr. unfold cifra. rewrite (proj2 (Z.ltb_ge (35 + r) 0)) by lia.
  assert (Hall : forallb (fun k => match TABLA !! k with
      | Some c => (valor_cifra c =? Z.abs (Z.of_nat k - 35)) && negb (ord c =? 45) | None => false end)
      (List.seq 0 71) = true) by (vm_compute; reflexivity).
  rewrite forallb_forall in Hall. specialize (Hall (Z.to_nat (35 + r))).
  destruct (TABLA !! Z.to_nat (35 + r)) as [c|].
  - exists c. destruct (andb_prop _ _ (Hall ltac:(apply in_seq; lia))) as [H1%Z.eqb_eq H2].
    split; [done|]. split; [rewrite H1; f_equal; lia|].
    intros E. by rewrite E in H2.
  - discriminate Hall. apply in_seq. lia.
Qed.

(** the digits of a value, last one first *)
Lemma leer_natural_app base acc s1 s2 :
  leer_natural base acc (s1 ++ s2) = leer_natural base (leer_natural base acc s1) s2.
Proof. revert acc. induction s1 as [|c s1 IH]; intros acc; [done|apply IH]. Qed.

Lemma cifras_ok base n : 2 <= base <= 36 -> forall v, Z.abs v < base ^ Z.of_nat (S n) ->
  exists s t, cifras (S n) v base = Bien (s, t) /\ leer_natural base 0 (rev s) = Z.abs v /\
    (t < 0 <-> v < 0) /\ (1 <= length s <= S n)%nat /\ Forall (fun c => ord c <> 45) s.
Proof.
  intros Hb. induction n as [|n IH]; intros v Hv.
  - cbn [cifras]. pose proof (Z.quot_rem v base ltac:(lia)) as Hqr.
    pose proof (Z.rem_bound_abs v base ltac:(lia)).
    destruct (cifra_ok (Z.rem v base)) as (c & Hc & Hval & Hs); [lia|].
    replace (v - v ÷ base * base) with (Z.rem v base) by lia. rewrite Hc. cbn [mbind res_bind].
    assert (Hq : v ÷ base = 0) by (change (base ^ Z.of_nat 1) with (base ^ 1) in Hv; rewrite Z.pow_1_r in Hv;
      apply Z.quot_small_iff; lia).
    rewrite Hq. simpl. exists [c], v. split; [done|]. split; [simpl; rewrite Hval; f_equal; lia|].
    split; [done|]. split; [simpl; lia|]. by constructor.
  - remember (S n) as m eqn:Hm. cbn [cifras].
    pose proof (Z.quot_rem v base ltac:(lia)) as Hqr.
    pose proof (Z.rem_bound_abs v base ltac:(lia)) as Hrb.
    pose proof (Z.rem_sign_mul v base ltac:(lia)) as Hrs.
    destruct (cifra_ok (Z.rem v base)) as (c & Hc & Hval & Hs); [lia|].
    replace (v - v ÷ base * base) with (Z.rem v base) by lia. rewrite Hc. cbn [mbind res_bind].
    destruct (Z.eqb_spec (v ÷ base) 0) as [Hq|Hq].
    + exists [c], v. split; [done|]. split; [simpl; rewrite Hval; f_equal; nia|].
      split; [done|]. split; [simpl; lia|]. by constructor.
    + assert (Hpow : base ^ Z.of_nat (S m) = base * base ^ Z.of_nat m).
      { rewrite Nat2Z.inj_succ, Z.pow_succ_r by lia. done. }
      destruct (IH (v ÷ base)) as (s & t & E1 & E2 & E3 & E4 & E5); [nia|].
      rewrite E1. cbn [mbind res_bind fst snd]. exists (c :: s), t.
      split; [done|]. split.
      * cbn [rev]. rewrite leer_natural_app, E2. simpl. rewrite Hval.
        assert (0 <= v -> 0 <= v ÷ base) by (intros; apply Z.quot_pos; lia).
        assert (v <= 0 -> v ÷ base <= 0).
        { intros. pose proof (Z.quot_opp_l v base ltac:(lia)). pose proof (Z.quot_pos (- v) base). lia. }
        nia.
      * split; [rewrite E3; nia|]. split; [cbn [length]; lia|]. by constructor.
Qed.

(** the swaps reverse the string: [i] characters at each end are in place *)
Definition al_reves (l s : list ascii) (i j : nat) : Prop :=
  length s = length l /\ forall m, (m < length l)%nat ->
    s !! m = l !! (if (m <? i)%nat || (j <? m)%nat then length l - 1 - m else m)%nat.

Lemma al_reves_fin l s i j : (i + j + 1 = length l)%nat -> (j <= i)%nat -> al_reves l s i j -> s = rev l.
Proof.
  intros Hij Hji [Hs Hm]. rewrite rev_alt. fold (reverse l). apply list_eq. intros m.
  destruct (decide (m < length l)%nat) as [Hlt|Hge].
  - rewrite Hm, reverse_lookup by done. f_equal.
    destruct (Nat.ltb_spec m i), (Nat.ltb_spec j m); simpl; lia.
  - rewrite !lookup_ge_None_2; [done|rewrite length_reverse; lia|lia].
Qed.

Lemma al_reves_paso l s i j a b :
  (i + j + 1 = length l)%nat -> (i < j)%nat -> al_reves l s i j -> s !! i = Some a -> s !! j = Some b ->
  al_reves l (<[i := b]> (<[j := a]> s)) (S i) (j - 1).
Proof.
  intros Hij Hlt [Hs Hm] Ha Hb. split; [by rewrite !length_insert|]. intros m Hml.
  rewrite Hm in Ha, Hb by lia.
  rewrite (proj2 (Nat.ltb_ge i i)), (proj2 (Nat.ltb_ge j i)) in Ha by lia.
  rewrite (proj2 (Nat.ltb_ge j i)), (proj2 (Nat.ltb_ge j j)) in Hb by lia. cbn [orb] in Ha, Hb.
  destruct (decide (m = i)) as [->|Hmi].
  { rewrite list_lookup_insert_eq by (rewrite length_insert; lia).
    rewrite (proj2 (Nat.ltb_lt i (S i))) by lia. cbn [orb]. rewrite <- Hb. f_equal. lia. }
  rewrite list_lookup_insert_ne by done.
  destruct (decide (m = j)) as [->|Hmj].
  { rewrite list_lookup_insert_eq by lia.
    rewrite (proj2 (Nat.ltb_lt (j - 1) j)), orb_true_r by lia. rewrite <- Ha. f_equal. lia. }
  rewrite list_lookup_insert_ne by done. rewrite Hm by done. f_equal.
  destruct (Nat.ltb_spec m i), (Nat.ltb_spec j m), (Nat.ltb_spec m (S i)), (Nat.ltb_spec (j - 1) m); simpl; lia.
Qed.

Lemma invertir_go l n : forall s i j,
  (i + j + 1 = length l)%nat -> (j <= i + n)%nat -> al_reves l s i j -> invertir n s i j = Bien (rev l).
Proof.
  induction n as [|n IH]; intros s i j Hij Hn Hr; cbn [invertir].
  - rewrite (proj2 (Nat.ltb_ge i j)) by lia. f_equal. apply (al_reves_fin l s i j); [done|lia|done].
  - destruct (Nat.ltb_spec i j) as [Hlt|Hge]; [|f_equal; by apply (al_reves_fin l s i j)].
    pose proof Hr as [Hs _].
    destruct (lookup_lt_is_Some_2 s i) as [a Ha]; [lia|].
    destruct (lookup_lt_is_Some_2 s j) as [b Hb]; [lia|].
    rewrite Ha, Hb. cbn [acceso mbind res_bind]. apply IH; [lia|lia|]. by apply al_reves_paso.
Qed.

Lemma invertir_rev s : s <> [] -> invertir (length s) s 0 (length s - 1) = Bien (rev s).
Proof.
  intros Hs. assert (Hl : (0 < length s)%nat) by (destruct s; [done|simpl; lia]).
  apply invertir_go; [lia|lia|]. split; [done|]. intros m Hm.
  rewrite (proj2 (Nat.ltb_ge (length s - 1) m)) by lia. done.
Qed.

(** C36: in any base from 2 to 36, every 64-bit integer (the least one included) is written
    and read back to itself; the text has at most 65 characters, a sign exactly for the
    negative numbers, and 66 bytes hold it with its terminator. *)
Theorem int64ToString_ida_y_vuelta value base cap
    (Hv : - 2 ^ 63 <= value < 2 ^ 63) (Hb : 2 <= base <= 36) (Hc : 66 <= cap) :
  exists s, int64ToString value base cap = Bien (true, s) /\ leer base s = value /\
    (length s <= 65)%nat /\ (value < 0 <-> exists s', s = $"-" ++ s').
Proof.
  unfold int64ToString, MAX_CIFRAS.
  rewrite (proj2 (Z.ltb_ge base 2)), (proj2 (Z.ltb_ge 36 base)) by lia. cbn [orb].
  destruct (cifras_ok base 63 Hb value) as (s & t & -> & Hval & Ht & Hl & Hs).
  { assert (2 ^ 64 <= base ^ 64) by (apply Z.pow_le_mono_l; lia).
    change (Z.of_nat 64) with 64. lia. }
  cbn [mbind res_bind]. set (s1 := if t <? 0 then s ++ $"-" else s).
  assert (H1 : (length s1 <= 65)%nat /\ s1 <> []).
  { unfold s1. destruct s; [simpl in Hl; lia|]. destruct (t <? 0); [|split; [lia|done]].
    rewrite length_app. simpl in *. split; [lia|done]. }
  unfold cabe, strlen. rewrite (proj2 (Z.ltb_lt _ _)) by lia. cbn [mbind res_bind].
  rewrite invertir_rev by apply H1. cbn [mbind res_bind]. eexists. split; [reflexivity|].
  rewrite length_rev. split; [|split; [apply H1|]].
  - unfold s1. destruct (Z.ltb_spec t 0) as [Hneg|Hpos].
    + rewrite rev_app_distr. cbn [rev lit list_ascii_of_string app leer].
      change (ord "-"%char =? 45) with true. cbn iota. rewrite Hval. lia.
    + unfold leer. assert (Hrev : Forall (fun c => ord c <> 45) (rev s)) by by apply Forall_rev.
      destruct (rev s) as [|c r] eqn:E; [simpl in Hval; lia|].
      apply Forall_cons in Hrev as [Hc45 _]. rewrite (proj2 (Z.eqb_neq _ _)) by done.
      rewrite Hval. lia.
  - unfold s1. destruct (Z.ltb_spec t 0) as [Hneg|Hpos].
    + rewrite rev_app_distr. split; [intros _; by exists (rev s)|lia].
    + split; [lia|]. intros [s' E]. assert (Hrev : Forall (fun c => ord c <> 45) (rev s)) by by apply Forall_rev.
      rewrite E in Hrev. apply Forall_cons in Hrev as [Hc45 _]. by destruct Hc45.
Qed.

Lemma int64ToString_ida_y_vuelta_witness :
  int64ToString (-255) 16 66 = Bien (true, $"-ff") /\ leer 16 $"-ff" = -255.
Proof.
  destruct (int64ToString_ida_y_vuelta (-255) 16 66) as (s & H1 & H2 & _); [lia|lia|lia|].
  assert (Hs : s = $"-ff") by (vm_compute in H1; injection H1 as <-; reflexivity).
  subst s. split; [exact H1|exact H2].
Defined.

(** the time of day has always eight characters, in nine bytes; with an hour, a minute or a
    second of three digits the text overruns [uu] *)
Lemma dos_digitos n : 0 <= n <= 255 ->
  uint64ToString2Digits n 10 3 = if n <? 100 then Bien (true, fmt_0 2 n) else Indef.
Proof.
  intros Hn.
  assert (H : forallb (fun k => match uint64ToString2Digits (Z.of_nat k) 10 3 with
      | Bien (b, s) => (Z.of_nat k <? 100) && b && bool_decide (s = fmt_0 2 (Z.of_nat k))
      | Indef => negb (Z.of_nat k <? 100) | Nunca => false end) (List.seq 0 256) = true)
    by (vm_compute; reflexivity).
  rewrite forallb_forall in H. specialize (H (Z.to_nat n) ltac:(apply in_seq; lia)).
  rewrite Z2Nat.id in H by lia.
  destruct (uint64ToString2Digits n 10 3) as [[b s]| |]; [| |done].
  - apply andb_prop in H as [[-> ->]%andb_prop E%bool_decide_eq_true]. by rewrite E.
  - by destruct (n <? 100).
Qed.

Lemma hourMinSec_texto h m s cap :
  0 <= h <= 255 -> 0 <= m <= 255 -> 0 <= s <= 255 -> 9 <= cap ->
  hourMinSecToStringHHMMSS h m s cap =
    if (h <? 100) && (m <? 100) && (s <? 100)
    then Bien (fmt_0 2 h ++ $":" ++ fmt_0 2 m ++ $":" ++ fmt_0 2 s) else Indef.
Proof.
  intros Hh Hm Hs Hc. unfold hourMinSecToStringHHMMSS. rewrite !dos_digitos by done.
  assert (Hl : forall n, 0 <= n <= 255 -> (n <? 100) = true -> length (fmt_0 2 n) = 2%nat).
  { intros n Hn Hlt. assert (H : forallb (fun k => Nat.eqb (length (fmt_0 2 (Z.of_nat k))) 2) (List.seq 0 100) = true)
      by (vm_compute; reflexivity).
    rewrite forallb_forall in H. specialize (H (Z.to_nat n) ltac:(apply in_seq; lia)).
    rewrite Z2Nat.id in H by lia. by apply Nat.eqb_eq. }
  destruct (h <? 100) eqn:E1; [|done]. destruct (m <? 100) eqn:E2; [|done].
  destruct (s <? 100) eqn:E3; [|done]. cbn [mbind res_bind snd andb].
  unfold cabe, strlen. rewrite !length_app, (Hl h), (Hl m), (Hl s) by done.
  by rewrite (proj2 (Z.ltb_lt _ _)) by (simpl; lia).
Qed.

(** a day count of ten digits overruns [buff] *)
Lemma dayHour_desborda : dayHourToStringDH 1000000000 5 100 = Indef.
Proof. vm_compute. reflexivity. Qed.

Lemma int32_bytes v : - 2 ^ 31 <= v < 2 ^ 31 -> byteArrayToInt32 (int32ToByteArray v) = Bien v.
Proof.
  intros Hv. unfold byteArrayToInt32, int32ToByteArray.
  pose proof (length_Z_to_little_endian 4 8 (u32 v) ltac:(lia)) as Hl.
  rewrite (proj2 (Nat.ltb_ge _ _)), take_ge by lia.
  rewrite little_endian_to_Z_to_little_endian by lia. change (4 * 8) with 32.
  f_equal. pose proof (u32_bound v). rewrite Z.mod_small by lia.
  unfold u32, s32. rewrite Zplus_mod_idemp_l. rewrite Z.mod_small; lia.
Qed.
