(* ===== verification/Planificador.v ===== *)
(** * seos_pont: the cooperative scheduler

    seos_pont_2014_scheduler.c and seos_pont_2014_isr.c of [libs/seos_pont], with the hook of
    sapi_tick.c that calls the scheduler.  The tick interrupt runs [schedulerUpdate]; the
    main loop runs [schedulerDispatchTasks].  An interrupt may come between any two accesses
    of the dispatcher to the table, so the model names those places ([donde]) and lets any
    number of ticks come at each.  The code of the tasks is a parameter, which may itself
    change the table. *)

From Stdlib Require Import ZArith Lia Bool.
From stdpp Require Import base list numbers.
From stdpp Require Import options.
From S2P Require Import Prelude.

Definition SCHEDULER_MAX_TASKS : nat := 10.

(** [None] is the null pointer *)
Record sTask_t : Type := mkTask {
  pTask : option Z;
  taskParam : Z;
  delay : Z;
  period : Z;
  runMe : Z
}.

(** the data of the two files *)
Record planif : Type := mkPlanif {
  schedulerTasks : list sTask_t;
  errorCode : Z
}.

Definition con_tareas (p : planif) (l : list sTask_t) : planif := mkPlanif l (errorCode p).

(** [int32_t] arithmetic: an overflow is undefined *)
Definition i32 (x : Z) : res Z := if (- 2 ^ 31 <=? x) && (x <? 2 ^ 31) then Bien x else Indef.

Definition tarea_vacia : sTask_t := mkTask None 0 0 0 0.

Definition schedulerDeleteTask (taskIndex : nat) (p : planif) : res (Z * planif) :=
  t ← acceso (schedulerTasks p !! taskIndex);
  let '(returnCode, e) := match pTask t with None => (-1, 2) | Some _ => (0, errorCode p) end in
  Bien (returnCode, mkPlanif (<[taskIndex := tarea_vacia]> (schedulerTasks p)) e).

(** the search of a gap: [pTask] is read before the index is compared *)
Fixpoint hueco (fuel index : nat) (l : list sTask_t) : res nat :=
  match fuel with
  | O => Nunca
  | S fuel =>
      t ← acceso (l !! index);
      match pTask t with
      | Some _ => if (index <? SCHEDULER_MAX_TASKS)%nat then hueco fuel (S index) l else Bien index
      | None => Bien index
      end
  end.

Definition schedulerAddTask (pFunction : option Z) (TASKPARAM DELAY PERIOD : Z) (p : planif) :
    res (Z * planif) :=
  index ← hueco (S (S SCHEDULER_MAX_TASKS)) 0 (schedulerTasks p);
  if (index =? SCHEDULER_MAX_TASKS)%nat
  then Bien (Z.of_nat SCHEDULER_MAX_TASKS, mkPlanif (schedulerTasks p) 2)
  else Bien (Z.of_nat index,
             con_tareas p (<[index := mkTask pFunction TASKPARAM DELAY PERIOD 0]> (schedulerTasks p))).

Fixpoint borrar_desde (n i : nat) (p : planif) : res planif :=
  match n with
  | O => Bien p
  | S n => r ← schedulerDeleteTask i p; borrar_desde n (S i) (snd r)
  end.

(** without the start of the counter, which is [tickInit] *)
Definition schedulerInit (p : planif) : res planif :=
  p' ← borrar_desde SCHEDULER_MAX_TASKS 0 p; Bien (mkPlanif (schedulerTasks p') 0).

(** ** The interrupt *)

Definition actualizar (t : sTask_t) : res sTask_t :=
  match pTask t with
  | None => Bien t
  | Some _ =>
      d ← i32 (delay t - 1);
      if d <=? 0 then
        r ← i32 (runMe t + 1);
        Bien (mkTask (pTask t) (taskParam t) (if period t =? 0 then d else period t) (period t) r)
      else Bien (mkTask (pTask t) (taskParam t) d (period t) (runMe t))
  end.

Definition schedulerUpdate (p : planif) : res planif :=
  l ← mapM actualizar (schedulerTasks p); Bien (con_tareas p l).

(** *** The hook of sapi_tick.c *)

Record gancho : Type := mkGancho {
  tickCounter : Z;
  tickHookFunction : option Z;
  callBackFuncParams : option Z
}.

Definition tickWrite (ticks : Z) (g : gancho) : gancho :=
  mkGancho ticks (tickHookFunction g) (callBackFuncParams g).

Definition tickCallbackSet (tickCallback tickCallbackParams : option Z) (g : gancho) : bool * gancho :=
  let '(r, h) := match tickCallback with Some f => (true, Some f) | None => (false, tickHookFunction g) end in
  let '(r, q) := match tickCallbackParams with
                 | Some a => (r, Some a) | None => (false, callBackFuncParams g) end in
  (r, mkGancho (tickCounter g) h q).

(** what the handler calls, when it calls *)
Definition SysTick_Handler (g : gancho) : gancho * option (Z * option Z) :=
  (mkGancho (u64 (tickCounter g + 1)) (tickHookFunction g) (callBackFuncParams g),
   match tickHookFunction g with Some f => Some (f, callBackFuncParams g) | None => None end).

(** [schedulerUpdate] as a callback; [iniciado] is the answer of [tickInit] *)
Definition SCHEDULER_UPDATE : Z := 1.
Definition schedulerStart (iniciado : bool) (g : gancho) : gancho :=
  if iniciado then snd (tickCallbackSet (Some SCHEDULER_UPDATE) None g) else g.

(** the hook is set although [tickCallbackSet] answers FALSE for the null parameter *)
Lemma schedulerStart_gancho g :
  fst (tickCallbackSet (Some SCHEDULER_UPDATE) None g) = false /\
  snd (SysTick_Handler (schedulerStart true g)) = Some (SCHEDULER_UPDATE, callBackFuncParams g).
Proof. done. Qed.

(** ** The dispatcher *)

(** where an interrupt may fall while entry [i] is looked at: before the test of [runMe],
    during the task, between the load and the store of [runMe -= 1], before the test of
    [period]; and in the sleep that ends the round *)
Inductive donde : Type :=
  | Antes (i : nat)
  | Tarea (i : nat)
  | Resta (i : nat)
  | Baja (i : nat)
  | Dormido.

(** the table, the ticks served so far and the runs done, each with its tick *)
Record sistema : Type := mkSis {
  tabla : planif;
  ahora : Z;
  hechas : list (nat * Z)
}.

Section Despachador.
(** the code of the tasks, and how many ticks come in each round at each place *)
Context (cuerpo : Z -> Z -> planif -> res planif) (llegan : nat -> donde -> nat).

Definition con_tabla (s : sistema) (p : planif) : sistema := mkSis p (ahora s) (hechas s).

Fixpoint tics (n : nat) (s : sistema) : res sistema :=
  match n with
  | O => Bien s
  | S n => p ← schedulerUpdate (tabla s); tics n (mkSis p (ahora s + 1) (hechas s))
  end.

Definition despachar (v i : nat) (s : sistema) : res sistema :=
  s ← tics (llegan v (Antes i)) s;
  t ← acceso (schedulerTasks (tabla s) !! i);
  if 0 <? runMe t then
    f ← acceso (pTask t);
    p ← cuerpo f (taskParam t) (tabla s);
    s ← tics (llegan v (Tarea i)) (mkSis p (ahora s) (hechas s ++ [(i, ahora s)]));
    t ← acceso (schedulerTasks (tabla s) !! i);
    s ← tics (llegan v (Resta i)) s;
    r ← i32 (runMe t - 1);
    t ← acceso (schedulerTasks (tabla s) !! i);
    s ← tics (llegan v (Baja i))
          (con_tabla s (con_tareas (tabla s)
             (<[i := mkTask (pTask t) (taskParam t) (delay t) (period t) r]> (schedulerTasks (tabla s)))));
    t ← acceso (schedulerTasks (tabla s) !! i);
    if period t =? 0 then r ← schedulerDeleteTask i (tabla s); Bien (con_tabla s (snd r)) else Bien s
  else Bien s.

Fixpoint recorrer (v n i : nat) (s : sistema) : res sistema :=
  match n with
  | O => Bien s
  | S n => s ← despachar v i s; recorrer v n (S i) s
  end.

(** [schedulerReportStatus] is empty without SCH_REPORT_ERRORS *)
Definition schedulerDispatchTasks (v : nat) (s : sistema) : res sistema :=
  s ← recorrer v SCHEDULER_MAX_TASKS 0 s; tics (llegan v Dormido) s.

(** the main loop: [n] rounds, the first with number [v] *)
Fixpoint vueltas (n v : nat) (s : sistema) : res sistema :=
  match n with
  | O => Bien s
  | S n => s ← schedulerDispatchTasks v s; vueltas n (S v) s
  end.

(** the ticks that may come in a round *)
Definition llegadas (v : nat) : Z :=
  Z.of_nat (llegan v Dormido) +
  foldr (fun i a => Z.of_nat (llegan v (Antes i) + llegan v (Tarea i) + llegan v (Resta i) + llegan v (Baja i)) + a)
    0 (seq 0 SCHEDULER_MAX_TASKS).
End Despachador.

(** ** What the scheduler promises *)

(** how often a task of delay [d] and period [p] has come due after [T] ticks *)
Definition activaciones (d p T : Z) : Z :=
  let d := Z.max 1 d in if T <? d then 0 else (T - d) / p + 1.

Definition veces (i : nat) (l : list (nat * Z)) : Z :=
  Z.of_nat (length (filter (fun x => fst x = i) l)).

Definition siesta : planif := mkPlanif (replicate 10 tarea_vacia) 0.
Definition nada (f a : Z) (p : planif) : res planif := Bien p.
Definition un_tic (v : nat) (x : donde) : nat := match x with Dormido => 1 | _ => 0 end.

(** a task of delay 2 and period 3, a tick in each sleep: it runs at ticks 2, 5, 8 *)
Example cadencia :
  (r ← schedulerAddTask (Some 7) 0 2 3 siesta;
   s ← vueltas nada un_tic 10 0 (mkSis (snd r) 0 []); Bien (hechas s))
  = Bien [(0%nat, 2); (0%nat, 5); (0%nat, 8)].
Proof. vm_compute. reflexivity. Qed.

(** ** No overflow *)

(** an entry whose counters are within [B] *)
Record sana (B : Z) (t : sTask_t) : Prop := {
  s_delay : - B <= delay t < 2 ^ 31;
  s_period : 0 <= period t < 2 ^ 31;
  s_runMe : - B <= runMe t <= B;
  s_pTask : 0 < runMe t -> is_Some (pTask t)
}.

Definition sano (B : Z) (p : planif) : Prop :=
  length (schedulerTasks p) = SCHEDULER_MAX_TASKS /\ Forall (sana B) (schedulerTasks p).

Lemma sano_mono B B' p : B <= B' -> sano B p -> sano B' p.
Proof.
  intros HB [Hl Hf]. split; [done|]. eapply List.Forall_impl; [|exact Hf].
  intros t [? ? ? ?]. constructor; [lia..|done].
Qed.

Lemma sana_vacia B : 0 <= B -> sana B tarea_vacia.
Proof. intros. constructor; simpl; try lia. Qed.

Lemma i32_ok x : - 2 ^ 31 <= x < 2 ^ 31 -> i32 x = Bien x.
Proof. intros. unfold i32. by rewrite (proj2 (Z.leb_le _ _)), (proj2 (Z.ltb_lt _ _)) by lia. Qed.

Lemma i32_eq x y : i32 x = Bien y -> y = x.
Proof. unfold i32. by destruct (_ && _); [intros [= <-]|]. Qed.

Lemma sano_poner B p i t : sano B p -> sana B t -> sano B (con_tareas p (<[i := t]> (schedulerTasks p))).
Proof. intros [Hl Hf] Ht. split; simpl; [by rewrite length_insert|by apply Forall_insert]. Qed.

Lemma schedulerDeleteTask_ok B i p :
  sano B p -> 0 <= B -> (i < SCHEDULER_MAX_TASKS)%nat ->
  exists c e, schedulerDeleteTask i p = Bien (c, mkPlanif (<[i := tarea_vacia]> (schedulerTasks p)) e) /\
  forall e', sano B (mkPlanif (<[i := tarea_vacia]> (schedulerTasks p)) e').
Proof.
  intros [Hl Hf] HB Hi. unfold schedulerDeleteTask.
  destruct (lookup_lt_is_Some_2 (schedulerTasks p) i) as [t ->]; [lia|]. cbn [acceso mbind res_bind].
  destruct (pTask t); (eexists _, _; split; [reflexivity|]); intros e'; by apply (sano_poner B (mkPlanif _ e')), sana_vacia.
Qed.

Lemma actualizar_sana B t :
  sana B t -> 0 <= B -> B + 1 < 2 ^ 31 -> exists t', actualizar t = Bien t' /\ sana (B + 1) t'.
Proof.
  intros [Hd Hp Hr Hn] HB HB'. unfold actualizar.
  destruct (pTask t) as [f|] eqn:Ef.
  2: { eexists. split; [done|]. constructor; try lia. by rewrite Ef. }
  rewrite (i32_ok (delay t - 1)) by lia. cbn [mbind res_bind]. destruct (Z.leb_spec (delay t - 1) 0).
  - rewrite i32_ok by lia. cbn [mbind res_bind]. eexists. split; [done|].
    constructor; cbn [delay period runMe pTask]; [|lia|lia|by intros _; eexists]. destruct (period t =? 0); lia.
  - eexists. split; [done|]. constructor; cbn [delay period runMe pTask]; [lia|lia|lia|by intros _; eexists].
Qed.

Lemma mapM_Bien {A C} (f : A -> res C) (P : A -> Prop) (Q : C -> Prop) l :
  (forall x, P x -> exists y, f x = Bien y /\ Q y) -> Forall P l ->
  exists l', mapM f l = Bien l' /\ Forall Q l' /\ Forall2 (fun x y => f x = Bien y) l l'.
Proof.
  intros Hf. induction 1 as [|x l Hx _ (l' & E & HQ & H2)]; [exists []; done|].
  destruct (Hf x Hx) as (y & Ey & Hy). exists (y :: l'). split; [|split; constructor; done].
  simpl. rewrite Ey, E. done.
Qed.

Lemma schedulerUpdate_ok B p :
  sano B p -> 0 <= B -> B + 1 < 2 ^ 31 ->
  exists p', schedulerUpdate p = Bien p' /\ sano (B + 1) p' /\
    forall i t, schedulerTasks p !! i = Some t ->
      exists t', schedulerTasks p' !! i = Some t' /\ actualizar t = Bien t'.
Proof.
  intros [Hl Hf] HB HB'. unfold schedulerUpdate.
  destruct (mapM_Bien actualizar (sana B) (sana (B + 1)) (schedulerTasks p)) as (l' & -> & HQ & H2); [|done|].
  { intros t Ht. by apply actualizar_sana. }
  eexists. split; [done|]. split; [split; [|done]|].
  - simpl. by rewrite <- (Forall2_length H2).
  - intros i t Ht. by destruct (Forall2_lookup_l _ _ _ _ _ H2 Ht) as (t' & ? & ?); exists t'.
Qed.

(** ** One task followed through the rounds *)

Lemma actualizar_pTask t t' : actualizar t = Bien t' -> pTask t' = pTask t.
Proof.
  unfold actualizar. destruct (pTask t) as [f|] eqn:Ef; [|by intros [= <-]].
  destruct (i32 (delay t - 1)) as [x| |]; [|done|done]. cbn [mbind res_bind]. destruct (x <=? 0).
  - destruct (i32 (runMe t + 1)); [|done|done]. by intros [= <-].
  - by intros [= <-].
Qed.

Section Seguimiento.
Context (i : nat) (f d p t0 : Z).
Hypothesis (Hd : 0 <= d) (Hp : 1 <= p).
#[local] Set Default Proof Using "Type".

(** [T] ticks after it was added the task has run [h] times, is due at
    [max 1 d + (h + runMe) * p] next, and has from [m] to [M] runs pending *)
Record seguida (m M T h : Z) (t : sTask_t) : Prop := {
  g_T : 0 <= T;
  g_h : 0 <= h;
  g_pTask : pTask t = Some f;
  g_period : period t = p;
  g_runMe : m <= runMe t <= M;
  g_cuenta : T + Z.max 1 (delay t) = Z.max 1 d + (h + runMe t) * p;
  g_delay : 0 < h + runMe t -> 1 <= delay t <= p
}.

Definition sigue (m M h0 B : Z) (s : sistema) : Prop :=
  sano B (tabla s) /\ 0 <= B /\ exists t, schedulerTasks (tabla s) !! i = Some t /\
  seguida m M (ahora s - t0) (veces i (hechas s) - h0) t.

Lemma sigue_mono m M M' h0 B B' s : B <= B' -> M <= M' -> sigue m M h0 B s -> sigue m M' h0 B' s.
Proof.
  intros H HM (Hs & HB & t & Ht & []). split; [by eapply sano_mono|]. split; [lia|].
  exists t. split; [done|]. constructor; try done. lia.
Qed.

Lemma seguida_activaciones M T h t : seguida 0 M T h t -> h + runMe t = activaciones d p T.
Proof using Hd Hp.
  intros [HT Hh _ _ Hr Hc Hl]. unfold activaciones. destruct (Z.ltb_spec T (Z.max 1 d)) as [Hlt|Hge].
  - destruct (Z.eq_dec (h + runMe t) 0) as [?|Hn]; [done|]. specialize (Hl ltac:(lia)). nia.
  - assert (0 < h + runMe t) by nia. specialize (Hl ltac:(lia)).
    rewrite <- (Z.div_unique (T - Z.max 1 d) p (h + runMe t - 1) (p - delay t)) by nia. lia.
Qed.

Lemma seguida_tic m M T h t t' :
  0 <= m -> seguida m M T h t -> actualizar t = Bien t' -> seguida m (M + 1) (T + 1) h t'.
Proof using Hd Hp.
  intros Hm [HT Hh Ef Ep Hr Hc Hl]. unfold actualizar. rewrite Ef, Ep.
  rewrite (proj2 (Z.eqb_neq p 0)) by lia.
  destruct (i32 (delay t - 1)) as [x| |] eqn:Ex; [|done|done]. apply i32_eq in Ex as ->.
  cbn [mbind res_bind]. destruct (Z.leb_spec (delay t - 1) 0).
  - destruct (i32 (runMe t + 1)) as [x| |] eqn:Ex; [|done|done]. apply i32_eq in Ex as ->.
    cbn [mbind res_bind]. intros [= <-].
    constructor; cbn [delay period runMe pTask]; try done; lia.
  - intros [= <-]. constructor; cbn [delay period runMe pTask]; try done; lia.
Qed.

(** what ticks do: they neither run, nor add, nor remove a task *)
Lemma tics_sigue m M h0 n B s :
  0 <= m -> sigue m M h0 B s -> B + Z.of_nat n < 2 ^ 31 ->
  exists s', tics n s = Bien s' /\ sigue m (M + Z.of_nat n) h0 (B + Z.of_nat n) s' /\
    (forall j t, schedulerTasks (tabla s) !! j = Some t ->
       exists t', schedulerTasks (tabla s') !! j = Some t' /\ pTask t' = pTask t) /\
    ahora s' = ahora s + Z.of_nat n /\ (n = O -> s' = s).
Proof using Hd Hp.
  intros Hm. revert M B s. induction n as [|n IH]; intros M B s Hs Hn.
  - exists s. rewrite !Z.add_0_r. split_and!; try done. eauto.
  - destruct Hs as (Hs & HB & t & Ht & Hg).
    destruct (schedulerUpdate_ok B (tabla s) Hs HB ltac:(lia)) as (q & Eq & Hq & Hi).
    cbn [tics]. rewrite Eq. cbn [mbind res_bind].
    destruct (Hi i t Ht) as (t' & Ht' & Ea).
    destruct (IH (M + 1) (B + 1) (mkSis q (ahora s + 1) (hechas s))) as (s' & E & Hs' & Ej & Ek & _); [|lia|].
    { split; [done|]. split; [lia|]. exists t'. split; [done|]. cbn [ahora hechas].
      replace (ahora s + 1 - t0) with (ahora s - t0 + 1) by lia. by eapply seguida_tic. }
    exists s'. split; [done|]. split; [eapply sigue_mono; [| |exact Hs']; lia|].
    split; [|split; [|done]].
    + intros j u Hu. destruct (Hi j u Hu) as (u' & Hu' & Eu).
      destruct (Ej j u' Hu') as (w & Hw & Ew). exists w. split; [done|]. rewrite Ew. by apply actualizar_pTask.
    + rewrite Ek. cbn [ahora]. lia.
Qed.

Lemma veces_app j l t : veces i (l ++ [(j, t)]) = veces i l + (if decide (j = i) then 1 else 0).
Proof. unfold veces. rewrite list.filter_app, length_app. cbn. destruct (decide (j = i)); simpl; lia. Qed.

(** storing the decremented [runMe] in entry [j] settles the run that was written down *)
Lemma resta_sigue j M h0 B r s t :
  (j < SCHEDULER_MAX_TASKS)%nat -> schedulerTasks (tabla s) !! j = Some t ->
  sigue (if decide (j = i) then 1 else 0) M (h0 + if decide (j = i) then 1 else 0) B s ->
  - B <= r + 1 <= B -> (j = i -> r = runMe t - 1) -> (0 < r -> is_Some (pTask t)) ->
  sigue 0 (M - if decide (j = i) then 1 else 0) h0 (B + 1) (con_tabla s (con_tareas (tabla s)
    (<[j := mkTask (pTask t) (taskParam t) (delay t) (period t) r]> (schedulerTasks (tabla s))))).
Proof.
  intros Hj Ht (Hs & HB & u & Hu & Hg) Hr Hri Hpt.
  assert (Hsana : sana B t) by (eapply Forall_lookup_1; [apply Hs|done]). destruct Hsana.
  split; [|split; [lia|]].
  - apply sano_poner; [by eapply sano_mono; [|done]; lia|].
    constructor; cbn [delay period runMe pTask]; [lia|lia|lia|done].
  - cbn [con_tabla con_tareas tabla schedulerTasks ahora hechas]. destruct (decide (j = i)) as [->|Hne].
    + rewrite Ht in Hu. injection Hu as <-. rewrite list_lookup_insert_eq by by eapply lookup_lt_Some.
      eexists. split; [done|]. rewrite Hri by done. destruct Hg.
      constructor; cbn [delay period runMe pTask]; try done; lia.
    + rewrite list_lookup_insert_ne by done. exists u. split; [done|]. by rewrite Z.add_0_r in Hg; rewrite Z.sub_0_r.
Qed.

Context (cuerpo : Z -> Z -> planif -> res planif) (llegan : nat -> donde -> nat).
(** the tasks return, leave the table in order and do not touch entry [i]; no tick cuts the
    decrement of that entry *)
Hypothesis (Hc : forall B g a q, 0 <= B -> sano B q -> exists q', cuerpo g a q = Bien q' /\ sano B q' /\
  schedulerTasks q' !! i = schedulerTasks q !! i).
Hypothesis (Hr : forall v, llegan v (Resta i) = O).

Definition en_entrada (v j : nat) : Z :=
  Z.of_nat (llegan v (Antes j) + llegan v (Tarea j) + llegan v (Resta j) + llegan v (Baja j)).

Lemma sana_en B q j t : sano B q -> schedulerTasks q !! j = Some t -> sana B t.
Proof. intros [_ Hf] Ht. by eapply Forall_lookup_1. Qed.

Lemma hay_entrada B q j : sano B q -> (j < SCHEDULER_MAX_TASKS)%nat -> exists t, schedulerTasks q !! j = Some t.
Proof. intros [Hl _] Hj. apply lookup_lt_is_Some_2. lia. Qed.

(** the run is written down: one more run, one run pending less to come *)
Lemma anota_sigue j M h0 B s q u :
  sigue 0 M h0 B s -> sano B q -> schedulerTasks q !! i = schedulerTasks (tabla s) !! i ->
  schedulerTasks (tabla s) !! j = Some u -> 0 < runMe u ->
  sigue (if decide (j = i) then 1 else 0) M (h0 + if decide (j = i) then 1 else 0) B
    (mkSis q (ahora s) (hechas s ++ [(j, ahora s)])).
Proof.
  intros (_ & HB & t & Ht & Hg) Hq Hqi Hu Hrun. split; [done|]. split; [done|]. exists t.
  cbn [tabla ahora hechas]. split; [by rewrite Hqi|]. rewrite veces_app.
  replace (veces i (hechas s) + (if decide (j = i) then 1 else 0) - (h0 + (if decide (j = i) then 1 else 0)))
    with (veces i (hechas s) - h0) by lia.
  destruct Hg. constructor; try done. destruct (decide (j = i)) as [->|]; [|done].
  rewrite Ht in Hu. injection Hu as <-. lia.
Qed.

Lemma ociosa_sigue j M M' h0 B B' s u :
  B <= B' -> M <= M' -> sigue 0 M h0 B s ->
  schedulerTasks (tabla s) !! j = Some u -> runMe u <= 0 ->
  sigue 0 (if decide (j = i) then 0 else M') h0 B' s.
Proof.
  intros HB HM H Hu Hrun. apply (sigue_mono _ _ M' _ _ B') in H; [|done..]. destruct (decide (j = i)) as [->|]; [|done].
  destruct H as (Hs & HB0 & t & Ht & []). split; [done|]. split; [done|]. exists t. split; [done|].
  rewrite Hu in Ht. injection Ht as <-. constructor; try done. lia.
Qed.

Lemma despachar_sigue v j M h0 B s :
  (j < SCHEDULER_MAX_TASKS)%nat -> sigue 0 M h0 B s -> B + 2 + en_entrada v j < 2 ^ 31 ->
  exists s', despachar cuerpo llegan v j s = Bien s' /\
    sigue 0 ((if decide (j = i) then Z.max 1 M - 1 else M) + en_entrada v j) h0 (B + 1 + en_entrada v j) s'.
Proof using Hd Hp Hc Hr.
  intros Hj Hs HB. unfold en_entrada in *. unfold despachar.
  assert (Hk : 0 <= (if decide (j = i) then 1 else 0)) by by destruct (decide (j = i)).
  destruct (tics_sigue 0 M h0 (llegan v (Antes j)) B s) as (s1 & -> & H1 & _ & _); [lia|done|lia|].
  cbn [mbind res_bind]. assert (Hs1 := H1). destruct Hs1 as (Hs1 & HB1 & _).
  destruct (hay_entrada _ _ j Hs1 Hj) as [u Hu]. rewrite Hu. cbn [acceso mbind res_bind].
  destruct (Z.ltb_spec 0 (runMe u)) as [Hrun|Hrun].
  2: { exists s1. split; [done|]. eapply sigue_mono; [| |exact (ociosa_sigue j _ _ _ _ _ _ _ (Z.le_refl _) (Z.le_refl _) H1 Hu Hrun)]; [lia|].
       destruct (decide (j = i)); lia. }
  destruct (s_pTask _ _ (sana_en _ _ _ _ Hs1 Hu) Hrun) as [g ->]. cbn [acceso mbind res_bind].
  destruct (Hc _ g (taskParam u) (tabla s1) HB1 Hs1) as (q & -> & Hq & Hqi). cbn [mbind res_bind].
  pose proof (anota_sigue j _ _ _ _ _ _ H1 Hq Hqi Hu Hrun) as H2.
  destruct (tics_sigue _ _ _ (llegan v (Tarea j)) _ _ Hk H2)
    as (s3 & -> & H3 & _ & _); [lia|]. cbn [mbind res_bind].
  destruct (hay_entrada _ _ j (proj1 H3) Hj) as [t3 Ht3]. rewrite Ht3. cbn [acceso mbind res_bind].
  pose proof (sana_en _ _ _ _ (proj1 H3) Ht3) as S3.
  destruct (tics_sigue _ _ _ (llegan v (Resta j)) _ _ Hk H3)
    as (s4 & -> & H4 & Ej & _ & E0); [lia|]. cbn [mbind res_bind].
  destruct (Ej j t3 Ht3) as (t4 & Ht4 & Ep).
  rewrite (i32_ok (runMe t3 - 1)) by (destruct S3; lia). cbn [mbind res_bind]. rewrite Ht4. cbn [acceso mbind res_bind].
  pose proof (resta_sigue j _ h0 _ (runMe t3 - 1) s4 t4 Hj Ht4 H4) as H5.
  destruct (tics_sigue 0 _ h0 (llegan v (Baja j)) _ _ ltac:(lia) (H5 ltac:(destruct S3; lia)
    ltac:(intros ->; rewrite E0 in Ht4 by apply Hr; congruence)
    ltac:(intros; rewrite Ep; apply S3; lia))) as (s6 & -> & H6 & _); [lia|]. cbn [mbind res_bind].
  assert (H7 := H6). destruct H7 as (Hs6 & HB6 & w & Hw & Hg).
  destruct (hay_entrada _ _ j Hs6 Hj) as [t6 Ht6]. rewrite Ht6. cbn [acceso mbind res_bind].
  destruct (Z.eqb_spec (period t6) 0) as [Hz|_].
  2: { exists s6. split; [done|]. eapply sigue_mono; [| |exact H6]; [lia|]. destruct (decide (j = i)); lia. }
  assert (j <> i) by (intros ->; rewrite Ht6 in Hw; injection Hw as <-; destruct Hg; lia).
  destruct (schedulerDeleteTask_ok _ j _ Hs6 HB6 Hj) as (c & e & -> & Hdel). cbn [mbind res_bind snd].
  eexists. split; [done|]. eapply (sigue_mono _ _ _ _ _ _ _ ltac:(shelve) ltac:(shelve)).
  split; [apply Hdel|]. split; [done|]. exists w. cbn [con_tabla tabla schedulerTasks ahora hechas].
  split; [by rewrite list_lookup_insert_ne|done].
  Unshelve. all: destruct (decide (j = i)); lia.
Qed.

Definition en_vuelta (v n j : nat) : Z := foldr (fun i a => en_entrada v i + a) 0 (seq j n).

Lemma en_entrada_pos v j : 0 <= en_entrada v j.
Proof. unfold en_entrada. lia. Qed.
Lemma en_vuelta_pos v n j : 0 <= en_vuelta v n j.
Proof.
  unfold en_vuelta. revert j. induction n as [|n IH]; intros j; simpl; [done|].
  pose proof (en_entrada_pos v j). specialize (IH (S j)). lia.
Qed.

Lemma recorrer_sigue v n j M h0 B s :
  (j + n <= SCHEDULER_MAX_TASKS)%nat -> 0 <= M -> sigue 0 M h0 B s ->
  B + Z.of_nat n + 1 + en_vuelta v n j < 2 ^ 31 ->
  exists s', recorrer cuerpo llegan v n j s = Bien s' /\
    sigue 0 ((if decide (j <= i < j + n)%nat then Z.max 1 M - 1 else M) + en_vuelta v n j) h0
      (B + Z.of_nat n + en_vuelta v n j) s'.
Proof using Hd Hp Hc Hr.
  revert j M B s. induction n as [|n IH]; intros j M B s Hj HM Hs HB.
  - exists s. split; [done|]. eapply sigue_mono; [| |exact Hs]; unfold en_vuelta; simpl; [lia|].
    rewrite decide_False by lia. lia.
  - assert (E : en_vuelta v (S n) j = en_entrada v j + en_vuelta v n (S j)) by done.
    pose proof (en_vuelta_pos v n (S j)). pose proof (en_entrada_pos v j).
    destruct (despachar_sigue v j M h0 B s) as (s1 & E1 & H1); [lia|done|lia|].
    assert (HM1 : 0 <= (if decide (j = i) then Z.max 1 M - 1 else M) + en_entrada v j)
      by (destruct (decide (j = i)); lia).
    destruct (IH (S j) _ _ s1 ltac:(lia) HM1 H1) as (s2 & E2 & H2); [lia|].
    exists s2. split; [cbn [recorrer]; by rewrite E1|].
    eapply sigue_mono; [| |exact H2]; [lia|].
    destruct (decide (j = i)) as [->|Hne].
    + rewrite decide_False, decide_True by lia. lia.
    + destruct (decide (S j <= i < S j + n)%nat); [rewrite decide_True by lia|rewrite decide_False by lia]; lia.
Qed.

Definition en_vueltas (n v : nat) : Z := foldr (fun v a => 10 + llegadas llegan v + a) 0 (seq v n).

(** the ticks of the rounds past the first of each *)
Definition atraso (n v : nat) : Z := foldr (fun v a => Z.max 0 (llegadas llegan v - 1) + a) 0 (seq v n).

Lemma llegadas_eq v : llegadas llegan v = Z.of_nat (llegan v Dormido) + en_vuelta v SCHEDULER_MAX_TASKS 0.
Proof. reflexivity. Qed.

Lemma llegadas_pos v : 0 <= llegadas llegan v.
Proof. rewrite llegadas_eq. pose proof (en_vuelta_pos v SCHEDULER_MAX_TASKS 0). lia. Qed.

Lemma en_vueltas_pos n v : 0 <= en_vueltas n v.
Proof.
  revert v. induction n as [|n IH]; intros v; [done|].
  change (0 <= 10 + llegadas llegan v + en_vueltas n (S v)). pose proof (llegadas_pos v).
  specialize (IH (S v)). lia.
Qed.

Lemma schedulerDispatchTasks_sigue v M h0 B s :
  0 <= M -> (i < SCHEDULER_MAX_TASKS)%nat -> sigue 0 M h0 B s -> B + 11 + llegadas llegan v < 2 ^ 31 ->
  exists s', schedulerDispatchTasks cuerpo llegan v s = Bien s' /\
    sigue 0 (Z.max 1 M - 1 + llegadas llegan v) h0 (B + 10 + llegadas llegan v) s'.
Proof using Hd Hp Hc Hr.
  rewrite llegadas_eq. intros HM Hi Hs HB. unfold schedulerDispatchTasks.
  pose proof (en_vuelta_pos v SCHEDULER_MAX_TASKS 0).
  destruct (recorrer_sigue v SCHEDULER_MAX_TASKS 0 M h0 B s ltac:(done) HM Hs) as (s1 & -> & H1);
    [unfold SCHEDULER_MAX_TASKS in *; lia|]. cbn [mbind res_bind].
  rewrite decide_True in H1 by lia.
  destruct (tics_sigue 0 _ h0 (llegan v Dormido) _ s1 ltac:(done) H1) as (s2 & E2 & H2 & _);
    [unfold SCHEDULER_MAX_TASKS in *; lia|].
  exists s2. split; [done|]. eapply sigue_mono; [| |exact H2]; [|lia].
  unfold SCHEDULER_MAX_TASKS. lia.
Qed.

Lemma vueltas_sigue n v M h0 B s :
  0 <= M -> (i < SCHEDULER_MAX_TASKS)%nat -> sigue 0 M h0 B s -> B + en_vueltas n v + 1 < 2 ^ 31 ->
  exists s', vueltas cuerpo llegan n v s = Bien s' /\
    sigue 0 (Z.max 1 M + atraso n v) h0 (B + en_vueltas n v) s'.
Proof using Hd Hp Hc Hr.
  intros HM Hi. revert v M HM B s. induction n as [|n IH]; intros v M HM B s Hs HB.
  - exists s. split; [done|]. eapply sigue_mono; [| |exact Hs]; unfold en_vueltas, atraso; simpl; lia.
  - assert (E : en_vueltas (S n) v = 10 + llegadas llegan v + en_vueltas n (S v)) by done.
    assert (E' : atraso (S n) v = Z.max 0 (llegadas llegan v - 1) + atraso n (S v)) by done.
    pose proof (en_vueltas_pos n (S v)). pose proof (llegadas_pos v). cbn [vueltas].
    destruct (schedulerDispatchTasks_sigue v M h0 B s HM Hi Hs) as (s1 & -> & H1); [lia|]. cbn [mbind res_bind].
    assert (HM1 : 0 <= Z.max 1 M - 1 + llegadas llegan v) by lia.
    destruct (IH (S v) _ HM1 _ s1 H1) as (s2 & E2 & H2); [lia|].
    exists s2. split; [done|]. eapply sigue_mono; [| |exact H2]; lia.
Qed.
End Seguimiento.

(** ** Adding a task *)

Lemma hueco_lugar fuel k j l :
  (k <= SCHEDULER_MAX_TASKS)%nat -> hueco fuel k l = Bien j ->
  (k <= j <= SCHEDULER_MAX_TASKS)%nat /\ (exists t, l !! j = Some t) /\
  forall m t, (k <= m < j)%nat -> l !! m = Some t -> is_Some (pTask t).
Proof.
  revert k. induction fuel as [|fuel IH]; intros k Hk; [done|]. cbn [hueco].
  destruct (l !! k) as [t|] eqn:Et; [|done]. cbn [acceso mbind res_bind].
  destruct (pTask t) as [g|] eqn:Eg.
  2: { intros [= <-]. split_and!; [lia|lia|by exists t|lia]. }
  destruct (Nat.ltb_spec k SCHEDULER_MAX_TASKS).
  - intros H1. destruct (IH (S k) ltac:(lia) H1) as (Hj & Hl & Hm). split_and!; [lia|lia|done|].
    intros m u Hmk Hu. destruct (decide (m = k)) as [->|]; [|by apply (Hm m); [lia|]].
    rewrite Et in Hu. injection Hu as <-. by rewrite Eg; eexists.
  - intros [= <-]. split_and!; [lia|lia|by exists t|lia].
Qed.

(** a task that is accepted is put where its number says, in the first free entry *)
Lemma schedulerAddTask_lugar g a d p B q z q' :
  sano B q -> 0 <= B -> 0 <= d < 2 ^ 31 -> 0 <= p < 2 ^ 31 ->
  schedulerAddTask g a d p q = Bien (z, q') ->
  sano B q' /\ exists i, z = Z.of_nat i /\ (i < SCHEDULER_MAX_TASKS)%nat /\
    schedulerTasks q' !! i = Some (mkTask g a d p 0).
Proof.
  intros Hs HB Hd Hp. unfold schedulerAddTask. destruct (hueco _ 0 _) as [j| |] eqn:E; [|done|done].
  cbn [mbind res_bind]. destruct (hueco_lugar _ _ _ _ (Nat.le_0_l _) E) as (Hj & [t Ht] & _).
  assert (Hlt : (j < SCHEDULER_MAX_TASKS)%nat) by (apply lookup_lt_Some in Ht; destruct Hs; lia).
  rewrite (proj2 (Nat.eqb_neq _ _)) by lia. intros [= <- <-]. split.
  - apply sano_poner; [done|]. constructor; simpl; lia.
  - exists j. split_and!; [done|done|]. cbn [con_tareas schedulerTasks].
    apply list_lookup_insert_eq. by eapply lookup_lt_Some.
Qed.

(** with every entry taken the search reads [schedulerTasks[10]], past the table *)
Lemma tabla_llena g a d p q :
  length (schedulerTasks q) = SCHEDULER_MAX_TASKS ->
  Forall (fun t => is_Some (pTask t)) (schedulerTasks q) -> schedulerAddTask g a d p q = Indef.
Proof.
  intros Hl Hf. unfold schedulerAddTask.
  assert (H : forall n k, (k + n = S SCHEDULER_MAX_TASKS)%nat -> hueco (S n) k (schedulerTasks q) = Indef).
  { induction n as [|n IH]; intros k Hk; cbn [hueco].
    - rewrite lookup_ge_None_2 by lia. done.
    - destruct (schedulerTasks q !! k) as [t|] eqn:Et; [|done]. cbn [acceso mbind res_bind].
      destruct (Forall_lookup_1 _ _ _ _ Hf Et) as [f ->]. apply lookup_lt_Some in Et.
      rewrite (proj2 (Nat.ltb_lt _ _)) by lia. cbn [hueco] in IH. apply IH. lia. }
  rewrite H by done. done.
Qed.

(** C37: a task added with delay [d] and period [p] comes due at ticks [max 1 d], then every
    [p]; wherever the ticks fall in the rounds of the dispatcher that follow (except inside
    the decrement of the task's own [runMe]), and whatever the tasks do to the rest of the
    table, the rounds return, and the times the task has run and the runs still pending are
    together the times it has come due; the pending ones are one, and one more for each tick
    of a round beyond the first. *)
Theorem planificador_cuenta cuerpo llegan n f a d p B q z q' i k
    (Hd : 0 <= d < 2 ^ 31) (Hp : 1 <= p < 2 ^ 31) (HB : 0 <= B) (Hq : sano B q)
    (Ha : schedulerAddTask (Some f) a d p q = Bien (z, q')) (Hi : z = Z.of_nat i)
    (Hc : forall B g a q, 0 <= B -> sano B q -> exists q', cuerpo g a q = Bien q' /\ sano B q' /\
       schedulerTasks q' !! i = schedulerTasks q !! i)
    (Hr : forall v, llegan v (Resta i) = O)
    (Hn : B + en_vueltas llegan n 0 + 1 < 2 ^ 31) :
  exists s t, vueltas cuerpo llegan n 0 (mkSis q' k []) = Bien s /\
    schedulerTasks (tabla s) !! i = Some t /\
    veces i (hechas s) + runMe t = activaciones d p (ahora s - k) /\
    0 <= runMe t <= 1 + atraso llegan n 0.
Proof.
  destruct (schedulerAddTask_lugar (Some f) a d p B q z q' Hq HB Hd ltac:(lia) Ha) as (Hq' & i' & Hz & Hi' & Ht).
  assert (i' = i) as -> by lia.
  destruct (vueltas_sigue i f d p k ltac:(lia) ltac:(lia) cuerpo llegan Hc Hr n 0 0 0 B (mkSis q' k []))
    as (s & E & _ & _ & t & Ht' & Hg); [done|done| |done|].
  - split; [done|]. split; [done|]. eexists. split; [done|]. cbn [ahora hechas].
    constructor; cbn [runMe delay pTask period]; unfold veces; simpl; try done; lia.
  - exists s, t. rewrite Z.sub_0_r in Hg. split_and!; [done|done| |apply Hg..].
    by eapply (seguida_activaciones f d p); [lia..|].
Qed.

(** function 9 removes entry 1, from which it runs *)
Definition se_borra (f a : Z) (p : planif) : res planif :=
  if f =? 9 then r ← schedulerDeleteTask 1 p; Bien (snd r) else Bien p.

Definition con_ayudante : planif :=
  con_tareas siesta (<[1%nat := mkTask (Some 9) 0 1 0 0]> (schedulerTasks siesta)).

Lemma se_borra_ok B g a q :
  0 <= B -> sano B q -> exists q', se_borra g a q = Bien q' /\ sano B q' /\
    schedulerTasks q' !! 0%nat = schedulerTasks q !! 0%nat.
Proof.
  intros HB Hs. unfold se_borra. destruct (g =? 9); [|by exists q].
  destruct (schedulerDeleteTask_ok B 1 q Hs HB) as (c & e & -> & Hd); [unfold SCHEDULER_MAX_TASKS; lia|].
  eexists. split; [done|]. split; [apply Hd|]. simpl. by rewrite list_lookup_insert_ne.
Qed.

Lemma planificador_cuenta_witness :
  exists s t, vueltas se_borra un_tic 9 0
      (mkSis (con_tareas con_ayudante (<[0%nat := mkTask (Some 7) 0 2 3 0]> (schedulerTasks con_ayudante))) 0 []) = Bien s /\
    schedulerTasks (tabla s) !! 0%nat = Some t /\
    veces 0 (hechas s) + runMe t = activaciones 2 3 (ahora s - 0) /\
    0 <= runMe t <= 1 + atraso un_tic 9 0.
Proof.
  apply (planificador_cuenta se_borra un_tic 9 7 0 2 3 0 con_ayudante 0).
  - lia.
  - lia.
  - lia.
  - split; [reflexivity|]. unfold con_ayudante, siesta. cbn.
    repeat (constructor; [by constructor; cbn; try lia|]). constructor.
  - reflexivity.
  - reflexivity.
  - intros. by apply se_borra_ok.
  - done.
  - reflexivity.
Defined.

(** ** Where it breaks *)

(** a tick inside [runMe -= 1] is lost: a task of period 1, two ticks before the first
    round and one in the decrement, has come due three times and runs twice *)
Definition tic_en_resta (v : nat) (x : donde) : nat :=
  match v, x with O, Antes 0%nat => 2 | O, Resta 0%nat => 1 | _, _ => 0 end.

Example activacion_perdida :
  (r ← schedulerAddTask (Some 7) 0 1 1 siesta;
   s ← vueltas nada tic_en_resta 5 0 (mkSis (snd r) 0 []);
   Bien (activaciones 1 1 (ahora s), veces 0 (hechas s))) = Bien (3, 2).
Proof. vm_compute. reflexivity. Qed.

(** a task that removes itself and adds another in its place leaves the new one with one
    run less: a one-shot task is removed without ever running *)
Definition relevo (f a : Z) (p : planif) : res planif :=
  if f =? 7 then r ← schedulerDeleteTask 0 p; q ← schedulerAddTask (Some 8) 0 3 0 (snd r); Bien (snd q)
  else Bien p.

Example relevo_perdido :
  (r ← schedulerAddTask (Some 7) 0 1 5 siesta;
   s ← vueltas relevo un_tic 20 0 (mkSis (snd r) 0 []);
   Bien (hechas s, schedulerTasks (tabla s) !! 0%nat)) = Bien ([(0%nat, 1)], Some tarea_vacia).
Proof. vm_compute. reflexivity. Qed.
