(* ===== verification/PlcIL.v ===== *)
(** * ide4plc: the instruction list of a PLC

    PLC_IL_Instructions.c, PLC_Registers.c and PLC_Lib.c of [libs/plc/ide4plc].  The current
    result register [CR] is a type and a union of 1024 bytes; each instruction reads and
    writes members of the union, little-endian as on the board, so a value written at one
    type and read at another is what the board would read.  Integers are promoted to [int]
    before arithmetic, and a signed overflow or a division by zero is undefined.  Floating
    point is SpecFloat at 24 and 53 bits.  The theorems: a type system for programs of these
    instructions is sound; what the comparisons of dates decide; the day of the week. *)

From Stdlib Require Import ZArith Lia Bool.
From Stdlib Require Import SpecFloat.
From stdpp Require Import base list list_numbers numbers.
From stdpp Require Import options.
From S2P Require Import Prelude.

(** ** PLC_Registers.h *)

Inductive PLC_EnumDataTypes : Type :=
  | BOOL | BYTE | WORD | DWORD | LWORD | SINT | INT | DINT | LINT
  | USINT | UINT | UDINT | ULINT | REAL | LREAL | TIME | D | TOD | DT
  | STRING | WSTRING | BCD16 | BCD32 | OTHER.

Inductive PLC_EnumModifiers : Type := NullModifier | N | C | NullModifierC | NC.

#[export] Instance PLC_EnumDataTypes_eq : EqDecision PLC_EnumDataTypes.
Proof. solve_decision. Defined.

Definition es_N (m : PLC_EnumModifiers) : bool := match m with N => true | _ => false end.

(** the union is as large as its member [KBYTE] *)
Definition UNION : nat := 1024.

Record PLC_SymbolicRegister : Type := mkCR {
  TYPE : PLC_EnumDataTypes;
  VALUE : list Z
}.

(** ** The members of the union *)

(** integer members: bytes, and whether the type is signed *)
Definition entero (t : PLC_EnumDataTypes) : option (nat * bool) :=
  match t with
  | BOOL | BYTE | USINT => Some (1%nat, false)
  | WORD | UINT => Some (2%nat, false)
  | DWORD | UDINT => Some (4%nat, false)
  | LWORD | ULINT => Some (8%nat, false)
  | SINT => Some (1%nat, true)
  | INT | BCD16 => Some (2%nat, true)
  | DINT | TIME | BCD32 => Some (4%nat, true)
  | LINT => Some (8%nat, true)
  | REAL | LREAL | D | TOD | DT | STRING | WSTRING | OTHER => None
  end.

Definition tam (t : PLC_EnumDataTypes) : option nat :=
  match t with
  | BOOL | BYTE | USINT | SINT => Some 1%nat
  | WORD | UINT | INT | BCD16 => Some 2%nat
  | DWORD | UDINT | DINT | TIME | BCD32 | REAL => Some 4%nat
  | LWORD | ULINT | LINT | LREAL => Some 8%nat
  | D => Some 6%nat
  | TOD => Some 8%nat
  | DT => Some 12%nat
  | STRING => Some 256%nat
  | WSTRING => Some 510%nat
  | OTHER => None
  end.

(** the numeric fields of the structures: bytes and offset.  WEEKDAY, at 4, takes no part *)
Definition campos_de (t : PLC_EnumDataTypes) : list (nat * nat) :=
  match t with
  | D => [(2, 0); (1, 2); (1, 3)]
  | TOD => [(1, 0); (1, 1); (1, 2); (4, 4)]
  | DT => [(2, 0); (1, 2); (1, 3); (1, 5); (1, 6); (1, 7); (4, 8)]
  | _ => []
  end%nat.

Definition con_signo (w x : Z) : Z := (x + 2 ^ (w - 1)) mod 2 ^ w - 2 ^ (w - 1).

(** a conversion to an integer type of [n] bytes *)
Definition ajusta (n : nat) (sg : bool) (x : Z) : Z :=
  let w := 8 * Z.of_nat n in if sg then con_signo w x else x mod 2 ^ w.

Definition bytes_en (n off : nat) (l : list Z) : res (list Z) :=
  let b := take n (drop off l) in if (length b <? n)%nat then Indef else Bien b.

Definition lee (n : nat) (sg : bool) (off : nat) (l : list Z) : res Z :=
  b ← bytes_en n off l; Bien (ajusta n sg (little_endian_to_Z 8 b)).

(** assigning to a member leaves the other bytes of the union *)
Definition pone (b : list Z) (l : list Z) : list Z := b ++ drop (length b) l.
Definition pone_entero (n : nat) (z : Z) (l : list Z) : list Z :=
  pone (Z_to_little_endian (Z.of_nat n) 8 z) l.

Definition con_valor (cr : PLC_SymbolicRegister) (l : list Z) : PLC_SymbolicRegister := mkCR (TYPE cr) l.

(** ** Floating point: the formats of [float] and [double] *)

Record formato : Type := mkFormato { mantisa : Z; exponente : Z }.
Definition simple : formato := mkFormato 23 8.
Definition doble : formato := mkFormato 52 11.

Definition prec (f : formato) : Z := mantisa f + 1.
Definition emax (f : formato) : Z := 2 ^ (exponente f - 1).

Definition flotante (f : formato) (b : Z) : spec_float :=
  let s := Z.testbit b (mantisa f + exponente f) in
  let e := Z.land (Z.shiftr b (mantisa f)) (Z.ones (exponente f)) in
  let m := Z.land b (Z.ones (mantisa f)) in
  let emin := 3 - emax f - prec f in
  if e =? 0 then
    match m with Zpos p => S754_finite s p emin | _ => S754_zero s end
  else if e =? Z.ones (exponente f) then (if m =? 0 then S754_infinity s else S754_nan)
  else match m + 2 ^ mantisa f with Zpos p => S754_finite s p (e + emin - 1) | _ => S754_nan end.

Definition bits_de (f : formato) (x : spec_float) : Z :=
  let signo (s : bool) := if s then 2 ^ (mantisa f + exponente f) else 0 in
  let infinito := Z.shiftl (Z.ones (exponente f)) (mantisa f) in
  match x with
  | S754_zero s => signo s
  | S754_infinity s => signo s + infinito
  | S754_nan => infinito + 2 ^ (mantisa f - 1)
  | S754_finite s p e =>
      let emin := 3 - emax f - prec f in
      signo s + (if Zpos p <? 2 ^ mantisa f then Zpos p
                 else Z.shiftl (e - emin + 1) (mantisa f) + (Zpos p - 2 ^ mantisa f))
  end.

Definition real (t : PLC_EnumDataTypes) : option (nat * formato) :=
  match t with REAL => Some (4%nat, simple) | LREAL => Some (8%nat, doble) | _ => None end.

Definition lee_real (n : nat) (f : formato) (l : list Z) : res spec_float :=
  z ← lee n false 0 l; Bien (flotante f z).

Example uno : flotante simple 1065353216 = S754_finite false 8388608 (-23) /\
  bits_de simple (S754_finite false 8388608 (-23)) = 1065353216.
Proof. by vm_compute. Qed.
Example medio_mas_medio :
  bits_de doble (SFadd (prec doble) (emax doble) (flotante doble 4602678819172646912) (flotante doble 4602678819172646912))
  = 4607182418800017408.
Proof. by vm_compute. Qed.

(** ** Loads and stores *)

Definition negado (n : nat) (z : Z) : Z := ajusta n false (Z.lnot z).

Definition PLC_IL_LD_BOOL_Literal (newValue : Z) (m : PLC_EnumModifiers) (cr : PLC_SymbolicRegister) :
    PLC_SymbolicRegister :=
  con_valor cr (pone_entero 1 (if es_N m then (if newValue =? 0 then 1 else 0) else newValue) (VALUE cr)).

Definition PLC_IL_LD_INT_Literal (newValue : Z) (m : PLC_EnumModifiers) (cr : PLC_SymbolicRegister) :
    PLC_SymbolicRegister :=
  con_valor cr (pone_entero 2 (if es_N m then Z.lnot newValue else newValue) (VALUE cr)).

Definition PLC_IL_LD_TIME_Literal (newValue : Z) (m : PLC_EnumModifiers) (cr : PLC_SymbolicRegister) :
    PLC_SymbolicRegister :=
  con_valor cr (pone_entero 4 (if es_N m then Z.lnot newValue else newValue) (VALUE cr)).

(** the byte copy of [OTHER], and of [PLC_IL_ST] *)
Definition copia (n : nat) (m : PLC_EnumModifiers) (src : list Z) : res (list Z) :=
  b ← bytes_en n 0 src; Bien (if es_N m then map (negado 1) b else b).

(** [newValue] is the memory pointed to; a load of a string sets only the type *)
Definition PLC_IL_LD (newValue : list Z) (lenght : nat) (type : PLC_EnumDataTypes) (m : PLC_EnumModifiers)
    (cr : PLC_SymbolicRegister) : res PLC_SymbolicRegister :=
  let cr := mkCR type (VALUE cr) in
  match type with
  | BOOL =>
      z ← lee 1 false 0 newValue;
      Bien (con_valor cr (pone_entero 1 (if es_N m then (if z =? 0 then 1 else 0) else z) (VALUE cr)))
  | REAL | LREAL | D | TOD | DT =>
      b ← bytes_en (default 0%nat (tam type)) 0 newValue; Bien (con_valor cr (pone b (VALUE cr)))
  | STRING | WSTRING => Bien cr
  | OTHER =>
      b ← copia lenght m newValue;
      if (UNION <? lenght)%nat then Indef else Bien (con_valor cr (pone b (VALUE cr)))
  | _ =>
      match entero type with
      | Some (n, sg) =>
          z ← lee n sg 0 newValue;
          Bien (con_valor cr (pone_entero n (if es_N m then Z.lnot z else z) (VALUE cr)))
      | None => Bien cr
      end
  end.

(** the memory pointed to, afterwards *)
Definition PLC_IL_ST (newValue : list Z) (lenght : nat) (m : PLC_EnumModifiers) (cr : PLC_SymbolicRegister) :
    res (list Z) :=
  b ← copia lenght m (VALUE cr);
  _ ← bytes_en lenght 0 newValue;
  Bien (pone b newValue).

Definition verdadero (cr : PLC_SymbolicRegister) : res bool :=
  if decide (TYPE cr = BOOL) then z ← lee 1 false 0 (VALUE cr); Bien (negb (z =? 0)) else Bien false.

Definition PLC_IL_S (operand : list Z) (cr : PLC_SymbolicRegister) : res (list Z) :=
  v ← verdadero cr;
  if (v : bool) then _ ← bytes_en 1 0 operand; Bien (pone_entero 1 1 operand) else Bien operand.

Definition PLC_IL_R (operand : list Z) (cr : PLC_SymbolicRegister) : res (list Z) :=
  v ← verdadero cr;
  if (v : bool) then _ ← bytes_en 1 0 operand; Bien (pone_entero 1 0 operand) else Bien operand.

(** ** Comparisons *)

Fixpoint lee_campos (cs : list (nat * nat)) (l : list Z) : res (list Z) :=
  match cs with
  | [] => Bien []
  | (n, off) :: cs => z ← lee n false off l; r ← lee_campos cs l; Bien (z :: r)
  end.

Definition resultado (b : bool) (cr : PLC_SymbolicRegister) : PLC_SymbolicRegister :=
  mkCR BOOL (pone_entero 1 (if b then 1 else 0) (VALUE cr)).

(** the switch that the six comparisons share: [zop] on integers, [fop] on floats, [lop] on
    the fields of a structure; the other types set only the type *)
Definition comparar (zop : Z -> Z -> bool) (fop : spec_float -> spec_float -> bool)
    (lop : list Z -> list Z -> bool) (operand : list Z) (type : PLC_EnumDataTypes)
    (cr : PLC_SymbolicRegister) : res PLC_SymbolicRegister :=
  if decide (TYPE cr = type) then
    match entero type, real type, campos_de type with
    | Some (n, sg), _, _ =>
        a ← lee n sg 0 (VALUE cr); b ← lee n sg 0 operand; Bien (resultado (zop a b) cr)
    | None, Some (n, f), _ =>
        a ← lee_real n f (VALUE cr); b ← lee_real n f operand; Bien (resultado (fop a b) cr)
    | None, None, [] => Bien (mkCR BOOL (VALUE cr))
    | None, None, cs =>
        a ← lee_campos cs (VALUE cr); b ← lee_campos cs operand; Bien (resultado (lop a b) cr)
    end
  else Bien cr.

(** [a == a' && b == b' && ...] and [a != a' || b != b' || ...] *)
Fixpoint todos_iguales (a b : list Z) : bool :=
  match a, b with x :: a, y :: b => (x =? y) && todos_iguales a b | _, _ => true end.
Fixpoint alguno_distinto (a b : list Z) : bool :=
  match a, b with x :: a, y :: b => negb (x =? y) || alguno_distinto a b | _, _ => false end.

(** [(a op a') || (a == a' && b op b') || (a == a' && b == b' && c op c') || ...]: [g] is the
    conjunction of the equalities so far *)
Fixpoint disyuncion (op : Z -> Z -> bool) (g : bool) (a b : list Z) : bool :=
  match a, b with
  | x :: a, y :: b => (g && op x y) || disyuncion op (g && (x =? y)) a b
  | _, _ => false
  end.

Definition PLC_IL_EQ := comparar Z.eqb SFeqb todos_iguales.
Definition PLC_IL_NE := comparar (fun a b => negb (a =? b)) (fun a b => negb (SFeqb a b)) alguno_distinto.
Definition PLC_IL_GT := comparar Z.gtb (fun a b => SFltb b a) (disyuncion Z.gtb true).
Definition PLC_IL_GE := comparar Z.geb (fun a b => SFleb b a) (disyuncion Z.geb true).
Definition PLC_IL_LT := comparar Z.ltb SFltb (disyuncion Z.ltb true).
Definition PLC_IL_LE := comparar Z.leb SFleb (disyuncion Z.leb true).

(** ** Arithmetic *)

(** the type an operand of [n] bytes is promoted to: [int] below four bytes *)
Definition promovido (n : nat) (sg : bool) : nat * bool := if (n <? 4)%nat then (4%nat, true) else (n, sg).

(** the value of an operation at the promoted type: signed overflow is undefined *)
Definition en_rango (n : nat) (sg : bool) (z : Z) : res Z :=
  if ajusta n sg z =? z then Bien z else if sg then Indef else Bien (ajusta n sg z).

(** [CR.VALUE.X op= operand] at an integer member of [n] bytes, and at a float *)
Definition arit_entera (zop : nat * bool -> Z -> Z -> option Z) (n : nat) (sg : bool) (operand : list Z)
    (cr : PLC_SymbolicRegister) : res PLC_SymbolicRegister :=
  a ← lee n sg 0 (VALUE cr); b ← lee n sg 0 operand;
  z ← acceso (zop (promovido n sg) a b);
  r ← en_rango (fst (promovido n sg)) (snd (promovido n sg)) z;
  Bien (con_valor cr (pone_entero n (ajusta n sg r) (VALUE cr))).

Definition arit_real (fop : formato -> spec_float -> spec_float -> spec_float) (n : nat) (f : formato)
    (operand : list Z) (cr : PLC_SymbolicRegister) : res PLC_SymbolicRegister :=
  a ← lee_real n f (VALUE cr); b ← lee_real n f operand;
  Bien (con_valor cr (pone_entero n (bits_de f (fop f a b)) (VALUE cr))).

(** the integer types of the switch; TIME apart *)
Definition es_numero (t : PLC_EnumDataTypes) : bool :=
  match t with SINT | INT | DINT | LINT | USINT | UINT | UDINT | ULINT => true | _ => false end.

(** the switch of the five instructions; that of MOD has no cases for the floats and TIME *)
Definition arit (completo : bool) (zop : nat * bool -> Z -> Z -> option Z)
    (fop : formato -> spec_float -> spec_float -> spec_float) (operand : list Z)
    (type : PLC_EnumDataTypes) (cr : PLC_SymbolicRegister) : res PLC_SymbolicRegister :=
  if decide (TYPE cr = type) then
    match entero type, real type with
    | Some (n, sg), _ =>
        if es_numero type || (completo && bool_decide (type = TIME)) then arit_entera zop n sg operand cr else Bien cr
    | None, Some (n, f) => if completo then arit_real fop n f operand cr else Bien cr
    | None, None => Bien cr
    end
  else Bien cr.

Definition dividir (p : nat * bool) (a b : Z) : option Z := if b =? 0 then None else Some (Z.quot a b).
(** [%] is also undefined where the quotient does not fit *)
Definition resto (p : nat * bool) (a b : Z) : option Z :=
  if (b =? 0) || negb (ajusta (fst p) (snd p) (Z.quot a b) =? Z.quot a b) then None else Some (Z.rem a b).

Definition PLC_IL_ADD := arit true (fun _ a b => Some (a + b)) (fun f => SFadd (prec f) (emax f)).
Definition PLC_IL_SUB := arit true (fun _ a b => Some (a - b)) (fun f => SFsub (prec f) (emax f)).
Definition PLC_IL_MUL := arit true (fun _ a b => Some (a * b)) (fun f => SFmul (prec f) (emax f)).
Definition PLC_IL_DIV := arit true dividir (fun f => SFdiv (prec f) (emax f)).
Definition PLC_IL_MOD := arit false resto (fun f x y => x).

(** ** Logic *)

Definition es_bits (t : PLC_EnumDataTypes) : bool :=
  match t with BOOL | BYTE | WORD | DWORD | LWORD => true | _ => false end.

(** the operand with modifier N: [!x] at BOOL, [~x] at the others *)
Definition operando (n : nat) (type : PLC_EnumDataTypes) (m : PLC_EnumModifiers) (z : Z) : Z :=
  if es_N m then (if decide (type = BOOL) then (if z =? 0 then 1 else 0) else Z.lnot z) else z.

Definition logica (op : Z -> Z -> Z) (operand : list Z) (type : PLC_EnumDataTypes) (m : PLC_EnumModifiers)
    (cr : PLC_SymbolicRegister) : res PLC_SymbolicRegister :=
  if decide (TYPE cr = type) then
    if es_bits type then
      match entero type with
      | Some (n, sg) =>
          a ← lee n sg 0 (VALUE cr); b ← lee n sg 0 operand;
          Bien (con_valor cr (pone_entero n (op a (operando n type m b)) (VALUE cr)))
      | None => Bien cr
      end
    else Bien cr
  else Bien cr.

Definition PLC_IL_AND := logica Z.land.
Definition PLC_IL_OR := logica Z.lor.
Definition PLC_IL_XOR := logica Z.lxor.

(** no look at [CR.TYPE] *)
Definition PLC_IL_NOT (type : PLC_EnumDataTypes) (cr : PLC_SymbolicRegister) : res PLC_SymbolicRegister :=
  if es_bits type then
    match entero type with
    | Some (n, sg) =>
        a ← lee n sg 0 (VALUE cr);
        Bien (con_valor cr (pone_entero n (operando n type N a) (VALUE cr)))
    | None => Bien cr
    end
  else Bien cr.

(** ** PLC_Registers.c: a port of eight one-bit fields and its byte *)

Definition Convert_PLC_1ByteRegister_2_PLC_BYTE (PORT : list bool) : Z :=
  foldl (fun status (p : bool * Z) => if fst p then Z.lor status (snd p) else status) 0
    (zip PORT [1; 2; 4; 8; 16; 32; 64; 128]).

Definition Convert_PLC_BYTE_2_PLC_1ByteRegister (status : Z) : list bool :=
  map (fun b => negb (Z.land status b =? 0)) [1; 2; 4; 8; 16; 32; 64; 128].

(** ** PLC_Lib.c *)

(** The arguments and the result are of type [PLC_INT], sixteen bits; the locals are [int], and
    no sum or product of sixteen-bit values below leaves its thirty-two. *)
Definition DT_Weekday (Year Month Day : Z) : Z :=
  let Year := s16 Year in
  let Month := s16 Month in
  let Day := s16 Day in
  let a := Z.quot (14 - Month) 12 in
  let y := Year - a in
  let m := Month + 12 * a - 2 in
  let NumZeller := Z.rem (Day + y + Z.quot y 4 - Z.quot y 100 + Z.quot y 400 + Z.quot (31 * m) 12) 7 in
  let NumDT := NumZeller + 1 in
  s16 NumDT.

(** ** Programs

    A program is a sequence of instructions over variables; each variable is a piece of
    memory.  The instructions that are calls take the address of a variable. *)

Inductive comparacion : Type := EQ | NE | GT | GE | LT | LE.
Inductive aritmetica : Type := ADD | SUB | MUL | DIV | MOD.
Inductive logico : Type := AND | OR | XOR.

Inductive instr : Type :=
  | LD_BOOL_Literal (newValue : Z) (m : PLC_EnumModifiers)
  | LD_INT_Literal (newValue : Z) (m : PLC_EnumModifiers)
  | LD_TIME_Literal (newValue : Z) (m : PLC_EnumModifiers)
  | LD (v : nat) (lenght : nat) (type : PLC_EnumDataTypes) (m : PLC_EnumModifiers)
  | ST (v : nat) (lenght : nat) (m : PLC_EnumModifiers)
  | S_ (v : nat)
  | R_ (v : nat)
  | Cmp (c : comparacion) (v : nat) (type : PLC_EnumDataTypes)
  | Arit (a : aritmetica) (v : nat) (type : PLC_EnumDataTypes)
  | Log (l : logico) (v : nat) (type : PLC_EnumDataTypes) (m : PLC_EnumModifiers)
  | NOT (type : PLC_EnumDataTypes).

Record plc : Type := mkPlc { CR : PLC_SymbolicRegister; memoria : list (list Z) }.

Definition llama_cmp (c : comparacion) : list Z -> PLC_EnumDataTypes -> PLC_SymbolicRegister -> res PLC_SymbolicRegister :=
  match c with
  | EQ => PLC_IL_EQ | NE => PLC_IL_NE | GT => PLC_IL_GT | GE => PLC_IL_GE | LT => PLC_IL_LT | LE => PLC_IL_LE
  end.
Definition llama_arit (a : aritmetica) : list Z -> PLC_EnumDataTypes -> PLC_SymbolicRegister -> res PLC_SymbolicRegister :=
  match a with ADD => PLC_IL_ADD | SUB => PLC_IL_SUB | MUL => PLC_IL_MUL | DIV => PLC_IL_DIV | MOD => PLC_IL_MOD end.
Definition llama_log (l : logico) : list Z -> PLC_EnumDataTypes -> PLC_EnumModifiers -> PLC_SymbolicRegister ->
    res PLC_SymbolicRegister :=
  match l with AND => PLC_IL_AND | OR => PLC_IL_OR | XOR => PLC_IL_XOR end.

Definition con_cr (s : plc) (cr : PLC_SymbolicRegister) : plc := mkPlc cr (memoria s).
Definition con_mem (s : plc) (v : nat) (l : list Z) : plc := mkPlc (CR s) (<[v := l]> (memoria s)).

Definition ejecuta (i : instr) (s : plc) : res plc :=
  match i with
  | LD_BOOL_Literal z m => Bien (con_cr s (PLC_IL_LD_BOOL_Literal z m (CR s)))
  | LD_INT_Literal z m => Bien (con_cr s (PLC_IL_LD_INT_Literal z m (CR s)))
  | LD_TIME_Literal z m => Bien (con_cr s (PLC_IL_LD_TIME_Literal z m (CR s)))
  | LD v len t m => x ← acceso (memoria s !! v); cr ← PLC_IL_LD x len t m (CR s); Bien (con_cr s cr)
  | ST v len m => x ← acceso (memoria s !! v); x ← PLC_IL_ST x len m (CR s); Bien (con_mem s v x)
  | S_ v => x ← acceso (memoria s !! v); x ← PLC_IL_S x (CR s); Bien (con_mem s v x)
  | R_ v => x ← acceso (memoria s !! v); x ← PLC_IL_R x (CR s); Bien (con_mem s v x)
  | Cmp c v t => x ← acceso (memoria s !! v); cr ← llama_cmp c x t (CR s); Bien (con_cr s cr)
  | Arit a v t => x ← acceso (memoria s !! v); cr ← llama_arit a x t (CR s); Bien (con_cr s cr)
  | Log l v t m => x ← acceso (memoria s !! v); cr ← llama_log l x t m (CR s); Bien (con_cr s cr)
  | NOT t => cr ← PLC_IL_NOT t (CR s); Bien (con_cr s cr)
  end.

Fixpoint corre (p : list instr) (s : plc) : res plc :=
  match p with [] => Bien s | i :: p => s ← ejecuta i s; corre p s end.

(** ** A type system

    [chequea G t i]: with variables of types [G] and a current result of type [t], the type
    of the current result after [i]; [None] where the instruction would read or leave a
    value of another type.  The literal loads do not set [CR.TYPE], so they need it set;
    [ST] with modifier N stores [~x], which at BOOL is neither 0 nor 1. *)

Definition con_tamano (t : PLC_EnumDataTypes) : bool :=
  match t with STRING | WSTRING | OTHER => false | _ => true end.

Definition si (b : bool) (t : PLC_EnumDataTypes) : option PLC_EnumDataTypes := if b then Some t else None.

Definition var (G : list PLC_EnumDataTypes) (v : nat) (t : PLC_EnumDataTypes) : bool :=
  bool_decide (G !! v = Some t).

Definition chequea (G : list PLC_EnumDataTypes) (t : PLC_EnumDataTypes) (i : instr) : option PLC_EnumDataTypes :=
  match i with
  | LD_BOOL_Literal z m => si (bool_decide (t = BOOL) && ((z =? 0) || (z =? 1))) BOOL
  | LD_INT_Literal z m => si (bool_decide (t = INT)) INT
  | LD_TIME_Literal z m => si (bool_decide (t = TIME)) TIME
  | LD v len u m => si (var G v u && con_tamano u) u
  | ST v len m =>
      si (var G v t && con_tamano t && bool_decide (tam t = Some len) && negb (bool_decide (t = BOOL) && es_N m)) t
  | S_ v | R_ v => si (var G v BOOL) t
  | Cmp c v u => si (bool_decide (t = u) && var G v u && con_tamano u) BOOL
  | Arit a v u => si (bool_decide (t = u) && var G v u) t
  | Log l v u m => si (bool_decide (t = u) && var G v u) t
  | NOT u => si (bool_decide (t = u)) t
  end.

Fixpoint chequean (G : list PLC_EnumDataTypes) (t : PLC_EnumDataTypes) (p : list instr) : option PLC_EnumDataTypes :=
  match p with [] => Some t | i :: p => t ← chequea G t i; chequean G t p end.

(** a value of type [t] in memory: its bytes, and 0 or 1 at BOOL *)
Definition de_tipo (t : PLC_EnumDataTypes) (l : list Z) : Prop :=
  Forall (fun b => 0 <= b < 256) l /\
  match tam t with Some n => (n <= length l)%nat | None => True end /\
  (t = BOOL -> exists b, l !! 0%nat = Some b /\ (b = 0 \/ b = 1)).

Record tipado (G : list PLC_EnumDataTypes) (t : PLC_EnumDataTypes) (s : plc) : Prop := {
  t_tipo : TYPE (CR s) = t;
  t_valor : de_tipo t (VALUE (CR s));
  t_union : length (VALUE (CR s)) = UNION;
  t_mem : Forall2 de_tipo G (memoria s)
}.

(** what C leaves undefined in [x op y] at the promoted type [p] *)
Definition indefinida (a : aritmetica) (p : nat * bool) (x y : Z) : Prop :=
  match a with
  | ADD => snd p = true /\ ajusta (fst p) true (x + y) <> x + y
  | SUB => snd p = true /\ ajusta (fst p) true (x - y) <> x - y
  | MUL => snd p = true /\ ajusta (fst p) true (x * y) <> x * y
  | DIV => y = 0 \/ (snd p = true /\ ajusta (fst p) true (Z.quot x y) <> Z.quot x y)
  | MOD => y = 0 \/ ajusta (fst p) (snd p) (Z.quot x y) <> Z.quot x y
  end.

(** the arithmetic of an instruction is undefined at the state it meets *)
Definition falla (i : instr) (s : plc) : Prop :=
  exists a v t l n sg x y, i = Arit a v t /\ memoria s !! v = Some l /\ entero t = Some (n, sg) /\
    lee n sg 0 (VALUE (CR s)) = Bien x /\ lee n sg 0 l = Bien y /\ indefinida a (promovido n sg) x y.

Lemma bytes_en_ok n off l : (off + n <= length l)%nat -> bytes_en n off l = Bien (take n (drop off l)).
Proof.
  intros H. unfold bytes_en. by rewrite (proj2 (Nat.ltb_ge _ _)) by (rewrite length_take, length_drop; lia).
Qed.

Lemma lee_ok n sg off l : (off + n <= length l)%nat ->
  lee n sg off l = Bien (ajusta n sg (little_endian_to_Z 8 (take n (drop off l)))).
Proof. intros H. unfold lee. by rewrite bytes_en_ok. Qed.

Lemma length_pone b l : (length b <= length l)%nat -> length (pone b l) = length l.
Proof. intros H. unfold pone. rewrite length_app, length_drop. lia. Qed.

Lemma length_Z_bytes n z : length (Z_to_little_endian (Z.of_nat n) 8 z) = n.
Proof. pose proof (length_Z_to_little_endian (Z.of_nat n) 8 z ltac:(lia)). lia. Qed.

Lemma bytes_pone b l :
  Forall (fun b => 0 <= b < 256) b -> Forall (fun b => 0 <= b < 256) l -> Forall (fun b => 0 <= b < 256) (pone b l).
Proof. intros. unfold pone. apply Forall_app. split; [done|by apply Forall_drop]. Qed.

Lemma bytes_Z n z : Forall (fun b => 0 <= b < 256) (Z_to_little_endian (Z.of_nat n) 8 z).
Proof. apply (Z_to_little_endian_bound (Z.of_nat n) 8 z); lia. Qed.

Lemma tam_union t n : tam t = Some n -> (n <= UNION)%nat.
Proof. unfold UNION. by destruct t; intros [= <-]; apply Nat.leb_le. Qed.

Lemma entero_tam t n sg : entero t = Some (n, sg) -> tam t = Some n.
Proof. by destruct t; intros [= <- <-]. Qed.

Lemma real_tam t n f : real t = Some (n, f) -> tam t = Some n.
Proof. by destruct t; intros [= <- <-]. Qed.

Lemma campos_tam t n off k : (n, off) ∈ campos_de t -> tam t = Some k -> (off + n <= k)%nat.
Proof.
  destruct t; simpl; rewrite ?elem_of_cons, elem_of_nil; try tauto;
    intros H [= <-]; repeat destruct H as [H|H]; try tauto; injection H as -> ->; lia.
Qed.

Lemma de_tipo_largo t l n : de_tipo t l -> tam t = Some n -> (n <= length l)%nat.
Proof. intros (_ & H & _) E. by rewrite E in H. Qed.

Lemma de_tipo_lee t l n sg : de_tipo t l -> entero t = Some (n, sg) -> exists z, lee n sg 0 l = Bien z.
Proof.
  intros Hl He. eexists. apply lee_ok. by apply (de_tipo_largo _ _ _ Hl), (entero_tam _ _ sg).
Qed.

Lemma de_tipo_bool l : de_tipo BOOL l -> exists z, lee 1 false 0 l = Bien z /\ (z = 0 \/ z = 1).
Proof.
  intros (_ & Hl & H). destruct (H eq_refl) as (b & Hb & Hv). cbn [tam] in Hl.
  destruct l as [|b' l]; [done|]. injection Hb as ->.
  rewrite lee_ok by (simpl; lia). eexists. split; [done|]. by destruct Hv as [-> | ->]; [left|right].
Qed.

Lemma de_tipo_lee_campos t l cs : de_tipo t l -> con_tamano t = true ->
  (forall c, c ∈ cs -> c ∈ campos_de t) -> exists zs, lee_campos cs l = Bien zs.
Proof.
  intros Hl Ht. induction cs as [|[n off] cs IH]; intros Hc; [by exists []|].
  destruct IH as [zs E]; [intros c H; apply Hc; by right|].
  destruct (tam t) as [k|] eqn:Ek; [|by destruct t].
  cbn [lee_campos]. rewrite lee_ok, E; [by eexists|].
  pose proof (campos_tam t n off k (Hc _ ltac:(by left)) Ek). pose proof (de_tipo_largo _ _ _ Hl Ek). lia.
Qed.

Section Progreso.
Context (G : list PLC_EnumDataTypes).

Lemma var_mem t s v u : tipado G t s -> var G v u = true -> exists l, memoria s !! v = Some l /\ de_tipo u l.
Proof.
  intros Hs Hv. apply bool_decide_eq_true in Hv.
  by destruct (Forall2_lookup_l _ _ _ _ _ (t_mem _ _ _ Hs) Hv) as (l & ? & ?); exists l.
Qed.

(** assigning [b] to a member of the union and [t'] to the type *)
Lemma cr_tipado t t' s b :
  tipado G t s -> Forall (fun b => 0 <= b < 256) b -> (length b <= UNION)%nat ->
  (t' = BOOL -> exists z, b !! 0%nat = Some z /\ (z = 0 \/ z = 1)) ->
  tipado G t' (con_cr s (mkCR t' (pone b (VALUE (CR s))))).
Proof.
  intros [Ht (Hb0 & _ & _) Hu Hm] Hb Hl HB. constructor; cbn [con_cr CR TYPE VALUE memoria]; try done.
  - split_and!; [by apply bytes_pone| |].
    + destruct (tam t') as [n|] eqn:E; [|done]. rewrite length_pone by lia. apply tam_union in E. lia.
    + intros ->. destruct (HB eq_refl) as (z & Hz & Hv). exists z. split; [|done].
      unfold pone. apply lookup_app_l_Some. done.
  - rewrite length_pone by lia. done.
Qed.

Lemma entero_tipado t t' s n z :
  tipado G t s -> (n <= UNION)%nat -> (t' = BOOL -> n = 1%nat /\ (z = 0 \/ z = 1)) ->
  tipado G t' (con_cr s (mkCR t' (pone_entero n z (VALUE (CR s))))).
Proof.
  intros Hs Hn HB. unfold pone_entero. eapply cr_tipado; [done|apply bytes_Z|by rewrite length_Z_bytes|].
  intros E. destruct (HB E) as [-> [-> | ->]]; [exists 0|exists 1]; (split; [reflexivity|tauto]).
Qed.

Lemma mem_tipado t s v u l l' :
  tipado G t s -> G !! v = Some u -> memoria s !! v = Some l -> de_tipo u l' -> tipado G t (con_mem s v l').
Proof.
  intros [Ht Hv Hu Hm] Hg Hl Hl'. constructor; cbn [con_mem CR memoria]; try done.
  rewrite <- (list_insert_id G v u) by done. by apply Forall2_insert.
Qed.

Lemma pone_de_tipo t b l :
  de_tipo t l -> Forall (fun b => 0 <= b < 256) b -> (length b <= length l)%nat ->
  (t = BOOL -> exists z, b !! 0%nat = Some z /\ (z = 0 \/ z = 1)) -> de_tipo t (pone b l).
Proof.
  intros (Hb0 & Hl & _) Hb Hlb HB. split_and!; [by apply bytes_pone|by rewrite length_pone|].
  intros E. destruct (HB E) as (z & Hz & Hv). exists z. split; [|done]. unfold pone. by apply lookup_app_l_Some.
Qed.

Lemma ld_tipado t u s l len m :
  tipado G t s -> de_tipo u l -> con_tamano u = true ->
  exists cr, PLC_IL_LD l len u m (CR s) = Bien cr /\ tipado G u (con_cr s cr).
Proof.
  intros Hs Hl Hu. destruct (tam u) as [k|] eqn:Ek; [|by destruct u].
  pose proof (de_tipo_largo _ _ _ Hl Ek) as Hlen. pose proof (tam_union _ _ Ek) as Hku.
  destruct (decide (u = BOOL)) as [->|Hnb].
  { destruct (de_tipo_bool l Hl) as (z & Ez & Hz). unfold PLC_IL_LD. rewrite Ez. cbn [mbind res_bind].
    eexists. split; [done|]. apply (entero_tipado t); [done|unfold UNION; lia|]. intros _. split; [done|].
    destruct (es_N m); [|done]. destruct Hz as [-> | ->]; [by right|by left]. }
  destruct (entero u) as [[n sg]|] eqn:Ee.
  - destruct (de_tipo_lee _ _ _ _ Hl Ee) as [z Ez].
    exists (mkCR u (pone_entero n (if es_N m then Z.lnot z else z) (VALUE (CR s)))). split.
    + destruct u; try done; injection Ee as <- <-; cbn [PLC_IL_LD entero]; by rewrite Ez.
    + rewrite (entero_tam _ _ _ Ee) in Ek. injection Ek as ->. by apply (entero_tipado t).
  - exists (mkCR u (pone (take k (drop 0 l)) (VALUE (CR s)))). split.
    + destruct u; try done; injection Ek as <-; cbn [PLC_IL_LD tam default from_option id];
        by rewrite bytes_en_ok by exact Hlen.
    + apply (cr_tipado t); [done| |rewrite length_take; lia|done].
      rewrite drop_0. apply Forall_take, Hl.
Qed.

Lemma st_tipado t s l n m :
  tipado G t s -> de_tipo t l -> tam t = Some n -> (t = BOOL -> es_N m = false) ->
  exists l', PLC_IL_ST l n m (CR s) = Bien l' /\ de_tipo t l'.
Proof.
  intros Hs Hl Hn Hm. pose proof (de_tipo_largo _ _ _ Hl Hn) as Hln. pose proof (tam_union _ _ Hn) as Hnu.
  destruct Hs as [Ht Hv Hu _]. unfold PLC_IL_ST, copia. rewrite !bytes_en_ok by lia. cbn [mbind res_bind].
  eexists. split; [done|]. rewrite !drop_0. apply pone_de_tipo; [done| | |].
  - destruct (es_N m); [|apply Forall_take, Hv]. apply Forall_map, Forall_true.
    intros b. unfold negado, ajusta. apply Z.mod_pos_bound. done.
  - destruct (es_N m); rewrite ?length_map, length_take; lia.
  - intros E. rewrite (Hm E). subst t. destruct Hv as (_ & _ & H0). destruct (H0 E) as (z & Hz & Hz').
    exists z. split; [|done]. rewrite E in Hn. injection Hn as <-. by destruct (VALUE (CR s)).
Qed.

Lemma fija_tipado l b : de_tipo BOOL l -> (b = 0 \/ b = 1) -> de_tipo BOOL (pone_entero 1 b l).
Proof.
  intros Hl Hb. apply pone_de_tipo; [done|apply bytes_Z| |].
  - rewrite length_Z_bytes. by apply (de_tipo_largo BOOL).
  - intros _. exists b. by destruct Hb as [-> | ->]; split; auto.
Qed.

Lemma sr_tipado t s l :
  tipado G t s -> de_tipo BOOL l ->
  (exists l', PLC_IL_S l (CR s) = Bien l' /\ de_tipo BOOL l') /\
  (exists l', PLC_IL_R l (CR s) = Bien l' /\ de_tipo BOOL l').
Proof.
  intros [Ht Hv _ _] Hl. pose proof (de_tipo_largo BOOL l 1 Hl eq_refl) as Hll.
  assert (exists v, verdadero (CR s) = Bien v) as [v Ev].
  { unfold verdadero. destruct (decide (TYPE (CR s) = BOOL)) as [E|]; [|by eexists].
    rewrite Ht in E. rewrite E in Hv. destruct (de_tipo_bool _ Hv) as (z & -> & _). by eexists. }
  unfold PLC_IL_S, PLC_IL_R. rewrite Ev. cbn [mbind res_bind].
  destruct v; [|split; by exists l]. rewrite bytes_en_ok by lia. cbn [mbind res_bind].
  split; (eexists; split; [done|]); apply fija_tipado; auto.
Qed.

Lemma cmp_tipado t s l zop fop lop :
  tipado G t s -> de_tipo t l -> con_tamano t = true ->
  exists cr, comparar zop fop lop l t (CR s) = Bien cr /\ tipado G BOOL (con_cr s cr).
Proof.
  intros Hs Hl Ht. assert (Hs' := Hs). destruct Hs' as [HT Hv _ _].
  assert (Hr : forall b, tipado G BOOL (con_cr s (resultado b (CR s)))).
  { intros b. apply (entero_tipado t); [done|unfold UNION; lia|]. intros _. destruct b; auto. }
  unfold comparar. rewrite decide_True by done.
  destruct (entero t) as [[n sg]|] eqn:Ee.
  { destruct (de_tipo_lee _ _ _ _ Hv Ee) as [a ->], (de_tipo_lee _ _ _ _ Hl Ee) as [b ->]. by eexists. }
  destruct (real t) as [[n f]|] eqn:Er.
  { pose proof (real_tam _ _ _ Er) as En. unfold lee_real.
    rewrite !lee_ok by (by apply (de_tipo_largo _ _ _ Hl) || by apply (de_tipo_largo _ _ _ Hv)). by eexists. }
  destruct (de_tipo_lee_campos t (VALUE (CR s)) (campos_de t)) as [a Ea]; [done|done|done|].
  destruct (de_tipo_lee_campos t l (campos_de t)) as [b Eb]; [done|done|done|].
  destruct (campos_de t) as [|c cs] eqn:Ec; [by destruct t|]. rewrite Ea, Eb. by eexists.
Qed.

Lemma log_tipado t s l m op :
  tipado G t s -> de_tipo t l -> op = Z.land \/ op = Z.lor \/ op = Z.lxor ->
  exists cr, logica op l t m (CR s) = Bien cr /\ tipado G t (con_cr s cr).
Proof.
  intros Hs Hl Hop. assert (Hs' := Hs). destruct Hs' as [HT Hv _ _]. unfold logica. rewrite decide_True by done.
  assert (Hid : tipado G t (con_cr s (CR s))) by (by destruct s).
  destruct (es_bits t) eqn:Eb; [|by eexists]. destruct (entero t) as [[n sg]|] eqn:Ee; [|by eexists].
  unfold con_valor. rewrite HT. destruct (decide (t = BOOL)) as [Et|Hnb].
  - subst t. rewrite Et in *. injection Ee as <- <-.
    destruct (de_tipo_bool _ Hv) as (a & -> & Ha), (de_tipo_bool _ Hl) as (b & -> & Hb). cbn [mbind res_bind].
    eexists. split; [done|]. apply (entero_tipado BOOL); [done|unfold UNION; lia|]. intros _. split; [done|].
    unfold operando. rewrite decide_True by done.
    destruct Hop as [-> | [-> | ->]], Ha as [-> | ->], Hb as [-> | ->], (es_N m); vm_compute; auto.
  - destruct (de_tipo_lee _ _ _ _ Hv Ee) as [a ->], (de_tipo_lee _ _ _ _ Hl Ee) as [b ->]. cbn [mbind res_bind].
    eexists. split; [done|]. apply (entero_tipado t); [done| |done].
    by eapply tam_union, entero_tam.
Qed.

Lemma not_tipado t s :
  tipado G t s -> exists cr, PLC_IL_NOT t (CR s) = Bien cr /\ tipado G t (con_cr s cr).
Proof.
  intros Hs. assert (Hs' := Hs). destruct Hs' as [HT Hv _ _]. unfold PLC_IL_NOT.
  assert (Hid : tipado G t (con_cr s (CR s))) by (by destruct s).
  destruct (es_bits t) eqn:Eb; [|by eexists]. destruct (entero t) as [[n sg]|] eqn:Ee; [|by eexists].
  unfold con_valor. rewrite HT. destruct (decide (t = BOOL)) as [Et|Hnb].
  - subst t. rewrite Et in *. injection Ee as <- <-.
    destruct (de_tipo_bool _ Hv) as (a & -> & Ha). cbn [mbind res_bind].
    eexists. split; [done|]. apply (entero_tipado BOOL); [done|unfold UNION; lia|]. intros _. split; [done|].
    destruct Ha as [-> | ->]; vm_compute; auto.
  - destruct (de_tipo_lee _ _ _ _ Hv Ee) as [a ->]. cbn [mbind res_bind].
    eexists. split; [done|]. apply (entero_tipado t); [done| |done]. by eapply tam_union, entero_tam.
Qed.

(** the operations of the arithmetic instructions *)
Definition zop_de (a : aritmetica) : nat * bool -> Z -> Z -> option Z :=
  match a with
  | ADD => fun _ x y => Some (x + y) | SUB => fun _ x y => Some (x - y) | MUL => fun _ x y => Some (x * y)
  | DIV => dividir | MOD => resto
  end.

Lemma en_rango_caso n sg z :
  (exists r, en_rango n sg z = Bien r) \/ (en_rango n sg z = Indef /\ sg = true /\ ajusta n true z <> z).
Proof.
  unfold en_rango. destruct (Z.eqb_spec (ajusta n sg z) z); [eauto|]. destruct sg; eauto.
Qed.

Lemma ajusta_rango n (sg : bool) x : (1 <= n)%nat ->
  let w := 8 * Z.of_nat n in
  if sg then - 2 ^ (w - 1) <= ajusta n sg x < 2 ^ (w - 1) else 0 <= ajusta n sg x < 2 ^ w.
Proof.
  intros Hn w. unfold ajusta, con_signo. fold w. assert (H : 2 ^ w = 2 * 2 ^ (w - 1)).
  { rewrite <- Z.pow_succ_r by lia. f_equal. lia. }
  assert (0 < 2 ^ (w - 1)) by (apply Z.pow_pos_nonneg; lia).
  destruct sg; [|by apply Z.mod_pos_bound; lia].
  pose proof (Z.mod_pos_bound (x + 2 ^ (w - 1)) (2 ^ w)). lia.
Qed.

Lemma ajusta_ok n x : (1 <= n)%nat ->
  - 2 ^ (8 * Z.of_nat n - 1) <= x < 2 ^ (8 * Z.of_nat n - 1) -> ajusta n true x = x.
Proof.
  intros Hn Hx. unfold ajusta, con_signo. set (w := 8 * Z.of_nat n) in *.
  assert (H : 2 ^ w = 2 * 2 ^ (w - 1)) by (rewrite <- Z.pow_succ_r by lia; f_equal; lia).
  rewrite Z.mod_small by lia. lia.
Qed.

Lemma rem_entre x y : y <> 0 -> Z.min 0 x <= Z.rem x y <= Z.max 0 x.
Proof.
  intros Hy. destruct (Z.le_ge_cases 0 x).
  - pose proof (Z.rem_nonneg x y Hy H). pose proof (Z.rem_le x (Z.abs y)).
    rewrite Z.rem_abs_r in * by done. lia.
  - pose proof (Z.rem_opp_l' x y). pose proof (Z.rem_nonneg (- x) y Hy). pose proof (Z.rem_le (- x) (Z.abs y)).
    rewrite Z.rem_abs_r in * by done. lia.
Qed.

Lemma promovido_lee n sg off l x : (1 <= n)%nat -> lee n sg off l = Bien x -> snd (promovido n sg) = true ->
  (1 <= fst (promovido n sg))%nat /\ ajusta (fst (promovido n sg)) true x = x.
Proof.
  unfold lee. destruct (bytes_en n off l) as [b| |]; [|done|done]. cbn [mbind res_bind]. intros Hn [= <-] Hs.
  pose proof (ajusta_rango n sg (little_endian_to_Z 8 b) Hn) as H. set (z := ajusta n sg _) in *.
  unfold promovido in *. destruct (Nat.ltb_spec n 4); cbn [fst snd] in *.
  - split; [lia|]. apply ajusta_ok; [lia|]. assert (n = 1 \/ n = 2 \/ n = 3)%nat as [-> | [-> | ->]] by lia;
      destruct sg; cbn in H |- *; lia.
  - subst sg. split; [done|]. by apply ajusta_ok.
Qed.

Lemma calculo a n sg off off' l l' x y : (1 <= n)%nat ->
  lee n sg off l = Bien x -> lee n sg off' l' = Bien y ->
  (exists z r, zop_de a (promovido n sg) x y = Some z /\
     en_rango (fst (promovido n sg)) (snd (promovido n sg)) z = Bien r) \/
  (indefinida a (promovido n sg) x y /\
     (acceso (zop_de a (promovido n sg) x y) ≫=
        en_rango (fst (promovido n sg)) (snd (promovido n sg))) = Indef).
Proof.
  intros Hn Hx Hy. pose proof (promovido_lee _ _ _ _ _ Hn Hx) as Px.
  set (p := promovido n sg) in *. destruct a; cbn [zop_de indefinida acceso mbind res_bind].
  1-3: match goal with |- context [en_rango _ _ ?z] => destruct (en_rango_caso (fst p) (snd p) z) as [[r E]|(E & ? & ?)]; [left; eauto|right; by rewrite E] end.
  - unfold dividir. destruct (Z.eqb_spec y 0); [right; split; [by left|done]|]. cbn [acceso mbind res_bind].
    destruct (en_rango_caso (fst p) (snd p) (Z.quot x y)) as [[r E]|(E & ? & ?)]; [left; eauto|right; split; [by right|done]].
  - unfold resto. destruct (Z.eqb_spec y 0); [right; split; [by left|done]|]. cbn [orb].
    destruct (Z.eqb_spec (ajusta (fst p) (snd p) (Z.quot x y)) (Z.quot x y)); cbn [negb acceso mbind res_bind];
      [|right; split; [by right|done]].
    destruct (en_rango_caso (fst p) (snd p) (Z.rem x y)) as [[r E]|(_ & Hs & Hne)]; [left; eauto|].
    exfalso. apply Hne. destruct (Px Hs) as [Hp Hax]. pose proof (ajusta_rango (fst p) true x Hp) as H.
    rewrite Hax in H. cbn [negb] in H. pose proof (rem_entre x y ltac:(done)).
    apply ajusta_ok; [done|]. assert (0 < 2 ^ (8 * Z.of_nat (fst p) - 1)) by (apply Z.pow_pos_nonneg; lia). lia.
Qed.

Lemma llama_arit_eq a : exists c fop, forall l t cr, llama_arit a l t cr = arit c (zop_de a) fop l t cr.
Proof. destruct a; cbn [llama_arit zop_de]; by do 2 eexists. Qed.

Lemma entero_pos t n sg : entero t = Some (n, sg) -> (1 <= n)%nat.
Proof. by destruct t; intros [= <- <-]; apply Nat.leb_le. Qed.

Lemma arit_real_tipado t s l fop n f :
  tipado G t s -> de_tipo t l -> real t = Some (n, f) ->
  exists cr, arit_real fop n f l (CR s) = Bien cr /\ tipado G t (con_cr s cr).
Proof.
  intros Hs Hl Er. assert (Hs' := Hs). destruct Hs' as [HT Hv _ _].
  pose proof (real_tam _ _ _ Er) as En. unfold arit_real, lee_real.
  rewrite !lee_ok by (by apply (de_tipo_largo _ _ _ Hl) || by apply (de_tipo_largo _ _ _ Hv)).
  eexists. split; [done|]. unfold con_valor. rewrite HT. apply (entero_tipado t); [done|by eapply tam_union|].
  by intros ->.
Qed.

Lemma arit_entera_tipado t s l a n sg :
  tipado G t s -> de_tipo t l -> entero t = Some (n, sg) -> t <> BOOL ->
  (exists cr, arit_entera (zop_de a) n sg l (CR s) = Bien cr /\ tipado G t (con_cr s cr)) \/
  (arit_entera (zop_de a) n sg l (CR s) = Indef /\ exists x y,
     lee n sg 0 (VALUE (CR s)) = Bien x /\ lee n sg 0 l = Bien y /\ indefinida a (promovido n sg) x y).
Proof.
  intros Hs Hl Ee Hnb. assert (Hs' := Hs). destruct Hs' as [HT Hv _ _]. unfold arit_entera.
  destruct (de_tipo_lee _ _ _ _ Hv Ee) as [x Ex], (de_tipo_lee _ _ _ _ Hl Ee) as [y Ey].
  rewrite Ex, Ey. cbn [mbind res_bind].
  destruct (calculo a n sg 0 0 _ _ x y (entero_pos _ _ _ Ee) Ex Ey) as [(z & r & Ez & Er)|[Hi E]].
  - left. rewrite Ez. cbn [acceso mbind res_bind]. rewrite Er. cbn [mbind res_bind]. eexists. split; [done|].
    unfold con_valor. rewrite HT. apply (entero_tipado t); [done| |done]. by eapply tam_union, entero_tam.
  - right. split; [|by exists x, y]. destruct (acceso _) as [z| |]; [|done|done].
    cbn [mbind res_bind] in *. by rewrite E.
Qed.

Lemma arit_tipado t s l a :
  tipado G t s -> de_tipo t l ->
  (exists cr, llama_arit a l t (CR s) = Bien cr /\ tipado G t (con_cr s cr)) \/
  (llama_arit a l t (CR s) = Indef /\ exists n sg x y, entero t = Some (n, sg) /\
     lee n sg 0 (VALUE (CR s)) = Bien x /\ lee n sg 0 l = Bien y /\ indefinida a (promovido n sg) x y).
Proof.
  intros Hs Hl. destruct (llama_arit_eq a) as (c & fop & ->). unfold arit.
  rewrite decide_True by apply Hs.
  assert (Hid : tipado G t (con_cr s (CR s))) by (by destruct s).
  destruct (entero t) as [[n sg]|] eqn:Ee.
  - destruct (es_numero t || _) eqn:Eb; [|left; by exists (CR s)].
    destruct (arit_entera_tipado t s l a n sg Hs Hl Ee) as [H|[H1 H2]].
    + intros ->. apply orb_true_iff in Eb as [Eb|Eb]; [done|].
      by apply andb_true_iff in Eb as [_ Eb%bool_decide_eq_true].
    + by left.
    + right. split; [done|]. destruct H2 as (x & y & H2). by exists n, sg, x, y.
  - left. destruct (real t) as [[n f]|] eqn:Er; [|by exists (CR s)].
    destruct c; [by apply arit_real_tipado|by exists (CR s)].
Qed.

(** one instruction: it reads what it may, and leaves the state typed, or its arithmetic is
    undefined *)
Lemma ejecuta_tipado t t' i s :
  tipado G t s -> chequea G t i = Some t' ->
  (exists s', ejecuta i s = Bien s' /\ tipado G t' s') \/ (ejecuta i s = Indef /\ falla i s).
Proof.
  intros Hs. assert (HT := t_tipo _ _ _ Hs).
  assert (Hlit : forall n z, (n <= UNION)%nat -> (t = BOOL -> n = 1%nat /\ (z = 0 \/ z = 1)) ->
    tipado G t (con_cr s (con_valor (CR s) (pone_entero n z (VALUE (CR s)))))).
  { intros n z Hn HB. unfold con_valor. rewrite HT. by apply (entero_tipado t). }
  destruct i as [z m|z m|z m|v len u m|v len m|v|v|c v u|a v u|o v u m|u]; cbn [chequea ejecuta]; unfold si.
  all: match goal with |- (if ?b then _ else _) = _ -> _ => destruct b eqn:Eb; [|done] end; intros [= <-].
  - apply andb_true_iff in Eb as [E1 E2]. apply bool_decide_eq_true in E1 as ->. left. eexists. split; [done|].
    apply orb_true_iff in E2. rewrite !Z.eqb_eq in E2.
    apply Hlit; [unfold UNION; lia|]. intros _. split; [done|].
    destruct (es_N m); [|done]. destruct E2 as [-> | ->]; auto.
  - apply bool_decide_eq_true in Eb as ->. left. eexists. split; [done|]. apply Hlit; [unfold UNION; lia|done].
  - apply bool_decide_eq_true in Eb as ->. left. eexists. split; [done|]. apply Hlit; [unfold UNION; lia|done].
  - apply andb_true_iff in Eb as [E1 E2]. left. destruct (var_mem _ _ _ _ Hs E1) as (l & -> & Hl).
    cbn [acceso mbind res_bind]. destruct (ld_tipado t u s l len m Hs Hl E2) as (cr & -> & Hc). by eexists.
  - apply andb_true_iff in Eb as [Eb E4]. apply andb_true_iff in Eb as [Eb E3]. apply andb_true_iff in Eb as [E1 E2].
    apply bool_decide_eq_true in E3. left. destruct (var_mem _ _ _ _ Hs E1) as (l & Em & Hl). rewrite Em.
    cbn [acceso mbind res_bind]. destruct (st_tipado t s l len m Hs Hl E3) as (l' & -> & Hl').
    { intros ->. by destruct (es_N m). }
    eexists. split; [done|]. eapply mem_tipado; [done| |done..]. by apply (proj1 (bool_decide_eq_true _)).
  - left. destruct (var_mem _ _ _ _ Hs Eb) as (l & Em & Hl). rewrite Em. cbn [acceso mbind res_bind].
    destruct (sr_tipado t s l Hs Hl) as [(l' & -> & Hl') _]. eexists. split; [done|].
    eapply mem_tipado; [done| |done..]. by apply (proj1 (bool_decide_eq_true _)).
  - left. destruct (var_mem _ _ _ _ Hs Eb) as (l & Em & Hl). rewrite Em. cbn [acceso mbind res_bind].
    destruct (sr_tipado t s l Hs Hl) as [_ (l' & -> & Hl')]. eexists. split; [done|].
    eapply mem_tipado; [done| |done..]. by apply (proj1 (bool_decide_eq_true _)).
  - apply andb_true_iff in Eb as [Eb E3]. apply andb_true_iff in Eb as [E1 E2]. apply bool_decide_eq_true in E1 as ->.
    left. destruct (var_mem _ _ _ _ Hs E2) as (l & -> & Hl). cbn [acceso mbind res_bind].
    destruct c; cbn [llama_cmp]; unfold PLC_IL_EQ, PLC_IL_NE, PLC_IL_GT, PLC_IL_GE, PLC_IL_LT, PLC_IL_LE;
      (match goal with |- context [comparar ?zo ?fo ?lo] =>
         destruct (cmp_tipado u s l zo fo lo Hs Hl E3) as (cr & -> & Hc) end; by eexists).
  - apply andb_true_iff in Eb as [E1 E2]. apply bool_decide_eq_true in E1 as ->.
    destruct (var_mem _ _ _ _ Hs E2) as (l & Em & Hl). rewrite Em. cbn [acceso mbind res_bind].
    destruct (arit_tipado u s l a Hs Hl) as [(cr & -> & Hc)|(-> & n & sg & x & y & H)]; [left; by eexists|right].
    split; [done|]. exists a, v, u, l, n, sg, x, y. by destruct H as (? & ? & ? & ?).
  - apply andb_true_iff in Eb as [E1 E2]. apply bool_decide_eq_true in E1 as ->.
    left. destruct (var_mem _ _ _ _ Hs E2) as (l & -> & Hl). cbn [acceso mbind res_bind].
    destruct o; cbn [llama_log]; unfold PLC_IL_AND, PLC_IL_OR, PLC_IL_XOR;
      (match goal with |- context [logica ?op] =>
         destruct (log_tipado u s l m op Hs Hl) as (cr & -> & Hc); [tauto|] end; by eexists).
  - apply bool_decide_eq_true in Eb as ->. left. destruct (not_tipado u s Hs) as (cr & -> & Hc). by eexists.
Qed.
End Progreso.

(** C38: a program that the type system accepts never reads memory it has not, nor leaves a
    value of another type or a Boolean that is neither 0 nor 1: it ends in a state of the
    type computed, or stops at an arithmetic instruction whose result C leaves undefined
    (a signed overflow after promotion, a division by zero). *)
Theorem programa_tipado G t t' p s (Hs : tipado G t s) (Hp : chequean G t p = Some t') :
  (exists s', corre p s = Bien s' /\ tipado G t' s') \/
  (corre p s = Indef /\ exists p1 i p2 s1, p = p1 ++ i :: p2 /\ corre p1 s = Bien s1 /\ falla i s1).
Proof.
  revert t s Hs Hp. induction p as [|i p IH]; intros t s Hs Hp; cbn [chequean corre] in *.
  { injection Hp as <-. left. by exists s. }
  destruct (chequea G t i) as [u|] eqn:Eu; [|done]. cbn [mbind option_bind] in Hp.
  destruct (ejecuta_tipado G t u i s Hs Eu) as [(s1 & E1 & H1)|[E1 Hf]]; rewrite E1; cbn [mbind res_bind].
  - destruct (IH u s1 H1 Hp) as [H|(E & p1 & j & p2 & s2 & -> & E2 & Hf)]; [by left|right].
    split; [done|]. exists (i :: p1), j, p2, s2. split_and!; [done| |done]. cbn [corre]. by rewrite E1.
  - right. split; [done|]. by exists [], i, p, s.
Qed.

(** two INTs added, the sum compared with a third, a Boolean set by the result *)
Definition G_ejemplo : list PLC_EnumDataTypes := [INT; INT; INT; BOOL].
Definition s_ejemplo : plc := mkPlc (mkCR BOOL (replicate UNION 0)) [[5; 0]; [253; 255]; [1; 0]; [0]].
Definition p_ejemplo : list instr := [LD 0 2 INT NullModifier; Arit ADD 1 INT; Cmp GT 2 INT; S_ 3].

Lemma programa_tipado_witness :
  (exists s', corre p_ejemplo s_ejemplo = Bien s' /\ tipado G_ejemplo BOOL s') \/
  (corre p_ejemplo s_ejemplo = Indef /\
   exists p1 i p2 s1, p_ejemplo = p1 ++ i :: p2 /\ corre p1 s_ejemplo = Bien s1 /\ falla i s1).
Proof.
  apply (programa_tipado G_ejemplo BOOL BOOL).
  - constructor.
    + reflexivity.
    + split; [apply Forall_replicate; lia|]. split; [apply Nat.leb_le; reflexivity|].
      intros _. exists 0. split; [reflexivity|by left].
    + reflexivity.
    + unfold G_ejemplo, s_ejemplo; cbn [memoria].
      do 3 (constructor; [split; [do 2 (constructor; [lia|]); constructor|split; [apply Nat.leb_le; reflexivity|done]]|]).
      constructor; [|constructor]. split; [constructor; [lia|]; constructor|]. split; [apply Nat.leb_le; reflexivity|].
      intros _. exists 0. split; [reflexivity|by left].
  - reflexivity.
Defined.

Example corre_ejemplo : (s ← corre p_ejemplo s_ejemplo; Bien (memoria s)) = Bien [[5; 0]; [253; 255]; [1; 0]; [1]].
Proof. vm_compute. reflexivity. Qed.

(** ** What the type system keeps out *)

(** [ST] with modifier N at BOOL stores true, whatever the current result is *)
Lemma stn_siempre_verdadero z l x :
  z = 0 \/ z = 1 -> exists b, b <> 0 /\ PLC_IL_ST (x :: l) 1 N (mkCR BOOL (z :: replicate 1023 0)) = Bien (b :: l).
Proof. intros [-> | ->]; [exists 255|exists 254]; (split; [done|reflexivity]). Qed.

(** a literal load leaves the type: [S] then does nothing *)
Example literal_sin_tipo :
  PLC_IL_S [0] (PLC_IL_LD_BOOL_Literal 1 NullModifier (mkCR INT (replicate UNION 0))) = Bien [0].
Proof. vm_compute. reflexivity. Qed.

(** ** The comparisons of dates and times *)

(** before, field by field *)
Fixpoint antes (a b : list Z) : Prop :=
  match a, b with x :: a, y :: b => x < y \/ (x = y /\ antes a b) | _, _ => False end.

#[export] Instance antes_dec : RelDecision antes.
Proof. intros a. induction a as [|x a IH]; intros [|y b]; simpl; apply _. Defined.

Lemma todos_iguales_spec a b : length a = length b -> todos_iguales a b = bool_decide (a = b).
Proof.
  revert b. induction a as [|x a IH]; intros [|y b]; try done.
  intros [= H]. simpl. rewrite IH by done. destruct (Z.eqb_spec x y) as [->|Hne]; simpl.
  - apply bool_decide_ext. split; [by intros ->|by intros [= ->]].
  - symmetry. apply bool_decide_eq_false. by intros [= ->].
Qed.

Lemma alguno_distinto_neg a b : length a = length b -> alguno_distinto a b = negb (todos_iguales a b).
Proof.
  revert b. induction a as [|x a IH]; intros [|y b]; try done. intros [= H]. simpl. rewrite IH by done.
  by rewrite negb_andb.
Qed.

Lemma disyuncion_false op a b : disyuncion op false a b = false.
Proof. revert b. by induction a as [|x a IH]; intros [|y b]; simpl. Qed.

Lemma disyuncion_lt a b : disyuncion Z.ltb true a b = bool_decide (antes a b).
Proof.
  revert b. induction a as [|x a IH]; intros [|y b]; try (symmetry; apply bool_decide_eq_false; by intros []).
  simpl. destruct (Z.eqb_spec x y) as [->|Hne].
  - rewrite IH, (proj2 (Z.ltb_ge y y)) by lia. apply bool_decide_ext. intuition lia.
  - rewrite disyuncion_false, orb_false_r. destruct (Z.ltb_spec x y); symmetry.
    + apply bool_decide_eq_true. by left.
    + apply bool_decide_eq_false. lia.
Qed.

Lemma disyuncion_gt a b : disyuncion Z.gtb true a b = disyuncion Z.ltb true b a.
Proof.
  generalize true. revert b. induction a as [|x a IH]; intros [|y b] g; simpl; try done.
  rewrite Z.gtb_ltb, IH. by rewrite (Z.eqb_sym x y).
Qed.

(** with [op] reflexive the first field decides alone *)
Lemma disyuncion_refl op x a y b :
  (forall z, op z z = true) -> (forall u v, (u =? v) = false \/ op u v = true) ->
  disyuncion op true (x :: a) (y :: b) = op x y.
Proof.
  intros Hr Ho. simpl. destruct (Ho x y) as [-> | ->]; [by rewrite disyuncion_false, orb_false_r|done].
Qed.

Lemma length_lee_campos cs l zs : lee_campos cs l = Bien zs -> length zs = length cs.
Proof.
  revert zs. induction cs as [|[n off] cs IH]; intros zs; [by intros [= <-]|]. cbn [lee_campos].
  destruct (lee n false off l); [|done|done]. cbn [mbind res_bind].
  destruct (lee_campos cs l) as [r| |]; [|done|done]. intros [= <-]. simpl. by rewrite (IH r).
Qed.

(** on dates, times of day and date-times [=], [<>], [>] and [<] decide equality and the
    order field by field (year, month, day, hour, minute, second, nanosecond); [>=] and
    [<=] do not decide that order: they compare the first field alone. *)
Lemma fechas_orden t operand cr a b x y (Ht : t = D \/ t = TOD \/ t = DT) (HT : TYPE cr = t)
    (Ha : lee_campos (campos_de t) (VALUE cr) = Bien (x :: a))
    (Hb : lee_campos (campos_de t) operand = Bien (y :: b)) :
  PLC_IL_EQ operand t cr = Bien (resultado (bool_decide (x :: a = y :: b)) cr) /\
  PLC_IL_NE operand t cr = Bien (resultado (negb (bool_decide (x :: a = y :: b))) cr) /\
  PLC_IL_GT operand t cr = Bien (resultado (bool_decide (antes (y :: b) (x :: a))) cr) /\
  PLC_IL_LT operand t cr = Bien (resultado (bool_decide (antes (x :: a) (y :: b))) cr) /\
  PLC_IL_GE operand t cr = Bien (resultado (bool_decide (y <= x)) cr) /\
  PLC_IL_LE operand t cr = Bien (resultado (bool_decide (x <= y)) cr).
Proof.
  assert (Hlen : length (x :: a) = length (y :: b)).
  { apply length_lee_campos in Ha, Hb. congruence. }
  assert (E : forall zo fo lo, comparar zo fo lo operand t cr = Bien (resultado (lo (x :: a) (y :: b)) cr)).
  { intros zo fo lo. unfold comparar. rewrite decide_True by done.
    destruct Ht as [-> | [-> | ->]]; cbn [entero real]; (destruct (campos_de _) eqn:Ec; [done|]);
      by rewrite Ha, Hb. }
  unfold PLC_IL_EQ, PLC_IL_NE, PLC_IL_GT, PLC_IL_LT, PLC_IL_GE, PLC_IL_LE. rewrite !E.
  rewrite alguno_distinto_neg, todos_iguales_spec, disyuncion_gt, !disyuncion_lt by done.
  rewrite !disyuncion_refl.
  - split_and!; try done; f_equal; f_equal; apply eq_true_iff_eq; rewrite bool_decide_eq_true.
    + rewrite Z.geb_leb. apply Z.leb_le.
    + apply Z.leb_le.
  - intros z. apply Z.leb_le. lia.
  - intros u v. destruct (Z.eqb_spec u v) as [->|]; [right; apply Z.leb_le; lia|by left].
  - intros z. rewrite Z.geb_leb. apply Z.leb_le. lia.
  - intros u v. destruct (Z.eqb_spec u v) as [->|]; [right; rewrite Z.geb_leb; apply Z.leb_le; lia|by left].
Qed.

(** 1 January against 31 December of one year: GE says yes *)
Definition cr_fecha : PLC_SymbolicRegister := mkCR D ([228; 7; 1; 1; 4; 0] ++ replicate 1018 0).
Definition fin_de_ano : list Z := [228; 7; 12; 31; 5; 0].

Lemma fechas_orden_witness :
  PLC_IL_LT fin_de_ano D cr_fecha = Bien (resultado true cr_fecha) /\
  PLC_IL_GE fin_de_ano D cr_fecha = Bien (resultado true cr_fecha).
Proof.
  destruct (fechas_orden D fin_de_ano cr_fecha [1; 1] [12; 31] 2020 2020) as (_ & _ & _ & H1 & H2 & _).
  - by left.
  - reflexivity.
  - reflexivity.
  - reflexivity.
  - split; [exact H1|exact H2].
Defined.

(** ** A port and its byte *)
Lemma puerto_ida_y_vuelta p : length p = 8%nat ->
  Convert_PLC_BYTE_2_PLC_1ByteRegister (Convert_PLC_1ByteRegister_2_PLC_BYTE p) = p.
Proof.
  intros H. do 8 (destruct p as [|[] p]; [done| |]); (destruct p; [reflexivity|done]).
Qed.

(** ** The day of the week *)

Definition bisiesto (y : Z) : bool := (y mod 4 =? 0) && (negb (y mod 100 =? 0) || (y mod 400 =? 0)).

Definition dias_del_mes (y m : Z) : Z :=
  if m =? 2 then (if bisiesto y then 29 else 28)
  else if (m =? 4) || (m =? 6) || (m =? 9) || (m =? 11) then 30 else 31.

(** the next day of the Gregorian calendar *)
Definition dia_siguiente (f : Z * Z * Z) : Z * Z * Z :=
  let '(y, m, d) := f in
  if d <? dias_del_mes y m then (y, m, d + 1) else if m <? 12 then (y, m + 1, 1) else (y + 1, 1, 1).

Definition fecha_valida (f : Z * Z * Z) : Prop :=
  let '(y, m, d) := f in 1970 <= y /\ 1 <= m <= 12 /\ 1 <= d <= dias_del_mes y m.

Lemma dias_pos y m : 28 <= dias_del_mes y m.
Proof. unfold dias_del_mes. destruct (m =? 2), (bisiesto y), ((m =? 4) || (m =? 6) || (m =? 9) || (m =? 11)); lia. Qed.

Lemma siguiente_valida f : fecha_valida f -> fecha_valida (dia_siguiente f).
Proof.
  destruct f as [[y m] d]. unfold fecha_valida, dia_siguiente. intros (Hy & Hm & Hd).
  pose proof (dias_pos y (m + 1)). pose proof (dias_pos (y + 1) 1).
  destruct (Z.ltb_spec d (dias_del_mes y m)); [lia|]. destruct (Z.ltb_spec m 12); lia.
Qed.

(** the sum of DT_Weekday, with the division of non-negative numbers *)
Definition zeller (y m d : Z) : Z :=
  let a := (14 - m) / 12 in
  d + (y - a) + (y - a) / 4 - (y - a) / 100 + (y - a) / 400 + 31 * (m + 12 * a - 2) / 12.

Lemma DT_Weekday_zeller y m d :
  1970 <= y <= 32767 -> 1 <= m <= 12 -> 1 <= d <= 31 -> DT_Weekday y m d = zeller y m d mod 7 + 1.
Proof.
  intros Hy Hm Hd. unfold DT_Weekday. cbv zeta. rewrite (s16_small y), (s16_small m), (s16_small d) by lia.
  enough (Hz : Z.rem (d + (y - Z.quot (14 - m) 12) + Z.quot (y - Z.quot (14 - m) 12) 4 -
      Z.quot (y - Z.quot (14 - m) 12) 100 + Z.quot (y - Z.quot (14 - m) 12) 400 +
      Z.quot (31 * (m + 12 * Z.quot (14 - m) 12 - 2)) 12) 7 = zeller y m d mod 7).
  { rewrite Hz. apply s16_small. pose proof (Z.mod_pos_bound (zeller y m d) 7). lia. }
  unfold zeller.
  rewrite (Z.quot_div_nonneg (14 - m)) by lia. set (a := (14 - m) / 12).
  assert (Ha : 0 <= a <= 1) by (unfold a; Z.to_euclidean_division_equations; lia).
  assert (Hm' : 1 <= m + 12 * a - 2) by (unfold a; Z.to_euclidean_division_equations; lia).
  rewrite !Z.quot_div_nonneg by lia. apply Z.rem_mod_nonneg; [|lia].
  pose proof (Z.div_pos (31 * (m + 12 * a - 2)) 12). Z.to_euclidean_division_equations; lia.
Qed.

(** the leap days counted before year [y] and through it *)
Lemma saltos y :
  y / 4 - y / 100 + y / 400 =
  (y - 1) / 4 - (y - 1) / 100 + (y - 1) / 400 + (if bisiesto y then 1 else 0).
Proof.
  assert (H : forall n, 0 < n -> y / n = (y - 1) / n + (if y mod n =? 0 then 1 else 0)).
  { intros n Hn. destruct (Z.eqb_spec (y mod n) 0) as [E|E].
    - rewrite <- (Z.div_unique (y - 1) n (y / n - 1) (n - 1)); pose proof (Z.div_mod y n); lia.
    - rewrite <- (Z.div_unique (y - 1) n (y / n) (y mod n - 1)); pose proof (Z.div_mod y n);
        pose proof (Z.mod_pos_bound y n); lia. }
  rewrite (H 4), (H 100), (H 400) by lia. unfold bisiesto.
  assert (y mod 4 = 0 \/ y mod 100 <> 0) by (Z.to_euclidean_division_equations; lia).
  assert (y mod 100 = 0 \/ y mod 400 <> 0) by (Z.to_euclidean_division_equations; lia).
  destruct (Z.eqb_spec (y mod 4) 0), (Z.eqb_spec (y mod 100) 0), (Z.eqb_spec (y mod 400) 0); simpl; lia.
Qed.

Lemma zeller_siguiente y m d :
  fecha_valida (y, m, d) -> let '(y', m', d') := dia_siguiente (y, m, d) in exists k, zeller y' m' d' = zeller y m d + 1 - 7 * k.
Proof.
  intros (Hy & Hm & Hd). unfold dia_siguiente.
  destruct (Z.ltb_spec d (dias_del_mes y m)) as [_|Hlast].
  { exists 0. unfold zeller. lia. }
  assert (d = dias_del_mes y m) as -> by lia. clear Hd Hlast. unfold dias_del_mes, zeller.
  assert (m = 1 \/ m = 2 \/ m = 3 \/ m = 4 \/ m = 5 \/ m = 6 \/ m = 7 \/ m = 8 \/ m = 9 \/ m = 10 \/ m = 11 \/ m = 12)
    as Hmm by lia.
  destruct Hmm as [-> | [-> | [-> | [-> | [-> | [-> | [-> | [-> | [-> | [-> | [-> | ->]]]]]]]]]]];
    cbn -[Z.div Z.mul Z.sub Z.add bisiesto];
    match goal with |- context [bisiesto] => exists 8 | _ => exists 4 end;
    repeat match goal with
    | |- context [(14 - ?c) / 12] => let v := eval vm_compute in ((14 - c) / 12) in change ((14 - c) / 12) with v
    end;
    repeat match goal with
    | |- context [31 * (?c + 12 * ?k - 2) / 12] =>
        let v := eval vm_compute in (31 * (c + 12 * k - 2) / 12) in change (31 * (c + 12 * k - 2) / 12) with v
    end.
  all: try lia.
  - rewrite Z.sub_0_r. pose proof (saltos y). destruct (bisiesto y); lia.
  - replace (y + 1 - 1) with y by lia. rewrite Z.sub_0_r. lia.
Qed.

(** [n] days after 1 January 1970 *)
Definition dia (n : nat) : Z * Z * Z := Nat.iter n dia_siguiente (1970, 1, 1).

(** C40: counted day by day from Thursday 1 January 1970 through the Gregorian calendar,
    DT_Weekday gives every date up to the end of the year 32767, the last that its
    sixteen-bit argument holds, its day of the week, 1 for Sunday to 7 for Saturday. *)
Theorem DT_Weekday_calendario n y m d
    (Hf : dia n = (y, m, d)) (Hy : y <= 32767) :
  DT_Weekday y m d = (4 + Z.of_nat n) mod 7 + 1.
Proof.
  enough (H : fecha_valida (dia n) /\ let '(y, m, d) := dia n in exists k, zeller y m d = 4 + Z.of_nat n - 7 * k).
  { rewrite Hf in H. destruct H as ((Hy0 & Hm & Hd) & k & Hk).
    assert (dias_del_mes y m <= 31) by (unfold dias_del_mes; repeat case_match; lia).
    rewrite DT_Weekday_zeller, Hk by lia. f_equal.
    replace (4 + Z.of_nat n - 7 * k) with (4 + Z.of_nat n + - k * 7) by lia. by rewrite Z_mod_plus_full. }
  clear Hf Hy y m d. induction n as [|n [Hv IH]].
  - split; [cbn; lia|]. exists (- 353). reflexivity.
  - change (dia (S n)) with (dia_siguiente (dia n)). split; [by apply siguiente_valida|].
    destruct (dia n) as [[y m] d]. pose proof (zeller_siguiente y m d Hv) as Hs.
    destruct (dia_siguiente (y, m, d)) as [[y' m'] d']. destruct IH as [k Hk], Hs as [k' Hk'].
    exists (k + k'). lia.
Qed.

(** 29 February 2000 was a Tuesday *)
Lemma DT_Weekday_calendario_witness : DT_Weekday 2000 2 29 = 3.
Proof.
  rewrite (DT_Weekday_calendario (Z.to_nat 11016) 2000 2 29).
  - vm_compute. reflexivity.
  - vm_compute. reflexivity.
  - discriminate.
Defined.
