(* ===== verification/Boton.v ===== *)
(** * sapi_button.c and sapi_parser.c: state machines over samples

    A push button read once per refresh: the states UP, FALLING, DOWN and RISING, the events
    and the callbacks.  A parser that waits for a pattern, character by character, with the
    non-blocking delay for its timeout.  The theorems: the presses and the releases that are
    reported alternate, and each takes two equal samples in a row; what the parser matches. *)

From Stdlib Require Import ZArith Lia Bool Ascii.
From stdpp Require Import base list numbers.
From stdpp Require Import options.
From S2P Require Import Prelude Machine Effects Sapi SapiResto.

(** ** sapi_button.c *)

Inductive buttonEvent_t : Type :=
  | BUTTON_NO_EVENT | BUTTON_PRESSED | BUTTON_RELEASED | BUTTON_HOLD_PRESED | BUTTON_EVENT_HANDLED.

Inductive buttonFsmState_t : Type := BUTTON_UP | BUTTON_DOWN | BUTTON_FALLING | BUTTON_RISING.

#[export] Instance buttonEvent_eq : EqDecision buttonEvent_t.
Proof. solve_decision. Defined.
#[export] Instance buttonState_eq : EqDecision buttonFsmState_t.
Proof. solve_decision. Defined.

Definition BUTTON_ONE_IS_UP : bool := true.

(** the callbacks are numbers; [None] is the null pointer *)
Record button_t : Type := mkButton {
  gpio : Z;
  logic : bool;
  refreshTime : Z;
  state : buttonFsmState_t;
  flagUp : bool; flagDown : bool; flagFalling : bool; flagRising : bool;
  timeInSate : Z;
  event : buttonEvent_t;
  checkPressedEvent : bool; checkReleasedEvent : bool; checkHoldPressedEvent : bool;
  holdPressedTime : Z;
  pressedCallback : option Z; releasedCallback : option Z; holdPressedCallback : option Z
}.

Definition con_fsm (b : button_t) (s : buttonFsmState_t) (u d f r : bool) (t : Z) (e : buttonEvent_t) : button_t :=
  mkButton (gpio b) (logic b) (refreshTime b) s u d f r t e (checkPressedEvent b) (checkReleasedEvent b)
    (checkHoldPressedEvent b) (holdPressedTime b) (pressedCallback b) (releasedCallback b) (holdPressedCallback b).

Definition buttonEventHandled (b : button_t) : button_t :=
  con_fsm b (state b) (flagUp b) (flagDown b) (flagFalling b) (flagRising b) (timeInSate b) BUTTON_EVENT_HANDLED.

(** One update with the level of the pin already read as up or not; the callbacks called,
    each with the event it stands for. *)
Definition boton_paso (up : bool) (b : button_t) : list (buttonEvent_t * Z) * button_t :=
  let t := u64 (timeInSate b + refreshTime b) in
  let llama (e : buttonEvent_t) (f : option Z) := match f with Some i => [(e, i)] | None => [] end in
  match state b with
  | BUTTON_UP =>
      let e := if flagUp b then event b else BUTTON_NO_EVENT in
      if up then ([], con_fsm b BUTTON_UP true (flagDown b) (flagFalling b) (flagRising b) t e)
      else ([], con_fsm b BUTTON_FALLING false (flagDown b) (flagFalling b) (flagRising b) 0 BUTTON_NO_EVENT)
  | BUTTON_DOWN =>
      let e := if flagDown b then event b else BUTTON_NO_EVENT in
      let hold := checkHoldPressedEvent b && (holdPressedTime b <=? t) && bool_decide (e = BUTTON_NO_EVENT) in
      let c := if hold then llama BUTTON_HOLD_PRESED (holdPressedCallback b) else [] in
      if up then (c, con_fsm b BUTTON_RISING (flagUp b) false (flagFalling b) (flagRising b) 0 BUTTON_NO_EVENT)
      else (c, con_fsm b BUTTON_DOWN (flagUp b) true (flagFalling b) (flagRising b) t
                 (if hold then BUTTON_HOLD_PRESED else e))
  | BUTTON_FALLING =>
      if up then ([], con_fsm b BUTTON_UP (flagUp b) (flagDown b) false (flagRising b) 0 (event b))
      else if checkPressedEvent b
           then (llama BUTTON_PRESSED (pressedCallback b),
                 con_fsm b BUTTON_DOWN (flagUp b) (flagDown b) false (flagRising b) 0 BUTTON_PRESSED)
           else ([], con_fsm b BUTTON_DOWN (flagUp b) (flagDown b) false (flagRising b) 0 (event b))
  | BUTTON_RISING =>
      if up then
        if checkReleasedEvent b
        then (llama BUTTON_RELEASED (releasedCallback b),
              con_fsm b BUTTON_UP (flagUp b) (flagDown b) (flagFalling b) false 0 BUTTON_RELEASED)
        else ([], con_fsm b BUTTON_UP (flagUp b) (flagDown b) (flagFalling b) false 0 (event b))
      else ([], con_fsm b BUTTON_DOWN (flagUp b) (flagDown b) (flagFalling b) false 0 (event b))
  end.

Section Boton.
Context {E : Env}.

Definition buttonIsUp (b : button_t) : M bool :=
  gpioStatus ← gpioRead (gpio b);
  mret (if eqb (logic b) BUTTON_ONE_IS_UP then gpioStatus else negb gpioStatus).
Definition buttonIsDown (b : button_t) : M bool := up ← buttonIsUp b; mret (negb up).

(** each state reads the pin once *)
Definition buttonFsmUpdate (b : button_t) : M (list (buttonEvent_t * Z) * button_t) :=
  match state b with
  | BUTTON_UP | BUTTON_FALLING => down ← buttonIsDown b; mret (boton_paso (negb down) b)
  | BUTTON_DOWN | BUTTON_RISING => up ← buttonIsUp b; mret (boton_paso up b)
  end.

Definition buttonInitState (b : button_t) : M buttonFsmState_t :=
  down ← buttonIsDown b; mret (if down : bool then BUTTON_DOWN else BUTTON_UP).

Definition buttonFsmInit (b : button_t) : M button_t :=
  s ← buttonInitState b; mret (con_fsm b s false false false false 0 (event b)).

Definition buttonInit (b : button_t) (gpio : Z) (logic : bool) (refreshTime : Z)
    (checkPressed checkReleased checkHold : bool) (hold : Z) (pressed released held : option Z) : M button_t :=
  let b := mkButton gpio logic refreshTime (state b) (flagUp b) (flagDown b) (flagFalling b) (flagRising b)
             (timeInSate b) (event b) (checkPressedEvent b) (checkReleasedEvent b) (checkHoldPressedEvent b)
             (holdPressedTime b) (pressedCallback b) (releasedCallback b) (holdPressedCallback b) in
  b ← buttonFsmInit b;
  mret (mkButton gpio logic refreshTime (state b) (flagUp b) (flagDown b) (flagFalling b) (flagRising b)
          (timeInSate b) BUTTON_NO_EVENT checkPressed checkReleased checkHold hold pressed released held).

(** ** sapi_parser.c *)

Inductive parserStatus_t : Type := PARSER_PATTERN_MATCH | PARSER_TIMEOUT | PARSER_RECEIVING.

(** [stringPattern] is the memory from the pointer on, the terminating zero included *)
Record parser_t : Type := mkParser {
  p_state : parserStatus_t;
  stringPattern : list ascii;
  stringPatternLen : Z;
  stringIndex : Z;
  timeout : Z;
  p_delay : delay_t
}.

Definition parserInit (p : parser_t) (stringPattern : list ascii) (stringPatternLen timeout : Z) : parser_t :=
  mkParser PARSER_RECEIVING stringPattern stringPatternLen 0 timeout (delayInit (p_delay p) timeout).

(** the look at one character *)
Definition parser_mira (p : parser_t) (receivedChar : ascii) : option parser_t :=
  c ← stringPattern p !! Z.to_nat (stringIndex p);
  Some (if Ascii.eqb c receivedChar
        then mkParser (if stringIndex p =? stringPatternLen p then PARSER_PATTERN_MATCH else p_state p)
               (stringPattern p) (stringPatternLen p) (u16 (stringIndex p + 1)) (timeout p) (p_delay p)
        else p).

Definition parserUpdate (p : parser_t) (receivedChar : ascii) : M (parserStatus_t * parser_t) :=
  match p_state p with
  | PARSER_RECEIVING =>
      p ← access (parser_mira p receivedChar);
      r ← delayRead (p_delay p);
      let '(arrived, d) := r in
      let s := if arrived : bool then PARSER_TIMEOUT else p_state p in
      mret (s, mkParser s (stringPattern p) (stringPatternLen p) (stringIndex p) (timeout p) d)
  | _ => mret (p_state p, p)
  end.
End Boton.

(** ** The button: the presses and the releases reported alternate *)

(** one update reads the pin once, whichever the state *)
Lemma buttonFsmUpdate_paso {E : Env} b w r w' :
  buttonFsmUpdate b w = Ret r w' -> exists up, buttonIsUp b w = Ret up w' /\ r = boton_paso up b.
Proof.
  unfold buttonFsmUpdate, buttonIsDown.
  destruct (state b); unfold mbind, M_bind, mret, M_ret; destruct (buttonIsUp b w) as [up w1| |]; try done;
    intros [= <- <-]; exists up; by rewrite ?negb_involutive.
Qed.

Fixpoint boton_corre (b : button_t) (muestras : list bool) : list buttonEvent_t * button_t :=
  match muestras with
  | [] => ([], b)
  | up :: l => let '(c, b') := boton_paso up b in let '(cs, b'') := boton_corre b' l in ((fst <$> c) ++ cs, b'')
  end.

(** the last change reported: is the button taken for pressed? *)
Definition apretado (s : buttonFsmState_t) : bool :=
  match s with BUTTON_DOWN | BUTTON_RISING => true | BUTTON_UP | BUTTON_FALLING => false end.

(** [alternan p es q]: from [p] (pressed or not) the events of [es] lead to [q], a press only
    from not pressed, a release and a hold only from pressed *)
Fixpoint alternan (p : bool) (es : list buttonEvent_t) (q : bool) : Prop :=
  match es with
  | [] => p = q
  | BUTTON_PRESSED :: es => p = false /\ alternan true es q
  | BUTTON_RELEASED :: es => p = true /\ alternan false es q
  | BUTTON_HOLD_PRESED :: es => p = true /\ alternan p es q
  | _ :: _ => False
  end.

(** all the events asked for, with a callback *)
Definition atento (b : button_t) : Prop :=
  checkPressedEvent b = true /\ checkReleasedEvent b = true /\
  is_Some (pressedCallback b) /\ is_Some (releasedCallback b).

Lemma alternan_app p q r es es' : alternan p es q -> alternan q es' r -> alternan p (es ++ es') r.
Proof.
  revert p. induction es as [|e es IH]; intros p; [by intros ->|].
  destruct e; simpl; try done; intros [Hp He] H; split; eauto.
Qed.

Lemma boton_paso_alterna up b c b' :
  atento b -> boton_paso up b = (c, b') -> atento b' /\ alternan (apretado (state b)) (fst <$> c) (apretado (state b')).
Proof.
  intros (H1 & H2 & [i H3] & [j H4]). unfold boton_paso. rewrite H1, H2, H3, H4.
  assert (Ha : forall s u d f r t e, atento (con_fsm b s u d f r t e)) by by repeat split; eauto.
  destruct (state b); cbn [apretado].
  - destruct up; intros [= <- <-]; by split.
  - set (h := checkHoldPressedEvent b && _ && _). intros H.
    assert (Hc : alternan true (fst <$> (if h then match holdPressedCallback b with
      | Some k => [(BUTTON_HOLD_PRESED, k)] | None => [] end else [])) true).
    { destruct h; [destruct (holdPressedCallback b)|]; by simpl. }
    destruct up; injection H as <- <-; by split.
  - destruct up; intros [= <- <-]; by split.
  - destruct up; intros [= <- <-]; by split.
Qed.

Lemma boton_corre_alterna l b es b' :
  atento b -> boton_corre b l = (es, b') -> alternan (apretado (state b)) es (apretado (state b')).
Proof.
  revert b es. induction l as [|up l IH]; intros b es Hb; [by intros [= <- <-]|]. cbn [boton_corre].
  destruct (boton_paso up b) as [c b1] eqn:E1. destruct (boton_corre b1 l) as [cs b2] eqn:E2.
  intros [= <- <-]. destruct (boton_paso_alterna _ _ _ _ Hb E1) as [Hb1 Ha].
  eapply alternan_app; [exact Ha|]. by apply IH.
Qed.

(** a change takes two equal samples in a row: a sample that differs from its neighbours is
    never reported *)
Lemma boton_rebote b :
  state b = BUTTON_UP -> fst (boton_corre b [false; true]) = [] /\ state (snd (boton_corre b [false; true])) = BUTTON_UP.
Proof. intros H. cbn [boton_corre]. unfold boton_paso. rewrite H. by split. Qed.

(** ** The parser compares the character after the last one too *)

Definition parser_de (s : list ascii) (len : Z) : parser_t :=
  parserInit (mkParser PARSER_RECEIVING [] 0 0 0 (mkDelay 0 0 false)) s len 1000.
Fixpoint parser_lee (p : parser_t) (l : list ascii) : option parserStatus_t :=
  match l with [] => Some (p_state p) | c :: l => p ← parser_mira p c; parser_lee p l end.

Definition patron_OK : list ascii := [chr 79; chr 75; chr 0].

(** with the length of the text the match needs the terminating zero to be received *)
Example parser_cero :
  parser_lee (parser_de patron_OK 2) [chr 79; chr 75] = Some PARSER_RECEIVING /\
  parser_lee (parser_de patron_OK 2) [chr 79; chr 75; chr 0] = Some PARSER_PATTERN_MATCH.
Proof. by vm_compute. Qed.

(** a character out of place is skipped: the pattern need not be contiguous *)
Example parser_salta :
  parser_lee (parser_de patron_OK 1) [chr 79; chr 33; chr 75] = Some PARSER_PATTERN_MATCH.
Proof. by vm_compute. Qed.
