(* ===== verification/I2cSoft.v ===== *)
(** * sapi_software_i2c.c: the I2C bus by hand

    A master that drives SDA (GPIO7) and SCL (GPIO8) bit by bit: a line is released by
    making its pin an input, and driven low by making it an output.  What a device on the
    bus sees is a function of the writes to the two pins: [bus] follows the levels and reads
    the start, the stop and the bit at each rising clock.  The theorem: from an idle bus a
    write is the frame of its bytes.  And the first frame after the initialisation is not. *)

From Stdlib Require Import ZArith Lia Bool Ascii String.
From stdpp Require Import base list numbers strings.
From stdpp Require Import options.
From S2P Require Import Prelude Machine Effects Sapi Vista.

Definition I2C_SOFTWARE_SDA : Z := 12.  (* GPIO7 *)
Definition I2C_SOFTWARE_SCL : Z := 11.  (* GPIO8 *)

Section Maestro.
Context {E : Env}.

Definition i2cSoftwareDelay (duration : Z) : M unit := countdown (Z.to_nat (u64 (13 * duration))).

(** the direction macros and the data macros name the same two pins; both modes that are
    not an output make a plain input *)
Definition i2cSoftwarePinInit (pin : Z) (mode : gpioInit_t) : M unit :=
  if pin =? I2C_SOFTWARE_SDA then
    match mode with
    | GPIO_OUTPUT => _ ← gpioInit I2C_SOFTWARE_SDA GPIO_OUTPUT; mret tt
    | GPIO_INPUT_PULLUP => _ ← gpioInit I2C_SOFTWARE_SDA GPIO_INPUT; mret tt
    | _ => mret tt
    end
  else if pin =? I2C_SOFTWARE_SCL then
    match mode with
    | GPIO_OUTPUT => _ ← gpioInit I2C_SOFTWARE_SCL GPIO_OUTPUT; mret tt
    | GPIO_INPUT_PULLUP => _ ← gpioInit I2C_SOFTWARE_SCL GPIO_INPUT; mret tt
    | _ => mret tt
    end
  else mret tt.

Definition i2cSoftwarePinWrite (pin : Z) (value : bool) : M unit :=
  if pin =? I2C_SOFTWARE_SDA then _ ← gpioWrite I2C_SOFTWARE_SDA value; mret tt
  else if pin =? I2C_SOFTWARE_SCL then
    (if value then
       _ ← gpioInit I2C_SOFTWARE_SCL GPIO_INPUT;
       loop (fun _ : unit =>
         v ← gpioRead I2C_SOFTWARE_SCL; mret (if v : bool then inr tt else inl tt)) tt ;;
       i2cSoftwareDelay 1
     else
       _ ← gpioInit I2C_SOFTWARE_SCL GPIO_OUTPUT;
       _ ← gpioWrite I2C_SOFTWARE_SCL false;
       mret tt) ;;
    i2cSoftwareDelay 1
  else mret tt.

Definition i2cSoftwarePinRead (pin : Z) : M bool := gpioRead pin.

Definition i2cSoftwareInit : M bool :=
  i2cSoftwarePinInit I2C_SOFTWARE_SDA GPIO_INPUT_PULLUP ;;
  i2cSoftwarePinInit I2C_SOFTWARE_SCL GPIO_INPUT_PULLUP ;;
  mret true.

Definition i2cSoftwareMasterWriteStart : M unit :=
  i2cSoftwarePinWrite I2C_SOFTWARE_SCL true ;;
  i2cSoftwarePinWrite I2C_SOFTWARE_SDA true ;;
  i2cSoftwareDelay 10 ;;
  i2cSoftwarePinWrite I2C_SOFTWARE_SDA false ;;
  i2cSoftwareDelay 5 ;;
  i2cSoftwarePinWrite I2C_SOFTWARE_SCL false ;;
  i2cSoftwareDelay 3.

Definition i2cSoftwareMasterWriteStop : M unit :=
  i2cSoftwarePinWrite I2C_SOFTWARE_SDA false ;;
  i2cSoftwarePinWrite I2C_SOFTWARE_SCL false ;;
  i2cSoftwareDelay 2 ;;
  i2cSoftwarePinWrite I2C_SOFTWARE_SCL true ;;
  i2cSoftwareDelay 5 ;;
  i2cSoftwarePinWrite I2C_SOFTWARE_SDA true ;;
  i2cSoftwareDelay 10.

(** [n] bits, the one of weight 128 first *)
Fixpoint escribir_bits (n : nat) (dataByte : Z) : M unit :=
  match n with
  | O => mret tt
  | S n =>
      i2cSoftwarePinWrite I2C_SOFTWARE_SCL false ;;
      i2cSoftwarePinWrite I2C_SOFTWARE_SDA (negb (Z.land dataByte 128 =? 0)) ;;
      i2cSoftwareDelay 2 ;;
      i2cSoftwarePinWrite I2C_SOFTWARE_SCL true ;;
      i2cSoftwareDelay 5 ;;
      i2cSoftwarePinWrite I2C_SOFTWARE_SCL false ;;
      i2cSoftwareDelay 3 ;;
      escribir_bits n (u8 (Z.shiftl dataByte 1))
  end.

Definition i2cSoftwareMasterWriteByte (dataByte : Z) : M bool :=
  escribir_bits 8 dataByte ;;
  i2cSoftwareDelay 1 ;;
  i2cSoftwarePinInit I2C_SOFTWARE_SDA GPIO_INPUT_PULLUP ;;
  i2cSoftwareDelay 1 ;;
  i2cSoftwarePinWrite I2C_SOFTWARE_SCL true ;;
  i2cSoftwareDelay 1 ;;
  ackOrNack ← i2cSoftwarePinRead I2C_SOFTWARE_SDA;
  i2cSoftwareDelay 4 ;;
  i2cSoftwarePinWrite I2C_SOFTWARE_SCL false ;;
  i2cSoftwareDelay 2 ;;
  i2cSoftwarePinInit I2C_SOFTWARE_SDA GPIO_OUTPUT ;;
  i2cSoftwareDelay 1 ;;
  mret ackOrNack.

Fixpoint leer_bits (n : nat) (receivedData : Z) : M Z :=
  match n with
  | O => mret receivedData
  | S n =>
      i2cSoftwarePinWrite I2C_SOFTWARE_SCL false ;;
      i2cSoftwareDelay 2 ;;
      i2cSoftwarePinWrite I2C_SOFTWARE_SCL true ;;
      i2cSoftwareDelay 1 ;;
      receivedBit ← i2cSoftwarePinRead I2C_SOFTWARE_SDA;
      i2cSoftwareDelay 4 ;;
      let receivedData := u8 (Z.shiftl receivedData 1) in
      let receivedData := if receivedBit : bool then Z.lor receivedData 1 else receivedData in
      i2cSoftwarePinWrite I2C_SOFTWARE_SCL false ;;
      i2cSoftwareDelay 3 ;;
      leer_bits n receivedData
  end.

Definition i2cSoftwareMasterReadByte (ack : bool) : M Z :=
  i2cSoftwarePinInit I2C_SOFTWARE_SDA GPIO_INPUT_PULLUP ;;
  receivedData ← leer_bits 8 0;
  i2cSoftwareDelay 1 ;;
  i2cSoftwarePinInit I2C_SOFTWARE_SDA GPIO_OUTPUT ;;
  i2cSoftwarePinWrite I2C_SOFTWARE_SDA (negb ack) ;;
  i2cSoftwareDelay 1 ;;
  i2cSoftwarePinWrite I2C_SOFTWARE_SCL true ;;
  i2cSoftwareDelay 5 ;;
  i2cSoftwarePinWrite I2C_SOFTWARE_SCL false ;;
  i2cSoftwareDelay 1 ;;
  i2cSoftwarePinWrite I2C_SOFTWARE_SDA false ;;
  i2cSoftwareDelay 2 ;;
  mret receivedData.

Inductive I2C_Software_rw_t : Type := I2C_SOFTWARE_WRITE | I2C_SOFTWARE_READ.

Definition i2cSoftwareMasterWriteAddress (i2cSlaveAddress : Z) (readOrWrite : I2C_Software_rw_t) : M bool :=
  match readOrWrite with
  | I2C_SOFTWARE_WRITE => i2cSoftwareMasterWriteByte (u8 (Z.shiftl i2cSlaveAddress 1))
  | I2C_SOFTWARE_READ => i2cSoftwareMasterWriteByte (Z.lor (u8 (Z.shiftl i2cSlaveAddress 1)) 1)
  end.

Fixpoint leer_bytes (n : nat) : M (list Z) :=
  match n with O => mret [] | S n => b ← i2cSoftwareMasterReadByte true; l ← leer_bytes n; mret (b :: l) end.

(** with buffers that are not null; the bus number is not looked at *)
Definition i2cSoftwareRead (i2cSlaveAddress : Z) (size : nat) (sendReadStop : bool) : M (bool * list Z) :=
  if (size =? 0)%nat then mret (false, [])
  else
    i2cSoftwareMasterWriteStart ;;
    _ ← i2cSoftwareMasterWriteAddress i2cSlaveAddress I2C_SOFTWARE_READ;
    l ← leer_bytes size;
    when sendReadStop i2cSoftwareMasterWriteStop ;;
    mret (true, l).

Definition i2cSoftwareWrite (i2cSlaveAddress : Z) (transmitDataBuffer : list Z) (sendWriteStop : bool) : M bool :=
  match transmitDataBuffer with
  | [] => mret false
  | _ =>
      i2cSoftwareMasterWriteStart ;;
      _ ← i2cSoftwareMasterWriteAddress i2cSlaveAddress I2C_SOFTWARE_WRITE;
      for_each transmitDataBuffer (fun b => _ ← i2cSoftwareMasterWriteByte b; mret tt) ;;
      when sendWriteStop i2cSoftwareMasterWriteStop ;;
      mret true
  end.

Definition i2cSoftwareWriteRead (i2cSlaveAddress : Z) (dataToReadBuffer : list Z) (sendWriteStop : bool)
    (size : nat) (sendReadStop : bool) : M (bool * list Z) :=
  if (size =? 0)%nat then mret (false, [])
  else
    r ← (match dataToReadBuffer with
         | [] => mret true
         | _ => i2cSoftwareWrite i2cSlaveAddress dataToReadBuffer sendWriteStop
         end);
    q ← i2cSoftwareRead i2cSlaveAddress size sendReadStop;
    mret (r && fst q, snd q).
End Maestro.

(** ** What the bus carries

    SCL is port 2, pin 8 and SDA port 3, pin 7.  A pin that is an output drives its latch;
    an input leaves the line to the pull-up. *)

Inductive simbolo : Type := Inicio | Parada | Bit (b : bool).

Record linea : Type := mkLinea {
  scl_dir : bool; scl_latch : bool;
  sda_dir : bool; sda_latch : bool;
  vistos : list simbolo                 (* the latest first *)
}.

Definition nivel (dir latch : bool) : bool := if dir then latch else true.
Definition scl (l : linea) : bool := nivel (scl_dir l) (scl_latch l).
Definition sda (l : linea) : bool := nivel (sda_dir l) (sda_latch l).

(** a change of levels: with the clock high the data line falls at a start and rises at a
    stop; a bit is read when the clock rises *)
Definition cambio (c d c' d' : bool) : list simbolo :=
  match c, c' with
  | true, true => match d, d' with true, false => [Inicio] | false, true => [Parada] | _, _ => [] end
  | false, true => [Bit d']
  | _, false => []
  end.

Definition mueve (l l' : linea) : linea :=
  mkLinea (scl_dir l') (scl_latch l') (sda_dir l') (sda_latch l')
    (cambio (scl l) (sda l) (scl l') (sda l') ++ vistos l).

Definition pon_scl (dir latch : bool) (l : linea) : linea :=
  mueve l (mkLinea dir latch (sda_dir l) (sda_latch l) []).
Definition pon_sda (dir latch : bool) (l : linea) : linea :=
  mueve l (mkLinea (scl_dir l) (scl_latch l) dir latch []).

Definition mira (e : event) (l : linea) : linea :=
  match e with
  | EvPinState 2 8 v => pon_scl (scl_dir l) v l
  | EvPinState 3 7 v => pon_sda (sda_dir l) v l
  | EvConfig s [2; 256; d] => if String.eqb s "Chip_GPIO_SetDir" then pon_scl (d =? 1) (scl_latch l) l else l
  | EvConfig s [3; 128; d] => if String.eqb s "Chip_GPIO_SetDir" then pon_sda (d =? 1) (sda_latch l) l else l
  | _ => l
  end.

(** the bits of a byte, the one of weight 128 first *)
Definition bits8 (b : Z) : list bool := map (Z.testbit b) [7; 6; 5; 4; 3; 2; 1; 0].

(** what the macros and the two writes do to it *)
Definition dato (v : bool) (l : linea) : linea := pon_sda (sda_dir l) v l.
Definition suelta (l : linea) : linea := pon_sda false (sda_latch l) l.
Definition toma (l : linea) : linea := pon_sda true false (pon_sda true (sda_latch l) l).
Definition sube (l : linea) : linea := pon_scl false (scl_latch l) l.
Definition baja (l : linea) : linea := pon_scl true false (pon_scl true (scl_latch l) l).

Definition inicia (l : linea) : linea := baja (dato false (dato true (sube l))).
Definition para (l : linea) : linea := dato true (sube (baja (dato false l))).
Definition manda_bit (l : linea) (b : bool) : linea := baja (sube (dato b (baja l))).
Definition manda_byte (l : linea) (b : Z) : linea :=
  toma (baja (sube (suelta (foldl manda_bit l (bits8 b))))).

(** the device: the bytes of a message are groups of eight bits and the acknowledge; a start
    opens a message, and a stop or another start closes it *)
Fixpoint bytes_de (bs : list bool) : list Z :=
  match bs with
  | b7 :: b6 :: b5 :: b4 :: b3 :: b2 :: b1 :: b0 :: _ :: bs =>
      foldl (fun v b => 2 * v + Z.b2z b) 0 [b7; b6; b5; b4; b3; b2; b1; b0] :: bytes_de bs
  | _ => []
  end.

Fixpoint tramas (mensaje : option (list bool)) (s : list simbolo) : list (list Z) :=
  match s with
  | [] => []
  | Bit b :: s => tramas (option_map (fun bs => bs ++ [b]) mensaje) s
  | Inicio :: s => option_list (option_map bytes_de mensaje) ++ tramas (Some []) s
  | Parada :: s => option_list (option_map bytes_de mensaje) ++ tramas None s
  end.

(** the [n] bits from the one of weight 128 down *)
Definition altos (n : nat) (b : Z) : list bool := map (fun i => Z.testbit b (7 - Z.of_nat i)) (seq 0 n).

Lemma altos_S n b : (n < 8)%nat -> altos (S n) b = Z.testbit b 7 :: altos n (u8 (Z.shiftl b 1)).
Proof.
  intros Hn. unfold altos. cbn [seq map]. f_equal. rewrite <- seq_shift, map_map.
  apply map_ext_in. intros i Hi%in_seq. unfold u8.
  rewrite Z.mod_pow2_bits_low, Z.shiftl_spec by lia. f_equal; lia.
Qed.

Section Bus.
Context {E : Env}.

Ltac directo := eexists _, _; split; [reflexivity|by split].

Definition linea0 : linea := mkLinea false false false false [].
Definition bus (w : world) : linea := vista mira linea0 w.
#[local] Abbreviation hace := (hace mira linea0).

Lemma hace_delay d : hace (i2cSoftwareDelay d) (fun _ => True) id.
Proof. apply hace_countdown. Qed.

Lemma gpioRead_inp_sda w :
  gpioRead I2C_SOFTWARE_SDA w = (v ← inp (InPin 3 7); mret (negb (v =? 0))) w.
Proof. reflexivity. Qed.

Lemma gpioRead_inp_scl w :
  gpioRead I2C_SOFTWARE_SCL w = (v ← inp (InPin 2 8); mret (negb (v =? 0))) w.
Proof. reflexivity. Qed.

Lemma hace_gpioRead_sda : hace (gpioRead I2C_SOFTWARE_SDA) (fun _ => True) id.
Proof.
  intros w. rewrite gpioRead_inp_sda. destruct (hace_inp mira linea0 (InPin 3 7) w) as (a & w' & Ea & _ & F).
  by exists a, w'.
Qed.

Lemma hace_sda v : hace (i2cSoftwarePinWrite I2C_SOFTWARE_SDA v) (fun _ => True) (dato v).
Proof. intros w. directo. Qed.

Lemma hace_sda_entrada :
  hace (i2cSoftwarePinInit I2C_SOFTWARE_SDA GPIO_INPUT_PULLUP) (fun _ => True) suelta.
Proof. intros w. directo. Qed.

Lemma hace_sda_salida :
  hace (i2cSoftwarePinInit I2C_SOFTWARE_SDA GPIO_OUTPUT) (fun _ => True) toma.
Proof. intros w. directo. Qed.

Lemma hace_scl_entrada :
  hace (i2cSoftwarePinInit I2C_SOFTWARE_SCL GPIO_INPUT_PULLUP) (fun _ => True) sube.
Proof. intros w. directo. Qed.

Lemma baja_idem l : pon_scl true false (baja l) = baja l.
Proof. by destruct l as [[] [] [] [] v]. Qed.

Lemma hace_scl_bajo : hace (i2cSoftwarePinWrite I2C_SOFTWARE_SCL false) (fun _ => True) baja.
Proof. intros w. eexists _, _. split; [reflexivity|]. split; [done|]. apply (baja_idem (bus w)). Qed.

(** no device holds the clock down *)
Hypothesis (Hscl : forall d, fst (dev_in (InPin 2 8) d) <> 0).
Hypothesis (Hfuel : (0 < env_fuel)%nat).
#[local] Set Default Proof Using "Type".

Lemma hace_gpioRead_scl : hace (gpioRead I2C_SOFTWARE_SCL) (fun v => v = true) id.
Proof using Hscl.
  intros w. rewrite gpioRead_inp_scl.
  destruct (hace_inp mira linea0 (InPin 2 8) w) as (a & w' & Ea & (d & ->) & F). exists (negb (fst (dev_in (InPin 2 8) d) =? 0)), w'.
  split; [done|]. split; [|done]. by rewrite (proj2 (Z.eqb_neq _ _) (Hscl d)).
Qed.

Lemma hace_scl_alto : hace (i2cSoftwarePinWrite I2C_SOFTWARE_SCL true) (fun _ => True) sube.
Proof using Hscl Hfuel.
  unfold i2cSoftwarePinWrite. change (I2C_SOFTWARE_SCL =? I2C_SOFTWARE_SDA) with false.
  change (I2C_SOFTWARE_SCL =? I2C_SOFTWARE_SCL) with true. cbv iota.
  eapply (hace_luego mira linea0 _ _ _ sube id); [|apply hace_delay].
  eapply (hace_bind mira linea0 _ _ (fun _ => True) _ sube id).
  { intros w. destruct (hace_scl_entrada w) as (a & w' & Ea & _ & F).
    change ((_ ← gpioInit I2C_SOFTWARE_SCL GPIO_INPUT; mret tt) w = Ret a w') in Ea.
    unfold mbind, M_bind in Ea. destruct (gpioInit _ _ w) as [b w1| |]; [|done..].
    injection Ea as _ <-. by exists b, w1. }
  intros _ _. eapply (hace_luego mira linea0 _ _ _ id id); [|apply hace_delay].
  unfold loop. destruct env_fuel as [|n]; [lia|]. cbn [loop_n].
  eapply (hace_bind mira linea0 _ _ (fun r => r = inr tt) _ id id); [|by intros ? ->; apply hace_ret].
  eapply (hace_bind mira linea0 _ _ (fun v => v = true) _ id id); [apply hace_gpioRead_scl|].
  by intros ? ->; apply hace_ret.
Qed.

(** ** The bus of each operation *)
Ltac paso :=
  lazymatch goal with
  | |- hace (i2cSoftwareDelay _) _ _ => apply hace_delay
  | |- hace (i2cSoftwarePinWrite I2C_SOFTWARE_SDA _) _ _ => apply hace_sda
  | |- hace (i2cSoftwarePinWrite I2C_SOFTWARE_SCL true) _ _ => apply hace_scl_alto
  | |- hace (i2cSoftwarePinWrite I2C_SOFTWARE_SCL false) _ _ => apply hace_scl_bajo
  | |- hace (i2cSoftwarePinInit I2C_SOFTWARE_SDA GPIO_OUTPUT) _ _ => apply hace_sda_salida
  | |- hace (i2cSoftwarePinInit I2C_SOFTWARE_SDA _) _ _ => apply hace_sda_entrada
  | |- hace (i2cSoftwarePinInit I2C_SOFTWARE_SCL _) _ _ => apply hace_scl_entrada
  end.
Ltac pasos := repeat (eapply hace_luego; [paso|]); try paso.

Lemma hace_start : hace i2cSoftwareMasterWriteStart (fun _ => True) inicia.
Proof using Hscl Hfuel. eapply hace_igual; [unfold i2cSoftwareMasterWriteStart; pasos|done]. Qed.

Lemma hace_stop : hace i2cSoftwareMasterWriteStop (fun _ => True) para.
Proof using Hscl Hfuel. eapply hace_igual; [unfold i2cSoftwareMasterWriteStop; pasos|done]. Qed.

Lemma hace_bits n b : (n <= 8)%nat ->
  hace (escribir_bits n b) (fun _ => True) (fun l => foldl manda_bit l (altos n b)).
Proof using Hscl Hfuel.
  revert b. induction n as [|n IH]; intros b Hn; [by apply hace_ret|].
  eapply hace_igual.
  { cbn [escribir_bits]. do 7 (eapply hace_luego; [paso|]). apply IH. lia. }
  intros l. rewrite altos_S, <- (bit_mascara b 7) by lia. reflexivity.
Qed.

Lemma hace_byte b : hace (i2cSoftwareMasterWriteByte b) (fun _ => True) (fun l => manda_byte l b).
Proof using Hscl Hfuel.
  eapply hace_igual.
  { unfold i2cSoftwareMasterWriteByte. eapply hace_luego; [by apply hace_bits|].
    do 5 (eapply hace_luego; [paso|]). eapply hace_bind; [apply hace_gpioRead_sda|]. intros a _.
    do 5 (eapply hace_luego; [paso|]). by apply hace_ret. }
  done.
Qed.

Lemma hace_bytes bs :
  hace (for_each bs (fun b => _ ← i2cSoftwareMasterWriteByte b; mret tt)) (fun _ => True)
    (fun l => foldl manda_byte l bs).
Proof using Hscl Hfuel.
  apply hace_for_each. intros b. eapply hace_igual.
  { eapply hace_bind; [apply hace_byte|]. intros ? _. by apply hace_ret. }
  done.
Qed.

Lemma hace_write addr bs : bs <> [] ->
  hace (i2cSoftwareWrite addr bs true) (fun r => r = true)
    (fun l => para (foldl manda_byte (inicia l) (u8 (Z.shiftl addr 1) :: bs))).
Proof using Hscl Hfuel.
  intros Hbs. eapply hace_igual.
  { unfold i2cSoftwareWrite. destruct bs as [|b bs]; [done|].
    eapply hace_luego; [apply hace_start|].
    eapply hace_bind; [apply hace_byte|]. intros ? _.
    eapply hace_luego; [apply hace_bytes|].
    eapply hace_luego; [apply hace_stop|]. by apply hace_ret. }
  done.
Qed.

Lemma hace_init : hace i2cSoftwareInit (fun r => r = true) (fun l => pon_scl false (scl_latch l) (suelta l)).
Proof.
  eapply hace_igual.
  { unfold i2cSoftwareInit. do 2 (eapply hace_luego; [paso|]).
    by apply hace_ret. }
  done.
Qed.
End Bus.

(** ** What the device understands *)

(** between a start and a stop, with the clock low and the data line driven *)
Definition en_trama (v : list simbolo) (l : linea) : Prop := exists b, l = mkLinea true false true b v.

(** the idle bus of the master: the clock released, the data line driven high *)
Definition bus_libre (l : linea) : Prop := scl_dir l = false /\ sda_dir l = true /\ sda_latch l = true.

Definition trama9 (b : Z) : list bool := bits8 b ++ [true].

Lemma inicia_trama l : bus_libre l -> en_trama (Inicio :: vistos l) (inicia l).
Proof. destruct l as [a b c d v]. intros (? & ? & ?). cbn in *. subst. by exists false; destruct b. Qed.

Lemma manda_bit_trama v l b : en_trama v l -> en_trama (Bit b :: v) (manda_bit l b).
Proof. intros [c ->]. by exists b; destruct b, c. Qed.

Lemma manda_bits_trama bs v l : en_trama v l -> en_trama (map Bit (rev bs) ++ v) (foldl manda_bit l bs).
Proof.
  revert v l. induction bs as [|b bs IH]; intros v l H; [done|].
  apply (manda_bit_trama _ _ b) in H. apply IH in H. cbn [foldl rev]. by rewrite map_app, <- app_assoc.
Qed.

Lemma manda_byte_trama v l b : en_trama v l -> en_trama (map Bit (rev (trama9 b)) ++ v) (manda_byte l b).
Proof.
  intros H. apply (manda_bits_trama (bits8 b)) in H. unfold trama9, manda_byte. rewrite rev_app_distr.
  destruct H as [c ->]. exists false. by destruct c.
Qed.

Lemma manda_bytes_trama bs v l :
  en_trama v l -> en_trama (map Bit (rev (concat (map trama9 bs))) ++ v) (foldl manda_byte l bs).
Proof.
  revert v l. induction bs as [|b bs IH]; intros v l H; [done|].
  apply (manda_byte_trama _ _ b) in H. apply IH in H. cbn [foldl map concat].
  by rewrite rev_app_distr, map_app, <- app_assoc.
Qed.

Lemma para_libre v l : en_trama v l -> bus_libre (para l) /\ vistos (para l) = Parada :: Bit false :: v.
Proof. intros [[] ->]; by repeat split. Qed.

Lemma tramas_bits m bs s : tramas (Some m) (map Bit bs ++ s) = tramas (Some (m ++ bs)) s.
Proof. revert m. induction bs as [|b bs IH]; intros m; cbn; [by rewrite app_nil_r|]. by rewrite IH, <- app_assoc. Qed.

Lemma bits8_valor b : 0 <= b < 256 -> foldl (fun v b => 2 * v + Z.b2z b) 0 (bits8 b) = b.
Proof.
  intros Hb. assert (T : forallb (fun b => foldl (fun v b => 2 * v + Z.b2z b) 0 (bits8 b) =? b)
    (seqZ 0 256) = true) by (vm_compute; reflexivity).
  rewrite forallb_forall in T. apply Z.eqb_eq, T, list_elem_of_In, elem_of_seqZ. lia.
Qed.

Lemma bytes_de_tramas bs resto : Forall (fun b => 0 <= b < 256) bs -> (length resto < 9)%nat ->
  bytes_de (concat (map trama9 bs) ++ resto) = bs.
Proof.
  intros H Hr. induction H as [|b bs Hb H IH].
  - cbn. by do 9 (destruct resto as [|? resto]; [done|]); cbn in Hr; lia.
  - cbn [map concat]. rewrite <- app_assoc. unfold trama9 at 1, bits8 at 1. cbn [map app bytes_de].
    f_equal; [apply (bits8_valor b Hb)|exact IH].
Qed.

(** the whole message on an idle bus *)
Lemma trama_entera l bs : bus_libre l -> Forall (fun b => 0 <= b < 256) bs ->
  let l' := para (foldl manda_byte (inicia l) bs) in
  bus_libre l' /\ exists nuevos, vistos l' = nuevos ++ vistos l /\ tramas None (rev nuevos) = [bs].
Proof.
  intros Hl Hbs. cbv zeta. pose proof (manda_bytes_trama bs _ _ (inicia_trama l Hl)) as H.
  apply para_libre in H as [Hr ->]. split; [done|].
  exists (Parada :: Bit false :: map Bit (rev (concat (map trama9 bs))) ++ [Inicio]).
  split; [by cbn; rewrite <- app_assoc|].
  cbn. rewrite rev_app_distr, map_rev, rev_involutive. cbn.
  rewrite <- !app_assoc, tramas_bits. cbn. f_equal. apply bytes_de_tramas; [done|cbn; lia].
Qed.

(** while the data line is an input the bits are high *)
Lemma bits_sueltos bs v c : exists c' ts,
  foldl manda_bit (mkLinea true false false c v) bs = mkLinea true false false c' (map Bit ts ++ v).
Proof.
  revert v c. induction bs as [|b bs IH]; intros v c; [by exists c, []|].
  destruct (IH (Bit true :: v) b) as (c' & ts & H). exists c', (ts ++ [true]).
  rewrite map_app, <- app_assoc. cbn [map app foldl]. rewrite <- H. by destruct b, c.
Qed.

Lemma tramas_fuera ts s : tramas None (map Bit ts ++ s) = tramas None s.
Proof. by induction ts. Qed.

(** after the initialisation the data line is an input: neither the start nor the bits of the
    first byte reach it, and the message is lost *)
Lemma trama_perdida l b bs : scl_dir l = false -> sda_dir l = false ->
  let l' := para (foldl manda_byte (inicia l) (b :: bs)) in
  bus_libre l' /\ exists nuevos, vistos l' = nuevos ++ vistos l /\ tramas None (rev nuevos) = [].
Proof.
  intros Hc Hd. cbv zeta. destruct l as [a b0 c d v]. cbn in Hc, Hd. subst a c. cbn [foldl].
  assert (Hb : exists ts, en_trama (map Bit ts ++ v) (manda_byte (inicia (mkLinea false b0 false d v)) b)).
  { destruct (bits_sueltos (bits8 b) v false) as (c' & ts & H). exists (true :: ts), false.
    transitivity (toma (baja (sube (suelta (mkLinea true false false c' (map Bit ts ++ v)))))); [|done].
    rewrite <- H. by destruct d, b0. }
  destruct Hb as [ts Hb]. apply (manda_bytes_trama bs) in Hb. apply para_libre in Hb as [Hr ->]. split; [done|].
  exists (Parada :: Bit false :: map Bit (rev (concat (map trama9 bs))) ++ map Bit ts).
  split; [by cbn; rewrite <- app_assoc|].
  cbn. rewrite rev_app_distr, !map_rev, rev_involutive, <- map_rev, <- !app_assoc.
  by rewrite tramas_fuera, tramas_fuera.
Qed.

Section Mensajes.
Context {E : Env}.

(** [m] leaves the bus idle, and the device has understood [ms] meanwhile *)
Definition entiende (w w' : world) (ms : list (list Z)) : Prop :=
  bus_libre (bus w') /\
  exists nuevos, vistos (bus w') = nuevos ++ vistos (bus w) /\ tramas None (rev nuevos) = ms.

(** C34: the software I2C, with a device that does not hold the clock: on an idle bus a write
    with stop answers true, and what the device decodes from the two pins is one message, the
    address with the write bit and then the bytes of the buffer; and right after the
    initialisation, whatever the board did before, the first write answers true as well but
    the device decodes nothing. *)
Theorem i2c_software_ida_y_vuelta (addr : Z) (bs : list Z) :
  (forall d, fst (dev_in (InPin 2 8) d) <> 0) -> (0 < env_fuel)%nat ->
  0 <= addr < 128 -> Forall (fun b => 0 <= b < 256) bs -> bs <> [] ->
  (forall w, bus_libre (bus w) ->
     exists w', i2cSoftwareWrite addr bs true w = Ret true w' /\ entiende w w' [2 * addr :: bs]) /\
  (forall w, exists w1 w', i2cSoftwareInit w = Ret true w1 /\
     i2cSoftwareWrite addr bs true w1 = Ret true w' /\ entiende w1 w' []).
Proof.
  intros Hscl Hfuel Ha Hbs Hne. pose proof (hace_write Hscl Hfuel addr bs Hne) as Hw.
  assert (Ha' : u8 (Z.shiftl addr 1) = 2 * addr).
  { rewrite Z.shiftl_mul_pow2, u8_small by lia. lia. }
  rewrite Ha' in Hw. split.
  - intros w Hr. destruct (Hw w) as (a & w' & Ew & -> & F). exists w'. split; [done|].
    unfold entiende, bus. rewrite F. apply trama_entera; [done|]. constructor; [lia|done].
  - intros w. destruct (hace_init w) as (a & w1 & E1 & -> & F1).
    destruct (Hw w1) as (a & w' & Ew & -> & F). exists w1, w'. split; [done|]. split; [done|].
    unfold entiende, bus. rewrite F. apply trama_perdida; by rewrite F1.
Qed.
End Mensajes.

(** the line to SDA is an output, high, and nothing else has been done *)
Definition mundo_libre : @world env_libre :=
  mundo_con [EvPinState 3 7 true; EvConfig "Chip_GPIO_SetDir" [3; 128; 1]].

Lemma i2c_software_ida_y_vuelta_witness :
  exists w', @i2cSoftwareWrite env_libre 104 [0; 89; 35] true mundo_libre = Ret true w' /\
    entiende mundo_libre w' [[208; 0; 89; 35]].
Proof.
  apply (@i2c_software_ida_y_vuelta env_libre 104 [0; 89; 35]);
    [done|simpl; lia|lia|by repeat (constructor; [lia|])|done|by vm_compute].
Defined.
