(* ===== verification/Lcd.v ===== *)
(** * display_lcd_hd44780_gpios.c: a text display on four data lines

    The driver of the HD44780 as the EDU-CIAA has it (the branch of the I2C expander is
    compiled out): nibbles on LCD4..LCD1 latched by a falling LCDEN, bytes of command or
    data by LCDRS, a cursor kept beside the controller's own.  [Panel]: what the controller
    receives from the pins, and the memory of characters it makes of it.  The theorems:
    a text written at a position is on the panel, in reading order, and a cleared line is
    blank after it.  Strings are the characters up to the terminating zero. *)

From Stdlib Require Import ZArith Lia Bool Ascii String.
From stdpp Require Import base list numbers strings sets.
From stdpp Require Import options.
From S2P Require Import Prelude Machine Effects Sapi SapiResto Convertir Vista.

Record lcd_t : Type := mkLcd {
  lineWidth : Z; amountOfLines : Z;      (* uint16_t *)
  charWidth : Z; charHeight : Z;
  lcd_x : Z; lcd_y : Z                   (* uint8_t *)
}.
Definition con_xy (x y : Z) (l : lcd_t) : lcd_t :=
  mkLcd (lineWidth l) (amountOfLines l) (charWidth l) (charHeight l) x y.

(** LCD4, LCD3, LCD2, LCD1, LCDEN, LCDRS, GPIO1 *)
Definition LCD_HD44780_D7 : Z := 20.
Definition LCD_HD44780_D6 : Z := 18.
Definition LCD_HD44780_D5 : Z := 17.
Definition LCD_HD44780_D4 : Z := 16.
Definition LCD_HD44780_EN : Z := 33.
Definition LCD_HD44780_RW : Z := GND.
Definition LCD_HD44780_RS : Z := 19.
Definition LCD_HD44780_RST : Z := 15.

Definition LCD_EN_PULSE_WAIT_US : Z := 25.
Definition LCD_LOW_WAIT_US : Z := 25.
Definition LCD_HIGH_WAIT_US : Z := 100.
Definition LCD_CMD_WAIT_US : Z := 110.
Definition LCD_CLR_DISP_WAIT_MS : Z := 3.
Definition E_SET_CGRAM_ADDR : Z := 64.

Inductive lcdCursorModes_t : Type := LCD_CURSOR_OFF | LCD_CURSOR_ON | LCD_CURSOR_ON_BLINK.
Definition cursor_bits (m : lcdCursorModes_t) : Z :=
  match m with LCD_CURSOR_OFF => 0 | LCD_CURSOR_ON => 2 | LCD_CURSOR_ON_BLINK => 3 end.

Record lcdCustomChar_t : Type := mkCustom { address : Z; bitmap : list Z }.

Definition firstCharAdress : list Z := [128; 192; 148; 212].

Section Lcd.
Context {E : Env}.

Definition lcdPinSet (pin : Z) (status : bool) : M unit := _ ← gpioWrite pin status; mret tt.
Definition lcdInitPinAsOutput (pin : Z) : M unit := _ ← gpioInit pin GPIO_OUTPUT; mret tt.
Definition lcdCommandDelay : M unit := delayInaccurateUs LCD_CMD_WAIT_US.

Definition lcdEnablePulse : M unit :=
  lcdPinSet LCD_HD44780_EN true ;;
  delayInaccurateUs LCD_EN_PULSE_WAIT_US ;;
  lcdPinSet LCD_HD44780_EN false.

Definition lcdSendNibble (nibble : Z) : M unit :=
  lcdPinSet LCD_HD44780_D7 (negb (Z.land nibble 128 =? 0)) ;;
  lcdPinSet LCD_HD44780_D6 (negb (Z.land nibble 64 =? 0)) ;;
  lcdPinSet LCD_HD44780_D5 (negb (Z.land nibble 32 =? 0)) ;;
  lcdPinSet LCD_HD44780_D4 (negb (Z.land nibble 16 =? 0)).

Definition lcdCommand (cmd : Z) : M unit :=
  lcdSendNibble (Z.land cmd 240) ;;
  lcdPinSet LCD_HD44780_RS false ;;
  lcdPinSet LCD_HD44780_RW false ;;
  lcdEnablePulse ;;
  delayInaccurateUs LCD_LOW_WAIT_US ;;
  lcdSendNibble (u8 (Z.shiftl cmd 4)) ;;
  lcdEnablePulse.

Definition lcdData (data : Z) : M unit :=
  lcdSendNibble (Z.land data 240) ;;
  lcdPinSet LCD_HD44780_RS true ;;
  lcdPinSet LCD_HD44780_RW false ;;
  lcdEnablePulse ;;
  lcdSendNibble (u8 (Z.shiftl data 4)) ;;
  lcdEnablePulse.

Definition lcdInit (lineWidth amountOfLines charWidth charHeight : Z) : M lcd_t :=
  lcdInitPinAsOutput LCD_HD44780_RST ;;
  lcdInitPinAsOutput LCD_HD44780_RS ;;
  lcdInitPinAsOutput LCD_HD44780_RW ;;
  lcdInitPinAsOutput LCD_HD44780_EN ;;
  lcdInitPinAsOutput LCD_HD44780_D4 ;;
  lcdInitPinAsOutput LCD_HD44780_D5 ;;
  lcdInitPinAsOutput LCD_HD44780_D6 ;;
  lcdInitPinAsOutput LCD_HD44780_D7 ;;
  lcdPinSet LCD_HD44780_RW false ;;
  lcdPinSet LCD_HD44780_RS false ;;
  lcdPinSet LCD_HD44780_EN false ;;
  lcdCommand 48 ;; lcdCommandDelay ;;
  lcdCommand 48 ;; delayInaccurateUs 40 ;;
  lcdCommand 8 ;; lcdCommandDelay ;;
  lcdCommand 1 ;; delayInaccurateMs 12 ;;
  lcdCommand 6 ;; delayInaccurateMs 1 ;;
  lcdCommand 12 ;; delayInaccurateMs 3 ;;
  lcdCommand 2 ;; delayInaccurateMs 3 ;;
  mret (mkLcd lineWidth amountOfLines charWidth charHeight 0 0).

Definition lcdGoToXY (x y : Z) (l : lcd_t) : M lcd_t :=
  if (lineWidth l <=? x) || (amountOfLines l <=? y) then mret l
  else
    a ← access (firstCharAdress !! Z.to_nat y);
    lcdCommand (u8 (a + x)) ;;
    delayInaccurateUs LCD_HIGH_WAIT_US ;;
    mret (con_xy x y l).

Definition lcdClear : M unit := lcdCommand 1 ;; delayInaccurateMs LCD_CLR_DISP_WAIT_MS.
Definition lcdClearAndHome (l : lcd_t) : M lcd_t := lcdClear ;; lcdGoToXY 0 0 l.
Definition lcdCursorSet (mode : lcdCursorModes_t) : M unit :=
  lcdCommand (Z.lor 12 (cursor_bits mode)) ;; delayInaccurateMs LCD_CLR_DISP_WAIT_MS.

(** the index is an [uint8_t]: from 256 characters on it never meets the zero *)
Definition lcdSendStringRaw (str : list ascii) : M unit :=
  if 255 <? strlen str then diverge else for_each str (fun c => lcdData (ord c)).

Definition lcdCreateChar (charnum : Z) (chardata : list Z) (l : lcd_t) : M lcd_t :=
  let charnum := Z.land charnum 7 in
  lcdCommand (Z.lor E_SET_CGRAM_ADDR (Z.shiftl charnum 3)) ;;
  for_each (seqZ 0 8) (fun i => d ← access (chardata !! Z.to_nat i); lcdData d) ;;
  delay 1 ;;
  lcdGoToXY (lcd_x l) (lcd_y l) l.
Definition lcdCreateCustomChar (c : lcdCustomChar_t) (l : lcd_t) : M lcd_t :=
  lcdCreateChar (address c) (bitmap c) l.

Definition lcdSendEnter (l : lcd_t) : M lcd_t :=
  if amountOfLines l <=? lcd_y l then mret l
  else let y := u8 (lcd_y l + 1) in lcdGoToXY 0 y (con_xy 0 y l).

(** a character where the cursor is, on the next line past the end of this one *)
Definition lcdSendCustomCharByIndex (c : Z) (l : lcd_t) : M lcd_t :=
  l ← (if lineWidth l <=? lcd_x l then lcdSendEnter l else mret l);
  lcdData c ;;
  mret (con_xy (u8 (lcd_x l + 1)) (lcd_y l) l).
Definition lcdSendCustomChar (c : lcdCustomChar_t) (l : lcd_t) : M lcd_t :=
  lcdSendCustomCharByIndex (address c) l.

Definition lcdSendChar (l : lcd_t) (c : ascii) : M lcd_t :=
  if ord c =? 13 then mret l
  else if ord c =? 10 then lcdSendEnter l
  else
    l ← (if lineWidth l <=? lcd_x l then lcdSendEnter l else mret l);
    lcdData (ord c) ;;
    mret (con_xy (u8 (lcd_x l + 1)) (lcd_y l) l).

Definition lcdSendString (str : list ascii) (l : lcd_t) : M lcd_t := fold_m str l lcdSendChar.

(** the counter is an [uint8_t]: up to column 255 the loop does not end *)
Definition lcdClearLineFromTo (line xFrom xTo : Z) (l : lcd_t) : M lcd_t :=
  if (lineWidth l <=? xFrom) || (amountOfLines l <=? line) then mret l
  else if xTo <? xFrom then mret l
  else
    let xTo := if lineWidth l <=? xTo then u8 (lineWidth l - 1) else xTo in
    l ← lcdGoToXY xFrom line l;
    if xTo =? 255 then diverge
    else
      l ← fold_m (seqZ xFrom (xTo + 1 - xFrom)) l (fun l _ => lcdSendChar l " "%char);
      lcdGoToXY xFrom line l.
Definition lcdClearLineFrom (line xFrom : Z) (l : lcd_t) : M lcd_t :=
  lcdClearLineFromTo line xFrom (u8 (lineWidth l - 1)) l.
Definition lcdClearLine (line : Z) (l : lcd_t) : M lcd_t :=
  lcdClearLineFromTo line 0 (u8 (lineWidth l - 1)) l.

Definition lcdSendStringClearLine (str : list ascii) (l : lcd_t) : M lcd_t :=
  l ← lcdSendString str l; lcdClearLineFrom (lcd_y l) (lcd_x l) l.
Definition lcdSendStringFormXY (str : list ascii) (x y : Z) (l : lcd_t) : M lcd_t :=
  l ← lcdGoToXY x y l; lcdSendString str l.
Definition lcdSendStringFormXYClearLine (str : list ascii) (x y : Z) (l : lcd_t) : M lcd_t :=
  l ← lcdSendStringFormXY str x y l; lcdClearLineFrom (lcd_y l) (lcd_x l) l.

Definition lcdSendInt (value : Z) (l : lcd_t) : M lcd_t :=
  match intToStringGlobal value with
  | Bien s => lcdSendString s l
  | Indef => undef
  | Nunca => diverge
  end.
Definition lcdSendIntClearLine (value : Z) (l : lcd_t) : M lcd_t :=
  l ← lcdSendInt value l; lcdClearLineFrom (lcd_y l) (lcd_x l) l.
Definition lcdSendIntFormXY (value x y : Z) (l : lcd_t) : M lcd_t :=
  l ← lcdGoToXY x y l; lcdSendInt value l.
Definition lcdSendIntFormXYClearLine (value x y : Z) (l : lcd_t) : M lcd_t :=
  l ← lcdSendIntFormXY value x y l; lcdClearLineFrom (lcd_y l) (lcd_x l) l.
End Lcd.

(** ** The controller

    What it latches from the pins, in 4-bit mode: a nibble at each falling EN, two of them
    a byte, for the memory of characters when RS is high. *)
Record panel : Type := mkPanel {
  p_rs : bool; p_en : bool; p_d7 : bool; p_d6 : bool; p_d5 : bool; p_d4 : bool;
  p_alto : option Z;                     (* the high nibble that waits for the other *)
  p_recibido : list (bool * Z)           (* RS and byte, the latest first *)
}.
Definition panel0 : panel := mkPanel false false false false false false None [].

Definition nibble (p : panel) : Z :=
  8 * Z.b2z (p_d7 p) + 4 * Z.b2z (p_d6 p) + 2 * Z.b2z (p_d5 p) + Z.b2z (p_d4 p).

Definition pon_en (v : bool) (p : panel) : panel :=
  let p' alto rec := mkPanel (p_rs p) v (p_d7 p) (p_d6 p) (p_d5 p) (p_d4 p) alto rec in
  if p_en p && negb v then
    match p_alto p with
    | None => p' (Some (nibble p)) (p_recibido p)
    | Some h => p' None ((p_rs p, 16 * h + nibble p) :: p_recibido p)
    end
  else p' (p_alto p) (p_recibido p).

Definition mira_lcd (e : event) (p : panel) : panel :=
  match e with
  | EvPinState 5 12 v => mkPanel v (p_en p) (p_d7 p) (p_d6 p) (p_d5 p) (p_d4 p) (p_alto p) (p_recibido p)
  | EvPinState 5 13 v => pon_en v p
  | EvPinState 5 14 v => mkPanel (p_rs p) (p_en p) v (p_d6 p) (p_d5 p) (p_d4 p) (p_alto p) (p_recibido p)
  | EvPinState 2 6 v => mkPanel (p_rs p) (p_en p) (p_d7 p) v (p_d5 p) (p_d4 p) (p_alto p) (p_recibido p)
  | EvPinState 2 5 v => mkPanel (p_rs p) (p_en p) (p_d7 p) (p_d6 p) v (p_d4 p) (p_alto p) (p_recibido p)
  | EvPinState 2 4 v => mkPanel (p_rs p) (p_en p) (p_d7 p) (p_d6 p) (p_d5 p) v (p_alto p) (p_recibido p)
  | _ => p
  end.

(** its memory of characters, two lines of 40 at 0x00 and 0x40: the address counter, the
    step after a data byte, whether the bytes go to the character generator *)
Record texto : Type := mkTexto { t_ram : Z -> Z; t_ac : Z; t_paso : Z; t_cg : bool }.

Definition avanza_ac (ac paso : Z) : Z :=
  if paso =? 1 then (if ac =? 39 then 64 else if ac =? 103 then 0 else ac + 1)
  else (if ac =? 64 then 39 else if ac =? 0 then 103 else ac - 1).

Definition instruccion (b : Z) (t : texto) : texto :=
  if 128 <=? b then mkTexto (t_ram t) (b - 128) (t_paso t) false
  else if 64 <=? b then mkTexto (t_ram t) (t_ac t) (t_paso t) true
  else if 8 <=? b then t
  else if 4 <=? b then mkTexto (t_ram t) (t_ac t) (if Z.testbit b 1 then 1 else -1) (t_cg t)
  else if 2 <=? b then mkTexto (t_ram t) 0 (t_paso t) false
  else if b =? 1 then mkTexto (fun _ => 32) 0 1 false
  else t.

Definition dato_lcd (b : Z) (t : texto) : texto :=
  if t_cg t then t
  else mkTexto (fun a => if a =? t_ac t then b else t_ram t a) (avanza_ac (t_ac t) (t_paso t)) (t_paso t) false.

Definition interpreta (c : bool * Z) (t : texto) : texto :=
  if fst c then dato_lcd (snd c) t else instruccion (snd c) t.

Definition texto0 : texto := mkTexto (fun _ => 32) 0 1 false.

(** The glass, whatever the driver holds of it: the controller's memory has two lines of forty
    characters, at addresses 0 and 64.  The even rows of a panel of [cols] columns are cut one
    after another from the first, the odd ones from the second: row 2 follows row 0 and row
    3 follows row 1.  The address of the first character of a row. *)
Definition base (cols fila : Z) : Z := 64 * (fila mod 2) + cols * (fila / 2).

Section Panel.
Context {E : Env}.
#[local] Abbreviation hace := (hace mira_lcd panel0).

Definition panel_de (w : world) : panel := vista mira_lcd panel0 w.
(** ready for the first nibble of a byte *)
Definition sincronizado (p : panel) : Prop := p_en p = false /\ p_alto p = None.
Definition texto_de (w : world) : texto := foldr interpreta texto0 (p_recibido (panel_de w)).
(** the character seen at a row and a column of a panel of [cols] columns *)
Definition celda (cols : Z) (w : world) (fila col : Z) : Z := t_ram (texto_de w) (base cols fila + col).

(** *** The bytes *)
Definition pin_evento (pin : Z) (v : bool) : event :=
  match gpioPinsInit !! Z.to_nat pin with
  | Some p => EvPinState (gpioPort p) (gpioPin p) v
  | None => EvWfi
  end.

Lemma hace_pin pin v : pin ∈ [LCD_HD44780_D7; LCD_HD44780_D6; LCD_HD44780_D5; LCD_HD44780_D4;
    LCD_HD44780_EN; LCD_HD44780_RS] ->
  hace (lcdPinSet pin v) (fun _ => True) (mira_lcd (pin_evento pin v)).
Proof.
  intros Hp w. repeat (apply elem_of_cons in Hp as [->|Hp]; [eexists tt, _; split; [reflexivity|by split]|]).
  by apply not_elem_of_nil in Hp.
Qed.

Lemma hace_rw v : hace (lcdPinSet LCD_HD44780_RW v) (fun _ => True) id.
Proof. intros w. by exists tt, w. Qed.

Definition pulso (p : panel) : panel := pon_en false (pon_en true p).
Lemma hace_pulso : hace lcdEnablePulse (fun _ => True) pulso.
Proof.
  eapply hace_igual.
  { unfold lcdEnablePulse. eapply hace_luego; [apply hace_pin; set_solver|].
    eapply hace_luego; [apply hace_countdown|apply hace_pin; set_solver]. }
  done.
Qed.

Definition pon_nibble (n : Z) (p : panel) : panel :=
  mkPanel (p_rs p) (p_en p) (Z.testbit n 7) (Z.testbit n 6) (Z.testbit n 5) (Z.testbit n 4)
    (p_alto p) (p_recibido p).
Lemma hace_nibble n : hace (lcdSendNibble n) (fun _ => True) (pon_nibble n).
Proof.
  eapply hace_igual.
  { unfold lcdSendNibble. change 128 with (2 ^ 7). change 64 with (2 ^ 6). change 32 with (2 ^ 5).
    change 16 with (2 ^ 4). rewrite !bit_mascara by lia.
    do 3 (eapply hace_luego; [apply hace_pin; set_solver|]). apply hace_pin. set_solver. }
  done.
Qed.

Definition pon_rs (v : bool) (p : panel) : panel := mira_lcd (EvPinState 5 12 v) p.
Lemma hace_rs v : hace (lcdPinSet LCD_HD44780_RS v) (fun _ => True) (pon_rs v).
Proof. apply (hace_pin LCD_HD44780_RS). set_solver. Qed.

Definition manda (v : bool) (b : Z) (p : panel) : panel :=
  pulso (pon_nibble (u8 (Z.shiftl b 4)) (pulso (pon_rs v (pon_nibble (Z.land b 240) p)))).

Lemma hace_command b : hace (lcdCommand b) (fun _ => True) (manda false b).
Proof.
  unfold manda, lcdCommand. eapply hace_igual.
  { eapply hace_luego; [apply hace_nibble|]. eapply hace_luego; [apply hace_rs|].
    eapply hace_luego; [apply hace_rw|]. eapply hace_luego; [apply hace_pulso|].
    eapply hace_luego; [apply hace_countdown|]. eapply hace_luego; [apply hace_nibble|apply hace_pulso]. }
  intros p. unfold id. reflexivity.
Qed.

Lemma hace_data b : hace (lcdData b) (fun _ => True) (manda true b).
Proof.
  unfold manda, lcdData. eapply hace_igual.
  { eapply hace_luego; [apply hace_nibble|]. eapply hace_luego; [apply hace_rs|].
    eapply hace_luego; [apply hace_rw|]. eapply hace_luego; [apply hace_pulso|].
    eapply hace_luego; [apply hace_nibble|apply hace_pulso]. }
  intros p. unfold id. reflexivity.
Qed.

(** the two nibbles are the byte *)
Lemma nibbles_byte b : 0 <= b < 256 ->
  let n i := nibble (pon_nibble i panel0) in 16 * n (Z.land b 240) + n (u8 (Z.shiftl b 4)) = b.
Proof.
  intros Hb n. assert (T : forallb (fun b => 16 * n (Z.land b 240) + n (u8 (Z.shiftl b 4)) =? b)
    (seqZ 0 256) = true) by (vm_compute; reflexivity).
  rewrite forallb_forall in T. apply Z.eqb_eq, T, list_elem_of_In, elem_of_seqZ. lia.
Qed.

Lemma manda_byte v b p : 0 <= b < 256 -> sincronizado p ->
  sincronizado (manda v b p) /\ p_recibido (manda v b p) = (v, b) :: p_recibido p.
Proof.
  intros Hb [He Ha]. destruct p as [rs en d7 d6 d5 d4 alto rec]. cbn in He, Ha. subst en alto.
  split; [done|]. rewrite <- (nibbles_byte b Hb) at 2. done.
Qed.

(** *** What the calls write: [escribe m a bs], a result and the bytes received *)
Definition escribe {A} (m : M A) (a : A) (bs : list (bool * Z)) : Prop :=
  forall w, sincronizado (panel_de w) ->
    exists w', m w = Ret a w' /\ sincronizado (panel_de w') /\
               p_recibido (panel_de w') = rev bs ++ p_recibido (panel_de w).

Lemma escribe_ret {A} (a : A) : escribe (mret a) a [].
Proof. intros w Hw. by exists w. Qed.

Lemma escribe_bind {A B} (m : M A) (k : A -> M B) a b bs cs :
  escribe m a bs -> escribe (k a) b cs -> escribe (m ≫= k) b (bs ++ cs).
Proof.
  intros Hm Hk w Hw. destruct (Hm w Hw) as (w1 & E1 & H1 & R1). destruct (Hk w1 H1) as (w2 & E2 & H2 & R2).
  exists w2. split; [apply bind_Ret; eauto|]. split; [done|]. by rewrite R2, R1, rev_app_distr, app_assoc.
Qed.

Lemma escribe_command b : 0 <= b < 256 -> escribe (lcdCommand b) tt [(false, b)].
Proof.
  intros Hb w Hw. destruct (hace_command b w) as ([] & w' & E1 & _ & F). exists w'. split; [done|].
  unfold panel_de. rewrite F. by apply manda_byte.
Qed.
Lemma escribe_data b : 0 <= b < 256 -> escribe (lcdData b) tt [(true, b)].
Proof.
  intros Hb w Hw. destruct (hace_data b w) as ([] & w' & E1 & _ & F). exists w'. split; [done|].
  unfold panel_de. rewrite F. by apply manda_byte.
Qed.
Lemma escribe_countdown n : escribe (countdown n) tt [].
Proof. intros w Hw. exists w. split; [apply countdown_Ret|done]. Qed.

(** *** The cursor of the driver and the controller's *)

(** the panels that the driver's table of addresses is right for: those of one or two lines, up
    to the forty columns of a line of the controller, and those of four lines of twenty *)
Definition medidas (l : lcd_t) : Prop :=
  0 < lineWidth l <= 40 /\
  (0 < amountOfLines l <= 2 \/ amountOfLines l = 4 /\ lineWidth l = 20).

Lemma base_caso l y : medidas l -> 0 <= y < amountOfLines l ->
  y = 0 /\ base (lineWidth l) y = 0 \/ y = 1 /\ base (lineWidth l) y = 64 \/
  lineWidth l = 20 /\ (y = 2 /\ base (lineWidth l) y = 20 \/ y = 3 /\ base (lineWidth l) y = 84).
Proof.
  intros (H1 & H2) Hy. unfold base.
  assert (Hc : y = 0 \/ y = 1 \/ lineWidth l = 20 /\ (y = 2 \/ y = 3)) by lia.
  destruct Hc as [->|[->|(HW & [->| ->])]]; [left|right; left|right; right..]; try rewrite HW.
  - change (0 mod 2) with 0. change (0 / 2) with 0. lia.
  - change (1 mod 2) with 1. change (1 / 2) with 0. lia.
  - by split; [|left].
  - by split; [|right].
Qed.

Lemma base_inj l f c f' c' : medidas l ->
  0 <= f < amountOfLines l -> 0 <= f' < amountOfLines l -> 0 <= c < lineWidth l -> 0 <= c' < lineWidth l ->
  base (lineWidth l) f + c = base (lineWidth l) f' + c' -> f = f' /\ c = c'.
Proof.
  intros Hm Hf Hf' Hc Hc' E1. pose proof Hm as (H1 & H2).
  destruct (base_caso l f Hm Hf) as [[-> ?]|[[-> ?]|(? & [[-> ?]|[-> ?]])]],
    (base_caso l f' Hm Hf') as [[-> ?]|[[-> ?]|(? & [[-> ?]|[-> ?]])]]; lia.
Qed.

Definition posicion (l : lcd_t) : Z := lcd_y l * lineWidth l + lcd_x l.
Definition en_panel (l : lcd_t) : Prop :=
  medidas l /\ 0 <= lcd_x l <= lineWidth l /\ 0 <= lcd_y l < amountOfLines l.
(** both cursors at the same place, which may be past the end of the line *)
Definition de_acuerdo (l : lcd_t) (t : texto) : Prop :=
  en_panel l /\ t_paso t = 1 /\ t_cg t = false /\ (lcd_x l < lineWidth l -> t_ac t = base (lineWidth l) (lcd_y l) + lcd_x l).

Definition tras (bs : list (bool * Z)) (t : texto) : texto := fold_left (fun t c => interpreta c t) bs t.

Lemma texto_escribe bs w w' :
  p_recibido (panel_de w') = rev bs ++ p_recibido (panel_de w) -> texto_de w' = tras bs (texto_de w).
Proof.
  intros H. unfold texto_de, tras. rewrite H, foldr_app. generalize (foldr interpreta texto0 (p_recibido (panel_de w))).
  intros t. rewrite <- (rev_involutive bs) at 2. by rewrite <- fold_left_rev_right, rev_involutive.
Qed.

Lemma escribe_goto l x y : medidas l -> 0 <= x < lineWidth l -> 0 <= y < amountOfLines l ->
  escribe (lcdGoToXY x y l) (con_xy x y l) [(false, 128 + base (lineWidth l) y + x)].
Proof.
  intros Hm Hx Hy. pose proof Hm as (H1 & H2). unfold lcdGoToXY.
  rewrite (proj2 (Z.leb_gt _ _)), (proj2 (Z.leb_gt _ _)) by lia. cbn [orb].
  assert (Ha : firstCharAdress !! Z.to_nat y = Some (128 + base (lineWidth l) y) /\ 0 <= base (lineWidth l) y + x < 128).
  { destruct (base_caso l y Hm Hy) as [[-> Eb]|[[-> Eb]|(? & [[-> Eb]|[-> Eb]])]]; rewrite Eb; split; (done || lia). }
  destruct Ha as [-> Hb]. cbn [access]. rewrite <- (app_nil_l [_]).
  apply (escribe_bind _ _ (128 + base (lineWidth l) y)); [apply escribe_ret|].
  rewrite u8_small by lia. rewrite <- (app_nil_r [_]).
  apply (escribe_bind _ _ tt); [apply escribe_command; lia|]. rewrite <- (app_nil_r []).
  apply (escribe_bind _ _ tt); [apply escribe_countdown|apply escribe_ret].
Qed.

Lemma instruccion_ir a t : 0 <= a -> instruccion (128 + a) t = mkTexto (t_ram t) a (t_paso t) false.
Proof. intros Ha. unfold instruccion. rewrite (proj2 (Z.leb_le _ _)) by lia. f_equal. lia. Qed.

Lemma base_pos l y : medidas l -> 0 <= y -> 0 <= base (lineWidth l) y.
Proof.
  intros (H1 & _) Hy. unfold base. pose proof (Z.mod_pos_bound y 2). pose proof (Z.div_pos y 2). nia.
Qed.

(** inside a line the controller's step is the next column *)
Lemma avanza_columna l f k : medidas l -> 0 <= f < amountOfLines l -> 0 <= k -> k + 1 < lineWidth l ->
  avanza_ac (base (lineWidth l) f + k) 1 = base (lineWidth l) f + (k + 1).
Proof.
  intros Hm Hf Hk Hk1. pose proof Hm as (H1 & H2). unfold avanza_ac. cbn [Z.eqb Pos.eqb].
  destruct (base_caso l f Hm Hf) as [[-> Eb]|[[-> Eb]|(? & [[-> Eb]|[-> Eb]])]]; rewrite Eb;
    rewrite (proj2 (Z.eqb_neq _ 39)), (proj2 (Z.eqb_neq _ 103)) by lia; lia.
Qed.

(** a data byte at a place of the panel *)
Lemma dato_en l f k b t : medidas l -> 0 <= f < amountOfLines l -> 0 <= k < lineWidth l ->
  t_ac t = base (lineWidth l) f + k -> t_paso t = 1 -> t_cg t = false ->
  de_acuerdo (con_xy (k + 1) f l) (dato_lcd b t) /\
  t_ram (dato_lcd b t) = fun a => if a =? base (lineWidth l) f + k then b else t_ram t a.
Proof.
  intros Hm Hf Hk Ha Hp Hg. unfold dato_lcd. rewrite Hg, Ha, Hp. split; [|done].
  split; [|split; [done|split; [done|]]].
  - split; [exact Hm|]. cbn. lia.
  - cbn. intros Hlt. apply (avanza_columna l); [done|done|lia|done].
Qed.

(** the next place, on the next line when this one is full *)
Definition lugar (l : lcd_t) : Z * Z :=
  if lcd_x l =? lineWidth l then (lcd_y l + 1, 0) else (lcd_y l, lcd_x l).

Definition imprimible (c : ascii) : Prop := ord c <> 10 /\ ord c <> 13.

Lemma escribe_char l c t : imprimible c -> de_acuerdo l t -> posicion l < amountOfLines l * lineWidth l ->
  let '(f, k) := lugar l in let l' := con_xy (k + 1) f l in
  exists bs, escribe (lcdSendChar l c) l' bs /\ de_acuerdo l' (tras bs t) /\
    t_ram (tras bs t) = fun a => if a =? base (lineWidth l) f + k then ord c else t_ram t a.
Proof.
  intros [H10 H13] ((Hm & Hx & Hy) & Hp & Hg & Hac) Hpos. pose proof Hm as (H1 & H2). unfold posicion in Hpos.
  pose proof (ord_bound c) as Hc. unfold lcdSendChar, lugar.
  rewrite (proj2 (Z.eqb_neq _ _) H13), (proj2 (Z.eqb_neq _ _) H10).
  destruct (Z.eqb_spec (lcd_x l) (lineWidth l)) as [Ex|Ex].
  - assert (Hy1 : lcd_y l + 1 < amountOfLines l) by nia. pose proof (base_pos l (lcd_y l + 1) Hm ltac:(lia)).
    rewrite (proj2 (Z.leb_le _ _)) by lia. unfold lcdSendEnter.
    rewrite (proj2 (Z.leb_gt _ _)) by lia. rewrite (u8_small (lcd_y l + 1)) by lia.
    eexists. split.
    { eapply escribe_bind; [apply (escribe_goto (con_xy 0 (lcd_y l + 1) l) 0 (lcd_y l + 1) Hm); cbn; lia|].
      eapply escribe_bind; [by apply escribe_data|]. apply escribe_ret. }
    cbn [app tras fold_left interpreta fst snd lineWidth con_xy]. rewrite <- Z.add_assoc, instruccion_ir by lia.
    apply (dato_en l _ _ _ (mkTexto (t_ram t) (base (lineWidth l) (lcd_y l + 1) + 0) (t_paso t) false));
      [done|lia|lia|done|done|done].
  - rewrite (proj2 (Z.leb_gt _ _)) by lia. eexists. split.
    { eapply escribe_bind; [apply escribe_ret|]. eapply escribe_bind; [by apply escribe_data|].
      cbn. rewrite u8_small by lia. apply escribe_ret. }
    cbn [app tras fold_left interpreta fst snd lineWidth con_xy].
    apply (dato_en l); [done|lia|lia|apply Hac; lia|done|done].
Qed.

(** the character a text [s] from position [p] on puts at position [n] *)
Definition caracter (s : list ascii) (p n old : Z) : Z :=
  if n <? p then old else default old (ord <$> s !! Z.to_nat (n - p)).

Definition celda_de (W : Z) (t : texto) (f c : Z) : Z := t_ram t (base W f + c).

Lemma lugar_posicion l f k : en_panel l -> posicion l < amountOfLines l * lineWidth l -> lugar l = (f, k) ->
  f * lineWidth l + k = posicion l /\ 0 <= f < amountOfLines l /\ 0 <= k < lineWidth l.
Proof.
  intros (Hm & Hx & Hy) Hpos. destruct Hm as (H1 & _). unfold lugar, posicion in *.
  destruct (Z.eqb_spec (lcd_x l) (lineWidth l)) as [Ex|Ex]; intros [= <- <-]; [split; [nia|split; nia]|lia].
Qed.

Lemma misma_posicion W f c f' c' : 0 <= c < W -> 0 <= c' < W -> f * W + c = f' * W + c' -> f = f' /\ c = c'.
Proof. intros. assert (f = f') by nia. subst. lia. Qed.

Lemma caracter_cons c s p n old : 0 <= n - p ->
  caracter (c :: s) p n old = if n =? p then ord c else caracter s (p + 1) n old.
Proof.
  intros H. unfold caracter. rewrite (proj2 (Z.ltb_ge _ _)) by lia.
  destruct (Z.eqb_spec n p) as [->|Hne].
  - by rewrite Z.sub_diag.
  - rewrite (proj2 (Z.ltb_ge _ _)) by lia. replace (Z.to_nat (n - p)) with (S (Z.to_nat (n - (p + 1)))) by lia.
    done.
Qed.

(** a text in reading order *)
Lemma escribe_string s l t : Forall imprimible s -> de_acuerdo l t ->
  posicion l + Z.of_nat (length s) <= amountOfLines l * lineWidth l ->
  exists l' bs, escribe (lcdSendString s l) l' bs /\ de_acuerdo l' (tras bs t) /\
    lineWidth l' = lineWidth l /\ amountOfLines l' = amountOfLines l /\
    posicion l' = posicion l + Z.of_nat (length s) /\ (if s is [] then l' = l else 0 < lcd_x l') /\
    forall f c, 0 <= f < amountOfLines l -> 0 <= c < lineWidth l ->
      celda_de (lineWidth l) (tras bs t) f c = caracter s (posicion l) (f * lineWidth l + c) (celda_de (lineWidth l) t f c).
Proof.
  intros Hs. revert l t. induction Hs as [|c s Hc Hs IH]; intros l t Ha Hpos.
  { exists l, []. split; [apply escribe_ret|]. split; [done|]. do 2 (split; [done|]). split; [cbn; lia|]. split; [done|].
    intros f c _ _. unfold caracter. by destruct (_ <? _). }
  cbn [length] in Hpos. pose proof Ha as (Hen & _).
  pose proof (escribe_char l c t Hc Ha ltac:(lia)) as Hch. destruct (lugar l) as [f k] eqn:El.
  destruct (lugar_posicion l f k Hen ltac:(lia) El) as (Hfk & Hf & Hk).
  cbv zeta in Hch. destruct Hch as (bs & He & Ha1 & Hr1).
  assert (Hp1 : posicion (con_xy (k + 1) f l) = posicion l + 1) by (unfold posicion in *; cbn; lia).
  destruct (IH _ (tras bs t) Ha1) as (l' & bs' & He' & Ha' & Hw' & Hh' & Hp' & Hx' & Hcel); [rewrite Hp1; cbn; lia|].
  exists l', (bs ++ bs'). split; [by eapply escribe_bind|]. unfold tras in *. rewrite fold_left_app.
  split; [done|]. split; [by rewrite Hw'|]. split; [by rewrite Hh'|].
  split; [rewrite Hp', Hp1; cbn [length]; lia|].
  split; [destruct s; [subst l'; cbn; lia|done]|]. intros f0 c0 Hf0 Hc0. rewrite Hcel, Hp1 by done.
  unfold celda_de. rewrite Hr1. cbn [lineWidth con_xy].
  destruct (Z.lt_ge_cases (f0 * lineWidth l + c0) (posicion l)) as [Hlt|Hge].
  - unfold caracter. rewrite !(proj2 (Z.ltb_lt _ _)) by lia.
    destruct (Z.eqb_spec (base (lineWidth l) f0 + c0) (base (lineWidth l) f + k)) as [Hb|Hb]; [|done].
    apply (base_inj l) in Hb as [-> ->]; [lia|apply Hen|done..].
  - rewrite caracter_cons by lia. destruct (Z.eqb_spec (f0 * lineWidth l + c0) (posicion l)) as [Hq|Hq].
    + assert (f0 = f /\ c0 = k) as [-> ->] by (apply (misma_posicion (lineWidth l)); lia).
      rewrite Z.eqb_refl. unfold caracter. by rewrite (proj2 (Z.ltb_lt _ _)) by lia.
    + destruct (Z.eqb_spec (base (lineWidth l) f0 + c0) (base (lineWidth l) f + k)) as [Hb|Hb]; [|done].
      apply (base_inj l) in Hb as [-> ->]; [lia|apply Hen|done..].
Qed.

(** a text from a position on; the controller's own cursor does not matter *)
Lemma escribe_formxy s x y l t : medidas l -> 0 <= x < lineWidth l -> 0 <= y < amountOfLines l ->
  t_paso t = 1 -> Forall imprimible s ->
  y * lineWidth l + x + Z.of_nat (length s) <= amountOfLines l * lineWidth l ->
  exists l' bs, escribe (lcdSendStringFormXY s x y l) l' bs /\ de_acuerdo l' (tras bs t) /\
    lineWidth l' = lineWidth l /\ amountOfLines l' = amountOfLines l /\
    posicion l' = y * lineWidth l + x + Z.of_nat (length s) /\
    (if s is [] then l' = con_xy x y l else 0 < lcd_x l') /\
    forall f c, 0 <= f < amountOfLines l -> 0 <= c < lineWidth l ->
      celda_de (lineWidth l) (tras bs t) f c = caracter s (y * lineWidth l + x) (f * lineWidth l + c) (celda_de (lineWidth l) t f c).
Proof.
  intros Hm Hx Hy Hp Hs Hpos. pose proof Hm as (H1 & H2). pose proof (base_pos l y Hm ltac:(lia)).
  destruct (escribe_string s (con_xy x y l) (mkTexto (t_ram t) (base (lineWidth l) y + x) (t_paso t) false) Hs)
    as (l' & bs & He & Ha & Hr); [|exact Hpos|].
  { split; [split; [exact Hm|cbn; lia]|]. by repeat split. }
  exists l', ((false, 128 + base (lineWidth l) y + x) :: bs). split.
  { unfold lcdSendStringFormXY. apply (escribe_bind _ _ (con_xy x y l) _ [_]); [by apply escribe_goto|done]. }
  unfold tras in *. cbn [fold_left interpreta fst snd]. rewrite <- Z.add_assoc, instruccion_ir by lia. done.
Qed.

Lemma fold_m_espacios (L : list Z) l c w :
  fold_m L l (fun l _ => lcdSendChar l c) w = lcdSendString (replicate (length L) c) l w.
Proof.
  revert l w. induction L as [|a L IH]; intros l w; [done|]. unfold lcdSendString. cbn.
  unfold mbind, M_bind. destruct (lcdSendChar l c w) as [l' w'| |]; [apply IH|done..].
Qed.
Lemma escribe_espacios (L : list Z) l c l' bs :
  escribe (lcdSendString (replicate (length L) c) l) l' bs ->
  escribe (fold_m L l (fun l _ => lcdSendChar l c)) l' bs.
Proof. intros H w. rewrite fold_m_espacios. apply H. Qed.

(** blanks from the cursor to the end of its line, and the cursor back *)
Lemma escribe_clear l t : de_acuerdo l t ->
  exists l' bs, escribe (lcdClearLineFrom (lcd_y l) (lcd_x l) l) l' bs /\ t_paso (tras bs t) = 1 /\
    lineWidth l' = lineWidth l /\ amountOfLines l' = amountOfLines l /\
    forall f c, 0 <= f < amountOfLines l -> 0 <= c < lineWidth l ->
      celda_de (lineWidth l) (tras bs t) f c =
      if (f =? lcd_y l) && (lcd_x l <=? c) then 32 else celda_de (lineWidth l) t f c.
Proof.
  intros (Hen & Hp & Hg & Hac). pose proof Hen as (Hm & Hx & Hy). pose proof Hm as (H1 & H2).
  unfold lcdClearLineFrom, lcdClearLineFromTo. rewrite (u8_small (lineWidth l - 1)) by lia.
  destruct (Z.leb_spec (lineWidth l) (lcd_x l)) as [Hle|Hgt].
  { cbn [orb]. exists l, []. split; [apply escribe_ret|]. split; [done|]. do 2 (split; [done|]).
    intros f c Hf Hc. rewrite (proj2 (Z.leb_gt _ c)) by lia. by rewrite andb_false_r. }
  cbn [orb]. rewrite (proj2 (Z.leb_gt _ (lcd_y l))), (proj2 (Z.ltb_ge _ (lcd_x l))), (proj2 (Z.leb_gt _ (lineWidth l - 1)))
    by lia.
  rewrite (proj2 (Z.eqb_neq _ 255)) by lia. pose proof (base_pos l (lcd_y l) Hm ltac:(lia)).
  set (L := seqZ (lcd_x l) (lineWidth l - 1 + 1 - lcd_x l)).
  assert (HL : Z.of_nat (length L) = lineWidth l - lcd_x l) by (unfold L; rewrite length_seqZ; lia).
  set (t0 := mkTexto (t_ram t) (base (lineWidth l) (lcd_y l) + lcd_x l) (t_paso t) false).
  destruct (escribe_string (replicate (length L) " "%char) (con_xy (lcd_x l) (lcd_y l) l) t0)
    as (l1 & bs & He & Ha & Hw & Hh & _ & _ & Hcel).
  { apply Forall_replicate. by split. }
  { split; [split; [exact Hm|cbn; lia]|]. by repeat split. }
  { unfold posicion. cbn. rewrite length_replicate. nia. }
  pose proof Ha as ((Hm1 & _ & _) & Hp1 & _). cbn in Hw, Hh.
  eexists (con_xy (lcd_x l) (lcd_y l) l1), ([_] ++ bs ++ [_]). split.
  { eapply escribe_bind; [apply escribe_goto; [done|lia|lia]|].
    eapply escribe_bind; [apply escribe_espacios, He|]. apply escribe_goto; [done|rewrite Hw; lia|rewrite Hh; lia]. }
  unfold tras in *. cbn [app fold_left interpreta fst snd].
  rewrite fold_left_app. cbn [fold_left interpreta fst snd].
  rewrite <- !Z.add_assoc, (instruccion_ir _ t), Hw by lia. fold t0.
  rewrite (instruccion_ir _ (fold_left _ bs t0)) by lia.
  split; [exact Hp1|]. do 2 (split; [done|]). intros f c Hf Hc. unfold celda_de. cbn [t_ram].
  specialize (Hcel f c Hf Hc). unfold celda_de in Hcel. cbn [lineWidth con_xy] in Hcel. rewrite Hcel.
  unfold posicion, caracter. cbn.
  destruct (Z.eqb_spec f (lcd_y l)) as [->|Hne]; cbn [andb].
  - destruct (Z.leb_spec (lcd_x l) c) as [Hxc|Hxc].
    + rewrite (proj2 (Z.ltb_ge _ _)) by lia. rewrite lookup_replicate_2 by lia. done.
    + by rewrite (proj2 (Z.ltb_lt _ _)) by lia.
  - destruct (Z.ltb_spec (f * lineWidth l + c) (lcd_y l * lineWidth l + lcd_x l)) as [|Hge]; [done|].
    rewrite lookup_ge_None_2; [done|]. rewrite length_replicate. nia.
Qed.

(** the two writes of the line together, character by character *)
Lemma renglon W s x y f c old : x + Z.of_nat (length s) <= W -> 0 <= c < W -> 0 <= x ->
  (if (f =? y) && (x + Z.of_nat (length s) <=? c) then 32 else caracter s (y * W + x) (f * W + c) old) =
  if (f =? y) && (x <=? c) then default 32 (ord <$> s !! Z.to_nat (c - x)) else old.
Proof.
  intros Hs Hc Hx. unfold caracter. destruct (Z.eqb_spec f y) as [->|Hne]; cbn [andb].
  - destruct (Z.leb_spec x c) as [Hxc|Hxc].
    + rewrite (proj2 (Z.ltb_ge _ _)) by lia. replace (y * W + c - (y * W + x)) with (c - x) by lia.
      destruct (Z.leb_spec (x + Z.of_nat (length s)) c).
      * by rewrite lookup_ge_None_2 by lia.
      * destruct (lookup_lt_is_Some_2 s (Z.to_nat (c - x))) as [a ->]; [lia|done].
    + by rewrite (proj2 (Z.leb_gt _ _)), (proj2 (Z.ltb_lt _ _)) by lia.
  - destruct (Z.ltb_spec (f * W + c) (y * W + x)) as [|Hge]; [done|].
    rewrite lookup_ge_None_2; [done|]. nia.
Qed.

(** a panel at work: between two bytes, with its cursor moving to the right *)
Definition en_servicio (w : world) : Prop := sincronizado (panel_de w) /\ t_paso (texto_de w) = 1.

(** C32: the text display, on a panel of one or two lines of up to forty columns or of four
    lines of twenty, whose glass shows the controller's memory as the HD44780 lays it out
    ([base]: on a panel of four lines of another width the driver's table of addresses is
    wrong), wherever the controller's own cursor was: a text written at a position stands in
    reading order from there on, continued on the following lines, and no other character
    of the panel changes; and with the variant that clears the line, after a text that
    fits in it the rest of the line is blank and everything else as it was. *)
Theorem lcd_escribe (l : lcd_t) (s : list ascii) (x y : Z) w
    (Hm : medidas l) (Hx : 0 <= x < lineWidth l) (Hy : 0 <= y < amountOfLines l)
    (Hs : Forall imprimible s) (Hw : en_servicio w) :
  (y * lineWidth l + x + Z.of_nat (length s) <= amountOfLines l * lineWidth l ->
   exists l' w', lcdSendStringFormXY s x y l w = Ret l' w' /\ en_servicio w' /\
     forall f c, 0 <= f < amountOfLines l -> 0 <= c < lineWidth l ->
       celda (lineWidth l) w' f c = caracter s (y * lineWidth l + x) (f * lineWidth l + c) (celda (lineWidth l) w f c)) /\
  (x + Z.of_nat (length s) <= lineWidth l ->
   exists l' w', lcdSendStringFormXYClearLine s x y l w = Ret l' w' /\ en_servicio w' /\
     forall f c, 0 <= f < amountOfLines l -> 0 <= c < lineWidth l ->
       celda (lineWidth l) w' f c = if (f =? y) && (x <=? c) then default 32 (ord <$> s !! Z.to_nat (c - x))
                      else celda (lineWidth l) w f c).
Proof.
  destruct Hw as [Hsin Hp]. split; intros Hpos.
  - destruct (escribe_formxy s x y l (texto_de w) Hm Hx Hy Hp Hs Hpos) as (l' & bs & He & Ha & _ & _ & _ & _ & Hcel).
    destruct (He w Hsin) as (w' & E1 & Hsin' & Hr). exists l', w'. split; [done|].
    apply texto_escribe in Hr. unfold en_servicio, celda. rewrite Hr. split; [|exact Hcel].
    split; [done|apply Ha].
  - assert (Hpos' : y * lineWidth l + x + Z.of_nat (length s) <= amountOfLines l * lineWidth l) by nia.
    destruct (escribe_formxy s x y l (texto_de w) Hm Hx Hy Hp Hs Hpos')
      as (l1 & bs & He & Ha & Hw1 & Hh1 & Hp1 & Hx1 & Hcel).
    destruct (escribe_clear l1 _ Ha) as (l' & cs & Hc & Hpc & _ & _ & Hclr).
    destruct (escribe_bind _ (fun l => lcdClearLineFrom (lcd_y l) (lcd_x l) l) _ _ _ _ He Hc w Hsin)
      as (w' & E1 & Hsin' & Hr).
    exists l', w'. split; [exact E1|]. apply texto_escribe in Hr. unfold en_servicio, celda. rewrite Hr.
    unfold tras in *. rewrite fold_left_app. split; [done|]. intros f c Hf Hc0.
    specialize (Hclr f c ltac:(lia) ltac:(lia)). specialize (Hcel f c Hf Hc0). unfold celda_de in *.
    rewrite Hw1 in Hclr. rewrite Hclr, Hcel. clear Hclr Hcel Hc He E1 Hr. destruct Ha as ((_ & Hxl & _) & _).
    unfold posicion in Hp1. rewrite Hw1 in Hp1, Hxl.
    assert (Hl1 : lcd_y l1 = y /\ lcd_x l1 = x + Z.of_nat (length s)).
    { destruct s as [|c0 s]; [subst l1; cbn; lia|].
      assert (lcd_y l1 = y) by (cbn in *; nia). split; [done|]. nia. }
    destruct Hl1 as [-> ->]. apply renglon; lia.
Qed.
End Panel.

(** ** A panel of two lines of sixteen *)
Definition lcd_16x2 : lcd_t := mkLcd 16 2 5 8 0 0.
Definition lcd_20x4 : lcd_t := mkLcd 20 4 5 8 0 0.

Lemma lcd_escribe_witness :
  exists l' w', @lcdSendStringFormXYClearLine env_libre $"HOLA" 3 1 lcd_16x2 (mundo_con []) = Ret l' w' /\
    celda 16 w' 1 3 = 72 /\ celda 16 w' 1 15 = 32 /\ celda 16 w' 0 3 = 32.
Proof.
  destruct (@lcd_escribe env_libre lcd_16x2 $"HOLA" 3 1 (mundo_con [])) as [_ H].
  - split; cbn; lia.
  - cbn; lia.
  - cbn; lia.
  - by repeat (constructor; [by split|]).
  - by repeat split.
  - destruct H as (l' & w' & E1 & _ & Hc); [discriminate|]. exists l', w'. split; [exact E1|].
    split; [|split]; rewrite Hc by (cbn; lia); reflexivity.
Defined.

(** from the last place of the panel the text goes on without a new position, over the first
    line *)
Definition pantalla_tras {A} (o : @outcome env_libre A) : option (list Z * list Z) :=
  match o with
  | Ret _ w => Some (map (celda 20 w 0) [0; 1], map (celda 20 w 3) [18; 19])
  | _ => None
  end.
Example lcd_texto_sin_sitio :
  pantalla_tras (lcdSendStringFormXY $"ABCD" 18 3 lcd_20x4 (mundo_con [])) = Some ([67; 68], [65; 66]).
Proof. vm_compute. reflexivity. Qed.

(** on a panel of four lines of sixteen the third line starts four columns to the right *)
Definition lcd_16x4 : lcd_t := mkLcd 16 4 5 8 0 0.
Example lcd_16x4_corrido :
  match lcdSendStringFormXY $"AB" 0 2 lcd_16x4 (mundo_con []) with
  | Ret _ w => map (celda 16 w 2) [0; 1; 4; 5] = [32; 32; 65; 66]
  | _ => False
  end.
Proof. vm_compute. reflexivity. Qed.
