(* ===== verification/Eeprom.v ===== *)
(** * sapi_eeprom24xx1025.c: a serial memory of 128 KB

    The driver of the 24xx1025 over the I2C of the board, without its test programs.
    [Chip24]: what the memory promises, a transfer that writes inside one page of 128 bytes
    and a transfer that reads on from an address, in one of two halves chosen by a bit of
    the slave address.  The theorem: what is read is what was written last, byte by byte and
    page by page; and the pages of the upper half are written to the lower one. *)

From Stdlib Require Import ZArith Lia Bool Ascii String.
From stdpp Require Import base list numbers strings.
From stdpp Require Import options.
From S2P Require Import Prelude Machine Effects Sapi SapiResto.

Record Eeprom24xx1025_t : Type := mkEeprom {
  ee_i2c : Z;                       (* int32_t, as all below but A0 and A1 *)
  ee_A0 : Z; ee_A1 : Z;             (* bool_t *)
  gpioA0 : Z; gpioA1 : Z; gpioPower : Z; gpioWP : Z;
  pageSize : Z; memorySize : Z
}.

Definition EEPROM_1024_K_BIT : Z := 1024 * 1024 / 8.
Definition EEPROM24xx1025_PAGE_SIZE : Z := 128.
Definition EEPROM24xx1025_CTRL_CODE : Z := 10.
Definition EEPROM_ADDRESS_HIGH (a : Z) : Z := u8 (Z.shiftr (Z.land a 4294967040) 8).
Definition EEPROM_ADDRESS_LOW (a : Z) : Z := u8 (Z.land a 255).

Section Eeprom.
Context {E : Env}.

(** the level of the pin when the chip select is wired to one *)
Definition chip_select (gpio fijo : Z) : M Z :=
  if 0 <=? gpio then v ← gpioRead gpio; mret (Z.land (Z.b2z v) 1) else mret fijo.

Definition eeprom24xx1025I2cAddress (e : Eeprom24xx1025_t) (address : Z) : M Z :=
  a0 ← chip_select (gpioA0 e) (ee_A0 e);
  a1 ← chip_select (gpioA1 e) (ee_A1 e);
  let b0 := if u32 (Z.quot (memorySize e) 2) <=? address then 1 else 0 in
  mret (u8 (Z.lor (Z.lor (Z.lor (Z.shiftl EEPROM24xx1025_CTRL_CODE 3) (Z.shiftl b0 2)) (Z.shiftl a1 1)) a0)).

Definition ee_pin (gpio : Z) (m : M bool) : M unit := when (0 <=? gpio) (_ ← m; mret tt).

Definition eeprom24xx1025PowerSet (e : Eeprom24xx1025_t) (power : bool) : M bool :=
  ee_pin (gpioPower e) (gpioWrite (gpioPower e) power) ;; mret true.

Definition eeprom24xx1025DataReady : M bool := mret true.

(** a division by a page of no bytes is undefined *)
Definition eeprom24xx1025AmountOfPagesGet (e : Eeprom24xx1025_t) : M Z :=
  if pageSize e =? 0 then undef else mret (u32 (Z.quot (memorySize e) (pageSize e))).

Definition eeprom24xx1025Init (i2c A0 A1 gA0 gA1 gPower gWP page memory : Z) : M (bool * Eeprom24xx1025_t) :=
  ee_pin gA0 (gpioInit gA0 GPIO_OUTPUT) ;;
  ee_pin gA1 (gpioInit gA1 GPIO_OUTPUT) ;;
  ee_pin gPower (gpioInit gPower GPIO_OUTPUT) ;;
  ee_pin gWP (gpioInit gWP GPIO_OUTPUT) ;;
  mret (true, mkEeprom i2c A0 A1 gA0 gA1 gPower gWP page memory).

Definition eeprom24xx1025WriteByte (e : Eeprom24xx1025_t) (memoryAddress byteToWrite : Z) : M bool :=
  if u32 (memorySize e) <? memoryAddress then mret false
  else
    a ← eeprom24xx1025I2cAddress e memoryAddress;
    retVal ← i2cWrite (ee_i2c e) a
      [EEPROM_ADDRESS_HIGH memoryAddress; EEPROM_ADDRESS_LOW memoryAddress; byteToWrite];
    delayInaccurateMs 5 ;;
    mret retVal.

(** the address of the page is an [uint16_t]; so is the counter of the copy, and the size
    that is sent *)
Definition eeprom24xx1025WritePage (e : Eeprom24xx1025_t) (page : Z) (byteBuffer : list Z)
    (byteBufferSize : Z) : M bool :=
  if negb (byteBufferSize =? u32 (pageSize e)) then mret false
  else
    n ← eeprom24xx1025AmountOfPagesGet e;
    if n <=? page then mret false
    else if 65535 <? byteBufferSize then diverge
    else if Z.of_nat (length byteBuffer) <? byteBufferSize then undef
    else
      let memoryAddress := u16 (u32 (page * pageSize e)) in
      let dataToWrite := EEPROM_ADDRESS_HIGH memoryAddress :: EEPROM_ADDRESS_LOW memoryAddress
                         :: take (Z.to_nat byteBufferSize) byteBuffer in
      a ← eeprom24xx1025I2cAddress e memoryAddress;
      retVal ← i2cWrite (ee_i2c e) a (take (Z.to_nat (u16 (byteBufferSize + 2))) dataToWrite);
      delayInaccurateMs 5 ;;
      mret retVal.

Definition eeprom24xx1025ReadCurrentAddress (e : Eeprom24xx1025_t) (memoryAddress : Z) : M (bool * list Z) :=
  a ← eeprom24xx1025I2cAddress e memoryAddress;
  i2cRead (ee_i2c e) a 1.

(** the bytes read, none when the address is refused *)
Definition eeprom24xx1025ReadRandom (e : Eeprom24xx1025_t) (memoryAddress : Z) : M (bool * list Z) :=
  if u32 (memorySize e) <? memoryAddress then mret (false, [])
  else
    a ← eeprom24xx1025I2cAddress e memoryAddress;
    i2cWriteRead (ee_i2c e) a [EEPROM_ADDRESS_HIGH memoryAddress; EEPROM_ADDRESS_LOW memoryAddress] 1.

(** the size goes through an [uint16_t] *)
Definition eeprom24xx1025ReadSequential (e : Eeprom24xx1025_t) (address byteBufferSize : Z) : M (bool * list Z) :=
  if u32 (Z.quot (memorySize e) 2) <? byteBufferSize then mret (false, [])
  else
    a ← eeprom24xx1025I2cAddress e address;
    i2cWriteRead (ee_i2c e) a [EEPROM_ADDRESS_HIGH address; EEPROM_ADDRESS_LOW address]
      (Z.to_nat (u16 byteBufferSize)).

Definition eeprom24xx1025WriteProtectionSet (state : bool) : M unit := mret tt.
Definition eeprom24xx1025WriteProtectionGet : M bool := mret false.
End Eeprom.

(** ** The memory chip *)

(** [n] bytes read from the bus *)
Fixpoint lecturas {E : Env} (n : nat) (d : dev) : list Z * dev :=
  match n with
  | O => ([], d)
  | S n => let '(v, d) := dev_in InI2c d in let '(l, d) := lecturas n d in (u8 v :: l, d)
  end.

Definition esclavo (b0 : bool) : Z := 80 + 4 * Z.b2z b0.
(** the bytes [datos] from address [dir] of a half on, around inside its page *)
Definition graba (b0 : bool) (dir : Z) (datos : list Z) (m : Z -> Z) (a : Z) : Z :=
  let pagina := 65536 * Z.b2z b0 + dir - dir mod 128 in
  if (pagina <=? a) && (a <? pagina + 128)
  then default (m a) (datos !! Z.to_nat ((a - pagina - dir mod 128) mod 128)) else m a.

(** with its two chip select inputs low *)
Class Chip24 {E : Env} : Type := {
  celdas : dev -> Z -> Z;
  chip_escribe d b0 dir datos :
    0 <= dir < 65536 -> (0 < length datos <= 128)%nat -> Forall (fun b => 0 <= b < 256) datos ->
    let r := dev_in InI2c (dev_out (EvI2c (esclavo b0) (dir / 256 :: dir mod 256 :: datos)) d) in
    fst r <> 0 /\ forall a, celdas (snd r) a = graba b0 dir datos (celdas d) a;
  chip_lee d b0 dir n :
    0 <= dir < 65536 ->
    let r := lecturas n (dev_out (EvI2c (esclavo b0) [dir / 256; dir mod 256]) d) in
    let s := dev_in InI2c (snd r) in
    fst r = map (fun k => celdas d (65536 * Z.b2z b0 + (dir + k) mod 65536)) (seqZ 0 (Z.of_nat n)) /\
    fst s <> 0 /\ forall a, celdas (snd s) a = celdas d a
}.

Section Memoria.
Context {E : Env} {C : Chip24}.

Definition contenido (w : world) (a : Z) : Z := celdas (device (hw w)) a.

(** the memory of the board: fixed chip selects, 128 KB in pages of 128 *)
Definition configurada (e : Eeprom24xx1025_t) : Prop :=
  ee_i2c e = I2C0 /\ ee_A0 e = 0 /\ ee_A1 e = 0 /\ gpioA0 e < 0 /\ gpioA1 e < 0 /\
  pageSize e = EEPROM24xx1025_PAGE_SIZE /\ memorySize e = EEPROM_1024_K_BIT.

Lemma direccion e a w : configurada e -> 0 <= a < 131072 ->
  eeprom24xx1025I2cAddress e a w = Ret (esclavo (65536 <=? a)) w.
Proof.
  intros (_ & H0 & H1 & G0 & G1 & _ & Hm) Ha. unfold eeprom24xx1025I2cAddress, chip_select.
  rewrite (proj2 (Z.leb_gt 0 _)), (proj2 (Z.leb_gt 0 _)), H0, H1, Hm by lia.
  change (u32 (Z.quot EEPROM_1024_K_BIT 2)) with 65536. unfold esclavo. by destruct (65536 <=? a).
Qed.

(** the two bytes of an address in its half *)
Lemma partes a : 0 <= a < 131072 ->
  EEPROM_ADDRESS_HIGH a = a mod 65536 / 256 /\ EEPROM_ADDRESS_LOW a = (a mod 65536) mod 256.
Proof.
  intros Ha. split.
  - unfold EEPROM_ADDRESS_HIGH, u8. change 65536 with (2 ^ 16). change 256 with (2 ^ 8).
    change 4294967040 with (Z.shiftl (Z.ones 24) 8).
    apply Z.bits_inj'. intros i Hi. destruct (Z.lt_ge_cases i 8).
    + rewrite Z.mod_pow2_bits_low, Z.shiftr_spec, Z.land_spec, Z.shiftl_spec, Z.ones_spec_low by lia.
      rewrite Z.div_pow2_bits, Z.mod_pow2_bits_low, andb_true_r by lia. done.
    + rewrite Z.mod_pow2_bits_high, Z.div_pow2_bits, Z.mod_pow2_bits_high by lia. done.
  - unfold EEPROM_ADDRESS_LOW. change 255 with (Z.ones 8). rewrite Z.land_ones by lia.
    rewrite u8_small by (apply Z.mod_pos_bound; lia). change (2 ^ 8) with 256. Z.div_mod_to_equations. lia.
Qed.

Lemma mitad a : 0 <= a < 131072 -> 65536 * Z.b2z (65536 <=? a) + a mod 65536 = a.
Proof. intros Ha. destruct (Z.leb_spec 65536 a); cbn [Z.b2z]; Z.div_mod_to_equations; lia. Qed.

(** *** A transfer that writes, and one that reads *)
Lemma transfiere_escribe b0 dir datos w :
  0 <= dir < 65536 -> (0 < length datos <= 128)%nat -> Forall (fun b => 0 <= b < 256) datos ->
  exists w', i2cWrite I2C0 (esclavo b0) (dir / 256 :: dir mod 256 :: datos) w = Ret true w' /\
    forall a, contenido w' a = graba b0 dir datos (contenido w) a.
Proof.
  intros Hd Hl Hb. pose proof (chip_escribe (device (hw w)) b0 dir datos Hd Hl Hb) as H. cbv zeta in H.
  unfold i2cWrite. rewrite Z.eqb_refl. cbn [negb]. unfold mbind, M_bind, emit, modify, inp. cbn.
  destruct (dev_in InI2c _) as [v d]. cbn in H. destruct H as [Hv Hc].
  rewrite (proj2 (Z.eqb_neq _ _) Hv). by eexists.
Qed.

Lemma lee_lecturas n w :
  lee_bytes (v ← inp InI2c; mret (u8 v)) n w =
  Ret (fst (lecturas n (device (hw w))))
      (set_hw (mkHw (snd (lecturas n (device (hw w)))) (tickCounter (hw w)) (systick (hw w)) (trace (hw w))) w).
Proof.
  revert w. induction n as [|n IH]; intros w; [by destruct w as [[] ? ? ? ? ? ?]|].
  cbn [lee_bytes lecturas]. unfold mbind, M_bind, inp. cbn.
  destruct (dev_in InI2c (device (hw w))) as [v d]. cbn. unfold mbind, M_bind in IH. rewrite IH. cbn.
  by destruct (lecturas n d).
Qed.

Lemma transfiere_lee b0 dir n w :
  0 <= dir < 65536 ->
  exists w', i2cWriteRead I2C0 (esclavo b0) [dir / 256; dir mod 256] n w =
      Ret (true, map (fun k => contenido w (65536 * Z.b2z b0 + (dir + k) mod 65536)) (seqZ 0 (Z.of_nat n))) w' /\
    forall a, contenido w' a = contenido w a.
Proof.
  intros Hd. pose proof (chip_lee (device (hw w)) b0 dir n Hd) as H. cbv zeta in H.
  unfold i2cWriteRead. rewrite Z.eqb_refl. cbn [negb]. unfold mbind at 1, M_bind at 1, emit, modify.
  unfold mbind at 1, M_bind at 1. rewrite lee_lecturas. cbn in *. unfold mbind, M_bind, inp. cbn.
  destruct (dev_in InI2c _) as [v d]. cbn in H. destruct H as (Hf & Hv & Hc).
  rewrite (proj2 (Z.eqb_neq _ _) Hv), Hf. by eexists.
Qed.

(** *** What the writes leave *)
Lemma graba_byte a b m a' : 0 <= a < 131072 ->
  graba (65536 <=? a) (a mod 65536) [b] m a' = if a' =? a then b else m a'.
Proof.
  intros Ha. unfold graba. rewrite (mitad a Ha).
  replace (a - (a mod 65536) mod 128) with (128 * (a / 128)) by (Z.div_mod_to_equations; lia).
  destruct (Z.eqb_spec a' a) as [->|Hne].
  - rewrite (proj2 (Z.leb_le _ _)), (proj2 (Z.ltb_lt _ _)) by (Z.div_mod_to_equations; lia). cbn [andb].
    by replace ((a - 128 * (a / 128) - (a mod 65536) mod 128) mod 128) with 0 by (Z.div_mod_to_equations; lia).
  - destruct (Z.leb_spec (128 * (a / 128)) a') as [H1|]; [|done].
    destruct (Z.ltb_spec a' (128 * (a / 128) + 128)) as [H2|]; [|done]. cbn [andb].
    rewrite lookup_ge_None_2; [done|]. cbn. Z.div_mod_to_equations. lia.
Qed.

Lemma graba_pagina q datos m a' : 0 <= q < 512 -> length datos = 128%nat ->
  graba false (q * 128) datos m a' =
  if (q * 128 <=? a') && (a' <? q * 128 + 128) then default (m a') (datos !! Z.to_nat (a' - q * 128)) else m a'.
Proof.
  intros Hq Hl. unfold graba. cbn [Z.b2z]. rewrite Z_mod_mult. replace (65536 * 0 + q * 128 - 0) with (q * 128) by lia.
  destruct (Z.leb_spec (q * 128) a') as [H1|]; [|done].
  destruct (Z.ltb_spec a' (q * 128 + 128)) as [H2|]; [|done]. cbn [andb].
  by rewrite Z.sub_0_r, Z.mod_small by lia.
Qed.

Lemma escribe_byte e a b w : configurada e -> 0 <= a < 131072 -> 0 <= b < 256 ->
  exists w', eeprom24xx1025WriteByte e a b w = Ret true w' /\
    forall a', contenido w' a' = if a' =? a then b else contenido w a'.
Proof.
  intros He Ha Hb. destruct (transfiere_escribe (65536 <=? a) (a mod 65536) [b] w) as (w' & E1 & Hc);
    [apply Z.mod_pos_bound; lia|cbn; lia|by constructor|].
  exists w'. split; [|intros a'; rewrite Hc; by apply graba_byte].
  unfold eeprom24xx1025WriteByte. pose proof He as (Hi & _ & _ & _ & _ & _ & Hm). rewrite Hm.
  change (u32 EEPROM_1024_K_BIT) with 131072. rewrite (proj2 (Z.ltb_ge _ _)) by lia.
  destruct (partes a Ha) as [-> ->]. unfold mbind, M_bind. rewrite (direccion e a w He Ha), Hi, E1.
  unfold delayInaccurateMs. by rewrite countdown_Ret.
Qed.

Lemma escribe_pagina e p datos w : configurada e -> 0 <= p < 1024 -> length datos = 128%nat ->
  Forall (fun b => 0 <= b < 256) datos ->
  exists w', eeprom24xx1025WritePage e p datos 128 w = Ret true w' /\
    let q := p mod 512 in
    forall a', contenido w' a' =
      if (q * 128 <=? a') && (a' <? q * 128 + 128) then default (contenido w a') (datos !! Z.to_nat (a' - q * 128))
      else contenido w a'.
Proof.
  intros He Hp Hl Hb. pose proof (Z.mod_pos_bound p 512 ltac:(lia)) as Hq.
  destruct (transfiere_escribe false (p mod 512 * 128) datos w) as (w' & E1 & Hc); [lia|lia|done|].
  exists w'. split; [|cbv zeta; intros a'; rewrite Hc; by apply graba_pagina].
  unfold eeprom24xx1025WritePage, eeprom24xx1025AmountOfPagesGet.
  pose proof He as (Hi & _ & _ & _ & _ & Hs & Hm). rewrite Hs, Hm, Hl.
  change (u32 EEPROM24xx1025_PAGE_SIZE) with 128.
  change (EEPROM24xx1025_PAGE_SIZE =? 0) with false. cbn [negb Z.eqb Pos.eqb].
  unfold mbind at 1, M_bind at 1. cbn [mret M_ret].
  change (u32 (Z.quot EEPROM_1024_K_BIT EEPROM24xx1025_PAGE_SIZE)) with 1024.
  rewrite (proj2 (Z.leb_gt 1024 p)) by lia. change (65535 <? 128) with false. cbv iota.
  change (Z.of_nat 128 <? 128) with false. cbv iota.
  assert (Hu : u16 (u32 (p * EEPROM24xx1025_PAGE_SIZE)) = p mod 512 * 128).
  { unfold EEPROM24xx1025_PAGE_SIZE. rewrite u32_small by lia. unfold u16. Z.div_mod_to_equations. lia. }
  rewrite Hu. destruct (partes (p mod 512 * 128) ltac:(lia)) as [-> ->].
  rewrite (Z.mod_small _ 65536), (take_ge datos) by lia. change (u16 (128 + 2)) with 130.
  rewrite take_ge by (cbn; lia).
  pose proof (direccion e (p mod 512 * 128) w He ltac:(lia)) as Hdir.
  rewrite (proj2 (Z.leb_gt 65536 (p mod 512 * 128))) in Hdir by lia.
  unfold mbind, M_bind. rewrite Hdir, Hi, E1. unfold delayInaccurateMs. by rewrite countdown_Ret.
Qed.

(** *** Reading *)
Lemma lee_seguidos a n : 0 <= a -> 0 <= n -> a / 65536 = (a + n) / 65536 -> a < 131072 ->
  forall m : Z -> Z, map (fun k => m (65536 * Z.b2z (65536 <=? a) + (a mod 65536 + k) mod 65536)) (seqZ 0 n) =
            map m (seqZ a n).
Proof.
  intros Ha Hn Hh Hl m. replace (seqZ a n) with (map (Z.add a) (seqZ 0 n)).
  2: { change (map (Z.add a) (seqZ 0 n)) with (Z.add a <$> seqZ 0 n). rewrite fmap_add_seqZ. f_equal. lia. }
  rewrite map_map. apply map_ext_in. intros k Hk%list_elem_of_In%elem_of_seqZ. f_equal.
  pose proof (mitad a ltac:(lia)). Z.div_mod_to_equations. lia.
Qed.

Lemma lee_secuencial e a n w : configurada e -> 0 <= a -> 0 <= n < 65536 -> a / 65536 = (a + n) / 65536 ->
  a + n < 131072 ->
  exists w', eeprom24xx1025ReadSequential e a n w = Ret (true, map (contenido w) (seqZ a n)) w' /\
    forall a', contenido w' a' = contenido w a'.
Proof.
  intros He Ha Hn Hh Hl.
  destruct (transfiere_lee (65536 <=? a) (a mod 65536) (Z.to_nat n) w) as (w' & E1 & Hc);
    [apply Z.mod_pos_bound; lia|].
  exists w'. split; [|done]. rewrite Z2Nat.id, lee_seguidos in E1 by lia.
  unfold eeprom24xx1025ReadSequential. pose proof He as (Hi & _ & _ & _ & _ & _ & Hm). rewrite Hm.
  change (u32 (Z.quot EEPROM_1024_K_BIT 2)) with 65536. rewrite (proj2 (Z.ltb_ge _ _)) by lia.
  destruct (partes a ltac:(lia)) as [-> ->]. unfold mbind, M_bind.
  by rewrite (direccion e a w He ltac:(lia)), Hi, u16_small, E1 by lia.
Qed.

Lemma lee_byte e a w : configurada e -> 0 <= a < 131072 ->
  exists w', eeprom24xx1025ReadRandom e a w = Ret (true, [contenido w a]) w'.
Proof.
  intros He Ha. destruct (transfiere_lee (65536 <=? a) (a mod 65536) 1 w) as (w' & E1 & _);
    [apply Z.mod_pos_bound; lia|].
  exists w'. change (seqZ 0 (Z.of_nat 1)) with [0] in E1. cbn [map] in E1. rewrite Z.add_0_r, Z.mod_mod, (mitad a Ha) in E1 by lia.
  unfold eeprom24xx1025ReadRandom. pose proof He as (Hi & _ & _ & _ & _ & _ & Hm). rewrite Hm.
  change (u32 EEPROM_1024_K_BIT) with 131072. rewrite (proj2 (Z.ltb_ge _ _)) by lia.
  destruct (partes a Ha) as [-> ->]. unfold mbind, M_bind.
  by rewrite (direccion e a w He Ha), Hi, E1.
Qed.

(** C33: the serial memory of 128 KB in pages of 128 bytes.  A byte written is read back at its
    address and no other changes; a sequential read gives the bytes in order, from any
    address as far as the end of its half; and a page is written whole, but modulo 512:
    the pages of the upper half go to the lower half, with the answer that all went well. *)
Theorem eeprom_ida_y_vuelta (e : Eeprom24xx1025_t) w (He : configurada e) :
  (forall a b, 0 <= a < 131072 -> 0 <= b < 256 ->
     exists w', eeprom24xx1025WriteByte e a b w = Ret true w' /\
       forall a', 0 <= a' < 131072 -> exists w'', eeprom24xx1025ReadRandom e a' w' =
         Ret (true, [if a' =? a then b else contenido w a']) w'') /\
  (forall a n, 0 <= a -> 0 <= n < 65536 -> a / 65536 = (a + n) / 65536 -> a + n < 131072 ->
     exists w', eeprom24xx1025ReadSequential e a n w = Ret (true, map (contenido w) (seqZ a n)) w' /\
       forall a', contenido w' a' = contenido w a') /\
  (forall p datos, 0 <= p < 1024 -> length datos = 128%nat -> Forall (fun b => 0 <= b < 256) datos ->
     exists w', eeprom24xx1025WritePage e p datos 128 w = Ret true w' /\
       forall a', 0 <= a' < 131072 -> exists w'', eeprom24xx1025ReadRandom e a' w' =
         Ret (true, [let q := p mod 512 in
                     if (q * 128 <=? a') && (a' <? q * 128 + 128)
                     then default (contenido w a') (datos !! Z.to_nat (a' - q * 128)) else contenido w a']) w'').
Proof.
  split; [|split].
  - intros a b Ha Hb. destruct (escribe_byte e a b w He Ha Hb) as (w' & E1 & Hc). exists w'. split; [done|].
    intros a' Ha'. rewrite <- Hc. by apply lee_byte.
  - intros a n Ha Hn Hh Hl. by apply lee_secuencial.
  - intros p datos Hp Hl Hb. destruct (escribe_pagina e p datos w He Hp Hl Hb) as (w' & E1 & Hc).
    exists w'. split; [done|]. intros a' Ha'. cbv zeta in *. rewrite <- Hc. by apply lee_byte.
Qed.
End Memoria.

(** ** A chip that answers *)
Definition siguiente_dir (a : Z) : Z := 65536 * (a / 65536) + (a + 1) mod 65536.

Definition chip_out (e : event) (d : (Z -> Z) * Z) : (Z -> Z) * Z :=
  match e with
  | EvI2c s (hi :: lo :: datos) =>
      let b0 := s =? 84 in
      if (s =? 80) || b0 then
        let dir := 256 * hi + lo in
        (match datos with [] => fst d | _ => graba b0 dir datos (fst d) end, 65536 * Z.b2z b0 + dir)
      else d
  | _ => d
  end.
(** a byte, marked so that it is never taken for a failed transfer *)
Definition chip_in (i : input) (d : (Z -> Z) * Z) : Z * ((Z -> Z) * Z) :=
  match i with
  | InI2c => (256 + u8 (fst d (snd d)), (fst d, siguiente_dir (snd d)))
  | _ => (1, d)
  end.
Definition env_chip : Env := {| dev := (Z -> Z) * Z; dev_in := chip_in; dev_out := chip_out; env_fuel := 1 |}.

Lemma lecturas_chip n m b0 dir : 0 <= dir < 65536 ->
  fst (@lecturas env_chip n (m, 65536 * Z.b2z b0 + dir)) =
    map (fun k => u8 (m (65536 * Z.b2z b0 + (dir + k) mod 65536))) (seqZ 0 (Z.of_nat n)) /\
  fst (snd (@lecturas env_chip n (m, 65536 * Z.b2z b0 + dir))) = m.
Proof.
  revert dir. induction n as [|n IH]; intros dir Hd; [done|].
  cbn [lecturas dev_in env_chip chip_in fst snd].
  assert (Hs : siguiente_dir (65536 * Z.b2z b0 + dir) = 65536 * Z.b2z b0 + (dir + 1) mod 65536).
  { unfold siguiente_dir. destruct b0; cbn [Z.b2z]; Z.div_mod_to_equations; lia. }
  rewrite Hs. destruct (IH ((dir + 1) mod 65536)) as [H1 H2]; [apply Z.mod_pos_bound; lia|].
  destruct (@lecturas env_chip n _) as [l d']. cbn in *. split; [|done].
  rewrite H1. replace (Z.of_nat (S n)) with (1 + Z.of_nat n) by lia.
  rewrite seqZ_app, map_app by lia. change (seqZ 0 1) with [0]. cbn [map app]. f_equal.
  - rewrite Z.add_0_r, (Z.mod_small dir) by lia. unfold u8. change (2 ^ 8) with 256.
    generalize (m (65536 * Z.b2z b0 + dir)). intros x. Z.div_mod_to_equations. lia.
  - replace (seqZ (0 + 1) (Z.of_nat n)) with (map (Z.add 1) (seqZ 0 (Z.of_nat n))).
    2: { change (map (Z.add 1) (seqZ 0 (Z.of_nat n))) with (Z.add 1 <$> seqZ 0 (Z.of_nat n)).
         by rewrite fmap_add_seqZ. }
    rewrite map_map. apply map_ext_in. intros k _. do 3 f_equal. rewrite Zplus_mod_idemp_l. f_equal. lia.
Qed.

(** the bytes come back as bytes *)
Lemma graba_u8 b0 dir datos m a : Forall (fun b => 0 <= b < 256) datos ->
  u8 (graba b0 dir datos m a) = graba b0 dir datos (fun a => u8 (m a)) a.
Proof.
  intros Hb. unfold graba. destruct (_ && _); [|done]. destruct (datos !! _) as [b|] eqn:Eb; [|done]. cbn.
  apply u8_small. by apply (Forall_lookup_1 _ _ _ _ Hb Eb).
Qed.

Lemma marcado x : 256 + u8 x <> 0.
Proof. pose proof (u8_bound x). lia. Qed.

#[refine] Instance chip_ejemplo : @Chip24 env_chip := {| celdas := fun (d : @dev env_chip) a => u8 (fst d a) |}.
Proof.
  - intros [m p] b0 dir datos Hd Hl Hb. destruct datos as [|b datos]; [cbn in Hl; lia|].
    assert (Hdir : 256 * (dir / 256) + dir mod 256 = dir) by (Z.div_mod_to_equations; lia).
    cbv zeta. destruct b0; cbn -[graba u8 Z.mul Z.add siguiente_dir]; rewrite Hdir;
      (split; [apply marcado|intros a; by apply graba_u8]).
  - intros [m p] b0 dir n Hd. assert (Hdir : 256 * (dir / 256) + dir mod 256 = dir) by (Z.div_mod_to_equations; lia).
    assert (Hout : @dev_out env_chip (EvI2c (esclavo b0) [dir / 256; dir mod 256]) (m, p) = (m, 65536 * Z.b2z b0 + dir)).
    { destruct b0; cbn -[Z.mul Z.add]; by rewrite Hdir. }
    cbv zeta. rewrite Hout. destruct (lecturas_chip n m b0 dir Hd) as [H1 H2]. rewrite H1. split; [done|].
    destruct (@lecturas env_chip n _) as [l [m' p']]. cbn -[u8] in *. subst m'. split; [apply marcado|done].
Defined.

Definition eeprom_ciaa : Eeprom24xx1025_t :=
  mkEeprom I2C0 0 0 (-1) (-1) (-1) (-1) EEPROM24xx1025_PAGE_SIZE EEPROM_1024_K_BIT.

Definition mundo_chip : @world env_chip :=
  @mkWorld env_chip (@mkHw env_chip (fun _ => 255, 0) 0 true [])
    (mkDisplay (replicate 1024 0) 0 0) (mkTeclado [] 0 false 65535) [] false
    (mkScan ST_IDLE 0 0 [] 0 0 0) (mkMef REPOSO [] 0 0 (SpecFloat.S754_zero false) [] 0 false false).

(** a page of the upper half, and the byte that was at its place in the lower one *)
Lemma eeprom_ida_y_vuelta_witness :
  exists w', @eeprom24xx1025WritePage env_chip eeprom_ciaa 515 (replicate 128 7) 128 mundo_chip = Ret true w' /\
    (exists w'', eeprom24xx1025ReadRandom eeprom_ciaa (515 * 128) w' = Ret (true, [255]) w'') /\
    (exists w'', eeprom24xx1025ReadRandom eeprom_ciaa (3 * 128) w' = Ret (true, [7]) w'').
Proof.
  destruct (@eeprom_ida_y_vuelta env_chip chip_ejemplo eeprom_ciaa mundo_chip) as (_ & _ & H); [by repeat split|].
  destruct (H 515 (replicate 128 7)) as (w' & E1 & Hc); [lia|done|by apply Forall_replicate|].
  exists w'. split; [exact E1|]. split; [exact (Hc (515 * 128) ltac:(lia))|exact (Hc (3 * 128) ltac:(lia))].
Defined.
