(* ===== verification/Servo.v ===== *)
(** * sapi_timer.c and sapi_servo.c: pulses from the match interrupts of the timers

    The timers of the chip, tick by tick, with the registers that timer_18xx_43xx.h writes;
    the functions hung on their matches; the list of attached servos.  Nine servos share
    three timers, each with the start of the cycle in match 0 and the end of a pulse in
    matches 1 to 3.  The theorem: the pulse of a servo has the width of its angle, whatever
    is done meanwhile with the others, and a new angle waits for the next cycle. *)

From Stdlib Require Import ZArith Lia Bool.
From stdpp Require Import base list gmap numbers.
From stdpp Require Import options.
From S2P Require Import Prelude Machine Effects Sapi.

(** ** The timer of the chip *)

(** a match register; its interrupt and its reset are enabled; its flag is set *)
Record canal : Type := mkCanal { mr : Z; cint : bool; crst : bool; ir : bool }.
#[export] Instance canal_inh : Inhabited canal := populate (mkCanal 0 false false false).
(** the counter; the four matches; it counts; its interrupt reaches the core *)
Record tmr : Type := mkTmr { tc : Z; canales : list canal; tcr : bool; nvic : bool }.
Definition tmr_reset : tmr := mkTmr 0 (replicate 4 (mkCanal 0 false false false)) false false.
#[export] Instance tmr_inh : Inhabited tmr := populate tmr_reset.

Definition en_canal (n : nat) (f : canal -> canal) (t : tmr) : tmr :=
  mkTmr (tc t) (<[n := f (canales t !!! n)]> (canales t)) (tcr t) (nvic t).

(** timer_18xx_43xx.h *)
Definition Chip_TIMER_MatchPending (t : tmr) (matchnum : nat) : bool := ir (canales t !!! matchnum).
Definition Chip_TIMER_ClearMatch (matchnum : nat) : tmr -> tmr :=
  en_canal matchnum (fun c => mkCanal (mr c) (cint c) (crst c) false).
Definition Chip_TIMER_Enable (t : tmr) : tmr := mkTmr (tc t) (canales t) true (nvic t).
Definition Chip_TIMER_Disable (t : tmr) : tmr := mkTmr (tc t) (canales t) false (nvic t).
Definition Chip_TIMER_SetMatch (matchnum : nat) (matchval : Z) : tmr -> tmr :=
  en_canal matchnum (fun c => mkCanal matchval (cint c) (crst c) (ir c)).
Definition Chip_TIMER_MatchEnableInt (matchnum : nat) : tmr -> tmr :=
  en_canal matchnum (fun c => mkCanal (mr c) true (crst c) (ir c)).
Definition Chip_TIMER_MatchDisableInt (matchnum : nat) : tmr -> tmr :=
  en_canal matchnum (fun c => mkCanal (mr c) false (crst c) (ir c)).
Definition Chip_TIMER_ResetOnMatchEnable (matchnum : nat) : tmr -> tmr :=
  en_canal matchnum (fun c => mkCanal (mr c) (cint c) true (ir c)).
Definition Chip_TIMER_Reset (t : tmr) : tmr := mkTmr 0 (canales t) (tcr t) (nvic t).
Definition con_nvic (b : bool) (t : tmr) : tmr := mkTmr (tc t) (canales t) (tcr t) b.

(** A tick: a counter that stood at a match with reset goes back to zero, any other counts;
    the matches that it reaches set their flags. *)
Definition tictac (t : tmr) : tmr :=
  if tcr t then
    let tc' := if existsb (fun c => crst c && (mr c =? tc t)) (canales t) then 0 else u32 (tc t + 1) in
    mkTmr tc' ((fun c => mkCanal (mr c) (cint c) (crst c) (ir c || cint c && (mr c =? tc'))) <$> canales t)
      (tcr t) (nvic t)
  else t.

(** ** The variables *)

(** the functions that a match calls: those of sapi_timer.c; timer[q]CompareMatch0func; the
    end of the pulse of a place of the list, timer1CompareMatch1func to timer3CompareMatch3func *)
Inductive callBack : Type :=
  | doNothing
  | errorOcurred
  | timerCompareMatch0func (timer : nat)
  | timerCompareMatchfunc (lugar : nat).
#[export] Instance callBack_inh : Inhabited callBack := populate doNothing.

Record attachedServo_t : Type := mkAttached { servo : Z; value : Z }.
#[export] Instance attached_inh : Inhabited attachedServo_t := populate (mkAttached 0 0).

Definition EMPTY_POSITION : Z := 255.
Definition SERVO_TOTALNUMBER : nat := 9.
Definition SERVO_COMPLETECYCLE_PERIOD : Z := 20000.
Definition SERVO_MAXUPTIME_PERIOD : Z := 2000.
Definition SERVO_MINUPTIME_PERIOD : Z := 500.
Definition LPC4337_MAX_FREC : Z := 204000000.

(** T_FIL1, T_COL0, T_FIL2, T_FIL3, GPIO8, LCD1, LCD2, LCD3, GPIO2 *)
Definition servoMap : list Z := [T_FIL1; T_COL0; T_FIL2; T_FIL3; 11; 16; 17; 18; 31].

(** the columns of AttachedServoList that no function writes *)
Definition associatedTimer (lugar : nat) : nat := S (lugar / 3).
Definition associatedCompareMatch (lugar : nat) : nat := S (lugar mod 3).

(** the four timers, timer_dd, AttachedServoList and the levels of the pins, by port and pin *)
Record estado : Type := mkEstado {
  tim : list tmr;
  dd : list (list callBack);
  lista : list attachedServo_t;
  pines : gmap (Z * Z) bool
}.
Definition inicial : estado :=
  mkEstado (replicate 4 tmr_reset) (replicate 4 [doNothing; errorOcurred; errorOcurred; errorOcurred])
    (replicate SERVO_TOTALNUMBER (mkAttached EMPTY_POSITION 0)) ∅.

Definition en_timer (q : nat) (f : tmr -> tmr) (s : estado) : estado :=
  mkEstado (<[q := f (tim s !!! q)]> (tim s)) (dd s) (lista s) (pines s).
Definition con_funcion (q n : nat) (f : callBack) (s : estado) : estado :=
  mkEstado (tim s) (<[q := <[n := f]> (dd s !!! q)]> (dd s)) (lista s) (pines s).
Definition con_servo (p : nat) (a : attachedServo_t) (s : estado) : estado :=
  mkEstado (tim s) (dd s) (<[p := a]> (lista s)) (pines s).

(** sapi_gpio.c on these pins: the port and the pin behind a name of the board *)
Definition pata_de (pin : Z) : option (Z * Z) :=
  if pin <? 0 then None else (fun r => (gpioPort r, gpioPin r)) <$> gpioPinsInit !! Z.to_nat pin.
Definition gpioWrite_pin (pin : Z) (v : bool) (s : estado) : res estado :=
  p ← acceso (pata_de pin);
  Bien (mkEstado (tim s) (dd s) (lista s) (<[p := v]> (pines s))).
(** an output starts low *)
Definition gpioConfig_salida (pin : Z) (s : estado) : res estado := gpioWrite_pin pin false s.
(** [servoMap[n]] *)
Definition servo_pin (n : Z) : res Z := acceso (if n <? 0 then None else servoMap !! Z.to_nat n).

(** ** sapi_timer.c *)
Definition Timer_microsecondsToTicks (uS : Z) : Z := u32 (uS * (LPC4337_MAX_FREC / 1000000)).

Definition Timer_Init (q : nat) (ticks : Z) (f : callBack) (s : estado) : res estado :=
  if ticks =? 0 then Nunca
  else
    let s := en_timer q (fun t => Chip_TIMER_Reset (con_nvic (nvic t) tmr_reset)) s in
    let s := con_funcion q 0 f s in
    Bien (en_timer q (fun t =>
      con_nvic true (Chip_TIMER_Enable (Chip_TIMER_ResetOnMatchEnable 0
        (Chip_TIMER_SetMatch 0 ticks (Chip_TIMER_MatchEnableInt 0 t))))) s).
Definition Timer_DeInit (q : nat) : estado -> estado :=
  en_timer q (fun t => Chip_TIMER_Disable (con_nvic false t)).
Definition Timer_EnableCompareMatch (q n : nat) (ticks : Z) (f : callBack) (s : estado) : estado :=
  en_timer q (fun t => Chip_TIMER_SetMatch n ticks (Chip_TIMER_MatchEnableInt n t)) (con_funcion q n f s).
Definition Timer_DisableCompareMatch (q n : nat) (s : estado) : estado :=
  en_timer q (fun t => Chip_TIMER_MatchDisableInt n (Chip_TIMER_ClearMatch n t)) (con_funcion q n doNothing s).
Definition Timer_SetCompareMatch (q n : nat) (ticks : Z) : estado -> estado :=
  en_timer q (Chip_TIMER_SetMatch n ticks).

(** ** sapi_servo.c *)
Definition valueToMicroseconds (value : Z) : Z :=
  SERVO_MINUPTIME_PERIOD + Z.quot (value * SERVO_MAXUPTIME_PERIOD) 180.
Definition ancho (value : Z) : Z := Timer_microsecondsToTicks (valueToMicroseconds value).

(** one place in the loop of timer[q]CompareMatch0func *)
Definition empieza_pulso (p : nat) (s : estado) : res estado :=
  let a := lista s !!! p in
  if servo a =? EMPTY_POSITION then Bien s
  else
    pin ← servo_pin (servo a);
    s ← gpioWrite_pin pin true s;
    Bien (Timer_SetCompareMatch (associatedTimer p) (associatedCompareMatch p) (ancho (value a)) s).
Definition funcion_match (f : callBack) (s : estado) : res estado :=
  match f with
  | doNothing => Bien s
  | errorOcurred => Nunca
  | timerCompareMatch0func q =>
      s ← empieza_pulso (3 * (q - 1)) s;
      s ← empieza_pulso (3 * (q - 1) + 1) s;
      empieza_pulso (3 * (q - 1) + 2) s
  | timerCompareMatchfunc p =>
      pin ← servo_pin (servo (lista s !!! p));
      gpioWrite_pin pin false s
  end.

(** TIMER0_IRQHandler to TIMER3_IRQHandler *)
Definition atiende_canal (q n : nat) (s : estado) : res estado :=
  if Chip_TIMER_MatchPending (tim s !!! q) n then
    s ← funcion_match ((dd s !!! q) !!! n) s;
    Bien (en_timer q (Chip_TIMER_ClearMatch n) s)
  else Bien s.
Definition TIMER_IRQHandler (q : nat) (s : estado) : res estado :=
  s ← atiende_canal q 0 s;
  s ← atiende_canal q 1 s;
  s ← atiende_canal q 2 s;
  atiende_canal q 3 s.

Definition servoIsAttached (servoNumber : Z) (s : estado) : nat :=
  match list_find (fun a => servo a = servoNumber) (lista s) with Some (p, _) => S p | None => O end.

Definition servoInitTimers (s : estado) : res estado :=
  s ← Timer_Init 1 (Timer_microsecondsToTicks SERVO_COMPLETECYCLE_PERIOD) (timerCompareMatch0func 1) s;
  s ← Timer_Init 2 (Timer_microsecondsToTicks SERVO_COMPLETECYCLE_PERIOD) (timerCompareMatch0func 2) s;
  Timer_Init 3 (Timer_microsecondsToTicks SERVO_COMPLETECYCLE_PERIOD) (timerCompareMatch0func 3) s.

Definition servoAttach_resto (servoNumber : Z) (s : estado) : res (bool * estado) :=
  match servoIsAttached servoNumber s with
  | O =>
      match servoIsAttached EMPTY_POSITION s with
      | S p =>
          let s := con_servo p (mkAttached servoNumber (value (lista s !!! p))) s in
          Bien (true, Timer_EnableCompareMatch (associatedTimer p) (associatedCompareMatch p)
                        (ancho (value (lista s !!! p))) (timerCompareMatchfunc p) s)
      | O => Bien (false, s)
      end
  | S _ => Bien (false, s)
  end.
Definition servoAttach (servoNumber : Z) (s : estado) : res (bool * estado) :=
  pin ← servo_pin servoNumber;
  s ← gpioConfig_salida pin s;
  servoAttach_resto servoNumber s.
Definition servoDetach (servoNumber : Z) (s : estado) : bool * estado :=
  match servoIsAttached servoNumber s with
  | S p =>
      (true, Timer_DisableCompareMatch (associatedTimer p) (associatedCompareMatch p)
               (con_servo p (mkAttached EMPTY_POSITION 0) s))
  | O => (false, s)
  end.
Definition servoRead (servoNumber : Z) (s : estado) : Z :=
  match servoIsAttached servoNumber s with S p => value (lista s !!! p) | O => EMPTY_POSITION end.
Definition servoWrite (servoNumber angle : Z) (s : estado) : bool * estado :=
  match servoIsAttached servoNumber s with
  | S p =>
      if (0 <=? angle) && (angle <=? 180)
      then (true, con_servo p (mkAttached (servo (lista s !!! p)) (u8 angle)) s) else (false, s)
  | O => (false, s)
  end.

Inductive servoInit_t : Type :=
  | SERVO_ENABLE | SERVO_DISABLE | SERVO_ENABLE_OUTPUT | SERVO_DISABLE_OUTPUT.
Definition servoInit (servoNumber : Z) (config : servoInit_t) (s : estado) : res (bool * estado) :=
  match config with
  | SERVO_ENABLE => s ← servoInitTimers s; Bien (true, s)
  | SERVO_DISABLE => Bien (false, s)
  | SERVO_ENABLE_OUTPUT => servoAttach servoNumber s
  | SERVO_DISABLE_OUTPUT => Bien (servoDetach servoNumber s)
  end.

(** ** Time *)

(** the interrupt of timer [q] is served when it is due *)
Definition interrumpe (q : nat) (s : estado) : res estado :=
  let t := tim s !!! q in
  if nvic t && existsb ir (canales t) then TIMER_IRQHandler q s else Bien s.
(** a tick of the clock of the timers, with the interrupts it brings *)
Definition instante (s : estado) : res estado :=
  let s := mkEstado (tictac <$> tim s) (dd s) (lista s) (pines s) in
  s ← interrumpe 0 s; s ← interrumpe 1 s; s ← interrumpe 2 s; interrumpe 3 s.

(** what the program does with its servos, between two ticks *)
Inductive accion : Type :=
  | Tic
  | Conecta (n : Z)
  | Desconecta (n : Z)
  | Gira (n angle : Z).
Definition haz (a : accion) (s : estado) : res estado :=
  match a with
  | Tic => instante s
  | Conecta n => r ← servoInit n SERVO_ENABLE_OUTPUT s; Bien (snd r)
  | Desconecta n => r ← servoInit n SERVO_DISABLE_OUTPUT s; Bien (snd r)
  | Gira n angle => Bien (snd (servoWrite n angle s))
  end.
Fixpoint corre (l : list accion) (s : estado) : res estado :=
  match l with [] => Bien s | a :: l => s ← haz a s; corre l s end.
Definition es_tic (a : accion) : bool := match a with Tic => true | _ => false end.
Definition tics (l : list accion) : Z := Z.of_nat (length (List.filter es_tic l)).

(** ** The order kept between two ticks *)
Definition PERIODO : Z := Timer_microsecondsToTicks SERVO_COMPLETECYCLE_PERIOD.
Definition canal_ciclo : canal := mkCanal PERIODO true true false.
Definition libre (a : attachedServo_t) : bool := servo a =? EMPTY_POSITION.
Definition servo_ok (a : attachedServo_t) : Prop := (libre a = true \/ 0 <= servo a < 9) /\ 0 <= value a <= 180.
(** the longest pulse, 2.5 ms *)
Definition MAXIMO : Z := 510000.
Definition canal_ok (a : attachedServo_t) (c : canal) : Prop :=
  crst c = false /\ ir c = false /\ cint c = negb (libre a) /\ (libre a = false -> 0 <= mr c <= MAXIMO).
(** the timer [q], for the list [l] *)
Definition timer_ok (q : nat) (l : list attachedServo_t) (t : tmr) : Prop :=
  tcr t = true /\ nvic t = true /\ 0 <= tc t <= PERIODO /\
  exists c1 c2 c3, canales t = [canal_ciclo; c1; c2; c3] /\
    canal_ok (l !!! (3 * (q - 1))%nat) c1 /\ canal_ok (l !!! (3 * (q - 1) + 1)%nat) c2 /\
    canal_ok (l !!! (3 * (q - 1) + 2)%nat) c3.
(** the list, and the functions hung *)
Definition lista_ok (l : list attachedServo_t) : Prop :=
  length l = 9%nat /\ (forall p, (p < 9)%nat -> servo_ok (l !!! p)) /\
  forall p p', (p < 9)%nat -> (p' < 9)%nat -> libre (l !!! p) = false -> servo (l !!! p) = servo (l !!! p') -> p = p'.
Definition dd_ok (l : list attachedServo_t) (d : list (list callBack)) : Prop :=
  length d = 4%nat /\ (forall q, (q < 4)%nat -> length (d !!! q) = 4%nat) /\
  (forall q, (1 <= q < 4)%nat -> (d !!! q) !!! 0%nat = timerCompareMatch0func q) /\
  forall p, (p < 9)%nat -> libre (l !!! p) = false ->
    (d !!! associatedTimer p) !!! associatedCompareMatch p = timerCompareMatchfunc p.

(** the cycles are running; timer 0 is nobody's *)
Record en_ciclo (s : estado) : Prop := {
  ec_tim : length (tim s) = 4%nat;
  ec_0 : tcr (tim s !!! 0%nat) = false /\ nvic (tim s !!! 0%nat) = false;
  ec_q q : (1 <= q < 4)%nat -> timer_ok q (lista s) (tim s !!! q);
  ec_lista : lista_ok (lista s);
  ec_dd : dd_ok (lista s) (dd s)
}.

Lemma ancho_rango v : 0 <= v <= 180 -> ancho v = 204 * (500 + v * 2000 / 180) /\ 102000 <= ancho v <= MAXIMO.
Proof.
  intros Hv. unfold ancho, Timer_microsecondsToTicks, valueToMicroseconds, SERVO_MINUPTIME_PERIOD, SERVO_MAXUPTIME_PERIOD, MAXIMO.
  rewrite Z.quot_div_nonneg by lia. change (LPC4337_MAX_FREC / 1000000) with 204.
  assert (0 <= v * 2000 / 180 <= 2000).
  { split; [apply Z.div_pos; lia|]. apply Z.div_le_upper_bound; lia. }
  rewrite u32_small by lia. lia.
Qed.

(** ** The pins *)
Definition pata (n : Z) : Z * Z :=
  default (0, 0) (pin ← servoMap !! Z.to_nat n; pata_de pin).
Definition con_pin (n : Z) (v : bool) (m : gmap (Z * Z) bool) : gmap (Z * Z) bool := <[pata n := v]> m.

Lemma pata_inj n m : 0 <= n < 9 -> 0 <= m < 9 -> pata n = pata m -> n = m.
Proof.
  intros Hn Hm. assert (H : forallb (fun n => forallb (fun m => implb (bool_decide (pata n = pata m)) (n =? m))
    (seqZ 0 9)) (seqZ 0 9) = true) by (vm_compute; reflexivity).
  rewrite forallb_forall in H. specialize (H n ltac:(apply list_elem_of_In, elem_of_seqZ; lia)).
  rewrite forallb_forall in H. specialize (H m ltac:(apply list_elem_of_In, elem_of_seqZ; lia)).
  intros E. rewrite bool_decide_eq_true_2 in H by done. simpl in H. lia.
Qed.
Lemma gpioWrite_pata {n v s} : 0 <= n < 9 ->
  (pin ← servo_pin n; gpioWrite_pin pin v s) = Bien (mkEstado (tim s) (dd s) (lista s) (con_pin n v (pines s))).
Proof.
  intros Hn. assert (Hp : 0 = n \/ 1 = n \/ 2 = n \/ 3 = n \/ 4 = n \/ 5 = n \/ 6 = n \/ 7 = n \/ 8 = n) by lia.
  by destruct Hp as [<-|[<-|[<-|[<-|[<-|[<-|[<-|[<-|<-]]]]]]]].
Qed.

(** *** One timer and the pins *)
Definition pon (q : nat) (t : tmr) (m : gmap (Z * Z) bool) (s : estado) : estado :=
  mkEstado (<[q := t]> (tim s)) (dd s) (lista s) m.

Lemma pon_id q s : (q < length (tim s))%nat -> s = pon q (tim s !!! q) (pines s) s.
Proof.
  intros Hq. unfold pon. destruct s as [ti d l m]. simpl in *. f_equal. symmetry. apply list_insert_id.
  by apply list_lookup_lookup_total_lt.
Qed.
Lemma en_timer_pon q f t m s : (q < length (tim s))%nat -> en_timer q f (pon q t m s) = pon q (f t) m s.
Proof.
  intros Hq. unfold en_timer, pon. simpl. by rewrite list_lookup_total_insert_eq, list_insert_insert_eq by done.
Qed.
Lemma tim_pon q t m s : (q < length (tim s))%nat -> tim (pon q t m s) !!! q = t.
Proof. intros Hq. unfold pon. simpl. by rewrite list_lookup_total_insert_eq. Qed.

(** a place at the start of a cycle *)
Definition carga (a : attachedServo_t) (c : canal) : canal :=
  if libre a then c else mkCanal (ancho (value a)) (cint c) (crst c) (ir c).
Definition sube (a : attachedServo_t) (m : gmap (Z * Z) bool) : gmap (Z * Z) bool :=
  if libre a then m else con_pin (servo a) true m.

Lemma empieza_pon p q t m s :
  (q < length (tim s))%nat -> associatedTimer p = q -> servo_ok (lista s !!! p) ->
  empieza_pulso p (pon q t m s) =
  Bien (pon q (en_canal (associatedCompareMatch p) (carga (lista s !!! p)) t) (sube (lista s !!! p) m) s).
Proof.
  intros Hq Hp [Ha _]. unfold empieza_pulso. change (lista (pon q t m s)) with (lista s).
  unfold carga, sube, libre in *. destruct (Z.eqb_spec (servo (lista s !!! p)) EMPTY_POSITION) as [E|E].
  - assert (Hid : en_canal (associatedCompareMatch p) (fun c => c) t = t); [|by rewrite Hid].
    unfold en_canal. destruct t as [a cs b d]. simpl. f_equal.
    destruct (cs !! associatedCompareMatch p) as [c|] eqn:Hc.
    + apply list_insert_id. by rewrite (list_lookup_total_correct _ _ _ Hc).
    + apply list_insert_ge. by apply lookup_ge_None.
  - destruct Ha as [Ha|Ha]; [done|]. pose proof (@gpioWrite_pata _ true (pon q t m s) Ha) as Hw.
    unfold mbind in *. unfold res_bind in *. destruct (servo_pin _) as [pin| |]; [|done|done]. rewrite Hw.
    unfold Timer_SetCompareMatch. rewrite Hp. f_equal. exact (en_timer_pon q _ t _ s Hq).
Qed.

(** a place when its match is reached *)
Definition baja_pin (x : Z) (a : attachedServo_t) (c : canal) (m : gmap (Z * Z) bool) : gmap (Z * Z) bool :=
  if cint c && (mr c =? x) then con_pin (servo a) false m else m.

Lemma pendiente_pon q k t m s : (q < length (tim s))%nat ->
  Chip_TIMER_MatchPending (tim (pon q t m s) !!! q) k = ir (canales t !!! k).
Proof. intros Hq. by rewrite tim_pon. Qed.

Lemma atiende_baja q k p t m s c :
  (q < length (tim s))%nat -> associatedTimer p = q -> associatedCompareMatch p = k -> servo_ok (lista s !!! p) ->
  canal_ok (lista s !!! p) c ->
  (libre (lista s !!! p) = false -> (dd s !!! q) !!! k = timerCompareMatchfunc p) ->
  canales t !!! k = mkCanal (mr c) (cint c) (crst c) (cint c && (mr c =? tc t)) ->
  (k < length (canales t))%nat ->
  atiende_canal q k (pon q t m s) =
  Bien (pon q (en_canal k (fun _ => c) t) (baja_pin (tc t) (lista s !!! p) c m) s).
Proof.
  intros Hq Hp Hk [Ha _] (Hr & Hi & Hc & _) Hd Ht Hl. unfold atiende_canal. rewrite pendiente_pon, Ht by done.
  cbn [ir]. unfold baja_pin. destruct (cint c && (mr c =? tc t)) eqn:Hf.
  - apply andb_prop in Hf as [Hf _]. rewrite Hf in Hc. symmetry in Hc. apply negb_true_iff in Hc.
    change (dd (pon q t m s)) with (dd s). rewrite (Hd Hc). cbn [funcion_match]. change (lista (pon q t m s)) with (lista s).
    destruct Ha as [Ha|Ha]; [congruence|]. rewrite (gpioWrite_pata Ha). cbn [mbind res_bind]. f_equal.
    etransitivity; [exact (en_timer_pon q _ t _ s Hq)|]. unfold Chip_TIMER_ClearMatch, en_canal. rewrite Ht. cbn. rewrite Hf.
    f_equal. f_equal. f_equal. destruct c as [r i e x]. simpl in *. by rewrite Hr, Hi, Hf.
  - f_equal. f_equal. unfold en_canal. destruct t as [a cs b d]. simpl in *. f_equal. symmetry. apply list_insert_id.
    assert (E : c = mkCanal (mr c) (cint c) (crst c) false) by (destruct c; simpl in *; by rewrite Hi).
    rewrite E, <- Ht. by apply list_lookup_lookup_total_lt.
Qed.

Definition siguiente_tc (x : Z) : Z := if x =? PERIODO then 0 else x + 1.

Lemma tictac_ciclo x c1 c2 c3 :
  0 <= x <= PERIODO -> crst c1 = false -> crst c2 = false -> crst c3 = false ->
  ir c1 = false -> ir c2 = false -> ir c3 = false ->
  tictac (mkTmr x [canal_ciclo; c1; c2; c3] true true) =
  let x' := siguiente_tc x in
  let f c := mkCanal (mr c) (cint c) (crst c) (cint c && (mr c =? x')) in
  mkTmr x' [mkCanal PERIODO true true (x' =? PERIODO); f c1; f c2; f c3] true true.
Proof.
  intros Hx R1 R2 R3 I1 I2 I3. unfold tictac. cbn [tcr canales tc existsb crst mr canal_ciclo andb].
  rewrite R1, R2, R3. cbn [andb orb]. rewrite orb_false_r.
  assert (E : (if PERIODO =? x then 0 else u32 (x + 1)) = siguiente_tc x).
  { unfold siguiente_tc. rewrite (Z.eqb_sym PERIODO x). destruct (Z.eqb_spec x PERIODO); [done|].
    apply u32_small. change PERIODO with 4080000 in *. lia. }
  rewrite E. cbv zeta. cbn [fmap list_fmap mr cint crst ir canal_ciclo nvic orb andb]. rewrite I1, I2, I3. cbn [orb].
  by rewrite (Z.eqb_sym PERIODO), R1, R2, R3.
Qed.

(** the place [k], from 0 to 2, of the timer [q] *)
Lemma lugar_de q k : (1 <= q < 4)%nat -> (k < 3)%nat ->
  associatedTimer (3 * (q - 1) + k) = q /\ associatedCompareMatch (3 * (q - 1) + k) = S k /\
  (3 * (q - 1) + k < 9)%nat.
Proof.
  intros Hq Hk. assert (Hp : q = 1%nat \/ q = 2%nat \/ q = 3%nat) by lia.
  assert (Hr : k = 0%nat \/ k = 1%nat \/ k = 2%nat) by lia.
  destruct Hp as [->|[->| ->]], Hr as [->|[->| ->]]; repeat split; vm_compute; lia.
Qed.

(** an interrupt that nothing asked for does nothing *)
Lemma sin_pedidos q s : length (canales (tim s !!! q)) = 4%nat ->
  interrumpe q s = if nvic (tim s !!! q) then TIMER_IRQHandler q s else Bien s.
Proof.
  intros Hl. unfold interrumpe. destruct (nvic (tim s !!! q)); [|done]. cbn [andb].
  destruct (existsb ir _) eqn:He; [done|].
  assert (Hn : forall n, (n < 4)%nat -> atiende_canal q n s = Bien s).
  { intros n Hn. unfold atiende_canal, Chip_TIMER_MatchPending.
    destruct (canales (tim s !!! q)) as [|c0 [|c1 [|c2 [|c3 []]]]]; try discriminate Hl.
    cbn [existsb] in He. rewrite !orb_false_iff in He. destruct He as (H0 & H1 & H2 & H3 & _).
    do 4 (destruct n as [|n]; [cbn; by rewrite ?H0, ?H1, ?H2, ?H3|]). lia. }
  unfold TIMER_IRQHandler. do 3 (rewrite Hn by lia; cbn [mbind res_bind]). by rewrite Hn by lia.
Qed.

(** the places of the timer [q] *)
Lemma lugares q : (1 <= q < 4)%nat ->
  (associatedTimer (3 * (q - 1)) = q /\ associatedCompareMatch (3 * (q - 1)) = 1%nat /\ (3 * (q - 1) < 9)%nat) /\
  (associatedTimer (3 * (q - 1) + 1) = q /\ associatedCompareMatch (3 * (q - 1) + 1) = 2%nat /\ (3 * (q - 1) + 1 < 9)%nat) /\
  (associatedTimer (3 * (q - 1) + 2) = q /\ associatedCompareMatch (3 * (q - 1) + 2) = 3%nat /\ (3 * (q - 1) + 2 < 9)%nat).
Proof.
  intros Hq. pose proof (lugar_de q 0 Hq ltac:(lia)) as H. rewrite Nat.add_0_r in H.
  split; [exact H|]. split; apply lugar_de; lia.
Qed.

(** the start of a cycle *)
Lemma atiende_inicio q t m s :
  (1 <= q < 4)%nat -> (q < length (tim s))%nat -> (forall p, (p < 9)%nat -> servo_ok (lista s !!! p)) ->
  (dd s !!! q) !!! 0%nat = timerCompareMatch0func q -> ir (canales t !!! 0%nat) = true ->
  let a1 := lista s !!! (3 * (q - 1))%nat in
  let a2 := lista s !!! (3 * (q - 1) + 1)%nat in
  let a3 := lista s !!! (3 * (q - 1) + 2)%nat in
  atiende_canal q 0 (pon q t m s) =
  Bien (pon q (Chip_TIMER_ClearMatch 0 (en_canal 3 (carga a3) (en_canal 2 (carga a2) (en_canal 1 (carga a1) t))))
    (sube a3 (sube a2 (sube a1 m))) s).
Proof.
  intros Hq Hql Hs Hd Hi. destruct (lugares q Hq) as ((P1 & Q1 & B1) & (P2 & Q2 & B2) & (P3 & Q3 & B3)).
  unfold atiende_canal. rewrite pendiente_pon, Hi by done. change (dd (pon q t m s)) with (dd s). rewrite Hd. cbn [funcion_match].
  rewrite (empieza_pon _ q), Q1 by auto. cbn [mbind res_bind].
  rewrite (empieza_pon _ q), Q2 by auto. cbn [mbind res_bind].
  rewrite (empieza_pon _ q), Q3 by auto. cbn [mbind res_bind]. by rewrite en_timer_pon.
Qed.
Lemma atiende_nada q n t m s : (q < length (tim s))%nat -> ir (canales t !!! n) = false ->
  atiende_canal q n (pon q t m s) = Bien (pon q t m s).
Proof. intros Hq Hi. unfold atiende_canal. by rewrite pendiente_pon, Hi. Qed.

Lemma ir_carga a c : ir (carga a c) = ir c.
Proof. unfold carga. by destruct (libre a). Qed.
(** no pulse ends where the cycle begins *)
Lemma canal_quieto a c : canal_ok a c -> mkCanal (mr c) (cint c) (crst c) (cint c && (mr c =? PERIODO)) = c.
Proof.
  intros (_ & Hi & Hc & Hm). destruct c as [m c r i]. cbn in *. subst i. f_equal. destruct (libre a); subst c; [done|].
  specialize (Hm eq_refl). unfold MAXIMO in Hm. change PERIODO with 4080000. lia.
Qed.

(** the tick of one timer and the interrupt it brings *)
Definition tras_tic (q : nat) (x : Z) (c1 c2 c3 : canal) (s : estado) : estado :=
  let a1 := lista s !!! (3 * (q - 1))%nat in
  let a2 := lista s !!! (3 * (q - 1) + 1)%nat in
  let a3 := lista s !!! (3 * (q - 1) + 2)%nat in
  if x =? PERIODO
  then pon q (mkTmr x [canal_ciclo; carga a1 c1; carga a2 c2; carga a3 c3] true true)
         (sube a3 (sube a2 (sube a1 (pines s)))) s
  else pon q (mkTmr x [canal_ciclo; c1; c2; c3] true true)
         (baja_pin x a3 c3 (baja_pin x a2 c2 (baja_pin x a1 c1 (pines s)))) s.

Lemma interrumpe_ok q s x c1 c2 c3 :
  (1 <= q < 4)%nat -> length (tim s) = 4%nat -> lista_ok (lista s) -> dd_ok (lista s) (dd s) ->
  0 <= x <= PERIODO ->
  canal_ok (lista s !!! (3 * (q - 1))%nat) c1 -> canal_ok (lista s !!! (3 * (q - 1) + 1)%nat) c2 ->
  canal_ok (lista s !!! (3 * (q - 1) + 2)%nat) c3 ->
  tim s !!! q = tictac (mkTmr x [canal_ciclo; c1; c2; c3] true true) ->
  interrumpe q s = Bien (tras_tic q (siguiente_tc x) c1 c2 c3 s).
Proof.
  intros Hq Hl Hlo Hdd Hx K1 K2 K3 Ht. pose proof (proj1 (proj2 Hlo)) as Hs.
  assert (Hql : (q < length (tim s))%nat) by lia.
  pose proof K1 as (R1 & I1 & N1 & M1). pose proof K2 as (R2 & I2 & N2 & M2). pose proof K3 as (R3 & I3 & N3 & M3).
  rewrite tictac_ciclo in Ht by done. cbv zeta in Ht. unfold tras_tic. set (x' := siguiente_tc x) in *.
  destruct Hdd as (_ & _ & Hd0 & Hdp). destruct (lugares q Hq) as ((P1 & Q1 & B1) & (P2 & Q2 & B2) & (P3 & Q3 & B3)).
  rewrite sin_pedidos by (by rewrite Ht). rewrite Ht at 1. cbn [nvic].
  pose proof (pon_id q s Hql) as Hpon. rewrite Ht in Hpon.
  match type of Hpon with _ = ?p => replace (TIMER_IRQHandler q s) with (TIMER_IRQHandler q p) by (by rewrite <- Hpon) end.
  unfold TIMER_IRQHandler. clear Hpon. destruct (Z.eqb_spec x' PERIODO) as [He|He].
  - rewrite He, (canal_quieto _ c1 K1), (canal_quieto _ c2 K2), (canal_quieto _ c3 K3).
    rewrite atiende_inicio by (done || (apply Hd0; lia)). cbn [mbind res_bind].
    match goal with |- context [pon q (Chip_TIMER_ClearMatch 0 ?u)] =>
      change (Chip_TIMER_ClearMatch 0 u) with (mkTmr PERIODO [canal_ciclo; carga (lista s !!! (3 * (q - 1))%nat) c1;
        carga (lista s !!! (3 * (q - 1) + 1)%nat) c2; carga (lista s !!! (3 * (q - 1) + 2)%nat) c3] true true) end.
    rewrite atiende_nada; [|done|exact (eq_trans (ir_carga _ c1) I1)]. cbn [mbind res_bind].
    rewrite atiende_nada; [|done|exact (eq_trans (ir_carga _ c2) I2)]. cbn [mbind res_bind].
    by rewrite atiende_nada; [|done|exact (eq_trans (ir_carga _ c3) I3)].
  - rewrite atiende_nada by done. cbn [mbind res_bind].
    erewrite (atiende_baja q 1); [|done|exact P1|exact Q1|by apply Hs|exact K1|..|reflexivity|cbn; lia].
    2: { intros Hf. pose proof (Hdp _ B1 Hf) as Hfn. by rewrite P1, Q1 in Hfn. }
    cbn [mbind res_bind].
    erewrite (atiende_baja q 2); [|done|exact P2|exact Q2|by apply Hs|exact K2|..|reflexivity|cbn; lia].
    2: { intros Hf. pose proof (Hdp _ B2 Hf) as Hfn. by rewrite P2, Q2 in Hfn. }
    cbn [mbind res_bind].
    erewrite (atiende_baja q 3); [|done|exact P3|exact Q3|by apply Hs|exact K3|..|reflexivity|cbn; lia].
    2: { intros Hf. pose proof (Hdp _ B3 Hf) as Hfn. by rewrite P3, Q3 in Hfn. }
    reflexivity.
Qed.

(** ** What is seen of a place *)
Definition tc_de (p : nat) (s : estado) : Z := tc (tim s !!! associatedTimer p).
Definition mr_de (p : nat) (s : estado) : Z := mr (canales (tim s !!! associatedTimer p) !!! associatedCompareMatch p).
(** the level of its pin *)
Definition nivel_en (l : list attachedServo_t) (p : nat) (m : gmap (Z * Z) bool) : bool :=
  default false (m !! pata (servo (l !!! p))).
Definition nivel (p : nat) (s : estado) : bool := nivel_en (lista s) p (pines s).

Section Lista.
Context (l : list attachedServo_t) (Hl : lista_ok l) (p : nat) (Hp : (p < 9)%nat) (Hs : libre (l !!! p) = false).
#[local] Set Default Proof Using "All".

Lemma rango_servo p' : (p' < 9)%nat -> libre (l !!! p') = false -> 0 <= servo (l !!! p') < 9.
Proof. intros Hp' Hf. destruct Hl as (_ & Hok & _). destruct (Hok p' Hp') as [[H|H] _]; [congruence|done]. Qed.

Lemma nivel_con p' v m : (p' < 9)%nat -> libre (l !!! p') = false ->
  nivel_en l p (con_pin (servo (l !!! p')) v m) = if (p' =? p)%nat then v else nivel_en l p m.
Proof.
  intros Hp' Hf. unfold nivel_en, con_pin. destruct (Nat.eqb_spec p' p) as [->|Hne].
  - by rewrite lookup_insert_eq.
  - rewrite lookup_insert_ne; [done|]. intros E. apply Hne. destruct Hl as (_ & _ & Hd).
    apply Hd; [done|done|done|]. apply pata_inj; [by apply rango_servo..|done].
Qed.
Lemma nivel_sube p' m : (p' < 9)%nat ->
  nivel_en l p (sube (l !!! p') m) = if (p' =? p)%nat then true else nivel_en l p m.
Proof.
  intros Hp'. unfold sube. destruct (libre (l !!! p')) eqn:Hf; [|by apply nivel_con].
  destruct (Nat.eqb_spec p' p) as [->|]; [congruence|done].
Qed.
Lemma nivel_baja p' x c m : (p' < 9)%nat -> canal_ok (l !!! p') c ->
  nivel_en l p (baja_pin x (l !!! p') c m) = if (p' =? p)%nat then if mr c =? x then false else nivel_en l p m else nivel_en l p m.
Proof.
  intros Hp' (_ & _ & Hc & _). unfold baja_pin. rewrite Hc. destruct (libre (l !!! p')) eqn:Hf; cbn [negb andb].
  - destruct (Nat.eqb_spec p' p) as [->|]; [congruence|done].
  - destruct (mr c =? x); [by apply nivel_con|]. by destruct (p' =? p)%nat.
Qed.
End Lista.

(** a place is one of those of its timer *)
Lemma lugar_caso p : (p < 9)%nat ->
  let q := associatedTimer p in (1 <= q < 4)%nat /\
  (p = (3 * (q - 1))%nat \/ p = (3 * (q - 1) + 1)%nat \/ p = (3 * (q - 1) + 2)%nat).
Proof.
  intros Hp. do 9 (destruct p as [|p]; [vm_compute; split; [lia|auto]|]). lia.
Qed.

Lemma tras_tic_otro q q' x c1 c2 c3 s : q <> q' -> tim (tras_tic q x c1 c2 c3 s) !!! q' = tim s !!! q'.
Proof.
  intros H. unfold tras_tic, pon. destruct (x =? PERIODO); simpl; by apply list_lookup_total_insert_ne.
Qed.
Lemma tras_tic_resto q x c1 c2 c3 s :
  lista (tras_tic q x c1 c2 c3 s) = lista s /\ dd (tras_tic q x c1 c2 c3 s) = dd s /\
  length (tim (tras_tic q x c1 c2 c3 s)) = length (tim s).
Proof. unfold tras_tic, pon. destruct (x =? PERIODO); simpl; by rewrite length_insert. Qed.

Lemma carga_ok a c : servo_ok a -> canal_ok a c -> canal_ok a (carga a c).
Proof.
  intros [_ Hv] (H1 & H2 & H3 & H4). unfold carga. destruct (libre a) eqn:Hf; [by unfold canal_ok; rewrite Hf|].
  split; [done|]. split; [done|]. split; [by rewrite Hf|]. intros _. cbn [mr]. pose proof (ancho_rango _ Hv). lia.
Qed.

(** what a tick does to a place of its timer, and to those of others *)
Lemma tras_tic_vista q x c1 c2 c3 s p :
  (1 <= q < 4)%nat -> length (tim s) = 4%nat -> lista_ok (lista s) -> (p < 9)%nat -> libre (lista s !!! p) = false ->
  canal_ok (lista s !!! (3 * (q - 1))%nat) c1 -> canal_ok (lista s !!! (3 * (q - 1) + 1)%nat) c2 ->
  canal_ok (lista s !!! (3 * (q - 1) + 2)%nat) c3 ->
  let s' := tras_tic q x c1 c2 c3 s in
  let c := canales (mkTmr x [canal_ciclo; c1; c2; c3] true true) !!! associatedCompareMatch p in
  if (q =? associatedTimer p)%nat then
    tc_de p s' = x /\
    mr_de p s' = (if x =? PERIODO then ancho (value (lista s !!! p)) else mr c) /\
    nivel p s' = if x =? PERIODO then true else if mr c =? x then false else nivel p s
  else tc_de p s' = tc_de p s /\ mr_de p s' = mr_de p s /\ nivel p s' = nivel p s.
Proof.
  intros Hq Hl Hlo Hp Hf K1 K2 K3 s' c. destruct (lugares q Hq) as ((P1 & Q1 & B1) & (P2 & Q2 & B2) & (P3 & Q3 & B3)).
  assert (Hm : nivel p s' = if x =? PERIODO
    then if (3 * (q - 1) + 2 =? p)%nat then true else if (3 * (q - 1) + 1 =? p)%nat then true
         else if (3 * (q - 1) =? p)%nat then true else nivel p s
    else if (3 * (q - 1) + 2 =? p)%nat && (mr c3 =? x) then false
         else if (3 * (q - 1) + 1 =? p)%nat && (mr c2 =? x) then false
         else if (3 * (q - 1) =? p)%nat && (mr c1 =? x) then false else nivel p s).
  { subst s'. unfold nivel. rewrite (proj1 (tras_tic_resto q x c1 c2 c3 s)). unfold tras_tic. destruct (x =? PERIODO); cbn [pines pon].
    - rewrite !nivel_sube by done. done.
    - rewrite !nivel_baja by done.
      by destruct (_ + 2 =? p)%nat, (_ + 1 =? p)%nat, (3 * (q - 1) =? p)%nat, (mr c1 =? x), (mr c2 =? x), (mr c3 =? x). }
  assert (Ht : tim s' !!! q = if x =? PERIODO
    then mkTmr x [canal_ciclo; carga (lista s !!! (3 * (q - 1))%nat) c1; carga (lista s !!! (3 * (q - 1) + 1)%nat) c2;
                  carga (lista s !!! (3 * (q - 1) + 2)%nat) c3] true true
    else mkTmr x [canal_ciclo; c1; c2; c3] true true).
  { subst s'. unfold tras_tic. destruct (x =? PERIODO); apply tim_pon; lia. }
  destruct (Nat.eqb_spec q (associatedTimer p)) as [Hqp|Hqp].
  2: { unfold tc_de, mr_de. subst s'. rewrite !tras_tic_otro by done. do 2 (split; [done|]). rewrite Hm.
       repeat match goal with |- context [(?a =? p)%nat] => destruct (Nat.eqb_spec a p) as [E|_]; [exfalso; apply Hqp; rewrite <- E; congruence|] end.
       cbn [andb]. by destruct (x =? PERIODO). }
  unfold tc_de, mr_de. rewrite <- Hqp, Ht. destruct (lugar_caso p Hp) as [_ Hc]. rewrite <- Hqp in Hc.
  assert (Hcase : forall b1 b2 b3 k ck, (3 * (q - 1) =? p)%nat = b1 -> (3 * (q - 1) + 1 =? p)%nat = b2 ->
    (3 * (q - 1) + 2 =? p)%nat = b3 -> associatedCompareMatch p = k ->
    [canal_ciclo; c1; c2; c3] !!! k = ck ->
    [canal_ciclo; carga (lista s !!! (3 * (q - 1))%nat) c1; carga (lista s !!! (3 * (q - 1) + 1)%nat) c2;
     carga (lista s !!! (3 * (q - 1) + 2)%nat) c3] !!! k = carga (lista s !!! p) ck ->
    (if b3 && (mr c3 =? x) then false else if b2 && (mr c2 =? x) then false
     else if b1 && (mr c1 =? x) then false else nivel p s) = (if mr ck =? x then false else nivel p s) ->
    (if b3 then true else if b2 then true else if b1 then true else nivel p s) = true ->
    tc (tim s' !!! q) = x /\ mr (canales (tim s' !!! q) !!! associatedCompareMatch p) =
      (if x =? PERIODO then ancho (value (lista s !!! p)) else mr c) /\
    nivel p s' = (if x =? PERIODO then true else if mr c =? x then false else nivel p s)).
  { intros b1 b2 b3 k ck <- <- <- Hk Hck Hca Hx1 Hx2. subst c. cbn [canales]. rewrite Hm, Ht, Hk, Hx1, Hx2.
    destruct (x =? PERIODO); cbn [tc canales]; rewrite ?Hca, ?Hck; [|done].
    unfold carga. by rewrite Hf. }
  rewrite <- Ht. destruct Hc as [E|[E|E]].
  - apply (Hcase true false false 1%nat c1); rewrite ?Nat.eqb_eq, ?Nat.eqb_neq, ?E; try done; lia.
  - apply (Hcase false true false 2%nat c2); rewrite ?Nat.eqb_eq, ?Nat.eqb_neq, ?E; try done; lia.
  - apply (Hcase false false true 3%nat c3); rewrite ?Nat.eqb_eq, ?Nat.eqb_neq, ?E; try done; lia.
Qed.

(** the interrupt of one timer, after the tick *)
Definition vista_tras (q p : nat) (s1 s2 : estado) : Prop :=
  tc_de p s2 = tc_de p s1 /\
  if (q =? associatedTimer p)%nat then
    mr_de p s2 = (if tc_de p s1 =? PERIODO then ancho (value (lista s1 !!! p)) else mr_de p s1) /\
    nivel p s2 = if tc_de p s1 =? PERIODO then true else if mr_de p s1 =? tc_de p s1 then false else nivel p s1
  else mr_de p s2 = mr_de p s1 /\ nivel p s2 = nivel p s1.

Lemma paso_timer q s1 t :
  (1 <= q < 4)%nat -> length (tim s1) = 4%nat -> lista_ok (lista s1) -> dd_ok (lista s1) (dd s1) ->
  timer_ok q (lista s1) t -> tim s1 !!! q = tictac t ->
  exists s2, interrumpe q s1 = Bien s2 /\ lista s2 = lista s1 /\ dd s2 = dd s1 /\ length (tim s2) = 4%nat /\
    (forall q', q <> q' -> tim s2 !!! q' = tim s1 !!! q') /\ timer_ok q (lista s1) (tim s2 !!! q) /\
    forall p, (p < 9)%nat -> libre (lista s1 !!! p) = false -> vista_tras q p s1 s2.
Proof.
  intros Hq Hl Hlo Hdd (Hr & Hn & Hx & c1 & c2 & c3 & Hc & K1 & K2 & K3) Ht.
  destruct t as [x cs r n]. cbn in *. subst cs r n.
  pose proof (interrumpe_ok q s1 x c1 c2 c3 Hq Hl Hlo Hdd Hx K1 K2 K3 Ht) as H. eexists. split; [exact H|].
  destruct (tras_tic_resto q (siguiente_tc x) c1 c2 c3 s1) as (E1 & E2 & E3).
  split; [done|]. split; [done|]. split; [congruence|]. split; [intros q' Hqq; by apply tras_tic_otro|].
  pose proof K1 as (R1 & I1 & _). pose proof K2 as (R2 & I2 & _). pose proof K3 as (R3 & I3 & _).
  rewrite tictac_ciclo in Ht by done. cbv zeta in Ht. split.
  - assert (0 <= siguiente_tc x <= PERIODO) by (unfold siguiente_tc; destruct (Z.eqb_spec x PERIODO); lia).
    unfold tras_tic. destruct (_ =? PERIODO); rewrite tim_pon by lia.
    + repeat (split; [done|]). eexists _, _, _. split; [reflexivity|].
      destruct Hlo as (_ & Hs & _). destruct (lugares q Hq) as ((_ & _ & B1) & (_ & _ & B2) & (_ & _ & B3)).
      split; [|split]; apply carga_ok; auto.
    + repeat (split; [done|]). by exists c1, c2, c3.
  - intros p Hp Hf. pose proof (tras_tic_vista q (siguiente_tc x) c1 c2 c3 s1 p Hq Hl Hlo Hp Hf K1 K2 K3) as Hv.
    cbv zeta in Hv. unfold vista_tras. destruct (Nat.eqb_spec q (associatedTimer p)) as [E|E]; [|tauto].
    assert (Htc : tc_de p s1 = siguiente_tc x) by (unfold tc_de; by rewrite <- E, Ht).
    assert (Hmr : mr_de p s1 = mr ([canal_ciclo; c1; c2; c3] !!! associatedCompareMatch p)).
    { unfold mr_de. rewrite <- E, Ht. cbn [canales]. destruct (lugar_caso p Hp) as [_ Hc]. rewrite <- E in Hc.
      destruct (lugares q Hq) as ((_ & Q1 & _) & (_ & Q2 & _) & (_ & Q3 & _)).
      destruct Hc as [->|[->| ->]]; by rewrite ?Q1, ?Q2, ?Q3. }
    cbn [canales] in Hv. rewrite <- Hmr, <- Htc in Hv. rewrite <- Htc. tauto.
Qed.

(** the tick alone *)
Lemma tictac_vista q l t : (1 <= q < 4)%nat -> timer_ok q l t ->
  tc (tictac t) = siguiente_tc (tc t) /\ forall k, mr (canales (tictac t) !!! k) = mr (canales t !!! k).
Proof.
  intros Hq (Hr & Hn & Hx & c1 & c2 & c3 & Hc & (R1 & I1 & _) & (R2 & I2 & _) & (R3 & I3 & _)).
  destruct t as [x cs r n]. cbn in *. subst cs r n. rewrite tictac_ciclo by done. split; [done|]. intros k.
  by do 4 (destruct k as [|k]; [done|]).
Qed.

(** a tick *)
Lemma instante_ok s : en_ciclo s ->
  exists s', instante s = Bien s' /\ en_ciclo s' /\ lista s' = lista s /\
    forall p, (p < 9)%nat -> libre (lista s !!! p) = false ->
      let x := siguiente_tc (tc_de p s) in
      tc_de p s' = x /\
      mr_de p s' = (if x =? PERIODO then ancho (value (lista s !!! p)) else mr_de p s) /\
      nivel p s' = if x =? PERIODO then true else if mr_de p s =? x then false else nivel p s.
Proof.
  intros [Hl [H0 H0'] Hq Hlo Hdd]. unfold instante. set (s0 := mkEstado (tictac <$> tim s) (dd s) (lista s) (pines s)).
  assert (Ht : forall q, (q < 4)%nat -> tim s0 !!! q = tictac (tim s !!! q)).
  { intros q Hq4. apply list_lookup_total_fmap. lia. }
  assert (Hl0 : length (tim s0) = 4%nat) by (unfold s0; cbn [tim]; by rewrite length_fmap).
  assert (E0 : interrumpe 0 s0 = Bien s0).
  { unfold interrumpe. rewrite Ht by lia. unfold tictac. by rewrite H0, H0'. }
  rewrite E0. cbn [mbind res_bind].
  destruct (paso_timer 1 s0 (tim s !!! 1%nat) ltac:(lia) Hl0 Hlo Hdd (Hq 1%nat ltac:(lia)) (Ht 1%nat ltac:(lia)))
    as (s1 & R1 & L1 & D1 & N1 & O1 & T1 & V1). rewrite R1. cbn [mbind res_bind].
  destruct (paso_timer 2 s1 (tim s !!! 2%nat)) as (s2 & R2 & L2 & D2 & N2 & O2 & T2 & V2);
    [lia|done|by rewrite L1|by rewrite L1, D1|rewrite L1; apply Hq; lia|rewrite O1 by done; apply Ht; lia|].
  rewrite R2. cbn [mbind res_bind]. rewrite L1 in L2. rewrite D1 in D2.
  destruct (paso_timer 3 s2 (tim s !!! 3%nat)) as (s3 & R3 & L3 & D3 & N3 & O3 & T3 & V3);
    [lia|done|by rewrite L2|by rewrite L2, D2|rewrite L2; apply Hq; lia|rewrite O2, O1 by done; apply Ht; lia|].
  rewrite L2 in L3. rewrite D2 in D3. change (lista s0) with (lista s) in *. change (dd s0) with (dd s) in *.
  rewrite L1 in *. rewrite L2 in *.
  exists s3. split; [exact R3|]. split; [|split; [exact L3|]].
  - split; [done|rewrite O3, O2, O1, Ht by lia; unfold tictac; by rewrite H0| |by rewrite L3|by rewrite L3, D3].
    intros q Hq4. rewrite L3. assert (Hc : q = 1%nat \/ q = 2%nat \/ q = 3%nat) by lia.
    destruct Hc as [->|[->| ->]]; [by rewrite O3, O2 by done|by rewrite O3 by done|done].
  - intros p Hp Hf. specialize (V1 p Hp Hf). specialize (V2 p Hp Hf). specialize (V3 p Hp Hf).
    destruct (lugar_caso p Hp) as [Ha _].
    destruct (tictac_vista _ _ _ Ha (Hq _ Ha)) as [Htc Hmr].
    assert (Etc : tc_de p s0 = siguiente_tc (tc_de p s)) by (unfold tc_de; by rewrite Ht by lia).
    assert (Emr : mr_de p s0 = mr_de p s) by (unfold mr_de; by rewrite Ht by lia).
    change (nivel p s0) with (nivel p s) in *. unfold vista_tras in *. rewrite ?L1, ?L2 in *.
    change (lista s0) with (lista s) in *. rewrite Etc, Emr in *.
    assert (Hc : associatedTimer p = 1%nat \/ associatedTimer p = 2%nat \/ associatedTimer p = 3%nat) by lia.
    destruct V1 as [A1 V1], V2 as [A2 V2], V3 as [A3 V3].
    destruct Hc as [Hc|[Hc|Hc]]; rewrite Hc in V1, V2, V3; cbn [Nat.eqb] in V1, V2, V3;
      destruct V1 as [B1 C1], V2 as [B2 C2], V3 as [B3 C3]; rewrite A3, A2, A1, B3, C3;
      rewrite ?A2, ?A1, ?B2, ?C2, ?A1, ?B1, ?C1; done.
Qed.

(** ** What the program does between two ticks *)

(** the function of one place is hung again *)
Lemma dd_pon l d p a f :
  dd_ok l d -> length l = 9%nat -> (p < 9)%nat -> (libre a = false -> f = timerCompareMatchfunc p) ->
  dd_ok (<[p := a]> l) (<[associatedTimer p := <[associatedCompareMatch p := f]> (d !!! associatedTimer p)]> d).
Proof.
  intros (D1 & D2 & D3 & D4) Hl9 Hp Hf. destruct (lugar_caso p Hp) as [Hqp _]. set (q := associatedTimer p) in *.
  assert (Hk : (1 <= associatedCompareMatch p < 4)%nat).
  { unfold associatedCompareMatch. pose proof (Nat.mod_upper_bound p 3). lia. }
  assert (Hpp : <[p := a]> l !!! p = a) by (apply list_lookup_total_insert_eq; lia).
  assert (Hi : forall i, i <> p -> <[p := a]> l !!! i = l !!! i) by (intros; by apply list_lookup_total_insert_ne).
  split; [by rewrite length_insert|].
  split; [|split].
  + intros q' Hq'. destruct (Nat.eq_dec q q') as [<-|Hne].
    * rewrite list_lookup_total_insert_eq, length_insert by lia. by apply D2.
    * rewrite list_lookup_total_insert_ne by done. by apply D2.
  + intros q' Hq'. destruct (Nat.eq_dec q q') as [<-|Hne].
    * rewrite list_lookup_total_insert_eq by lia. rewrite list_lookup_total_insert_ne by lia. by apply D3.
    * rewrite list_lookup_total_insert_ne by done. by apply D3.
  + intros i Hi9 Hfr. destruct (Nat.eq_dec i p) as [->|Hne].
    * fold q. rewrite list_lookup_total_insert_eq by lia.
      rewrite list_lookup_total_insert_eq by (rewrite D2; lia). apply Hf. by rewrite Hpp in Hfr.
    * rewrite Hi in Hfr by done. rewrite <- (D4 i Hi9 Hfr). destruct (Nat.eq_dec q (associatedTimer i)) as [Eq|Eq].
      -- rewrite <- Eq. rewrite list_lookup_total_insert_eq by lia.
         apply list_lookup_total_insert_ne. intros Ek. apply Hne.
         unfold q, associatedTimer, associatedCompareMatch in *.
         rewrite (Nat.div_mod_eq i 3), (Nat.div_mod_eq p 3). lia.
      -- by rewrite list_lookup_total_insert_ne.
Qed.

(** one place changes: its entry, its match and the function of it *)
Lemma cambia_lugar s p a t f m s' :
  en_ciclo s -> (p < 9)%nat -> lista_ok (<[p := a]> (lista s)) -> servo_ok a ->
  (exists c, canal_ok a c /\ t = mkTmr (tc (tim s !!! associatedTimer p))
    (<[associatedCompareMatch p := c]> (canales (tim s !!! associatedTimer p))) true true) ->
  (libre a = false -> f = timerCompareMatchfunc p) ->
  s' = mkEstado (<[associatedTimer p := t]> (tim s))
         (<[associatedTimer p := <[associatedCompareMatch p := f]> (dd s !!! associatedTimer p)]> (dd s))
         (<[p := a]> (lista s)) m ->
  en_ciclo s' /\ forall i, (i < 9)%nat -> tc_de i s' = tc_de i s /\
    (i <> p -> lista s' !!! i = lista s !!! i /\ mr_de i s' = mr_de i s).
Proof.
  intros [Hl H0 Hq Hlo Hdd] Hp Hlo' Ha (c & Hc & ->) Hf ->. destruct (lugar_caso p Hp) as [Hqp Hcp].
  set (q := associatedTimer p) in *. pose proof Hlo as (Hl9 & _).
  assert (Hi : forall i, i <> p -> <[p := a]> (lista s) !!! i = lista s !!! i).
  { intros i Hi. by apply list_lookup_total_insert_ne. }
  pose proof (Hq q Hqp) as (Hr & Hn & Hx & c1 & c2 & c3 & Hcs & K1 & K2 & K3).
  assert (Hk : (1 <= associatedCompareMatch p < 4)%nat).
  { unfold associatedCompareMatch. pose proof (Nat.mod_upper_bound p 3). lia. }
  assert (Hpp : <[p := a]> (lista s) !!! p = a) by (apply list_lookup_total_insert_eq; lia).
  split; [split; cbn [tim dd lista]|].
  - by rewrite length_insert.
  - rewrite list_lookup_total_insert_ne by lia. done.
  - intros q' Hq'. destruct (Nat.eq_dec q q') as [<-|Hne].
    + rewrite list_lookup_total_insert_eq by lia. split; [done|]. split; [done|]. split; [exact Hx|]. cbn [canales]. rewrite Hcs.
      destruct (lugares q Hqp) as ((_ & Q1 & _) & (_ & Q2 & _) & (_ & Q3 & _)).
      destruct Hcp as [E|[E|E]]; rewrite <- E in Q1 || rewrite <- E in Q2 || rewrite <- E in Q3;
        rewrite ?Q1, ?Q2, ?Q3; eexists _, _, _; (split; [reflexivity|]);
        pose proof (f_equal (fun i => <[p := a]> (lista s) !!! i) E) as HE; cbv beta in HE; rewrite Hpp in HE;
        rewrite <- HE; try rewrite (Hi (3 * (q - 1))%nat) by lia; try rewrite (Hi (3 * (q - 1) + 1)%nat) by lia;
        try rewrite (Hi (3 * (q - 1) + 2)%nat) by lia; done.
    + rewrite list_lookup_total_insert_ne by done. destruct (Hq q' Hq') as (T1 & T2 & T3 & d1 & d2 & d3 & T4 & U1 & U2 & U3).
      destruct (lugares q' Hq') as ((P1 & _) & (P2 & _) & (P3 & _)).
      split; [done|]. split; [done|]. split; [done|]. exists d1, d2, d3. split; [done|].
      rewrite !Hi by (intros E; apply Hne; unfold q; rewrite <- E; assumption). done.
  - done.
  - by apply dd_pon.
  - intros i Hi9. unfold tc_de, mr_de. cbn [tim lista].
    destruct (Nat.eq_dec q (associatedTimer i)) as [Eq|Eq].
    + rewrite <- Eq. rewrite list_lookup_total_insert_eq by lia. split; [done|]. intros Hne. split; [by apply Hi|].
      cbn [canales]. rewrite list_lookup_total_insert_ne; [done|]. intros Ek. apply Hne.
      unfold q, associatedTimer, associatedCompareMatch in *.
      rewrite (Nat.div_mod_eq i 3), (Nat.div_mod_eq p 3). lia.
    + rewrite list_lookup_total_insert_ne by done. split; [done|]. intros Hne. split; [by apply Hi|done].
Qed.

(** a place keeps its servo, its timing and its level; its angle is [v] *)
Definition sigue (i : nat) (v : Z) (s s' : estado) : Prop :=
  servo (lista s' !!! i) = servo (lista s !!! i) /\ value (lista s' !!! i) = v /\ tc_de i s' = tc_de i s /\ mr_de i s' = mr_de i s /\
  nivel i s' = nivel i s.

Lemma encuentra n s p : length (lista s) = 9%nat -> servoIsAttached n s = S p ->
  (p < 9)%nat /\ servo (lista s !!! p) = n.
Proof.
  unfold servoIsAttached. intros Hl H. destruct (list_find _ (lista s)) as [[p' a]|] eqn:Hf; [|done]. injection H as ->.
  apply list_find_Some in Hf as (Hp & Ha & _). split; [rewrite <- Hl; by eapply lookup_lt_Some|].
  by rewrite (list_lookup_total_correct _ _ _ Hp).
Qed.
Lemma no_encuentra n s p : length (lista s) = 9%nat -> servoIsAttached n s = O -> (p < 9)%nat -> servo (lista s !!! p) <> n.
Proof.
  unfold servoIsAttached. intros Hl H Hp. destruct (list_find _ (lista s)) as [[p' a]|] eqn:Hf; [done|].
  apply list_find_None in Hf. rewrite Forall_lookup in Hf. apply (Hf p). apply list_lookup_lookup_total_lt. lia.
Qed.
Lemma libre_no n a : servo a = n -> 0 <= n < 9 -> libre a = false.
Proof. unfold libre, EMPTY_POSITION. lia. Qed.

(** the entry of a place is replaced by one that keeps the order *)
Lemma lista_pon l p a :
  lista_ok l -> (p < 9)%nat -> servo_ok a ->
  (libre a = true \/ forall p', (p' < 9)%nat -> p' <> p -> servo (l !!! p') <> servo a) -> lista_ok (<[p := a]> l).
Proof.
  intros (Hl & Hs & Hd) Hp Ha Hu.
  assert (He : forall i, <[p := a]> l !!! i = if decide (i = p) then a else l !!! i).
  { intros i. destruct (decide (i = p)) as [->|Hne]; [apply list_lookup_total_insert_eq; lia|by apply list_lookup_total_insert_ne]. }
  split; [by rewrite length_insert|]. split; [intros i Hi; rewrite He; destruct (decide (i = p)); auto|].
  intros i j Hi Hj. rewrite !He. destruct (decide (i = p)) as [->|Hip], (decide (j = p)) as [->|Hjp]; [done|..].
  - intros Hf E. destruct Hu as [Hu|Hu]; [congruence|]. symmetry in E. by destruct (Hu j Hj Hjp).
  - intros Hf E. destruct Hu as [Hu|Hu]; [|by destruct (Hu i Hi Hip)].
    unfold libre in *. rewrite <- E in Hu. congruence.
  - by apply Hd.
Qed.

(** the match of a place *)
Lemma canal_de s p : en_ciclo s -> (p < 9)%nat ->
  (1 <= associatedCompareMatch p < 4)%nat /\ length (canales (tim s !!! associatedTimer p)) = 4%nat /\
  canal_ok (lista s !!! p) (canales (tim s !!! associatedTimer p) !!! associatedCompareMatch p) /\
  tcr (tim s !!! associatedTimer p) = true /\ nvic (tim s !!! associatedTimer p) = true.
Proof.
  intros Hs Hp. destruct (lugar_caso p Hp) as [Hq Hcp].
  pose proof (ec_q _ Hs _ Hq) as (Hr & Hn & _ & c1 & c2 & c3 & Hcs & K1 & K2 & K3).
  split; [unfold associatedCompareMatch; pose proof (Nat.mod_upper_bound p 3); lia|].
  rewrite Hcs. split; [done|]. split; [|done].
  destruct (lugares _ Hq) as ((_ & Q1 & _) & (_ & Q2 & _) & (_ & Q3 & _)).
  destruct Hcp as [E|[E|E]]; rewrite <- E in *; rewrite ?Q1, ?Q2, ?Q3; done.
Qed.

(** an angle *)
Lemma servoWrite_ok m angle s i :
  en_ciclo s -> 0 <= m < 9 -> (i < 9)%nat ->
  en_ciclo (snd (servoWrite m angle s)) /\
  sigue i (if (servo (lista s !!! i) =? m) && ((0 <=? angle) && (angle <=? 180)) then angle else value (lista s !!! i))
    s (snd (servoWrite m angle s)).
Proof.
  intros Hs Hm Hi. pose proof (ec_lista _ Hs) as Hlo. unfold servoWrite.
  destruct (servoIsAttached m s) as [|p] eqn:Hp.
  { pose proof (no_encuentra _ _ _ (proj1 Hlo) Hp Hi) as Hne. apply Z.eqb_neq in Hne. by rewrite Hne. }
  destruct (_ && _) eqn:Hang; [|by rewrite andb_false_r]. rewrite andb_true_r. cbn [snd]. destruct (encuentra _ _ _ (proj1 Hlo) Hp) as [Hp9 Hsp].
  pose proof (libre_no _ _ Hsp Hm) as Hf. set (a := mkAttached _ (u8 angle)).
  assert (Hfa : libre a = false) by exact Hf.
  assert (Ha : servo_ok a).
  { split; [right; subst a; cbn; lia|]. cbn. rewrite u8_small; lia. }
  destruct (canal_de s p Hs Hp9) as (Hk & Hcl & Hco & Hr & Hn). destruct (lugar_caso p Hp9) as [Hqp _].
  pose proof (ec_tim _ Hs) as Hl. pose proof (ec_dd _ Hs) as (D1 & D2 & D3 & D4).
  destruct (cambia_lugar s p a (tim s !!! associatedTimer p) (timerCompareMatchfunc p) (pines s) (con_servo p a s) Hs Hp9)
    as [Hec Hres].
  - apply lista_pon; [done|done|done|]. right. intros p' Hp' Hne E. apply Hne. destruct Hlo as (_ & _ & Hd).
    symmetry. by apply Hd.
  - done.
  - eexists. split; [unfold canal_ok in *; rewrite Hfa; rewrite Hf in Hco; exact Hco|].
    rewrite list_insert_id by (apply list_lookup_lookup_total_lt; lia).
    destruct (tim s !!! associatedTimer p) as [x cs r n]. cbn in *. by subst r n.
  - done.
  - unfold con_servo. rewrite <- (D4 p Hp9 Hf).
    rewrite (list_insert_id (dd s !!! associatedTimer p)) by (apply list_lookup_lookup_total_lt; rewrite D2; lia).
    rewrite (list_insert_id (dd s)) by (apply list_lookup_lookup_total_lt; lia).
    by rewrite (list_insert_id (tim s)) by (apply list_lookup_lookup_total_lt; lia).
  - split; [exact Hec|].
    assert (Hsv : servo (lista (con_servo p a s) !!! i) = servo (lista s !!! i)).
    { cbn. destruct (Nat.eq_dec i p) as [->|Hne]; [|by rewrite list_lookup_total_insert_ne].
      rewrite list_lookup_total_insert_eq; [done|]. destruct Hlo as [-> _]. done. }
    split; [exact Hsv|]. split; [|split; [done|]; split; [done|]; unfold nivel, nivel_en; rewrite Hsv; done].
    cbn [con_servo lista]. destruct (Nat.eq_dec i p) as [->|Hne].
    + rewrite list_lookup_total_insert_eq by (destruct Hlo as [-> _]; done). rewrite Hsp, Z.eqb_refl. cbn. apply u8_small. lia.
    + rewrite list_lookup_total_insert_ne by done. destruct (Z.eqb_spec (servo (lista s !!! i)) m) as [E|]; [|done].
      destruct Hne. destruct Hlo as (_ & _ & Hd). apply Hd; [done|done| |congruence]. by apply (libre_no m).
Qed.

Lemma en_canal_2 k f g t : (k < length (canales t))%nat ->
  en_canal k f (en_canal k g t) = en_canal k (fun c => f (g c)) t.
Proof. intros Hk. unfold en_canal. cbn. by rewrite list_lookup_total_insert_eq, list_insert_insert_eq. Qed.
Lemma en_canal_mk k f t : tcr t = true -> nvic t = true ->
  en_canal k f t = mkTmr (tc t) (<[k := f (canales t !!! k)]> (canales t)) true true.
Proof. intros Hr Hn. unfold en_canal. by rewrite Hr, Hn. Qed.

(** only the level of another pin changes *)
Lemma con_pin_ok s m v i :
  en_ciclo s -> 0 <= m < 9 -> (i < 9)%nat -> libre (lista s !!! i) = false -> servo (lista s !!! i) <> m ->
  let s' := mkEstado (tim s) (dd s) (lista s) (con_pin m v (pines s)) in en_ciclo s' /\ sigue i (value (lista s !!! i)) s s'.
Proof.
  intros [H1 H2 H3 H4 H5] Hm Hi Hf Hne s'. split; [by split|]. do 4 (split; [done|]). subst s'. unfold nivel, nivel_en. cbn [pines lista].
  unfold con_pin.  rewrite lookup_insert_ne; [done|]. intros E. apply Hne. symmetry. apply pata_inj; [done|by eapply rango_servo|done].
Qed.

Lemma servoDetach_ok m s i :
  en_ciclo s -> 0 <= m < 9 -> (i < 9)%nat -> servo (lista s !!! i) <> m ->
  en_ciclo (snd (servoDetach m s)) /\ sigue i (value (lista s !!! i)) s (snd (servoDetach m s)).
Proof.
  intros Hs Hm Hi Hne. unfold servoDetach. destruct (servoIsAttached m s) as [|p] eqn:Hp; [done|]. cbn [snd].
  pose proof (ec_lista _ Hs) as Hlo. destruct (encuentra _ _ _ (proj1 Hlo) Hp) as [Hp9 Hsp].
  destruct (canal_de s p Hs Hp9) as (Hk & Hcl & (Hcr & _) & Hr & Hn).
  assert (Hip : i <> p) by congruence. set (a := mkAttached EMPTY_POSITION 0).
  assert (Ha : servo_ok a) by (split; [by left|cbn; lia]).
  unshelve epose proof (cambia_lugar s p a _ doNothing (pines s)
    (Timer_DisableCompareMatch (associatedTimer p) (associatedCompareMatch p) (con_servo p a s)) Hs Hp9
    (lista_pon _ _ _ Hlo Hp9 Ha (or_introl eq_refl)) Ha _ _ eq_refl) as [Hec Hres].
  - cbn [tim con_funcion con_servo]. unfold Chip_TIMER_MatchDisableInt, Chip_TIMER_ClearMatch.
    rewrite en_canal_2, en_canal_mk by (done || lia). eexists. split; [|reflexivity]. by repeat split.
  - done.
  - split; [exact Hec|]. destruct (Hres i Hi) as [E2 E3]. destruct (E3 Hip) as [E1 E4].
    split; [by rewrite E1|]. split; [by rewrite E1|]. split; [done|]. split; [done|]. unfold nivel, nivel_en. by rewrite E1.
Qed.

Lemma servoAttach_pin m s : 0 <= m < 9 ->
  servoAttach m s = servoAttach_resto m (mkEstado (tim s) (dd s) (lista s) (con_pin m false (pines s))).
Proof.
  intros Hm. unfold servoAttach, gpioConfig_salida. pose proof (@gpioWrite_pata _ false s Hm) as Hw.
  unfold mbind, res_bind in *. destruct (servo_pin m) as [pin| |]; [|done|done]. by rewrite Hw.
Qed.
(** a servo that was not in the list takes the first free place *)
Lemma servoAttach_nuevo m s p :
  en_ciclo s -> 0 <= m < 9 -> servoIsAttached m s = O -> servoIsAttached EMPTY_POSITION s = S p ->
  exists s', servoAttach m s = Bien (true, s') /\ en_ciclo s' /\
    lista s' = <[p := mkAttached m (value (lista s !!! p))]> (lista s) /\ pines s' = con_pin m false (pines s) /\
    forall i, (i < 9)%nat -> tc_de i s' = tc_de i s /\ (i <> p -> lista s' !!! i = lista s !!! i /\ mr_de i s' = mr_de i s).
Proof.
  intros Hs Hm Hm1 Hp. rewrite servoAttach_pin by done. unfold servoAttach_resto.
  set (s1 := mkEstado (tim s) (dd s) (lista s) (con_pin m false (pines s))).
  change (servoIsAttached m s1) with (servoIsAttached m s). rewrite Hm1.
  change (servoIsAttached EMPTY_POSITION s1) with (servoIsAttached EMPTY_POSITION s). rewrite Hp.
  assert (Hc : en_ciclo s1) by (destruct Hs; by split).
  pose proof (ec_lista _ Hs) as Hlo. destruct (encuentra _ _ _ (proj1 Hlo) Hp) as [Hp9 Hsp].
  destruct (canal_de s p Hs Hp9) as (Hk & Hcl & (Hcr & Hci & _) & Hr & Hn).
  set (a := mkAttached m (value (lista s !!! p))).
  assert (Ha : servo_ok a) by (split; [by right|apply (proj1 (proj2 Hlo) p Hp9)]).
  assert (Hlk : lista (con_servo p a s1) !!! p = a).
  { apply list_lookup_total_insert_eq. pose proof (proj1 Hlo). cbn [s1 lista]. lia. }
  eexists. split; [reflexivity|]. change (lista s1) with (lista s). fold a. rewrite Hlk.
  unshelve epose proof (cambia_lugar s1 p a _ (timerCompareMatchfunc p) (pines s1)
    (Timer_EnableCompareMatch (associatedTimer p) (associatedCompareMatch p) (ancho (value a)) (timerCompareMatchfunc p)
       (con_servo p a s1)) Hc Hp9 _ Ha _ _ eq_refl) as [Hec Hres].
  - apply lista_pon; [done|done|done|]. right. intros p' Hp' _. exact (no_encuentra _ _ _ (proj1 Hlo) Hm1 Hp').
  - cbn [tim con_funcion con_servo s1]. unfold Chip_TIMER_SetMatch, Chip_TIMER_MatchEnableInt.
    rewrite en_canal_2, en_canal_mk by (done || lia). eexists. split; [|reflexivity].
    split; [done|]. split; [done|]. split; [symmetry; cbn; apply negb_true_iff; by apply (libre_no m)|].
    intros _. cbn [mr]. pose proof (ancho_rango _ (proj2 Ha)). lia.
  - done.
  - split; [exact Hec|]. split; [done|]. split; [done|exact Hres].
Qed.

Lemma servoAttach_ok m s i :
  en_ciclo s -> 0 <= m < 9 -> (i < 9)%nat -> libre (lista s !!! i) = false -> servo (lista s !!! i) <> m ->
  exists r s', servoAttach m s = Bien (r, s') /\ en_ciclo s' /\ sigue i (value (lista s !!! i)) s s'.
Proof.
  intros Hs Hm Hi Hf Hne. destruct (con_pin_ok s m false i Hs Hm Hi Hf Hne) as [Hc Hg].
  assert (H : servoIsAttached m s = O /\ (exists p, servoIsAttached EMPTY_POSITION s = S p) \/
    exists r, servoAttach m s = Bien (r, mkEstado (tim s) (dd s) (lista s) (con_pin m false (pines s)))).
  { rewrite servoAttach_pin by done. unfold servoAttach_resto. change (servoIsAttached m (mkEstado _ _ _ _)) with (servoIsAttached m s).
    destruct (servoIsAttached m s); [|right; by eexists].
    change (servoIsAttached EMPTY_POSITION (mkEstado _ _ _ _)) with (servoIsAttached EMPTY_POSITION s).
    destruct (servoIsAttached EMPTY_POSITION s); [right; by eexists|left; eauto]. }
  destruct H as [(Hm1 & p & Hp)|(r & H)]; [|by eexists _, _].
  destruct (servoAttach_nuevo m s p Hs Hm Hm1 Hp) as (s' & E & Hec & El & Ep & Hres). exists true, s'.
  split; [done|]. split; [done|]. assert (Hip : i <> p).
  { intros ->. destruct (encuentra _ _ _ (proj1 (ec_lista _ Hs)) Hp) as [_ Hsp]. unfold libre in Hf. lia. }
  destruct (Hres i Hi) as [E2 E3]. destruct (E3 Hip) as [E1 E4]. destruct Hg as (_ & _ & _ & _ & G).
  split; [by rewrite E1|]. split; [by rewrite E1|]. split; [done|]. split; [done|].
  etransitivity; [|exact G]. unfold nivel, nivel_en. by rewrite E1, Ep.
Qed.

(** ** The pulse *)

(** an action on the other servos, or an angle for any *)
Definition ajena (n : Z) (a : accion) : bool :=
  match a with
  | Tic => true
  | Conecta m | Desconecta m => (0 <=? m) && (m <? 9) && negb (m =? n)
  | Gira m _ => (0 <=? m) && (m <? 9)
  end.
(** the angle of servo [n] after an action, and after several *)
Definition angulo (n v : Z) (a : accion) : Z :=
  match a with Gira m x => if (n =? m) && ((0 <=? x) && (x <=? 180)) then x else v | _ => v end.
Definition ultimo (n v : Z) (l : list accion) : Z := fold_left (angulo n) l v.

Lemma haz_ok a s i :
  en_ciclo s -> (i < 9)%nat -> 0 <= servo (lista s !!! i) < 9 -> ajena (servo (lista s !!! i)) a = true -> es_tic a = false ->
  exists s', haz a s = Bien s' /\ en_ciclo s' /\ sigue i (angulo (servo (lista s !!! i)) (value (lista s !!! i)) a) s s'.
Proof.
  intros Hs Hi Hn Ha Ht. pose proof (libre_no _ _ eq_refl Hn) as Hf. destruct a as [|m|m|m x]; [done|..]; cbn in Ha.
  - destruct (servoAttach_ok m s i Hs ltac:(lia) Hi Hf ltac:(lia)) as (r & s' & E & H). exists s'. split; [|exact H].
    cbn. by rewrite E.
  - eexists. split; [reflexivity|]. apply servoDetach_ok; [done|lia|done|lia].
  - eexists. split; [reflexivity|]. apply servoWrite_ok; [done|lia|done].
Qed.

(** [n] stands at the place [i], [k] ticks into a cycle whose pulse has the width [w] *)
Record cursa (i : nat) (n w k : Z) (s : estado) : Prop := {
  cu_ciclo : en_ciclo s;
  cu_servo : servo (lista s !!! i) = n;
  cu_tc : tc_de i s = if k =? 0 then PERIODO else k - 1;
  cu_mr : mr_de i s = w;
  cu_nivel : nivel i s = (k <=? w)
}.

Lemma cursa_sigue i n w k v s s' : cursa i n w k s -> en_ciclo s' -> sigue i v s s' -> cursa i n w k s' /\ value (lista s' !!! i) = v.
Proof. intros [H1 H2 H3 H4 H5] Hc (E1 & E2 & E3 & E4 & E5). split; [|done]. split; congruence. Qed.

Lemma cursa_tic i n w k s :
  (i < 9)%nat -> 0 <= n < 9 -> 0 <= w <= MAXIMO -> 0 <= k < PERIODO -> cursa i n w k s ->
  exists s', instante s = Bien s' /\ cursa i n w (k + 1) s' /\ lista s' = lista s.
Proof.
  intros Hi Hn Hw Hk [H1 H2 H3 H4 H5]. destruct (instante_ok s H1) as (s' & E & Hc & El & Hp). exists s'. split; [done|].
  split; [|done]. destruct (Hp i Hi (libre_no _ _ H2 Hn)) as (T1 & T2 & T3).
  assert (Hx : siguiente_tc (tc_de i s) = k).
  { rewrite H3. unfold siguiente_tc. destruct (Z.eqb_spec k 0) as [->|]; [by rewrite Z.eqb_refl|].
    destruct (Z.eqb_spec (k - 1) PERIODO); lia. }
  rewrite Hx in *. assert (Hkp : (k =? PERIODO) = false) by lia. rewrite Hkp in *.
  assert (Hk1 : (k + 1 =? 0) = false) by lia.
  split; [done|by rewrite El|rewrite Hk1; lia|congruence|]. rewrite T3, H4, H5. destruct (Z.eqb_spec w k); lia.
Qed.
(** the start of a cycle *)
Lemma cursa_inicio i n s :
  (i < 9)%nat -> 0 <= n < 9 -> en_ciclo s -> servo (lista s !!! i) = n -> tc_de i s = PERIODO - 1 ->
  exists s', instante s = Bien s' /\ cursa i n (ancho (value (lista s !!! i))) 0 s' /\ lista s' = lista s.
Proof.
  intros Hi Hn H1 H2 H3. destruct (instante_ok s H1) as (s' & E & Hc & El & Hp). exists s'. split; [done|].
  split; [|done]. destruct (Hp i Hi (libre_no _ _ H2 Hn)) as (T1 & T2 & T3). clear Hp. rewrite H3 in *.
  change (siguiente_tc _) with PERIODO in *. rewrite Z.eqb_refl in *.
  pose proof (proj1 (proj2 (ec_lista _ H1)) i Hi) as [_ Hv]. pose proof (ancho_rango _ Hv).
  split; [done|by rewrite El|done|done|]. rewrite T3. symmetry. apply Z.leb_le. lia.
Qed.

Lemma tics_cons a l : tics (a :: l) = (if es_tic a then 1 else 0) + tics l.
Proof. unfold tics. cbn. destruct (es_tic a); cbn [length]; lia. Qed.

Lemma corre_cursa i n w l : forall k s,
  (i < 9)%nat -> 0 <= n < 9 -> 0 <= w <= MAXIMO -> 0 <= k -> k + tics l <= PERIODO -> cursa i n w k s ->
  forallb (ajena n) l = true ->
  exists s', corre l s = Bien s' /\ cursa i n w (k + tics l) s' /\ value (lista s' !!! i) = ultimo n (value (lista s !!! i)) l.
Proof.
  induction l as [|a l IH]; intros k s Hi Hn Hw Hk Hl Hc Ha; cbn [corre ultimo fold_left].
  - exists s. change (tics []) with 0. by rewrite Z.add_0_r.
  - cbn in Ha. apply andb_prop in Ha as [Ha Hal]. rewrite tics_cons in *. assert (0 <= tics l) by (unfold tics; lia).
    assert (Hstep : exists s1, haz a s = Bien s1 /\ cursa i n w (k + (if es_tic a then 1 else 0)) s1 /\
      value (lista s1 !!! i) = angulo n (value (lista s !!! i)) a).
    { destruct (es_tic a) eqn:Et.
      - destruct a; try discriminate Et. destruct (cursa_tic i n w k s) as (s1 & E & Hc1 & El); [done..|lia|done|].
        exists s1. by rewrite El.
      - destruct Hc as [H1 H2 H3 H4 H5]. subst n. destruct (haz_ok a s i H1 Hi Hn Ha Et) as (s1 & E & Hc1 & Hg).
        exists s1. rewrite Z.add_0_r. split; [done|]. by apply (cursa_sigue _ _ _ _ _ s). }
    destruct Hstep as (s1 & E & Hc1 & Hv). rewrite E. cbn [mbind res_bind].
    destruct (IH (k + (if es_tic a then 1 else 0)) s1) as (s' & E' & Hc' & Hv');
      [done..|by destruct (es_tic a); lia|lia|done|done|]. exists s'. split; [done|].
    split; [by rewrite Z.add_assoc|]. by rewrite Hv', Hv.
Qed.

(** from power-up: the timers count from zero *)
Lemma encendido : exists s, servoInitTimers inicial = Bien s /\ en_ciclo s /\ lista s = lista inicial /\
  forall p, (p < 9)%nat -> tc_de p s = 0.
Proof.
  eexists. split; [vm_compute; reflexivity|].
  split; [split|split; [reflexivity|]].
  - done.
  - done.
  - intros q Hq. assert (Hc : q = 1%nat \/ q = 2%nat \/ q = 3%nat) by lia.
    destruct Hc as [->|[->| ->]]; (do 3 (split; [done|])); eexists _, _, _; (split; [reflexivity|]); by repeat split.
  - split; [done|]. split.
    + intros p Hp. do 9 (destruct p as [|p]; [split; [by left|by vm_compute]|]). lia.
    + intros p p' Hp _ Hf. exfalso. revert Hf. do 9 (destruct p as [|p]; [by vm_compute|]). lia.
  - split; [done|]. split; [intros q Hq; do 4 (destruct q as [|q]; [done|]); lia|].
    split; [intros q Hq; assert (Hc : q = 1%nat \/ q = 2%nat \/ q = 3%nat) by lia; by destruct Hc as [->|[->| ->]]|].
    intros p Hp Hf. exfalso. revert Hf. do 9 (destruct p as [|p]; [by vm_compute|]). lia.
  - intros p Hp. do 9 (destruct p as [|p]; [done|]). lia.
Qed.

(** the wait for the first cycle *)
Lemma corre_espera i n l : forall s,
  (i < 9)%nat -> 0 <= n < 9 -> en_ciclo s -> servo (lista s !!! i) = n -> 0 <= tc_de i s -> tc_de i s + tics l < PERIODO ->
  forallb (ajena n) l = true ->
  exists s', corre l s = Bien s' /\ en_ciclo s' /\ servo (lista s' !!! i) = n /\ tc_de i s' = tc_de i s + tics l /\
    value (lista s' !!! i) = ultimo n (value (lista s !!! i)) l.
Proof.
  induction l as [|a l IH]; intros s Hi Hn Hc Hs Hx Hl Ha; cbn [corre ultimo fold_left].
  - exists s. change (tics []) with 0. by rewrite Z.add_0_r.
  - cbn in Ha. apply andb_prop in Ha as [Ha Hal]. rewrite tics_cons in *. assert (0 <= tics l) by (unfold tics; lia).
    assert (Hstep : exists s1, haz a s = Bien s1 /\ en_ciclo s1 /\ servo (lista s1 !!! i) = n /\
      tc_de i s1 = tc_de i s + (if es_tic a then 1 else 0) /\ value (lista s1 !!! i) = angulo n (value (lista s !!! i)) a).
    { destruct (es_tic a) eqn:Et.
      - destruct a; try discriminate Et. destruct (instante_ok s Hc) as (s1 & E & Hc1 & El & Hp). exists s1.
        rewrite El. do 3 (split; [done|]). split; [|done]. rewrite (proj1 (Hp i Hi (libre_no _ _ Hs Hn))).
        unfold siguiente_tc. destruct (Z.eqb_spec (tc_de i s) PERIODO); lia.
      - subst n. destruct (haz_ok a s i Hc Hi Hn Ha Et) as (s1 & E & Hc1 & E1 & E2 & E3 & _). exists s1.
        do 3 (split; [done|]). split; [lia|done]. }
    destruct Hstep as (s1 & E & Hc1 & Hs1 & Hx1 & Hv). rewrite E. cbn [mbind res_bind].
    destruct (IH s1) as (s' & E' & Hc' & Hs' & Hx' & Hv'); [done..|rewrite Hx1; destruct (es_tic a); lia|lia|done|].
    exists s'. do 3 (split; [done|]). split; [lia|]. by rewrite Hv', Hv.
Qed.
Lemma corre_app l l' s : corre (l ++ l') s = (s ← corre l s; corre l' s).
Proof. revert s. induction l as [|a l IH]; intros s; cbn; [done|]. destruct (haz a s); cbn; [apply IH|done..]. Qed.

(** a servo attached at the start is at the start of a cycle 20 ms later *)
Lemma servo_arranque n l :
  0 <= n < 9 -> tics l = PERIODO - 1 -> forallb (ajena n) l = true ->
  exists s, (s ← servoInitTimers inicial; corre (Conecta n :: l ++ [Tic]) s) = Bien s /\
    cursa 0 n (ancho (ultimo n 0 l)) 0 s /\ value (lista s !!! 0%nat) = ultimo n 0 l.
Proof.
  intros Hn Ht Ha. destruct encendido as (s & E & Hc & El & Hx). rewrite E. cbn [mbind res_bind corre haz servoInit].
  assert (Hi : forall m, servoIsAttached m s = servoIsAttached m inicial) by (intros m; unfold servoIsAttached; by rewrite El).
  destruct (servoAttach_nuevo n s 0 Hc Hn) as (s1 & E1 & Hc1 & El1 & _ & Hx1).
  { rewrite Hi. unfold servoIsAttached. rewrite (proj2 (list_find_None _ _)); [done|].
    cbn. repeat constructor; unfold EMPTY_POSITION; cbn; lia. }
  { by rewrite Hi. }
  rewrite E1. cbn [mbind res_bind snd]. rewrite El in El1.
  assert (Hs1 : lista s1 !!! 0%nat = mkAttached n 0) by (by rewrite El1).
  destruct (Hx1 0%nat ltac:(lia)) as [Hx0 _]. rewrite Hx in Hx0 by lia.
  destruct (corre_espera 0 n l s1) as (s2 & E2 & Hc2 & Hs2 & Hx2 & Hv2); [lia|done|done|by rewrite Hs1|lia|lia|done|].
  rewrite corre_app, E2. cbn [mbind res_bind corre haz]. rewrite Hs1 in Hv2. rewrite Hx0, Ht in Hx2. cbn [value] in Hv2.
  destruct (cursa_inicio 0 n s2) as (s3 & E3 & Hc3 & El3); [lia|done|done|done|lia|]. rewrite E3. cbn [mbind res_bind].
  exists s3. split; [done|]. rewrite Hv2 in Hc3. by rewrite El3.
Qed.

(** C39: at a place of the list, from the start of a cycle of 4 080 001 ticks, the pin of the servo
    stays high for 204 (500 + 2000 v / 180) + 1 ticks and low for the rest, where v is the angle that
    the servo had at that start, whatever is done meanwhile: attaching and detaching others, giving
    any servo an angle.  The next cycle starts on time, with the angle given last. *)
Theorem servo_pulso i n v s l :
  (i < 9)%nat -> 0 <= n < 9 -> 0 <= v <= 180 -> cursa i n (204 * (500 + v * 2000 / 180)) 0 s ->
  forallb (ajena n) l = true -> tics l <= PERIODO ->
  exists s', corre l s = Bien s' /\ nivel i s' = (tics l <=? 204 * (500 + v * 2000 / 180)) /\
    let v' := ultimo n (value (lista s !!! i)) l in
    value (lista s' !!! i) = v' /\
    (tics l = PERIODO ->
     exists s'', instante s' = Bien s'' /\ cursa i n (204 * (500 + v' * 2000 / 180)) 0 s'' /\ value (lista s'' !!! i) = v').
Proof.
  intros Hi Hn Hv Hc Ha Ht. destruct (ancho_rango v Hv) as [E Hw]. rewrite <- E in *.
  destruct (corre_cursa i n (ancho v) l 0 s) as (s' & Hr & Hc' & Hl); [done..|lia|lia|done|done|done|].
  exists s'. split; [done|]. split; [by rewrite (cu_nivel _ _ _ _ _ Hc')|]. cbv zeta. split; [done|]. intros Hp.
  rewrite Z.add_0_l, Hp in Hc'. destruct (cursa_inicio i n s' Hi Hn (cu_ciclo _ _ _ _ _ Hc') (cu_servo _ _ _ _ _ Hc') (cu_tc _ _ _ _ _ Hc')) as (s'' & E2 & Hc2 & El). exists s''.
  rewrite Hl in Hc2. split; [done|]. split; [|by rewrite El].
  pose proof (proj1 (proj2 (ec_lista _ (cu_ciclo _ _ _ _ _ Hc'))) i Hi) as [_ Hv2]. rewrite Hl in Hv2.
  by rewrite <- (proj1 (ancho_rango _ Hv2)).
Qed.

(** a first angle and a wait *)
Definition giro_y_espera (n x : Z) (k : nat) : list accion := Gira n x :: replicate k Tic.
Lemma giro_y_espera_ok n x k : 0 <= n < 9 -> 0 <= x <= 180 ->
  tics (giro_y_espera n x k) = Z.of_nat k /\ forallb (ajena n) (giro_y_espera n x k) = true /\
  ultimo n 0 (giro_y_espera n x k) = x.
Proof.
  intros Hn Hx. unfold giro_y_espera. rewrite tics_cons. cbn [es_tic forallb ajena ultimo fold_left angulo].
  rewrite Z.eqb_refl. assert (E : (0 <=? n) && (n <? 9) = true /\ (0 <=? x) && (x <=? 180) = true) by lia.
  destruct E as [-> ->]. cbn [andb].
  induction k as [|k (IH1 & IH2 & IH3)]; [done|]. cbn [replicate forallb fold_left angulo ajena andb].
  rewrite tics_cons. cbn [es_tic]. split; [lia|done].
Qed.

(** servo 4 at 90 degrees from power-up; in its first pulse it is told to go to 180 *)
Lemma servo_pulso_witness : exists s,
  (s ← servoInitTimers inicial; corre (Conecta 4 :: giro_y_espera 4 90 (Z.to_nat (PERIODO - 1)) ++ [Tic]) s) = Bien s /\
  exists s', corre [Tic; Gira 4 180; Conecta 2; Tic] s = Bien s' /\ nivel 0 s' = true /\ value (lista s' !!! 0%nat) = 180.
Proof.
  generalize (Z2Nat.id (PERIODO - 1) ltac:(discriminate)). generalize (Z.to_nat (PERIODO - 1)) as k. intros k Hk.
  destruct (giro_y_espera_ok 4 90 k) as (Ht & Ha & Hu); [lia|lia|]. rewrite Hk in Ht.
  destruct (servo_arranque 4 (giro_y_espera 4 90 k)) as (s & E & Hc & Hv); [lia|exact Ht|exact Ha|].
  exists s. split; [exact E|]. rewrite Hu in Hc, Hv. change (ancho 90) with (204 * (500 + 90 * 2000 / 180)) in Hc.
  destruct (servo_pulso 0 4 90 s [Tic; Gira 4 180; Conecta 2; Tic]) as (s' & E' & Hn & Hv' & _);
    [lia|lia|lia|exact Hc|reflexivity|discriminate|].
  exists s'. split; [exact E'|]. split; [rewrite Hn; reflexivity|]. rewrite Hv', Hv. reflexivity.
Defined.

(** ** What the code leaves undone *)

(** attaching a servo that is attached cuts the pulse it is giving *)
Lemma servoAttach_corta n s : 0 <= n < 9 -> servoIsAttached n s <> O ->
  servoAttach n s = Bien (false, mkEstado (tim s) (dd s) (lista s) (con_pin n false (pines s))).
Proof.
  intros Hn Ha. rewrite servoAttach_pin by done. unfold servoAttach_resto.
  change (servoIsAttached n (mkEstado _ _ _ _)) with (servoIsAttached n s). by destruct (servoIsAttached n s).
Qed.
(** detaching a servo leaves its pin as it is, and nothing ends the pulse *)
Lemma servoDetach_deja n s : pines (snd (servoDetach n s)) = pines s.
Proof. unfold servoDetach. by destruct (servoIsAttached n s). Qed.
(** the timers enabled again forget the matches of the servos attached *)
Example servoInit_olvida :
  (s ← servoInitTimers inicial; r ← servoInit 0 SERVO_ENABLE_OUTPUT s; r ← servoInit 0 SERVO_ENABLE (snd r);
   Bien (servoIsAttached 0 (snd r), cint (canales (tim (snd r) !!! 1%nat) !!! 1%nat))) = Bien (1%nat, false).
Proof. vm_compute. reflexivity. Qed.
