(* ===== verification/Pwm.v ===== *)
(** * sapi_pwm.c and sapi_sct.c: duty cycles behind a list of attached outputs

    The registers of the SCT that sct_pwm_18xx_43xx.c writes, the channels of sapi_sct.c and
    the list of sapi_pwm.c.  The theorem: whatever is asked of them, the answers are those of
    a finite map from the outputs attached to their values. *)

From Stdlib Require Import ZArith Lia Bool.
From stdpp Require Import base list gmap numbers.
From stdpp Require Import options.
From S2P Require Import Prelude Machine Effects Sapi.

(** ** The registers of the SCT *)
Record sct : Type := mkSct {
  MATCHREL : list Z;
  EVENT_CTRL : list Z;
  EVENT_STATE : list Z;
  OUT_SET : list Z;
  OUT_CLR : list Z;
  RES : Z;
  OUTPUTDIRCTRL : Z;
  CTRL_U : Z;
  MATCH0 : Z;
  LIMIT_L : Z;
  CONFIG : Z
}.
Definition sct_reset : sct :=
  mkSct (replicate 16 0) (replicate 16 0) (replicate 16 0) (replicate 16 0) (replicate 16 0) 0 0 (Z.lor 4 (Z.shiftl 4 16)) 0 0 0.

(** two bits of a register, of the output [pin] *)
Definition dos_bits (r pin v : Z) : Z := Z.lor (Z.land r (Z.lxor (Z.shiftl 3 (pin * 2)) (2 ^ 32 - 1))) (Z.shiftl v (pin * 2)).

(** sct_18xx_43xx.h *)
Definition Chip_SCT_SetMatchReload (n : nat) (value : Z) (s : sct) : sct :=
  mkSct (<[n := value]> (MATCHREL s)) (EVENT_CTRL s) (EVENT_STATE s) (OUT_SET s) (OUT_CLR s) (RES s)
    (OUTPUTDIRCTRL s) (CTRL_U s) (MATCH0 s) (LIMIT_L s) (CONFIG s).
Definition con_ctrl (f : Z -> Z) (s : sct) : sct :=
  mkSct (MATCHREL s) (EVENT_CTRL s) (EVENT_STATE s) (OUT_SET s) (OUT_CLR s) (RES s)
    (OUTPUTDIRCTRL s) (f (CTRL_U s)) (MATCH0 s) (LIMIT_L s) (CONFIG s).
Definition SCT_CTRL_HALT : Z := Z.lor (Z.shiftl 1 2) (Z.shiftl 1 18).
Definition SCT_CTRL_CLRCTR : Z := Z.lor (Z.shiftl 1 3) (Z.shiftl 1 19).
Definition Chip_SCT_SetControl (value : Z) : sct -> sct := con_ctrl (fun c => Z.lor c value).
Definition Chip_SCT_ClearControl (value : Z) : sct -> sct := con_ctrl (fun c => Z.land c (Z.lxor value (2 ^ 32 - 1))).

(** sct_pwm_18xx_43xx.c and .h *)
Definition Chip_SCTPWM_GetTicksPerCycle (s : sct) : Z := MATCHREL s !!! 0%nat.
Definition Chip_SCTPWM_PercentageToTicks (percent : Z) (s : sct) : Z := u32 (Chip_SCTPWM_GetTicksPerCycle s * percent) / 100.
Definition Chip_SCTPWM_GetDutyCycle (index : nat) (s : sct) : Z := MATCHREL s !!! index.
Definition Chip_SCTPWM_SetDutyCycle (index : nat) (ticks : Z) : sct -> sct := Chip_SCT_SetMatchReload index ticks.
Definition Chip_SCTPWM_Start : sct -> sct := Chip_SCT_ClearControl SCT_CTRL_HALT.
Definition Chip_SCTPWM_Stop (s : sct) : sct := Chip_SCT_SetControl SCT_CTRL_CLRCTR (Chip_SCT_SetControl SCT_CTRL_HALT s).
Definition Chip_SCTPWM_SetOutPin (index pin : nat) (s : sct) : sct :=
  mkSct (MATCHREL s)
    (<[index := Z.lor (Z.of_nat index) (Z.shiftl 1 12)]> (EVENT_CTRL s)) (<[index := 1]> (EVENT_STATE s))
    (<[pin := 1]> (OUT_SET s)) (<[pin := Z.shiftl 1 (Z.of_nat index)]> (OUT_CLR s))
    (dos_bits (RES s) (Z.of_nat pin) 1) (dos_bits (OUTPUTDIRCTRL s) (Z.of_nat pin) 0)
    (CTRL_U s) (MATCH0 s) (LIMIT_L s) (CONFIG s).

Section Pwm.
(** the rate of the clock of the SCT, that clock_18xx_43xx.c computes *)
Context (clk : Z).

Definition Chip_SCTPWM_SetRate (freq : Z) (s : sct) : sct :=
  let rate := clk / freq in
  let s := Chip_SCT_SetMatchReload 0 rate (Chip_SCTPWM_Stop s) in
  mkSct (MATCHREL s) (<[0%nat := Z.shiftl 1 12]> (EVENT_CTRL s)) (<[0%nat := 1]> (EVENT_STATE s)) (OUT_SET s) (OUT_CLR s)
    (RES s) (OUTPUTDIRCTRL s) (CTRL_U s) 0 1 (Z.lor 1 (Z.shiftl 1 17)).

(** ** sapi_sct.c *)
Definition Sct_Init (frequency : Z) (s : sct) : sct := Chip_SCTPWM_Start (Chip_SCTPWM_SetRate frequency s).
Definition Sct_Uint8ToTicks (value : Z) (s : sct) : Z := u32 (Chip_SCTPWM_GetTicksPerCycle s * value) / 255.
Definition Sct_SetDutyCycle (sctNumber : nat) (value : Z) (s : sct) : sct :=
  Chip_SCTPWM_SetDutyCycle (S sctNumber) (Sct_Uint8ToTicks value s) s.
Definition Sct_GetDutyCycle (sctNumber : nat) (s : sct) : Z :=
  u8 (u32 (Chip_SCTPWM_GetDutyCycle (S sctNumber) s * 255) / Chip_SCTPWM_GetTicksPerCycle s).
(** without the function of the pin in the SCU *)
Definition Sct_EnablePwmFor (sctNumber : nat) (s : sct) : sct :=
  let s := Chip_SCTPWM_SetOutPin (S sctNumber) sctNumber s in
  Sct_SetDutyCycle sctNumber (u8 (Chip_SCTPWM_PercentageToTicks 0 s)) s.

(** ** sapi_pwm.c *)
Definition EMPTY_POSITION : Z := 255.
Definition PWM_TOTALNUMBER : nat := 11.
Definition PWM_FREC : Z := 1000.
(** CTOUT1, CTOUT12, ... *)
Definition pwmMap : list nat := [1; 12; 10; 0; 3; 13; 7; 2; 5; 4; 6]%nat.
Definition canal_de (pwmNumber : Z) : nat := pwmMap !!! Z.to_nat pwmNumber.

(** [AttachedPWMList] and the SCT *)
Record estado : Type := mkEstado { lista : list Z; chip : sct }.
Definition inicial : estado := mkEstado (replicate PWM_TOTALNUMBER EMPTY_POSITION) sct_reset.
Definition pwmIsAttached (pwmNumber : Z) (s : estado) : nat :=
  match list_find (fun x => x = pwmNumber) (lista s) with Some (p, _) => S p | None => O end.

Definition pwmAttach (pwmNumber : Z) (s : estado) : bool * estado :=
  match pwmIsAttached pwmNumber s with
  | O =>
      match pwmIsAttached EMPTY_POSITION s with
      | S p => (true, mkEstado (<[p := pwmNumber]> (lista s)) (Sct_EnablePwmFor (canal_de pwmNumber) (chip s)))
      | O => (false, s)
      end
  | S _ => (false, s)
  end.
Definition pwmDetach (pwmNumber : Z) (s : estado) : bool * estado :=
  match pwmIsAttached pwmNumber s with
  | S p => (true, mkEstado (<[p := EMPTY_POSITION]> (lista s)) (chip s))
  | O => (false, s)
  end.
Definition pwmWrite (pwmNumber value : Z) (s : estado) : bool * estado :=
  match pwmIsAttached pwmNumber s with
  | S _ => (true, mkEstado (lista s) (Sct_SetDutyCycle (canal_de pwmNumber) value (chip s)))
  | O => (false, s)
  end.
Definition pwmRead (pwmNumber : Z) (s : estado) : Z :=
  match pwmIsAttached pwmNumber s with
  | S _ => Sct_GetDutyCycle (canal_de pwmNumber) (chip s)
  | O => EMPTY_POSITION
  end.

Inductive pwmInit_t : Type :=
  | PWM_ENABLE | PWM_DISABLE | PWM_ENABLE_OUTPUT | PWM_DISABLE_OUTPUT.
Definition pwmInit (pwmNumber : Z) (config : pwmInit_t) (s : estado) : bool * estado :=
  match config with
  | PWM_ENABLE => (true, mkEstado (lista s) (Sct_Init PWM_FREC (chip s)))
  | PWM_DISABLE => (false, s)
  | PWM_ENABLE_OUTPUT => pwmAttach pwmNumber s
  | PWM_DISABLE_OUTPUT => pwmDetach pwmNumber s
  end.

(** ** What it promises: a map from outputs to values *)
Inductive pedido : Type :=
  | Init (n : Z) (config : pwmInit_t)
  | Write (n value : Z)
  | Read (n : Z).
(** the answer: a truth value as 0 or 1, or a value *)
Definition atiende (p : pedido) (s : estado) : Z * estado :=
  match p with
  | Init n config => let '(b, s) := pwmInit n config s in (Z.b2z b, s)
  | Write n value => let '(b, s) := pwmWrite n value s in (Z.b2z b, s)
  | Read n => (pwmRead n s, s)
  end.
Definition promete (p : pedido) (m : gmap Z Z) : Z * gmap Z Z :=
  match p with
  | Init _ PWM_ENABLE => (1, m)
  | Init _ PWM_DISABLE => (0, m)
  | Init n PWM_ENABLE_OUTPUT => if decide (is_Some (m !! n)) then (0, m) else (1, <[n := 0]> m)
  | Init n PWM_DISABLE_OUTPUT => if decide (is_Some (m !! n)) then (1, delete n m) else (0, m)
  | Write n value => if decide (is_Some (m !! n)) then (1, <[n := value]> m) else (0, m)
  | Read n => (default 255 (m !! n), m)
  end.
Fixpoint varios {S} (f : pedido -> S -> Z * S) (l : list pedido) (s : S) : list Z * S :=
  match l with
  | [] => ([], s)
  | p :: l => let '(a, s) := f p s in let '(r, s) := varios f l s in (a :: r, s)
  end.
Definition bien_pedido (p : pedido) : bool :=
  match p with
  | Init n _ | Read n => (0 <=? n) && (n <? 11)
  | Write n v => (0 <=? n) && (n <? 11) && (0 <=? v) && (v <? 256)
  end.
End Pwm.

(** ** Channels and duty cycles *)
Lemma canal_rango n : 0 <= n < 11 -> (S (canal_de n) < 16)%nat.
Proof.
  intros Hn. assert (H : forallb (fun n => Nat.ltb (S (canal_de n)) 16) (seqZ 0 11) = true) by (vm_compute; reflexivity).
  rewrite forallb_forall in H. apply Nat.ltb_lt, H, list_elem_of_In, elem_of_seqZ. lia.
Qed.
Lemma canal_inj n m : 0 <= n < 11 -> 0 <= m < 11 -> canal_de n = canal_de m -> n = m.
Proof.
  intros Hn Hm. assert (H : forallb (fun n => forallb (fun m => implb (canal_de n =? canal_de m)%nat (n =? m))
    (seqZ 0 11)) (seqZ 0 11) = true) by (vm_compute; reflexivity).
  rewrite forallb_forall in H. specialize (H n ltac:(apply list_elem_of_In, elem_of_seqZ; lia)).
  rewrite forallb_forall in H. specialize (H m ltac:(apply list_elem_of_In, elem_of_seqZ; lia)).
  intros E. rewrite (proj2 (Nat.eqb_eq _ _) E) in H. simpl in H. lia.
Qed.

(** the duty cycle of the value [v], of 204000 ticks *)
Lemma ticks_de v s : Chip_SCTPWM_GetTicksPerCycle s = 204000 -> 0 <= v < 256 -> Sct_Uint8ToTicks v s = 800 * v.
Proof.
  intros HT Hv. unfold Sct_Uint8ToTicks. rewrite HT, u32_small by lia.
  replace (204000 * v) with (800 * v * 255) by lia. by rewrite Z.div_mul.
Qed.
Lemma valor_de n v s : Chip_SCTPWM_GetTicksPerCycle s = 204000 -> 0 <= v < 256 ->
  MATCHREL s !!! S (canal_de n) = 800 * v -> Sct_GetDutyCycle (canal_de n) s = v.
Proof.
  intros HT Hv Hd. unfold Sct_GetDutyCycle, Chip_SCTPWM_GetDutyCycle. rewrite HT, Hd, u32_small by lia.
  replace (800 * v * 255) with (v * 204000) by lia. rewrite Z.div_mul by lia. by apply u8_small.
Qed.

(** ** The relation with the map *)
Record cumple (s : estado) (m : gmap Z Z) : Prop := {
  cu_lista : length (lista s) = PWM_TOTALNUMBER;
  cu_reg : length (MATCHREL (chip s)) = 16%nat;
  cu_ciclo : Chip_SCTPWM_GetTicksPerCycle (chip s) = 204000;
  cu_rango x : x ∈ lista s -> x = EMPTY_POSITION \/ 0 <= x < 11;
  cu_unico p q x : lista s !! p = Some x -> lista s !! q = Some x -> x <> EMPTY_POSITION -> p = q;
  cu_mapa n : 0 <= n < 11 ->
    match m !! n with
    | Some v => n ∈ lista s /\ 0 <= v < 256 /\ MATCHREL (chip s) !!! S (canal_de n) = 800 * v
    | None => n ∉ lista s
    end
}.

Lemma conectado n s :
  match pwmIsAttached n s with S p => lista s !! p = Some n | O => n ∉ lista s end.
Proof.
  unfold pwmIsAttached. destruct (list_find _ (lista s)) as [[p x]|] eqn:H.
  - apply list_find_Some in H as (Hp & -> & _). exact Hp.
  - apply list_find_None in H. intros Hin. rewrite Forall_forall in H. exact (H n (proj1 (list_elem_of_In _ _) Hin) eq_refl).
Qed.
(** there is a place for an output that has none *)
Lemma hay_lugar s m n : cumple s m -> 0 <= n < 11 -> n ∉ lista s -> exists p, pwmIsAttached EMPTY_POSITION s = S p.
Proof.
  intros Hs Hn Hout. pose proof (conectado EMPTY_POSITION s) as He. destruct (pwmIsAttached _ s) as [|p]; [|by exists p].
  exfalso. apply Hout, list_elem_of_In.
  apply (NoDup_length_incl (l := lista s) (l' := seqZ 0 11)).
  - apply NoDup_ListNoDup, NoDup_alt. intros i j x Hi Hj. apply (cu_unico _ _ Hs i j x Hi Hj).
    intros ->. apply He. by eapply list_elem_of_lookup_2.
  - rewrite (cu_lista _ _ Hs). by vm_compute.
  - intros x Hx%list_elem_of_In. apply list_elem_of_In, elem_of_seqZ.
    destruct (cu_rango _ _ Hs x Hx) as [->|]; [done|lia].
  - apply list_elem_of_In, elem_of_seqZ. lia.
Qed.

(** the duty cycle of one output changes *)
Lemma con_valor s m n v l k :
  cumple s m -> 0 <= n < 11 -> 0 <= v < 256 -> MATCHREL k = <[S (canal_de n) := 800 * v]> (MATCHREL (chip s)) ->
  length l = PWM_TOTALNUMBER -> (forall x, x ∈ l -> x = EMPTY_POSITION \/ 0 <= x < 11) ->
  (forall p q x, l !! p = Some x -> l !! q = Some x -> x <> EMPTY_POSITION -> p = q) ->
  (forall x, 0 <= x < 11 -> x ∈ l <-> x = n \/ x ∈ lista s) -> cumple (mkEstado l k) (<[n := v]> m).
Proof.
  intros [H1 H2 H3 H4 H5 H6] Hn Hv Hk Hl Hr Hu Hin. pose proof (canal_rango n Hn).
  split; cbn [lista chip]; [done| | |done|done|].
  - by rewrite Hk, length_insert.
  - unfold Chip_SCTPWM_GetTicksPerCycle. rewrite Hk. by rewrite list_lookup_total_insert_ne.
  - intros x Hx. rewrite Hk. destruct (decide (n = x)) as [->|Hne].
    + rewrite lookup_insert_eq. split; [apply Hin; auto|]. split; [done|]. apply list_lookup_total_insert_eq. lia.
    + rewrite lookup_insert_ne by done. specialize (H6 x Hx). destruct (m !! x) as [v'|].
      * destruct H6 as (H6 & H7 & H8). split; [apply Hin; auto|]. split; [done|]. rewrite list_lookup_total_insert_ne; [done|].
        intros [= E]. apply Hne. by apply canal_inj.
      * rewrite Hin by done. by intros [->|].
Qed.

Section Simulacion.
Context (clk : Z) (Hclk : clk / PWM_FREC = 204000).
#[local] Set Default Proof Using "Type*".

Lemma attach_ok n s m : cumple s m -> 0 <= n < 11 -> m !! n = None ->
  exists s', pwmAttach n s = (true, s') /\ cumple s' (<[n := 0]> m).
Proof.
  intros Hs Hn Hm. pose proof (cu_mapa _ _ Hs n Hn) as Hout. rewrite Hm in Hout.
  destruct (hay_lugar s m n Hs Hn Hout) as [p Hp]. unfold pwmAttach.
  pose proof (conectado n s) as Hc. destruct (pwmIsAttached n s) as [|q]; [|by apply list_elem_of_lookup_2 in Hc].
  rewrite Hp. pose proof (conectado EMPTY_POSITION s) as He. rewrite Hp in He.
  assert (Hpl : (p < length (lista s))%nat) by (by eapply lookup_lt_Some).
  eexists. split; [reflexivity|]. apply (con_valor s); [done|done|lia| | | | |].
  - unfold Sct_EnablePwmFor, Sct_SetDutyCycle, Chip_SCTPWM_SetDutyCycle.
    change (u8 (Chip_SCTPWM_PercentageToTicks 0 ?k)) with (u8 (u32 (Chip_SCTPWM_GetTicksPerCycle k * 0) / 100)).
    rewrite Z.mul_0_r, ticks_de; [done|apply Hs|vm_compute; split; congruence].
  - rewrite length_insert. apply Hs.
  - intros x [i Hi]%list_elem_of_lookup. apply list_lookup_insert_Some in Hi as [(_ & -> & _)|(_ & Hi)]; [by right|].
    apply (cu_rango _ _ Hs). by eapply list_elem_of_lookup_2.
  - intros i j x Hi Hj Hx.
    apply list_lookup_insert_Some in Hi as [(<- & <- & _)|(Hni & Hi)];
    apply list_lookup_insert_Some in Hj as [(<- & Hj & _)|(Hnj & Hj)]; try done.
    + destruct Hout. by eapply list_elem_of_lookup_2.
    + subst x. destruct Hout. by eapply list_elem_of_lookup_2.
    + by apply (cu_unico _ _ Hs i j x).
  - intros x Hx. split.
    + intros [i Hi]%list_elem_of_lookup. apply list_lookup_insert_Some in Hi as [(_ & -> & _)|(_ & Hi)]; [by left|].
      right. by eapply list_elem_of_lookup_2.
    + intros [->|[i Hi]%list_elem_of_lookup]; apply list_elem_of_lookup.
      * exists p. by rewrite list_lookup_insert_eq.
      * exists i. rewrite list_lookup_insert_ne; [done|]. intros ->. rewrite He in Hi. injection Hi as <-.
        unfold EMPTY_POSITION in Hx. lia.
Qed.

Lemma detach_ok n s m : cumple s m -> 0 <= n < 11 -> is_Some (m !! n) ->
  exists s', pwmDetach n s = (true, s') /\ cumple s' (delete n m).
Proof.
  intros Hs Hn [v Hm]. pose proof (cu_mapa _ _ Hs n Hn) as Hin. rewrite Hm in Hin. destruct Hin as (Hin & _).
  unfold pwmDetach. pose proof (conectado n s) as Hc. destruct (pwmIsAttached n s) as [|p]; [done|].
  assert (Hpl : (p < length (lista s))%nat) by (by eapply lookup_lt_Some).
  eexists. split; [reflexivity|].
  assert (Hmem : forall x, 0 <= x < 11 -> x <> n -> x ∈ <[p := EMPTY_POSITION]> (lista s) <-> x ∈ lista s).
  { intros x Hx Hne. rewrite !list_elem_of_lookup. split; intros [i Hi].
    - apply list_lookup_insert_Some in Hi as [(_ & <- & _)|(_ & Hi)]; [unfold EMPTY_POSITION in Hx; lia|by exists i].
    - exists i. rewrite list_lookup_insert_ne; [done|]. intros ->. congruence. }
  pose proof Hs as [H1 H2 H3 H4 H5 H6].
  split; cbn [lista chip]; [by rewrite length_insert|done|done| | |].
  - intros x [i Hi]%list_elem_of_lookup. apply list_lookup_insert_Some in Hi as [(_ & <- & _)|(_ & Hi)]; [by left|].
    apply H4. by eapply list_elem_of_lookup_2.
  - intros i j x Hi Hj Hx.
    apply list_lookup_insert_Some in Hi as [(_ & <- & _)|(_ & Hi)]; [done|].
    apply list_lookup_insert_Some in Hj as [(_ & <- & _)|(_ & Hj)]; [done|]. by apply (H5 i j x).
  - intros x Hx. destruct (decide (n = x)) as [<-|Hne].
    + rewrite lookup_delete_eq. intros [i Hi]%list_elem_of_lookup.
      apply list_lookup_insert_Some in Hi as [(_ & Hi & _)|(Hne & Hi)]; [unfold EMPTY_POSITION in Hi; lia|].
      apply Hne. apply (H5 p i n Hc Hi). unfold EMPTY_POSITION. lia.
    + rewrite lookup_delete_ne by done. specialize (H6 x Hx).
      destruct (m !! x); rewrite Hmem by done; done.
Qed.

Lemma enable_ok s m : cumple s m -> cumple (mkEstado (lista s) (Sct_Init clk PWM_FREC (chip s))) m.
Proof.
  intros [H1 H2 H3 H4 H5 H6].
  assert (Hm : MATCHREL (Sct_Init clk PWM_FREC (chip s)) = MATCHREL (chip s)).
  { unfold Sct_Init, Chip_SCTPWM_SetRate. rewrite Hclk. cbn. apply list_insert_id. rewrite <- H3.
    apply list_lookup_lookup_total_lt. lia. }
  split; cbn [lista chip]; try done; unfold Chip_SCTPWM_GetTicksPerCycle; by rewrite Hm.
Qed.

Lemma paso_ok p s m : cumple s m -> bien_pedido p = true ->
  fst (atiende clk p s) = fst (promete p m) /\ cumple (snd (atiende clk p s)) (snd (promete p m)).
Proof.
  intros Hs Hp. assert (Hat : forall n, 0 <= n < 11 ->
    match m !! n with Some v => exists q, pwmIsAttached n s = S q | None => pwmIsAttached n s = O end).
  { intros n Hn. pose proof (cu_mapa _ _ Hs n Hn) as Hm. pose proof (conectado n s) as Hc.
    destruct (m !! n), (pwmIsAttached n s) as [|q]; [by destruct Hm|by exists q|done|].
    destruct Hm. by eapply list_elem_of_lookup_2. }
  destruct p as [n c|n v|n]; cbn [bien_pedido] in Hp; cbn [atiende promete].
  - destruct c; cbn [pwmInit]; [by split; [|apply enable_ok]|done|..].
    + destruct (decide (is_Some (m !! n))) as [[v Hv]|Hno].
      * specialize (Hat n ltac:(lia)). rewrite Hv in Hat. destruct Hat as [q Hq]. unfold pwmAttach. by rewrite Hq.
      * destruct (attach_ok n s m Hs) as (s' & E & H); [lia|by apply eq_None_not_Some|]. by rewrite E.
    + destruct (decide (is_Some (m !! n))) as [Hv|Hno].
      * destruct (detach_ok n s m Hs) as (s' & E & H); [lia|done|]. by rewrite E.
      * specialize (Hat n ltac:(lia)). apply eq_None_not_Some in Hno. rewrite Hno in Hat. unfold pwmDetach. by rewrite Hat.
  - specialize (Hat n ltac:(lia)). unfold pwmWrite. pose proof (cu_mapa _ _ Hs n ltac:(lia)) as Hm.
    destruct (m !! n) as [v'|]; [|by rewrite Hat]. destruct Hat as [q ->].
    destruct Hm as (Hin & _). rewrite decide_True by done. split; [done|]. cbn [snd]. pose proof Hs as [H1 H2 H3 H4 H5 _].
    apply (con_valor s); [done|lia|lia| |done|done|done|].
    + unfold Sct_SetDutyCycle. cbn. rewrite ticks_de; [done|done|lia].
    + intros x Hx. split; [by right|]. by intros [->|?].
  - specialize (Hat n ltac:(lia)). unfold pwmRead. pose proof (cu_mapa _ _ Hs n ltac:(lia)) as Hm.
    destruct (m !! n) as [v|]; [|by rewrite Hat]. destruct Hat as [q ->]. destruct Hm as (_ & Hv & Hd).
    split; [|done]. cbn. apply valor_de; [apply Hs|done|done].
Qed.

Lemma varios_ok l : forall s m, cumple s m -> forallb bien_pedido l = true ->
  (varios (atiende clk) l s).1 = (varios promete l m).1.
Proof.
  induction l as [|p l IH]; intros s m Hs Hl; [done|]. cbn in Hl. apply andb_prop in Hl as [Hp Hl].
  destruct (paso_ok p s m Hs Hp) as [E H]. cbn [varios].
  destruct (atiende clk p s) as [a s'], (promete p m) as [a' m']. cbn in E, H. subst a'. specialize (IH s' m' H Hl).
  destruct (varios (atiende clk) l s'), (varios promete l m'). cbn in *. by rewrite IH.
Qed.

(** Once [pwmInit] has started the SCT, whatever outputs are attached, detached, written and
    read, the answers are those of a map from the outputs attached to their values: attaching
    an output gives it 0, there is always room for it, a value written is the value read,
    and no request touches another output. *)
Lemma pwm_refines l : forallb bien_pedido l = true ->
  (varios (atiende clk) (Init 0 PWM_ENABLE :: l) inicial).1 = (varios promete (Init 0 PWM_ENABLE :: l) ∅).1.
Proof.
  intros Hl. cbn [varios atiende pwmInit promete].
  set (s := mkEstado _ _). assert (Hs : cumple s ∅).
  { assert (Hm : MATCHREL (chip s) = <[0%nat := 204000]> (replicate 16 0)) by (unfold s, Sct_Init, Chip_SCTPWM_SetRate; by rewrite Hclk).
    split.
    - done.
    - by rewrite Hm.
    - unfold Chip_SCTPWM_GetTicksPerCycle. by rewrite Hm.
    - intros x Hx. left. apply elem_of_replicate in Hx. tauto.
    - intros p q x Hp _ Hx. apply lookup_replicate in Hp as [-> _]. done.
    - intros n Hn. rewrite lookup_empty. intros Hx. apply elem_of_replicate in Hx as [-> _]. unfold EMPTY_POSITION in Hn. lia. }
  pose proof (varios_ok l s ∅ Hs Hl) as H. destruct (varios (atiende clk) l s), (varios promete l ∅). cbn in *. by rewrite H.
Qed.
End Simulacion.

(** the clock of the board *)
Example pwm_ejemplo :
  (varios (atiende 204000000) [Init 0 PWM_ENABLE; Init 7 PWM_ENABLE_OUTPUT; Write 7 100; Read 7; Write 3 1; Read 3; Init 7 PWM_DISABLE_OUTPUT; Read 7]
    inicial).1 = [1; 1; 1; 100; 0; 255; 1; 255].
Proof. by apply pwm_refines. Qed.

(** detaching an output leaves its channel as it was: the signal goes on *)
Lemma pwmDetach_sigue n s : chip (snd (pwmDetach n s)) = chip s.
Proof. unfold pwmDetach. by destruct (pwmIsAttached n s). Qed.
